(** * Orchestration core of the ppdiffusers image2image and consistency pipelines

    A shallow embedding of
    [pipelines/stable_diffusion/pipeline_stable_diffusion_img2img.py] and
    [pipelines/consistency_models/pipeline_consistency_models.py].

    The neural networks, the scheduler, the random generators and the tensor
    framework are collaborators of the pipelines: they are taken as an
    interface ([Collaborators]) and every theorem holds for all of its
    instances.  The control flow of the pipelines themselves (validation,
    timestep selection, latent preparation, the denoising loops) is
    translated statement by statement. *)

From Stdlib Require Import ZArith List Bool Lia String.
From Stdlib Require Import SpecFloat.
Import ListNotations.
Open Scope Z_scope.

Set Implicit Arguments.

(** ** Python exceptions and results *)

Inductive exn : Type :=
| ValueError
| TypeError
| OverflowError
| ZeroDivisionError
| IndexError
| AttributeError
| AssertionError
| Fault (code : Z).   (* any exception raised inside a collaborator *)

Inductive result (A : Type) : Type :=
| Ok (a : A)
| Raise (e : exn).
Arguments Ok {A} a.
Arguments Raise {A} e.

Definition rbind {A B} (r : result A) (k : A -> result B) : result B :=
  match r with
  | Ok a => k a
  | Raise e => Raise e
  end.

(** ** Python arithmetic *)

Module Py.

(** [a % b] and [a // b] on integers: floor semantics, [ZeroDivisionError]
    on a zero divisor. *)
Definition mod_ (a b : Z) : result Z :=
  if b =? 0 then Raise ZeroDivisionError else Ok (a mod b).

Definition floordiv (a b : Z) : result Z :=
  if b =? 0 then Raise ZeroDivisionError else Ok (a / b).

(** [range(n)] *)
Definition range (n : Z) : list Z := map Z.of_nat (seq 0 (Z.to_nat n)).

(** [len(l)] *)
Definition len {A} (l : list A) : Z := Z.of_nat (List.length l).

(** [l[i]]: a negative index counts from the end. *)
Definition index {A} (l : list A) (i : Z) : result A :=
  let j := if i <? 0 then len l + i else i in
  if j <? 0 then Raise IndexError
  else
    match nth_error l (Z.to_nat j) with
    | Some x => Ok x
    | None => Raise IndexError
    end.

(** [l[k:]]: a negative start counts from the end. *)
Definition slice_from {A} (k : Z) (l : list A) : list A :=
  if k <? 0 then skipn (Z.to_nat (len l + k)) l
  else skipn (Z.to_nat k) l.

(** [l[:k]] for [0 <= k] *)
Definition slice_to {A} (k : Z) (l : list A) : list A :=
  if k <? 0 then firstn (Z.to_nat (len l + k)) l
  else firstn (Z.to_nat k) l.

(** [enumerate(l)] *)
Fixpoint enumerate_from {A} (i : Z) (l : list A) : list (Z * A) :=
  match l with
  | [] => []
  | x :: l' => (i, x) :: enumerate_from (i + 1) l'
  end.
Definition enumerate {A} (l : list A) : list (Z * A) := enumerate_from 0 l.

(** A sequence of ints as Python has it: a [list] or a [tuple]. *)
Inductive ints : Type :=
| PyList (l : list Z)
| PyTuple (l : list Z).

(** [a != b]: a list and a tuple are unequal, whatever they hold. *)
Definition ints_ne (a b : ints) : bool :=
  match a, b with
  | PyList x, PyList y | PyTuple x, PyTuple y =>
      if list_eq_dec Z.eq_dec x y then false else true
  | _, _ => true
  end.

(** Python floats are IEEE 754 binary64 values. *)
Definition prec : Z := 53.
Definition emax : Z := 1024.
Definition float : Type := spec_float.

Definition valid (x : float) : bool := valid_binary prec emax x.

(** The double nearest to [m * 2^e] (ties to even). *)
Definition float_of_dyadic (m e : Z) : float :=
  binary_normalize prec emax m e false.

Definition zero : float := S754_zero false.
Definition one : float := float_of_dyadic 1 0.

(** [float(n)] as done by [n * x] for an int [n] and a float [x]:
    round to nearest even, [OverflowError] beyond the double range. *)
Definition float_of_int (n : Z) : result float :=
  match float_of_dyadic n 0 with
  | S754_infinity _ | S754_nan => Raise OverflowError
  | x => Ok x
  end.

Definition mul (x y : float) : float := SFmul prec emax x y.

(** [x < y] and [x > y]; any comparison with NaN is false. *)
Definition lt (x y : float) : bool := SFltb x y.
Definition gt (x y : float) : bool := SFltb y x.
Definition le (x y : float) : bool := SFleb x y.

(** [int(x)]: truncation toward zero; NaN and the infinities raise. *)
Definition int_of_float (x : float) : result Z :=
  match x with
  | S754_zero _ => Ok 0
  | S754_nan => Raise ValueError
  | S754_infinity _ => Raise OverflowError
  | S754_finite s m e =>
      let a := if 0 <=? e then Zpos m * 2 ^ e else Zpos m / 2 ^ (- e) in
      Ok (if s then - a else a)
  end.

(** [round(x)]: nearest integer, ties to even. *)
Definition round (x : float) : result Z :=
  match x with
  | S754_zero _ => Ok 0
  | S754_nan => Raise ValueError
  | S754_infinity _ => Raise OverflowError
  | S754_finite s m e =>
      let a :=
        if 0 <=? e then Zpos m * 2 ^ e
        else
          let q := Zpos m / 2 ^ (- e) in
          let r := Zpos m mod 2 ^ (- e) in
          match 2 * r ?= 2 ^ (- e) with
          | Lt => q
          | Gt => q + 1
          | Eq => if Z.even q then q else q + 1
          end in
      Ok (if s then - a else a)
  end.

(** [int * float] *)
Definition int_mul_float (n : Z) (x : float) : result float :=
  rbind (float_of_int n) (fun fn => Ok (mul fn x)).

End Py.

(** ** Arguments whose Python type matters *)

Inductive DType : Type := float16 | bfloat16 | float32 | float64 | int32 | int64.

(** [prompt] / [negative_prompt]: a [str], a [list] of [str], or a value of
    another type. *)
Inductive Prompt : Type :=
| PStr (s : string)
| PList (l : list string)
| POther.

(** [callback_steps]: [None], an [int], or a value that is not an [int]. *)
Inductive CallbackSteps : Type :=
| CSNone
| CSInt (n : Z)
| CSOther.

(** [i % callback_steps] *)
Definition mod_callback_steps (i : Z) (callback_steps : CallbackSteps) : result Z :=
  match callback_steps with
  | CSInt n => Py.mod_ i n
  | _ => Raise TypeError
  end.

(** ** The collaborators

    Everything the pipelines call but do not define: the tensor framework,
    the scheduler, the denoising models, the VAE, the text encoder, the
    safety checker, the image processor and the random generators.  A call
    into a collaborator runs on the collaborators' hidden state [Env]
    (scheduler tables, generator states) and may raise. *)

Class Collaborators : Type := {
  Tensor : Type;
  Timestep : Type;                 (* an entry of [scheduler.timesteps] *)
  Generator : Type;                (* a [paddle.Generator] *)
  Kwargs : Type;                   (* [cross_attention_kwargs] *)
  PILImage : Type;
  Env : Type;

  (* tensor framework *)
  shape : Tensor -> list Z;                       (* [x.shape], a list *)
  dtype : Tensor -> DType;                        (* [x.dtype] *)
  cast : Tensor -> DType -> Tensor;               (* [x.cast(dtype=d)] *)
  concat : list Tensor -> Tensor;                 (* [paddle.concat(x=l, axis=0)] *)
  chunk2 : Tensor -> Tensor * Tensor;             (* [x.chunk(chunks=2)] *)
  slice0 : Tensor -> Z -> Z -> Tensor;            (* [x[i:j]] *)
  tile : Tensor -> list Z -> Tensor;              (* [x.tile(repeat_times=r)] *)
  reshape : Tensor -> list Z -> Tensor;           (* [x.reshape(s)] *)
  tadd : Tensor -> Tensor -> Tensor;              (* [x + y] *)
  tsub : Tensor -> Tensor -> Tensor;              (* [x - y] *)
  smul : Py.float -> Tensor -> Tensor;            (* [c * x], [x * c] *)
  sdiv : Tensor -> Py.float -> Tensor;            (* [x / c] *)
  unit_range : Tensor -> Tensor;                  (* [(x / 2 + 0.5).clip(min=0, max=1)] *)
  to_tensor : list Z -> DType -> Tensor;          (* [paddle.to_tensor(data=l, dtype=d)] *)
  to_numpy : Tensor -> Tensor;                    (* [x.cpu().transpose(perm=[0,2,3,1]).numpy()] *)
  numpy_to_pil : Tensor -> list PILImage;
  randint : Z -> Z -> list Z -> Env -> result Tensor * Env;   (* [paddle.randint] *)
  (* [randn_tensor(shape, generator=g, dtype=d)] of [ppdiffusers.utils] *)
  randn_tensor :
    list Z -> option (Generator + list Generator) -> DType -> Env -> result Tensor * Env;

  (* scheduler *)
  sched_set_timesteps : option Z -> option (list Z) -> Env -> result unit * Env;
  sched_timesteps : Env -> list Timestep;
  tile_timesteps : list Timestep -> Z -> list Timestep;   (* [ts.tile(repeat_times=[k])] *)
  sched_order : Z;                                (* [scheduler.order] *)
  sched_init_noise_sigma : Env -> Py.float;
  sched_scale_model_input : Tensor -> Timestep -> Env -> result Tensor * Env;
  sched_add_noise : Tensor -> Tensor -> list Timestep -> Env -> result Tensor * Env;
  (* [scheduler.step(pred, t, x, eta=.., generator=..)[0]] *)
  sched_step :
    Tensor -> Timestep -> Tensor -> option Py.float ->
    option (option (Generator + list Generator)) -> Env -> result Tensor * Env;
  sched_step_accepts_eta : bool;
  sched_step_accepts_generator : bool;

  (* consistency model: [UNet2DModel] *)
  cm_sample_size : Z;                             (* [unet.config.sample_size] *)
  cm_in_channels : Z;                             (* [unet.config.in_channels] *)
  cm_num_class_embeds : option Z;                 (* [unet.config.num_class_embeds] *)
  cm_unet_dtype : DType;                          (* [unet.dtype] *)
  cm_unet : Tensor -> Timestep -> option Tensor -> Env -> result Tensor * Env;

  (* stable diffusion: text encoder, VAE, [UNet2DConditionModel], safety checker *)
  text_encoder_dtype : DType;
  set_lora_scale : Py.float -> Env -> Env;        (* [self._lora_scale = lora_scale] *)
  (* tokenizer and text encoder: the tokens of a prompt, padded to
     [max_length] (the tokenizer's own when [None]), encoded *)
  encode_text : Prompt -> option Z -> Env -> result Tensor * Env;
  (* the tokenizer on a prompt, truncated and not:
     [untruncated_ids.shape[-1] >= text_input_ids.shape[-1] and not
      paddle.equal_all(x=text_input_ids, y=untruncated_ids).item()] *)
  tokenizer_truncates : Prompt -> result bool;
  vae_scaling_factor : Py.float;
  (* [vae.encode(x).latent_dist.sample(g)] *)
  vae_encode_sample :
    Tensor -> option (Generator + list Generator) -> Env -> result Tensor * Env;
  vae_decode : Tensor -> Env -> result Tensor * Env;
  sd_unet : Tensor -> Timestep -> Tensor -> option Kwargs -> Env -> result Tensor * Env;
  kwargs_scale : Kwargs -> option Py.float;       (* [kwargs.get('scale', None)] *)
  has_safety_checker : bool;                      (* [safety_checker is not None] *)
  (* [image_processor.postprocess(image, output_type='pil')] *)
  image_processor_postprocess_pil : Tensor -> Env -> result (list PILImage) * Env;
  (* feature extractor, on the PIL images, and safety checker: the images
     and the flags *)
  safety_check :
    Tensor -> list PILImage -> DType -> Env -> result (Tensor * list bool) * Env;
  (* [image_processor.preprocess(image)] *)
  image_processor_preprocess : Tensor + list PILImage -> Env -> result Tensor * Env;
  (* [image_processor.postprocess(image, output_type=o, do_denormalize=d)] *)
  image_processor_postprocess :
    Tensor -> string -> list bool -> Env -> result Tensor * Env
}.

Section Effects.
Context {C : Collaborators}.

(** [generator]: [None], one generator, or a list of generators. *)
Definition GeneratorArg : Type := option (Generator + list Generator).

(** What a run does to the outside, in order. *)
Inductive Event : Type :=
| EvWarning (topic : string)                       (* [logger.warning], [deprecate] *)
| EvSetTimesteps (n : option Z) (ts : option (list Z))
| EvScaleModelInput (x : Tensor) (t : Timestep)
| EvAddNoise (x noise : Tensor) (ts : list Timestep)
| EvSchedulerStep (pred : Tensor) (t : Timestep) (x : Tensor)
| EvUnet (x : Tensor) (t : Timestep) (cond : option Tensor)
| EvTextEncoder (p : Prompt)
| EvVaeEncode (x : Tensor)
| EvVaeDecode (x : Tensor)
| EvSafetyChecker (x : Tensor)
| EvPreprocess
| EvPostprocess (output_type : string)
| EvRandn (sh : list Z) (d : DType)
| EvRandint (sh : list Z)
| EvProgressBar (total : option Z)
| EvProgressUpdate
| EvCallback (i : Z) (t : Timestep) (x : Tensor).

(** The call parameters as the running [__call__] holds them in its local
    variables. *)
Record CallParams : Type := {
  cp_strength : option Py.float;
  cp_num_inference_steps : option Z;
  cp_guidance_scale : option Py.float;
  cp_batch_size : option Z;
  cp_output_type : string
}.

Inductive Phase : Type :=
| PhCheckInputs | PhCallParameters | PhEncodePrompt | PhPreprocess
| PhSetTimesteps | PhPrepareLatents | PhClassLabels | PhExtraStepKwargs
| PhDenoisingLoop | PhPostprocess.

(** [frames] is a record kept for the proofs only: the call parameters as
    each phase of [__call__] finds them when it starts. *)
Record World : Type := {
  env : Env;
  log : list Event;
  frames : list (Phase * CallParams)
}.

Definition M (A : Type) : Type := World -> result A * World.

Definition ret {A} (a : A) : M A := fun w => (Ok a, w).

Definition bind {A B} (m : M A) (k : A -> M B) : M B :=
  fun w =>
    match m w with
    | (Ok a, w') => k a w'
    | (Raise e, w') => (Raise e, w')
    end.

Definition raise {A} (e : exn) : M A := fun w => (Raise e, w).

Definition lift {A} (r : result A) : M A := fun w => (r, w).

(** Read an attribute of a collaborator. *)
Definition read {A} (f : Env -> A) : M A := fun w => (Ok (f (env w)), w).

Definition emit (ev : Event) : M unit :=
  fun w => (Ok tt, {| env := env w; log := log w ++ [ev]; frames := frames w |}).

(** Call into a collaborator: the call is logged, then runs on [Env]. *)
Definition call {A} (ev : Event) (f : Env -> result A * Env) : M A :=
  fun w =>
    let (r, e') := f (env w) in
    (r, {| env := e'; log := log w ++ [ev]; frames := frames w |}).

Definition enter (ph : Phase) (p : CallParams) : M unit :=
  fun w => (Ok tt, {| env := env w; log := log w; frames := frames w ++ [(ph, p)] |}).

Definition update (f : Env -> Env) : M unit :=
  fun w => (Ok tt, {| env := f (env w); log := log w; frames := frames w |}).

Definition when (b : bool) (m : M unit) : M unit := if b then m else ret tt.

Fixpoint mapM {A B} (f : A -> M B) (l : list A) : M (list B) :=
  match l with
  | [] => ret []
  | x :: l' =>
      bind (f x) (fun y => bind (mapM f l') (fun ys => ret (y :: ys)))
  end.

End Effects.

Declare Scope monad_scope.
Delimit Scope monad_scope with monad.
Notation "x <- m ;; k" := (bind m (fun x => k))
  (at level 61, m at next level, right associativity) : monad_scope.
Notation "' pat <- m ;; k" := (bind m (fun x => match x with pat => k end))
  (at level 61, pat pattern, m at next level, right associativity) : monad_scope.
Notation "m ;; k" := (bind m (fun _ => k))
  (at level 61, right associativity) : monad_scope.
Open Scope monad_scope.

(** ** The consistency pipeline
    ([pipeline_consistency_models.py], class [ConsistencyModelPipeline]) *)

Module ConsistencyModelPipeline.
Section Pipeline.
Context {C : Collaborators}.

(** [class_labels]: [None], an [int], a [list] of [int], or a tensor. *)
Inductive ClassLabels : Type :=
| CLNone
| CLInt (c : Z)
| CLList (l : list Z)
| CLTensor (t : Tensor).

Inductive Images : Type :=
| ImagesTensor (t : Tensor)
| ImagesArray (t : Tensor)
| ImagesPIL (l : list PILImage).

(** [(image,)] or [ImagePipelineOutput(images=image)] *)
Inductive Output : Type :=
| Tuple (images : Images)
| ImagePipelineOutput (images : Images).

Definition Callback : Type := Z -> Timestep -> Tensor -> Env -> result unit * Env.

Record Args : Type := {
  batch_size : Z;
  class_labels : ClassLabels;
  num_inference_steps : option Z;
  timesteps : option (list Z);
  generator : GeneratorArg;
  latents : option Tensor;
  output_type : string;
  return_dict : bool;
  callback : option Callback;
  callback_steps : CallbackSteps
}.

Definition prepare_latents (batch_size num_channels height width : Z)
    (dtype : DType) (generator : GeneratorArg) (latents : option Tensor) : M Tensor :=
  let shape := [batch_size; num_channels; height; width] in
  match generator with
  | Some (inr gl) => when (negb (Py.len gl =? batch_size)) (raise ValueError)
  | _ => ret tt
  end ;;
  latents <- match latents with
             | None => call (EvRandn shape dtype) (randn_tensor shape generator dtype)
             | Some latents => ret (cast latents dtype)
             end ;;
  sigma <- read sched_init_noise_sigma ;;
  let latents := smul sigma latents in
  ret latents.

Definition postprocess_image (sample : Tensor) (output_type : string) : M Images :=
  if negb (existsb (String.eqb output_type) ["pd"; "np"; "pil"]%string)
  then raise ValueError
  else
    let sample := unit_range sample in
    if String.eqb output_type "pd" then ret (ImagesTensor sample)
    else
      let sample := to_numpy sample in
      if String.eqb output_type "np" then ret (ImagesArray sample)
      else ret (ImagesPIL (numpy_to_pil sample)).

Definition prepare_class_labels (batch_size : Z) (class_labels : ClassLabels)
    : M (option Tensor) :=
  match cm_num_class_embeds with
  | Some num_class_embeds =>
      match class_labels with
      | CLList l => ret (Some (to_tensor l int32))
      | CLInt c =>
          if batch_size =? 1 then ret (Some (to_tensor [c] int32))
          else raise AssertionError
      | CLNone =>
          t <- call (EvRandint [batch_size]) (randint 0 num_class_embeds [batch_size]) ;;
          ret (Some t)
      | CLTensor t => ret (Some t)
      end
  | None => ret None
  end.

Definition check_inputs (num_inference_steps : option Z) (timesteps : option (list Z))
    (latents : option Tensor) (batch_size img_size : Z)
    (callback_steps : CallbackSteps) : M unit :=
  match num_inference_steps, timesteps with
  | None, None => raise ValueError
  | _, _ => ret tt
  end ;;
  match num_inference_steps, timesteps with
  | Some _, Some _ => emit (EvWarning "timesteps will be used over num_inference_steps")
  | _, _ => ret tt
  end ;;
  match latents with
  | Some latents =>
      let expected_shape := Py.PyTuple [batch_size; 3; img_size; img_size] in
      (* [latents.shape] is a list, [expected_shape] a tuple *)
      if Py.ints_ne (Py.PyList (shape latents)) expected_shape then raise ValueError
      else ret tt
  | None => ret tt
  end ;;
  match callback_steps with
  | CSNone => raise ValueError
  | CSOther => raise ValueError
  | CSInt n => if n <=? 0 then raise ValueError else ret tt
  end.

(** The body of [for i, t in enumerate(timesteps)]. *)
Definition loop_body (class_labels : option Tensor) (generator : GeneratorArg)
    (callback : option Callback) (callback_steps : CallbackSteps)
    (i : Z) (t : Timestep) (sample : Tensor) : M Tensor :=
  scaled_sample <- call (EvScaleModelInput sample t) (sched_scale_model_input sample t) ;;
  model_output <- call (EvUnet scaled_sample t class_labels)
                       (cm_unet scaled_sample t class_labels) ;;
  sample <- call (EvSchedulerStep model_output t sample)
                 (sched_step model_output t sample None (Some generator)) ;;
  emit EvProgressUpdate ;;
  match callback with
  | Some cb =>
      r <- lift (mod_callback_steps i callback_steps) ;;
      when (r =? 0) (call (EvCallback i t sample) (cb i t sample))
  | None => ret tt
  end ;;
  ret sample.

Fixpoint denoising_loop (class_labels : option Tensor) (generator : GeneratorArg)
    (callback : option Callback) (callback_steps : CallbackSteps)
    (its : list (Z * Timestep)) (sample : Tensor) : M Tensor :=
  match its with
  | [] => ret sample
  | (i, t) :: its' =>
      sample <- loop_body class_labels generator callback callback_steps i t sample ;;
      denoising_loop class_labels generator callback callback_steps its' sample
  end.

(** The call parameters as the local variables hold them. *)
Definition locals (batch_size : Z) (num_inference_steps : option Z)
    (output_type : string) : CallParams :=
  {| cp_strength := None;
     cp_num_inference_steps := num_inference_steps;
     cp_guidance_scale := None;
     cp_batch_size := Some batch_size;
     cp_output_type := output_type |}.

(** [__call__] *)
Definition __call__ (a : Args) : M Output :=
  let batch_size := batch_size a in
  let num_inference_steps := num_inference_steps a in
  let timesteps := timesteps a in
  let output_type := output_type a in
  let img_size := cm_sample_size in
  enter PhCheckInputs (locals batch_size num_inference_steps output_type) ;;
  check_inputs num_inference_steps timesteps (latents a) batch_size img_size
               (callback_steps a) ;;
  enter PhPrepareLatents (locals batch_size num_inference_steps output_type) ;;
  sample <- prepare_latents batch_size cm_in_channels img_size img_size
              cm_unet_dtype (generator a) (latents a) ;;
  enter PhClassLabels (locals batch_size num_inference_steps output_type) ;;
  class_labels <- prepare_class_labels batch_size (class_labels a) ;;
  enter PhSetTimesteps (locals batch_size num_inference_steps output_type) ;;
  '(timesteps, num_inference_steps) <-
    match timesteps with
    | Some ts =>
        call (EvSetTimesteps None (Some ts)) (sched_set_timesteps None (Some ts)) ;;
        timesteps <- read sched_timesteps ;;
        let num_inference_steps := Some (Py.len timesteps) in
        ret (timesteps, num_inference_steps)
    | None =>
        call (EvSetTimesteps num_inference_steps None)
             (sched_set_timesteps num_inference_steps None) ;;
        timesteps <- read sched_timesteps ;;
        ret (timesteps, num_inference_steps)
    end ;;
  enter PhDenoisingLoop (locals batch_size num_inference_steps output_type) ;;
  emit (EvProgressBar num_inference_steps) ;;
  sample <- denoising_loop class_labels (generator a) (callback a) (callback_steps a)
              (Py.enumerate timesteps) sample ;;
  enter PhPostprocess (locals batch_size num_inference_steps output_type) ;;
  image <- postprocess_image sample output_type ;;
  if return_dict a then ret (ImagePipelineOutput image) else ret (Tuple image).

End Pipeline.
End ConsistencyModelPipeline.

(** ** The image2image pipeline
    ([pipeline_stable_diffusion_img2img.py], class [StableDiffusionImg2ImgPipeline]) *)

Module StableDiffusionImg2ImgPipeline.
Section Pipeline.
Context {C : Collaborators}.

(** The [image] handed to [prepare_latents]: a tensor, a PIL image, a
    list, or a value of another type. *)
Inductive ImageArg : Type :=
| ImTensor (t : Tensor)
| ImPIL (im : PILImage)
| ImList (l : list PILImage)
| ImOther.

(** [(image, has_nsfw_concept)] or [StableDiffusionPipelineOutput(...)] *)
Inductive Output : Type :=
| Tuple (images : Tensor) (nsfw_content_detected : option (list bool))
| StableDiffusionPipelineOutput (images : Tensor)
                                (nsfw_content_detected : option (list bool)).

Definition Callback : Type := Z -> Timestep -> Tensor -> Env -> result unit * Env.

Record Args : Type := {
  prompt : option Prompt;
  image : Tensor + list PILImage;
  strength : Py.float;
  num_inference_steps : Z;
  guidance_scale : Py.float;
  negative_prompt : option Prompt;
  num_images_per_prompt : Z;
  eta : Py.float;
  generator : GeneratorArg;
  prompt_embeds : option Tensor;
  negative_prompt_embeds : option Tensor;
  output_type : string;
  return_dict : bool;
  callback : option Callback;
  callback_steps : CallbackSteps;
  cross_attention_kwargs : option Kwargs
}.

(** [type(a) is type(b)] *)
Definition same_type (a b : Prompt) : bool :=
  match a, b with
  | PStr _, PStr _ | PList _, PList _ | POther, POther => true
  | _, _ => false
  end.

Definition _encode_prompt (prompt : option Prompt) (num_images_per_prompt : Z)
    (do_classifier_free_guidance : bool) (negative_prompt : option Prompt)
    (prompt_embeds negative_prompt_embeds : option Tensor)
    (lora_scale : option Py.float) : M Tensor :=
  match lora_scale with
  | Some sc => update (set_lora_scale sc)
  | None => ret tt
  end ;;
  batch_size <-
    match prompt with
    | Some (PStr _) => ret 1
    | Some (PList l) => ret (Py.len l)
    | _ =>
        match prompt_embeds with
        | Some pe => lift (Py.index (shape pe) 0)
        | None => raise AttributeError
        end
    end ;;
  prompt_embeds <-
    match prompt_embeds with
    | None =>
        match prompt with
        | Some pr =>
            truncated <- lift (tokenizer_truncates pr) ;;
            when truncated
              (emit (EvWarning "The following part of your input was truncated")) ;;
            call (EvTextEncoder pr) (encode_text pr None)
        | None => raise AttributeError
        end
    | Some pe => ret pe
    end ;;
  let prompt_embeds := cast prompt_embeds text_encoder_dtype in
  match shape prompt_embeds with
  | [bs_embed; seq_len; _] =>
      let prompt_embeds := tile prompt_embeds [1; num_images_per_prompt; 1] in
      let prompt_embeds :=
        reshape prompt_embeds [bs_embed * num_images_per_prompt; seq_len; -1] in
      negative_prompt_embeds <-
        (if do_classifier_free_guidance then
           match negative_prompt_embeds with
           | Some npe => ret (Some npe)
           | None =>
               uncond_tokens <-
                 match negative_prompt with
                 | None => ret (PList (repeat EmptyString (Z.to_nat batch_size)))
                 | Some np =>
                     if match prompt with
                        | Some pr => negb (same_type pr np)
                        | None => false
                        end
                     then raise TypeError
                     else
                       match np with
                       | PStr s => ret (PList [s])
                       | PList l =>
                           if negb (batch_size =? Py.len l) then raise ValueError
                           else ret (PList l)
                       | POther => raise TypeError
                       end
                 end ;;
               max_length <- lift (Py.index (shape prompt_embeds) 1) ;;
               npe <- call (EvTextEncoder uncond_tokens)
                           (encode_text uncond_tokens (Some max_length)) ;;
               ret (Some npe)
           end
         else ret negative_prompt_embeds) ;;
      if do_classifier_free_guidance then
        match negative_prompt_embeds with
        | Some npe =>
            seq_len <- lift (Py.index (shape npe) 1) ;;
            let npe := cast npe text_encoder_dtype in
            let npe := tile npe [1; num_images_per_prompt; 1] in
            let npe := reshape npe [batch_size * num_images_per_prompt; seq_len; -1] in
            ret (concat [npe; prompt_embeds])
        | None => raise AttributeError
        end
      else ret prompt_embeds
  | _ => raise ValueError
  end.

(** [run_safety_checker(image, dtype)] for an [image] that is a tensor,
    as [__call__] passes it. *)
Definition run_safety_checker (image : Tensor) (dtype : DType)
    : M (Tensor * option (list bool)) :=
  if has_safety_checker then
    feature_extractor_input <-
      call (EvPostprocess "pil") (image_processor_postprocess_pil image) ;;
    '(image, has_nsfw_concept) <-
       call (EvSafetyChecker image)
            (safety_check image feature_extractor_input dtype) ;;
    ret (image, Some has_nsfw_concept)
  else ret (image, None).

(** The keyword arguments [scheduler.step] is given: [eta] and
    [generator], each only if its signature has it. *)
Definition prepare_extra_step_kwargs (generator : GeneratorArg) (eta : Py.float)
    : option Py.float * option GeneratorArg :=
  ((if sched_step_accepts_eta then Some eta else None),
   (if sched_step_accepts_generator then Some generator else None)).

Definition check_inputs (prompt : option Prompt) (strength : Py.float)
    (callback_steps : CallbackSteps) (negative_prompt : option Prompt)
    (prompt_embeds negative_prompt_embeds : option Tensor) : M unit :=
  when (Py.lt strength Py.zero || Py.gt strength Py.one) (raise ValueError) ;;
  match callback_steps with
  | CSNone => raise ValueError
  | CSOther => raise ValueError
  | CSInt n => if n <=? 0 then raise ValueError else ret tt
  end ;;
  match prompt, prompt_embeds with
  | Some _, Some _ => raise ValueError
  | None, None => raise ValueError
  | Some POther, None => raise ValueError
  | _, _ => ret tt
  end ;;
  match negative_prompt, negative_prompt_embeds with
  | Some _, Some _ => raise ValueError
  | _, _ => ret tt
  end ;;
  match prompt_embeds, negative_prompt_embeds with
  | Some pe, Some npe =>
      if list_eq_dec Z.eq_dec (shape pe) (shape npe) then ret tt
      else raise ValueError
  | _, _ => ret tt
  end.

Definition get_timesteps (num_inference_steps : Z) (strength : Py.float)
    : M (list Timestep * Z) :=
  x <- lift (Py.int_mul_float num_inference_steps strength) ;;
  x <- lift (Py.int_of_float x) ;;
  let init_timestep := Z.min x num_inference_steps in
  let t_start := Z.max (num_inference_steps - init_timestep) 0 in
  all_timesteps <- read sched_timesteps ;;
  let timesteps := Py.slice_from (t_start * sched_order) all_timesteps in
  ret (timesteps, num_inference_steps - t_start).

(** [prepare_latents], lines 445-461: the latents of [image], already
    cast; [batch_size] is the effective batch size. *)
Definition encode_image (image : Tensor) (batch_size : Z) (generator : GeneratorArg)
    : M Tensor :=
  channels <- lift (Py.index (shape image) 1) ;;
  if channels =? 4 then
    let init_latents := image in
    ret init_latents
  else
    init_latents <-
      match generator with
      | Some (inr gl) =>
          if negb (Py.len gl =? batch_size) then raise ValueError
          else
            init_latents <-
              mapM (fun i =>
                      g <- lift (Py.index gl i) ;;
                      call (EvVaeEncode (slice0 image i (i + 1)))
                           (vae_encode_sample (slice0 image i (i + 1)) (Some (inl g))))
                   (Py.range batch_size) ;;
            ret (concat init_latents)
      | _ => call (EvVaeEncode image) (vae_encode_sample image generator)
      end ;;
    let init_latents := smul vae_scaling_factor init_latents in
    ret init_latents.

(** [prepare_latents], lines 462-482: [init_latents] brought to the
    effective batch size. *)
Definition expand_init_latents (batch_size : Z) (init_latents : Tensor) : M Tensor :=
  n0 <- lift (Py.index (shape init_latents) 0) ;;
  if batch_size >? n0 then
    r <- lift (Py.mod_ batch_size n0) ;;
    if r =? 0 then
      (* expand init_latents for batch_size *)
      emit (EvWarning "len(prompt) != len(image)") ;;
      additional_image_per_prompt <- lift (Py.floordiv batch_size n0) ;;
      let init_latents :=
        concat (repeat init_latents (Z.to_nat additional_image_per_prompt)) in
      ret init_latents
    else raise ValueError
  else
    let init_latents := concat [init_latents] in
    ret init_latents.

Definition prepare_latents (image : ImageArg) (timestep : list Timestep)
    (batch_size num_images_per_prompt : Z) (dtype : DType)
    (generator : GeneratorArg) : M Tensor :=
  image <- match image with
           | ImTensor t => ret t
           | ImPIL _ => raise AttributeError     (* passes the type check, has no [cast] *)
           | ImList _ => raise AttributeError
           | ImOther => raise ValueError
           end ;;
  let image := cast image dtype in
  let batch_size := batch_size * num_images_per_prompt in
  init_latents <- encode_image image batch_size generator ;;
  init_latents <- expand_init_latents batch_size init_latents ;;
  let shape := shape init_latents in
  noise <- call (EvRandn shape dtype) (randn_tensor shape generator dtype) ;;
  (* get latents *)
  init_latents <- call (EvAddNoise init_latents noise timestep)
                       (sched_add_noise init_latents noise timestep) ;;
  let latents := init_latents in
  ret latents.

(** The body of [for i, t in enumerate(timesteps)]. *)
Definition loop_body (do_classifier_free_guidance : bool) (guidance_scale : Py.float)
    (prompt_embeds : Tensor) (cross_attention_kwargs : option Kwargs)
    (extra_step_kwargs : option Py.float * option GeneratorArg)
    (len_timesteps num_warmup_steps : Z)
    (callback : option Callback) (callback_steps : CallbackSteps)
    (i : Z) (t : Timestep) (latents : Tensor) : M Tensor :=
  (* expand the latents if we are doing classifier free guidance *)
  let latent_model_input :=
    if do_classifier_free_guidance then concat [latents; latents] else latents in
  latent_model_input <- call (EvScaleModelInput latent_model_input t)
                             (sched_scale_model_input latent_model_input t) ;;
  (* predict the noise residual *)
  noise_pred <- call (EvUnet latent_model_input t (Some prompt_embeds))
                     (sd_unet latent_model_input t prompt_embeds cross_attention_kwargs) ;;
  (* perform guidance *)
  let noise_pred :=
    if do_classifier_free_guidance then
      let (noise_pred_uncond, noise_pred_text) := chunk2 noise_pred in
      tadd noise_pred_uncond
           (smul guidance_scale (tsub noise_pred_text noise_pred_uncond))
    else noise_pred in
  (* compute the previous noisy sample x_t -> x_t-1 *)
  latents <- call (EvSchedulerStep noise_pred t latents)
                  (sched_step noise_pred t latents
                              (fst extra_step_kwargs) (snd extra_step_kwargs)) ;;
  (* call the callback, if provided *)
  update_progress <-
    (if i =? len_timesteps - 1 then ret true
     else if i + 1 >? num_warmup_steps then
       r <- lift (Py.mod_ (i + 1) sched_order) ;;
       ret (r =? 0)
     else ret false) ;;
  when update_progress
    (emit EvProgressUpdate ;;
     match callback with
     | Some cb =>
         r <- lift (mod_callback_steps i callback_steps) ;;
         when (r =? 0) (call (EvCallback i t latents) (cb i t latents))
     | None => ret tt
     end) ;;
  ret latents.

Fixpoint denoising_loop (do_classifier_free_guidance : bool) (guidance_scale : Py.float)
    (prompt_embeds : Tensor) (cross_attention_kwargs : option Kwargs)
    (extra_step_kwargs : option Py.float * option GeneratorArg)
    (len_timesteps num_warmup_steps : Z)
    (callback : option Callback) (callback_steps : CallbackSteps)
    (its : list (Z * Timestep)) (latents : Tensor) : M Tensor :=
  match its with
  | [] => ret latents
  | (i, t) :: its' =>
      latents <- loop_body do_classifier_free_guidance guidance_scale prompt_embeds
                   cross_attention_kwargs extra_step_kwargs len_timesteps
                   num_warmup_steps callback callback_steps i t latents ;;
      denoising_loop do_classifier_free_guidance guidance_scale prompt_embeds
        cross_attention_kwargs extra_step_kwargs len_timesteps num_warmup_steps
        callback callback_steps its' latents
  end.

(** The call parameters as the local variables hold them; [batch_size]
    is not bound before step 2. *)
Definition locals (strength : Py.float) (num_inference_steps : Z)
    (guidance_scale : Py.float) (batch_size : option Z) (output_type : string)
    : CallParams :=
  {| cp_strength := Some strength;
     cp_num_inference_steps := Some num_inference_steps;
     cp_guidance_scale := Some guidance_scale;
     cp_batch_size := batch_size;
     cp_output_type := output_type |}.

(** [__call__] *)
Definition __call__ (a : Args) : M Output :=
  let prompt := prompt a in
  let strength := strength a in
  let num_inference_steps := num_inference_steps a in
  let guidance_scale := guidance_scale a in
  let num_images_per_prompt := num_images_per_prompt a in
  let output_type := output_type a in
  let cross_attention_kwargs := cross_attention_kwargs a in
  (* 1. Check inputs. Raise error if not correct *)
  enter PhCheckInputs (locals strength num_inference_steps guidance_scale None output_type) ;;
  check_inputs prompt strength (callback_steps a) (negative_prompt a)
               (prompt_embeds a) (negative_prompt_embeds a) ;;
  (* 2. Define call parameters *)
  enter PhCallParameters
        (locals strength num_inference_steps guidance_scale None output_type) ;;
  batch_size <-
    match prompt with
    | Some (PStr _) => ret 1
    | Some (PList l) => ret (Py.len l)
    | _ =>
        match prompt_embeds a with
        | Some pe => lift (Py.index (shape pe) 0)
        | None => raise AttributeError
        end
    end ;;
  let do_classifier_free_guidance := Py.gt guidance_scale Py.one in
  (* 3. Encode input prompt *)
  enter PhEncodePrompt
        (locals strength num_inference_steps guidance_scale (Some batch_size) output_type) ;;
  let text_encoder_lora_scale :=
    match cross_attention_kwargs with
    | Some kw => kwargs_scale kw
    | None => None
    end in
  prompt_embeds <- _encode_prompt prompt num_images_per_prompt
                     do_classifier_free_guidance (negative_prompt a)
                     (prompt_embeds a) (negative_prompt_embeds a)
                     text_encoder_lora_scale ;;
  (* 4. Preprocess image *)
  enter PhPreprocess
        (locals strength num_inference_steps guidance_scale (Some batch_size) output_type) ;;
  image <- call EvPreprocess (image_processor_preprocess (image a)) ;;
  (* 5. set timesteps *)
  enter PhSetTimesteps
        (locals strength num_inference_steps guidance_scale (Some batch_size) output_type) ;;
  call (EvSetTimesteps (Some num_inference_steps) None)
       (sched_set_timesteps (Some num_inference_steps) None) ;;
  '(timesteps, num_inference_steps) <- get_timesteps num_inference_steps strength ;;
  let latent_timestep :=
    tile_timesteps (Py.slice_to 1 timesteps) (batch_size * num_images_per_prompt) in
  (* 6. Prepare latent variables *)
  enter PhPrepareLatents
        (locals strength num_inference_steps guidance_scale (Some batch_size) output_type) ;;
  latents <- prepare_latents (ImTensor image) latent_timestep batch_size
               num_images_per_prompt (dtype prompt_embeds) (generator a) ;;
  (* 7. Prepare extra step kwargs. *)
  enter PhExtraStepKwargs
        (locals strength num_inference_steps guidance_scale (Some batch_size) output_type) ;;
  let extra_step_kwargs := prepare_extra_step_kwargs (generator a) (eta a) in
  (* 8. Denoising loop *)
  enter PhDenoisingLoop
        (locals strength num_inference_steps guidance_scale (Some batch_size) output_type) ;;
  let num_warmup_steps := Py.len timesteps - num_inference_steps * sched_order in
  emit (EvProgressBar (Some num_inference_steps)) ;;
  latents <- denoising_loop do_classifier_free_guidance guidance_scale prompt_embeds
               cross_attention_kwargs extra_step_kwargs (Py.len timesteps)
               num_warmup_steps (callback a) (callback_steps a)
               (Py.enumerate timesteps) latents ;;
  enter PhPostprocess
        (locals strength num_inference_steps guidance_scale (Some batch_size) output_type) ;;
  '(image, has_nsfw_concept) <-
    (if negb (String.eqb output_type "latent") then
       image <- call (EvVaeDecode (sdiv latents vae_scaling_factor))
                     (vae_decode (sdiv latents vae_scaling_factor)) ;;
       run_safety_checker image (dtype prompt_embeds)
     else ret (latents, None)) ;;
  do_denormalize <-
    match has_nsfw_concept with
    | None =>
        n <- lift (Py.index (shape image) 0) ;;
        ret (repeat true (Z.to_nat n))
    | Some flags => ret (map negb flags)
    end ;;
  image <- call (EvPostprocess output_type)
                (image_processor_postprocess image output_type do_denormalize) ;;
  if return_dict a then ret (StableDiffusionPipelineOutput image has_nsfw_concept)
  else ret (Tuple image has_nsfw_concept).

End Pipeline.
End StableDiffusionImg2ImgPipeline.

(** ** Stand-in collaborators

    A small executable instance of [Collaborators], used to run the
    pipelines on concrete inputs: tensors are row-major integer arrays, the
    scheduler has order 1 and counts down, the models are the identity. *)

Module StandIn.

Record tensor : Type := { sh : list Z; dt : DType; data : list Z }.

Definition batch (x : tensor) : Z := hd 0 (sh x).

Definition zeros (s : list Z) (d : DType) : tensor :=
  {| sh := s; dt := d;
     data := repeat 0 (Z.to_nat (fold_right Z.mul 1 s)) |}.

Definition t_concat (l : list tensor) : tensor :=
  match l with
  | [] => {| sh := [0]; dt := float32; data := [] |}
  | x :: _ =>
      {| sh := fold_right (fun y acc => batch y + acc) 0 l :: tl (sh x);
         dt := dt x;
         data := flat_map data l |}
  end.

Definition t_chunk2 (x : tensor) : tensor * tensor :=
  let h := Nat.div (List.length (data x)) 2 in
  ({| sh := batch x / 2 :: tl (sh x); dt := dt x; data := firstn h (data x) |},
   {| sh := batch x / 2 :: tl (sh x); dt := dt x; data := skipn h (data x) |}).

Definition row_size (x : tensor) : Z := fold_right Z.mul 1 (tl (sh x)).

Definition t_slice0 (x : tensor) (i j : Z) : tensor :=
  let lo := Z.min (Z.max i 0) (batch x) in
  let hi := Z.min (Z.max j lo) (batch x) in
  {| sh := (hi - lo) :: tl (sh x); dt := dt x;
     data := firstn (Z.to_nat ((hi - lo) * row_size x))
                    (skipn (Z.to_nat (lo * row_size x)) (data x)) |}.

Definition zip_with (f : Z -> Z -> Z) (x y : tensor) : tensor :=
  {| sh := sh x; dt := dt x;
     data := map (fun p => f (fst p) (snd p)) (combine (data x) (data y)) |}.

Definition pointwise (f : Z -> Z) (x : tensor) : tensor :=
  {| sh := sh x; dt := dt x; data := map f (data x) |}.

Definition factor (c : Py.float) : Z :=
  match Py.int_of_float c with
  | Ok n => n
  | Raise _ => 0
  end.

Record state : Type := { timesteps : list Z; draws : Z }.

(** [set_timesteps(n)] counts down from [n - 1]; [set_timesteps(timesteps=ts)]
    takes [ts] as it is. *)
Definition set_timesteps (n : option Z) (ts : option (list Z)) (e : state)
    : result unit * state :=
  match ts, n with
  | Some ts, _ => (Ok tt, {| timesteps := ts; draws := draws e |})
  | None, Some n =>
      (Ok tt, {| timesteps := rev (Py.range n); draws := draws e |})
  | None, None => (Raise ValueError, e)
  end.

Definition pure {A} (a : A) (e : state) : result A * state := (Ok a, e).

Definition draw (s : list Z) (d : DType) (e : state) : result tensor * state :=
  (Ok (zeros s d), {| timesteps := timesteps e; draws := draws e + 1 |}).

(** The stand-in tokenizer keeps 8 characters of a prompt. *)
Definition too_long (p : Prompt) : result bool :=
  match p with
  | PStr s => Ok (Nat.ltb 8 (String.length s))
  | PList l => Ok (existsb (fun s => Nat.ltb 8 (String.length s)) l)
  | POther => Raise TypeError
  end.

(** The stand-in framework, for a model with [num_class_embeds] class
    embeddings and a pipeline with or without a safety checker. *)
Definition framework (num_class_embeds : option Z) (checker : bool) : Collaborators := {|
  Tensor := tensor;
  Timestep := Z;
  Generator := Z;
  Kwargs := unit;
  PILImage := unit;
  Env := state;
  shape := sh;
  dtype := dt;
  cast := fun x d => {| sh := sh x; dt := d; data := data x |};
  concat := t_concat;
  chunk2 := t_chunk2;
  slice0 := t_slice0;
  tile := fun x _ => x;
  reshape := fun x _ => x;
  tadd := zip_with Z.add;
  tsub := zip_with Z.sub;
  smul := fun c => pointwise (Z.mul (factor c));
  sdiv := fun x c => pointwise (fun v => v / factor c) x;
  unit_range := pointwise (fun v => Z.min 1 (Z.max 0 v));
  to_tensor := fun l d => {| sh := [Py.len l]; dt := d; data := l |};
  to_numpy := fun x => x;
  numpy_to_pil := fun x => repeat tt (Z.to_nat (batch x));
  randint := fun _ _ s => draw s int64;
  randn_tensor := fun s _ d => draw s d;
  sched_set_timesteps := set_timesteps;
  sched_timesteps := timesteps;
  tile_timesteps := fun ts k => flat_map (fun _ => ts) (Py.range k);
  sched_order := 1;
  sched_init_noise_sigma := fun _ => Py.float_of_dyadic 80 0;
  sched_scale_model_input := fun x _ => pure x;
  sched_add_noise := fun x noise _ => pure (zip_with Z.add x noise);
  sched_step := fun pred _ x _ _ => pure (zip_with Z.sub x pred);
  sched_step_accepts_eta := true;
  sched_step_accepts_generator := true;
  cm_sample_size := 2;
  cm_in_channels := 1;
  cm_num_class_embeds := num_class_embeds;
  cm_unet_dtype := float32;
  cm_unet := fun x _ _ => pure x;
  text_encoder_dtype := float32;
  set_lora_scale := fun _ e => e;
  encode_text := fun p _ =>
    pure {| sh := [match p with PList l => Py.len l | _ => 1 end; 1; 1];
            dt := float32;
            data := repeat 1 (match p with PList l => List.length l | _ => 1%nat end) |};
  tokenizer_truncates := too_long;
  vae_scaling_factor := Py.float_of_dyadic 1 0;
  vae_encode_sample := fun x _ =>
    pure {| sh := batch x :: 4 :: tl (tl (sh x)); dt := dt x; data := data x |};
  vae_decode := fun x => pure x;
  sd_unet := fun x _ _ _ => pure x;
  kwargs_scale := fun _ => None;
  has_safety_checker := checker;
  image_processor_postprocess_pil := fun x => pure (repeat tt (Z.to_nat (batch x)));
  safety_check := fun x _ _ => pure (x, repeat false (Z.to_nat (batch x)));
  image_processor_preprocess := fun im =>
    match im with
    | inl x => pure x
    | inr l => pure (zeros [Py.len l; 3; 1; 1] float32)
    end;
  image_processor_postprocess := fun x _ _ => pure x
|}.

(** Not class-conditional, without a safety checker. *)
Definition collaborators : Collaborators :=
  Eval cbv beta delta [framework] in framework None false.

(** Class-conditional over 10 classes, with a safety checker. *)
Definition equipped : Collaborators :=
  Eval cbv beta delta [framework] in framework (Some 10) true.

Definition world0 : @World collaborators :=
  @Build_World collaborators {| timesteps := []; draws := 0 |} [] [].

Definition equipped_world0 : @World equipped :=
  @Build_World equipped {| timesteps := []; draws := 0 |} [] [].

End StandIn.

Module CM := ConsistencyModelPipeline.
Module SD := StableDiffusionImg2ImgPipeline.

(** ** Concrete invocations on the stand-in *)

Module Examples.
Import StandIn.

Definition ones (s : list Z) (d : DType) : tensor :=
  {| sh := s; dt := d; data := repeat 1 (Z.to_nat (fold_right Z.mul 1 s)) |}.

Definition noop : @CM.Callback collaborators := fun _ _ _ => pure tt.

(** [ImagePipelineOutput(images=t)] for [output_type='pd'] *)
Definition cm_output (t : tensor) : @CM.Output collaborators :=
  @CM.ImagePipelineOutput collaborators (@CM.ImagesTensor collaborators t).

(** The world once the stand-in scheduler has been given [n] steps. *)
Definition world_after (n : Z) : @World collaborators :=
  @Build_World collaborators {| timesteps := rev (Py.range n); draws := 0 |} [] [].

(** A list of generators. *)
Definition generators (l : list Z) : @GeneratorArg collaborators := Some (inr l).

(** [pipe(num_inference_steps=n, timesteps=ts, latents=lat, generator=g,
          callback=noop, callback_steps=cs)] *)
Definition cm_args (n : option Z) (ts : option (list Z)) (lat : option tensor)
    (g : @GeneratorArg collaborators) (cs : Z) : @CM.Args collaborators :=
  @CM.Build_Args collaborators 1 (@CM.CLNone collaborators) n ts g lat
                 "pd" true (Some noop) (CSInt cs).

(** [pipe(prompt=p, prompt_embeds=pe, image=im, strength=s,
          num_inference_steps=n, guidance_scale=gs, callback=noop,
          callback_steps=cs)] *)
Definition sd_args (p : option Prompt) (pe : option tensor) (im : tensor)
    (s : Py.float) (n : Z) (gs : Py.float) (cs : Z) : @SD.Args collaborators :=
  @SD.Build_Args collaborators p (inl im) s n gs None 1 Py.zero None pe None
                 "pd" true (Some noop) (CSInt cs) None.

End Examples.

(** ** Concrete invocations on the class-conditional stand-in with a
    safety checker *)

Module EquippedExamples.
Import StandIn.

(** [pipe(batch_size=bs, class_labels=cl, num_inference_steps=n)] *)
Definition cm_args (bs : Z) (cl : @CM.ClassLabels equipped) (n : Z)
    : @CM.Args equipped :=
  @CM.Build_Args equipped bs cl (Some n) None None None "pd" true None (CSInt 1).

(** [pipe(prompt=p, image=im, strength=s, num_inference_steps=n,
          guidance_scale=gs, output_type=o)] *)
Definition sd_args (p : Prompt) (im : tensor) (s : Py.float) (n : Z)
    (gs : Py.float) (o : string) : @SD.Args equipped :=
  @SD.Build_Args equipped (Some p) (inl im) s n gs None 1 Py.zero None None None
                 o true None (CSInt 1) None.

End EquippedExamples.

(** ** Vocabulary of the statements *)

(** What [binary_round_aux] makes of a rounded binary64 mantissa
    [m2 <= 2^53] at exponent [e1]. *)
Definition finalize (sx : bool) (m2 e1 : Z) : spec_float :=
  if m2 =? 2 ^ 53 then
    if e1 + 1 <=? 971 then S754_finite sx (2 ^ 52) (e1 + 1) else S754_infinity sx
  else
    match m2 with
    | Z0 => S754_zero sx
    | Zpos p => if e1 <=? 971 then S754_finite sx p e1 else S754_infinity sx
    | Zneg _ => S754_nan
    end.


Inductive Kind : Type :=
| KWarning | KSetTimesteps | KScaleModelInput | KAddNoise | KSchedulerStep
| KUnet | KTextEncoder | KVaeEncode | KVaeDecode | KSafetyChecker
| KPreprocess | KPostprocess | KRandn | KRandint | KProgressBar
| KProgressUpdate | KCallback.

Scheme Equality for Kind.

Section Vocabulary.
Context {C : Collaborators}.

Definition kind (ev : Event) : Kind :=
  match ev with
  | EvWarning _ => KWarning
  | EvSetTimesteps _ _ => KSetTimesteps
  | EvScaleModelInput _ _ => KScaleModelInput
  | EvAddNoise _ _ _ => KAddNoise
  | EvSchedulerStep _ _ _ => KSchedulerStep
  | EvUnet _ _ _ => KUnet
  | EvTextEncoder _ => KTextEncoder
  | EvVaeEncode _ => KVaeEncode
  | EvVaeDecode _ => KVaeDecode
  | EvSafetyChecker _ => KSafetyChecker
  | EvPreprocess => KPreprocess
  | EvPostprocess _ => KPostprocess
  | EvRandn _ _ => KRandn
  | EvRandint _ => KRandint
  | EvProgressBar _ => KProgressBar
  | EvProgressUpdate => KProgressUpdate
  | EvCallback _ _ _ => KCallback
  end.

(** The event is of one of the kinds [ks]. *)
Definition only (ks : list Kind) (ev : Event) : bool :=
  existsb (Kind_beq (kind ev)) ks.

(** Calls into a neural network. *)
Definition is_model_call : Event -> bool :=
  only [KUnet; KTextEncoder; KVaeEncode; KVaeDecode; KSafetyChecker].

Definition is_scheduler_call : Event -> bool :=
  only [KSetTimesteps; KScaleModelInput; KAddNoise; KSchedulerStep].

(** Calls that make a new latent tensor. *)
Definition is_allocation : Event -> bool :=
  only [KRandn; KVaeEncode; KAddNoise].

(** The deprecation warning of the image2image [prepare_latents]. *)
Definition expand_warning : list Event := [EvWarning "len(prompt) != len(image)"].

(** The warning of [_encode_prompt] about a prompt the tokenizer cuts. *)
Definition truncation_warning (truncated : bool) : list Event :=
  if truncated then [EvWarning "The following part of your input was truncated"]
  else [].

(** The warning of the consistency [check_inputs]. *)
Definition cm_warning (n : option Z) (ts : option (list Z)) : list Event :=
  match n, ts with
  | Some _, Some _ => [EvWarning "timesteps will be used over num_inference_steps"]
  | _, _ => []
  end.

(** [isinstance(generator, list) and len(generator) != batch_size] *)
Definition generator_list_mismatch (generator : GeneratorArg) (batch_size : Z) : bool :=
  match generator with
  | Some (inr gl) => negb (Py.len gl =? batch_size)
  | _ => false
  end.

(** [w] after logging [d]. *)
Definition log_more (w : World) (d : list Event) : World :=
  {| env := env w; log := log w ++ d; frames := frames w |}.

Definition valid_callback_steps (cs : CallbackSteps) : Prop :=
  exists k, cs = CSInt k /\ 0 < k.

(** The iteration indices the callback was invoked with, in order. *)
Definition callback_indices (l : list Event) : list Z :=
  flat_map (fun ev => match ev with EvCallback i _ _ => [i] | _ => [] end) l.

(** Every event a run of [m] logs is in [P] and every frame it records is
    in [Q]. *)
Definition yields {A} (P : Event -> Prop) (Q : Phase * CallParams -> Prop)
    (m : M A) : Prop :=
  forall w r w',
    m w = (r, w') ->
    (exists f, frames w' = frames w ++ f /\ Forall Q f) /\
    (exists d, log w' = log w ++ d /\ Forall P d).

(** A run of [m] logs only events of the kinds [ks] and records no frame. *)
Definition logs_only {A} (ks : list Kind) (m : M A) : Prop :=
  yields (fun ev => only ks ev = true) (fun _ => False) m.

(** The run returned. *)
Definition is_ok {A} (r : result A) : bool :=
  match r with
  | Ok _ => true
  | Raise _ => false
  end.

(** [y] is what the collaborator call [f] returned in some state. *)
Definition returned {A} (f : Env -> result A * Env) (y : A) : Prop :=
  exists e e', f e = (Ok y, e').

(** The callback event of iteration [i], if the callback is due. *)
Definition callback_event {cbT : Type} (callback : option cbT)
    (callback_steps : CallbackSteps) (i : Z) (t : Timestep) (x : Tensor)
    : list Event :=
  match callback with
  | Some _ =>
      match mod_callback_steps i callback_steps with
      | Ok 0 => [EvCallback i t x]
      | _ => []
      end
  | None => []
  end.

(** The events of a completed consistency loop over [its] from [sample]. *)
Inductive cm_loop_trace (class_labels : option Tensor) (generator : GeneratorArg)
    (callback : option ConsistencyModelPipeline.Callback)
    (callback_steps : CallbackSteps)
    : list (Z * Timestep) -> Tensor -> list Event -> Tensor -> Prop :=
| cm_trace_done : forall sample,
    cm_loop_trace class_labels generator callback callback_steps [] sample [] sample
| cm_trace_iter : forall i t its sample scaled out sample1 tr sample',
    returned (sched_scale_model_input sample t) scaled ->
    returned (cm_unet scaled t class_labels) out ->
    returned (sched_step out t sample None (Some generator)) sample1 ->
    cm_loop_trace class_labels generator callback callback_steps its sample1 tr sample' ->
    cm_loop_trace class_labels generator callback callback_steps
      ((i, t) :: its) sample
      ([EvScaleModelInput sample t; EvUnet scaled t class_labels;
        EvSchedulerStep out t sample; EvProgressUpdate]
         ++ callback_event callback callback_steps i t sample1 ++ tr)
      sample'.


(** The step count of the timestep adapter as the specification words it:
    [min(round(num_inference_steps * strength), num_inference_steps)]. *)
Definition spec_effective_step_count (num_inference_steps : Z) (strength : Py.float)
    : result Z :=
  rbind (Py.int_mul_float num_inference_steps strength) (fun x =>
  rbind (Py.round x) (fun r => Ok (Z.min r num_inference_steps))).

(** [max(num_inference_steps - effective_step_count, 0)] of it. *)
Definition spec_start_index (num_inference_steps : Z) (strength : Py.float)
    : result Z :=
  rbind (spec_effective_step_count num_inference_steps strength) (fun e =>
  Ok (Z.max (num_inference_steps - e) 0)).

(** Image2image, step 2 of [__call__]: the batch size of the arguments. *)
Definition sd_batch_size (a : SD.Args) : result Z :=
  match SD.prompt a with
  | Some (PStr _) => Ok 1
  | Some (PList l) => Ok (Py.len l)
  | _ =>
      match SD.prompt_embeds a with
      | Some pe => Py.index (shape pe) 0
      | None => Raise AttributeError
      end
  end.

(** Image2image, step 1 of an iteration: the model input. *)
Definition model_input (guidance_scale : Py.float) (latents : Tensor) : Tensor :=
  if Py.gt guidance_scale Py.one then concat [latents; latents] else latents.

(** Image2image, step 4 of an iteration: the prediction handed to the
    scheduler, from the model output. *)
Definition guided_prediction (guidance_scale : Py.float) (out : Tensor) : Tensor :=
  if Py.gt guidance_scale Py.one then
    let uncond := fst (chunk2 out) in
    let cond := snd (chunk2 out) in
    tadd uncond (smul guidance_scale (tsub cond uncond))
  else out.

(** Image2image: is the progress bar (and with it the callback) reached in
    iteration [i] of [len_timesteps]? *)
Definition progress_due (len_timesteps num_warmup_steps i : Z) : bool :=
  (i =? len_timesteps - 1)
  || ((i + 1 >? num_warmup_steps) && ((i + 1) mod sched_order =? 0)).

(** The events of a completed image2image loop over [its] from [latents]. *)
Inductive sd_loop_trace (guidance_scale : Py.float) (prompt_embeds : Tensor)
    (kwargs : option Kwargs) (extra : option Py.float * option GeneratorArg)
    (len_timesteps num_warmup_steps : Z)
    (callback : option StableDiffusionImg2ImgPipeline.Callback)
    (callback_steps : CallbackSteps)
    : list (Z * Timestep) -> Tensor -> list Event -> Tensor -> Prop :=
| sd_trace_done : forall latents,
    sd_loop_trace guidance_scale prompt_embeds kwargs extra len_timesteps
      num_warmup_steps callback callback_steps [] latents [] latents
| sd_trace_iter : forall i t its latents scaled out latents1 tr latents',
    returned (sched_scale_model_input (model_input guidance_scale latents) t) scaled ->
    returned (sd_unet scaled t prompt_embeds kwargs) out ->
    returned (sched_step (guided_prediction guidance_scale out) t latents
                         (fst extra) (snd extra)) latents1 ->
    sd_loop_trace guidance_scale prompt_embeds kwargs extra len_timesteps
      num_warmup_steps callback callback_steps its latents1 tr latents' ->
    sd_loop_trace guidance_scale prompt_embeds kwargs extra len_timesteps
      num_warmup_steps callback callback_steps
      ((i, t) :: its) latents
      ([EvScaleModelInput (model_input guidance_scale latents) t;
        EvUnet scaled t (Some prompt_embeds);
        EvSchedulerStep (guided_prediction guidance_scale out) t latents]
         ++ (if progress_due len_timesteps num_warmup_steps i
             then EvProgressUpdate :: callback_event callback callback_steps i t latents1
             else [])
         ++ tr)
      latents'.

End Vocabulary.

(** ** Vocabulary of the further properties *)

Section FurtherVocabulary.
Context {C : Collaborators}.

(** The two worlds agree on what the outside sees: the collaborators'
    state and the log. *)
Definition same_effects (w1 w2 : World) : Prop :=
  env w1 = env w2 /\ log w1 = log w2.

(** [m] does not look at the recorded frames. *)
Definition frame_blind {A} (m : M A) : Prop :=
  forall w1 w2 r w1',
    same_effects w1 w2 -> m w1 = (r, w1') ->
    exists w2', m w2 = (r, w2') /\ same_effects w1' w2'.

(** [output_type in ['pd', 'np', 'pil']] *)
Definition cm_supported_output_type (o : string) : bool :=
  existsb (String.eqb o) ["pd"; "np"; "pil"]%string.

(** The arguments [a] with [output_type=o]. *)
Definition cm_with_output_type (a : CM.Args) (o : string) : CM.Args :=
  {| CM.batch_size := CM.batch_size a;
     CM.class_labels := CM.class_labels a;
     CM.num_inference_steps := CM.num_inference_steps a;
     CM.timesteps := CM.timesteps a;
     CM.generator := CM.generator a;
     CM.latents := CM.latents a;
     CM.output_type := o;
     CM.return_dict := CM.return_dict a;
     CM.callback := CM.callback a;
     CM.callback_steps := CM.callback_steps a |}.

End FurtherVocabulary.

(** ** Further concrete invocations on the stand-in *)

Module MoreExamples.
Import StandIn.

(** [pipe(num_inference_steps=n, output_type=o)] *)
Definition cm_args_output (n : Z) (o : string) : @CM.Args collaborators :=
  @CM.Build_Args collaborators 1 (@CM.CLNone collaborators) (Some n) None None None
                 o true None (CSInt 1).

End MoreExamples.

Section TraceVocabulary.
Context {C : Collaborators}.

(** The model calls logged, in order: the timestep of each and what it was
    conditioned on. *)
Definition unet_calls (l : list Event) : list (Timestep * option Tensor) :=
  flat_map (fun ev => match ev with EvUnet _ t c => [(t, c)] | _ => [] end) l.

(** The timesteps of the [scheduler.step] calls logged, in order. *)
Definition scheduler_steps (l : list Event) : list Timestep :=
  flat_map (fun ev => match ev with EvSchedulerStep _ t _ => [t] | _ => [] end) l.

(** How many events of kind [k] were logged. *)
Definition count_kind (k : Kind) (l : list Event) : Z :=
  Py.len (filter (fun ev => Kind_beq (kind ev) k) l).

(** [set_timesteps] as the consistency [__call__] calls it. *)
Definition cm_steps_argument (a : CM.Args) : option Z :=
  match CM.timesteps a with
  | Some _ => None
  | None => CM.num_inference_steps a
  end.

(** The class labels the consistency model is called with: those of
    [prepare_class_labels]. *)
Definition cm_labels_of (a : CM.Args) (labels : option Tensor) : Prop :=
  match cm_num_class_embeds with
  | None => labels = None
  | Some num_class_embeds =>
      match CM.class_labels a with
      | CM.CLList l => labels = Some (to_tensor l int32)
      | CM.CLInt c => CM.batch_size a = 1 /\ labels = Some (to_tensor [c] int32)
      | CM.CLNone =>
          exists t,
            returned (randint 0 num_class_embeds [CM.batch_size a]) t /\
            labels = Some t
      | CM.CLTensor t => labels = Some t
      end
  end.

End TraceVocabulary.

Section ProgressVocabulary.
Context {C : Collaborators}.

(** The totals the progress bars were opened with, in order. *)
Definition progress_totals (l : list Event) : list (option Z) :=
  flat_map (fun ev => match ev with EvProgressBar total => [total] | _ => [] end) l.

End ProgressVocabulary.

Section CallParameterVocabulary.
Context {C : Collaborators}.

(** What an event of a consistency call shows of the call parameters:
    [batch_size] in the shapes drawn, the step count and [timesteps] in the
    configuration of the scheduler, and the step count of the loop in the
    total of the progress bar. *)
Definition cm_event_ok (a : CM.Args) (ev : Event) : Prop :=
  match ev with
  | EvRandn sh _ =>
      sh = [CM.batch_size a; cm_in_channels; cm_sample_size; cm_sample_size]
  | EvRandint sh => sh = [CM.batch_size a]
  | EvSetTimesteps n ts => n = cm_steps_argument a /\ ts = CM.timesteps a
  | EvProgressBar total =>
      match CM.timesteps a with
      | Some ts =>
          exists e e',
            sched_set_timesteps None (Some ts) e = (Ok tt, e') /\
            total = Some (Py.len (sched_timesteps e'))
      | None => total = CM.num_inference_steps a
      end
  | _ => True
  end.

(** [get_timesteps(num_inference_steps, strength)] of the arguments
    returned [(ts, n')]. *)
Definition sd_timesteps_of (a : SD.Args) (ts : list Timestep) (n' : Z) : Prop :=
  exists w : World,
    SD.get_timesteps (SD.num_inference_steps a) (SD.strength a) w = (Ok (ts, n'), w).

(** What an event of an image2image call shows of the call parameters:
    the step count in the configuration of the scheduler; [strength] and
    the step count in the total of the progress bar, which is the count
    [get_timesteps] returned; [batch_size] and [strength] in the timestep
    the noise is added at; [guidance_scale] in the model input and in the
    prediction of every iteration; [output_type] in the postprocessing. *)
Definition sd_event_ok (a : SD.Args) (ev : Event) : Prop :=
  let gs := SD.guidance_scale a in
  match ev with
  | EvSetTimesteps n ts => n = Some (SD.num_inference_steps a) /\ ts = None
  | EvAddNoise _ _ t =>
      exists bs ts n',
        sd_batch_size a = Ok bs /\ sd_timesteps_of a ts n' /\
        t = tile_timesteps (Py.slice_to 1 ts) (bs * SD.num_images_per_prompt a)
  | EvProgressBar total => exists ts n', sd_timesteps_of a ts n' /\ total = Some n'
  | EvScaleModelInput x _ =>
      exists l, x = if Py.gt gs Py.one then concat [l; l] else l
  | EvSchedulerStep pred _ _ =>
      exists o,
        pred = if Py.gt gs Py.one
               then tadd (fst (chunk2 o))
                         (smul gs (tsub (snd (chunk2 o)) (fst (chunk2 o))))
               else o
  | EvPostprocess o => o = "pil"%string \/ o = SD.output_type a
  | _ => True
  end.

End CallParameterVocabulary.

Section Img2ImgVocabulary.
Context {C : Collaborators}.

(** Image2image, after the loop: the image handed to the postprocessor,
    the flags of the safety checker and the events logged on the way. *)
Definition sd_decoded (output_type : string) (d : DType) (latents image : Tensor)
    (nsfw : option (list bool)) (evs : list Event) : Prop :=
  if String.eqb output_type "latent" then
    image = latents /\ nsfw = None /\ evs = []
  else
    exists decoded,
      returned (vae_decode (sdiv latents vae_scaling_factor)) decoded /\
      if has_safety_checker then
        exists pil flags,
          returned (image_processor_postprocess_pil decoded) pil /\
          returned (safety_check decoded pil d) (image, flags) /\
          nsfw = Some flags /\
          evs = [EvVaeDecode (sdiv latents vae_scaling_factor);
                 EvPostprocess "pil"; EvSafetyChecker decoded]
      else
        image = decoded /\ nsfw = None /\
        evs = [EvVaeDecode (sdiv latents vae_scaling_factor)].

(** Image2image: [do_denormalize], one flag per image. *)
Definition sd_denormalize (image : Tensor) (nsfw : option (list bool))
    (flags : list bool) : Prop :=
  match nsfw with
  | None =>
      exists n, Py.index (shape image) 0 = Ok n /\ flags = repeat true (Z.to_nat n)
  | Some has_nsfw => flags = map negb has_nsfw
  end.

(** The [output_type] of each call of the image processor's
    [postprocess], in order. *)
Definition postprocess_calls (l : list Event) : list string :=
  flat_map (fun ev => match ev with EvPostprocess o => [o] | _ => [] end) l.

(** [text_encoder_lora_scale] of the image2image [__call__]. *)
Definition sd_lora_scale (a : SD.Args) : option Py.float :=
  match SD.cross_attention_kwargs a with
  | Some kw => kwargs_scale kw
  | None => None
  end.

End Img2ImgVocabulary.

Section Img2ImgOutput.
Context {C : Collaborators}.

(** [out.images] and [out.nsfw_content_detected] (the two components of
    the tuple when [return_dict] is false). *)
Definition sd_images (out : SD.Output) : Tensor :=
  match out with
  | SD.Tuple images _ => images
  | SD.StableDiffusionPipelineOutput images _ => images
  end.

Definition sd_nsfw (out : SD.Output) : option (list bool) :=
  match out with
  | SD.Tuple _ nsfw => nsfw
  | SD.StableDiffusionPipelineOutput _ nsfw => nsfw
  end.

(** The kinds of events a denoising loop logs. *)
Definition loop_kinds : list Kind :=
  [KScaleModelInput; KUnet; KSchedulerStep; KProgressUpdate; KCallback].

End Img2ImgOutput.

Section EncodePromptVocabulary.
Context {C : Collaborators}.

(** A run of [m] logs at most [n] events of the kind [k], and exactly [n]
    when it returns. *)
Definition emits {A} (k : Kind) (n : Z) (m : M A) : Prop :=
  forall w r w',
    m w = (r, w') ->
    exists d,
      log w' = log w ++ d /\
      count_kind k d <= n /\ (is_ok r = true -> count_kind k d = n).

(** How many times [_encode_prompt] warns about a truncated prompt: once
    if it tokenizes the prompt and the tokenizer cuts it. *)
Definition truncation_warnings (prompt : option Prompt) (prompt_embeds : option Tensor)
    : Z :=
  match prompt_embeds, prompt with
  | None, Some pr =>
      match tokenizer_truncates pr with
      | Ok true => 1
      | _ => 0
      end
  | _, _ => 0
  end.

(** How many times [_encode_prompt] calls the text encoder: once for the
    prompt unless [prompt_embeds] is given, once for the negative prompt
    under guidance unless [negative_prompt_embeds] is given. *)
Definition text_encoder_calls (do_classifier_free_guidance : bool)
    (prompt_embeds negative_prompt_embeds : option Tensor) : Z :=
  (match prompt_embeds with Some _ => 0 | None => 1 end)
  + (if do_classifier_free_guidance
     then match negative_prompt_embeds with Some _ => 0 | None => 1 end
     else 0).

(** [uncond_tokens] of [_encode_prompt]: what is encoded for the
    unconditional half when no [negative_prompt_embeds] is given. *)
Definition uncond_tokens (batch_size : Z) (negative_prompt : option Prompt)
    (tokens : Prompt) : Prop :=
  match negative_prompt with
  | None => tokens = PList (repeat EmptyString (Z.to_nat batch_size))
  | Some (PStr s) => tokens = PList [s]
  | Some (PList l) => batch_size = Py.len l /\ tokens = PList l
  | Some POther => False
  end.



End EncodePromptVocabulary.

Section LoraVocabulary.
Context {C : Collaborators}.

(** The collaborators' state once [_encode_prompt] has set the LoRA
    scale, if one is given. *)
Definition with_lora_scale (lora_scale : option Py.float) (e : Env) : Env :=
  match lora_scale with
  | Some sc => set_lora_scale sc e
  | None => e
  end.

End LoraVocabulary.

Module MoreInvocations.
Import StandIn.

(** [pipe(batch_size=1, num_inference_steps=n, timesteps=ts,
          callback_steps=cs)], without a callback *)
Definition cm_call (n : option Z) (ts : option (list Z)) (cs : CallbackSteps)
    : @CM.Args collaborators :=
  @CM.Build_Args collaborators 1 (@CM.CLNone collaborators) n ts None None
                 "pd" true None cs.

(** [pipe(prompt=p, negative_prompt=np, image=im, strength=s,
          num_inference_steps=n, guidance_scale=gs, output_type=o,
          callback_steps=cs)], without a callback *)
Definition sd_call (p np : option Prompt) (im : tensor) (s : Py.float) (n : Z)
    (gs : Py.float) (o : string) (cs : CallbackSteps) : @SD.Args collaborators :=
  @SD.Build_Args collaborators p (inl im) s n gs np 1 Py.zero None None None
                 o true None cs None.

(** An image of one latent-shaped sample. *)
Definition latent_image : tensor := Examples.ones [1; 4; 1; 1] float32.

(** [guidance_scale=7.5], [strength=0.5] *)
Definition guidance_7_5 : Py.float := Py.float_of_dyadic 15 (-1).
Definition strength_0_5 : Py.float := Py.float_of_dyadic 1 (-1).

End MoreInvocations.

(** ** The deprecated helpers of the image2image module

    [preprocess] (a module-level function) and
    [StableDiffusionImg2ImgPipeline.decode_latents]. *)

(** What [preprocess] calls of PIL and NumPy. *)
Class Imaging (C : Collaborators) : Type := {
  Array : Type;                                   (* a NumPy array *)
  pil_size : PILImage -> Z * Z;                   (* [i.size], width first *)
  (* [np.array(i.resize((w, h), resample=PIL_INTERPOLATION['lanczos']))[None, :]] *)
  pil_resize_array : PILImage -> Z -> Z -> result Array;
  (* [np.concatenate(l, axis=0)], [/ 255.0] as float32, [transpose(0, 3, 1, 2)],
     [2.0 * x - 1.0], [paddle.to_tensor] *)
  arrays_to_tensor : list Array -> result Tensor;
  (* [image.cpu().transpose(perm=[0, 2, 3, 1]).astype(dtype='float32').numpy()] *)
  to_numpy_float32 : Tensor -> Array
}.

Module DeprecatedHelpers.
Section Helpers.
Context {C : Collaborators} {I : Imaging C}.

(** The [image] argument of [preprocess]: a tensor, a PIL image, a list of
    PIL images or a list of tensors. *)
Inductive ImageInput : Type :=
| InTensor (t : Tensor)
| InPIL (im : PILImage)
| InPILs (l : list PILImage)
| InTensors (l : list Tensor).

(** [[f(i) for i in l]], stopping at the first exception. *)
Fixpoint map_result {A B} (f : A -> result B) (l : list A) : result (list B) :=
  match l with
  | [] => Ok []
  | x :: l' =>
      rbind (f x) (fun y => rbind (map_result f l') (fun ys => Ok (y :: ys)))
  end.

(** [preprocess], lines 69-82: the list [image] made into a tensor.  The
    size of the first image, rounded down to multiples of 8, is the size
    every image is resized to. *)
Definition preprocess_list (image : list PILImage + list Tensor) : M Tensor :=
  match image with
  | inl l =>
      first <- lift (Py.index l 0) ;;
      let (w, h) := pil_size first in
      let w := w - w mod 8 in
      let h := h - h mod 8 in
      image <- lift (map_result (fun i => pil_resize_array i w h) l) ;;
      lift (arrays_to_tensor image)
  | inr l =>
      _ <- lift (Py.index l 0) ;;
      ret (concat l)
  end.

(** [preprocess(image)] *)
Definition preprocess (image : ImageInput) : M Tensor :=
  emit (EvWarning "The preprocess method is deprecated") ;;
  match image with
  | InTensor t => ret t
  | InPIL im => preprocess_list (inl [im])
  | InPILs l => preprocess_list (inl l)
  | InTensors l => preprocess_list (inr l)
  end.

(** [n / y] for an int [n] and a float [y] *)
Definition int_div_float (n : Z) (y : Py.float) : result Py.float :=
  rbind (Py.float_of_int n) (fun x =>
  match y with
  | S754_zero _ => Raise ZeroDivisionError
  | _ => Ok (SFdiv Py.prec Py.emax x y)
  end).

(** [decode_latents(latents)] *)
Definition decode_latents (latents : Tensor) : M Array :=
  emit (EvWarning "The decode_latents method is deprecated") ;;
  factor <- lift (int_div_float 1 vae_scaling_factor) ;;
  let latents := smul factor latents in
  image <- call (EvVaeDecode latents) (vae_decode latents) ;;
  let image := unit_range image in
  (* we always cast to float32 *)
  let image := to_numpy_float32 image in
  ret image.

End Helpers.
End DeprecatedHelpers.

(** ** The constructor of the image2image pipeline
    ([StableDiffusionImg2ImgPipeline.__init__]) *)

Module Constructor.

(** A value of a configuration: what JSON holds. *)
Inductive Value : Type :=
| VNone
| VBool (b : bool)
| VInt (n : Z)
| VFloat (x : Py.float)
| VStr (s : string)
| VOther.                          (* a list or a dict *)

(** [v != 1]: [True] and [1.0] equal [1]. *)
Definition ne_1 (v : Value) : bool :=
  match v with
  | VBool b => negb b
  | VInt n => negb (n =? 1)
  | VFloat x => negb (SFeqb x Py.one)
  | _ => true
  end.

(** [v is True] *)
Definition is_True (v : Value) : bool :=
  match v with
  | VBool true => true
  | _ => false
  end.

(** [v < 64]: [TypeError] for a value that is not a number. *)
Definition lt_64 (v : Value) : result bool :=
  match v with
  | VBool _ => Ok true
  | VInt n => Ok (n <? 64)
  | VFloat x => Ok (SFltb x (Py.float_of_dyadic 64 0))
  | _ => Raise TypeError
  end.

(** A Python [dict] with string keys, in insertion order. *)
Definition Dict : Type := list (string * Value).

Fixpoint lookup (k : string) (d : Dict) : option Value :=
  match d with
  | [] => None
  | (k', v) :: d' => if String.eqb k k' then Some v else lookup k d'
  end.

(** [d[k] = v] *)
Fixpoint set (k : string) (v : Value) (d : Dict) : Dict :=
  match d with
  | [] => [(k, v)]
  | (k', v') :: d' =>
      if String.eqb k k' then (k, v) :: d' else (k', v') :: set k v d'
  end.

(** What the constructor uses of the configuration classes, of the
    components it is given and of [packaging.version]. *)
Class Components : Type := {
  Config : Type;                                  (* a [FrozenDict] *)
  hasattr : Config -> string -> bool;             (* [hasattr(c, k)] *)
  getattr : Config -> string -> result Value;     (* [c.k] *)
  dict : Config -> Dict;                          (* [dict(c)] *)
  FrozenDict : Dict -> Config;                    (* [FrozenDict(d)] *)
  Scheduler : Type;
  scheduler_config : Scheduler -> Config;         (* [scheduler.config] *)
  (* [scheduler._internal_dict = c] *)
  scheduler_set_internal_dict : Scheduler -> Config -> Scheduler;
  Unet : Type;
  unet_config : Unet -> Config;
  unet_set_internal_dict : Unet -> Config -> Unet;
  (* [version.parse(version.parse(v).base_version) < version.parse('0.9.0.dev0')] *)
  version_before_0_9_0 : Value -> result bool
}.

Section Init.
Context {K : Components}.

(** The two components [__init__] modifies in place, and what it logs. *)
Record Store : Type := {
  scheduler : Scheduler;
  unet : Unet;
  warnings : list string
}.

Definition Init (A : Type) : Type := Store -> result A * Store.

Definition iret {A} (a : A) : Init A := fun s => (Ok a, s).

Definition ibind {A B} (m : Init A) (k : A -> Init B) : Init B :=
  fun s =>
    match m s with
    | (Ok a, s') => k a s'
    | (Raise e, s') => (Raise e, s')
    end.

Definition iraise {A} (e : exn) : Init A := fun s => (Raise e, s).

Definition ilift {A} (r : result A) : Init A := fun s => (r, s).

Definition iread {A} (f : Store -> A) : Init A := fun s => (Ok (f s), s).

(** [deprecate(topic, ...)] and [logger.warning] *)
Definition warn (topic : string) : Init unit :=
  fun s => (Ok tt, {| scheduler := scheduler s; unet := unet s;
                      warnings := warnings s ++ [topic] |}).

Definition set_scheduler (f : Scheduler -> Scheduler) : Init unit :=
  fun s => (Ok tt, {| scheduler := f (scheduler s); unet := unet s;
                      warnings := warnings s |}).

Definition set_unet (f : Unet -> Unet) : Init unit :=
  fun s => (Ok tt, {| scheduler := scheduler s; unet := f (unet s);
                      warnings := warnings s |}).

Definition iwhen (b : bool) (m : Init unit) : Init unit := if b then m else iret tt.

(** [hasattr(c, k) and test(c.k)] *)
Definition has_and (c : Config) (k : string) (test : Value -> result bool)
    : result bool :=
  if hasattr c k then rbind (getattr c k) test else Ok false.

(** [2 ** n] for an int [n]: a float when [n] is negative. *)
Definition pow2 (n : Z) : Z + Py.float :=
  if n <? 0 then inr (Py.float_of_dyadic 1 n) else inl (2 ^ n).

(** The arguments that are not modified: whether a safety checker and a
    feature extractor are given, [requires_safety_checker], and
    [vae.config.block_out_channels]. *)
Record Args : Type := {
  safety_checker : bool;
  feature_extractor : bool;
  requires_safety_checker : bool;
  block_out_channels : list Z
}.

(** What [__init__] sets on [self]. *)
Record Pipeline : Type := {
  vae_scale_factor : Z + Py.float;
  registered_safety_checker : bool;
  registered_requires_safety_checker : bool
}.

Notation "x <- m ;;; k" := (ibind m (fun x => k))
  (at level 61, m at next level, right associativity).
Notation "m ;;; k" := (ibind m (fun _ => k))
  (at level 61, right associativity).

Definition __init__ (a : Args) : Init Pipeline :=
  c <- iread (fun s => scheduler_config (scheduler s)) ;;;
  outdated <- ilift (has_and c "steps_offset" (fun v => Ok (ne_1 v))) ;;;
  iwhen outdated
    (warn "steps_offset!=1" ;;;
     c <- iread (fun s => scheduler_config (scheduler s)) ;;;
     let new_config := dict c in
     let new_config := set "steps_offset" (VInt 1) new_config in
     set_scheduler (fun s => scheduler_set_internal_dict s (FrozenDict new_config))) ;;;
  c <- iread (fun s => scheduler_config (scheduler s)) ;;;
  clipping <- ilift (has_and c "clip_sample" (fun v => Ok (is_True v))) ;;;
  iwhen clipping
    (warn "clip_sample not set" ;;;
     c <- iread (fun s => scheduler_config (scheduler s)) ;;;
     let new_config := dict c in
     let new_config := set "clip_sample" (VBool false) new_config in
     set_scheduler (fun s => scheduler_set_internal_dict s (FrozenDict new_config))) ;;;
  iwhen (negb (safety_checker a) && requires_safety_checker a)
    (warn "You have disabled the safety checker") ;;;
  iwhen (safety_checker a && negb (feature_extractor a)) (iraise ValueError) ;;;
  c <- iread (fun s => unet_config (unet s)) ;;;
  is_unet_version_less_0_9_0 <-
    ilift (has_and c "_diffusers_version" version_before_0_9_0) ;;;
  c <- iread (fun s => unet_config (unet s)) ;;;
  is_unet_sample_size_less_64 <- ilift (has_and c "sample_size" lt_64) ;;;
  iwhen (is_unet_version_less_0_9_0 && is_unet_sample_size_less_64)
    (warn "sample_size<64" ;;;
     c <- iread (fun s => unet_config (unet s)) ;;;
     let new_config := dict c in
     let new_config := set "sample_size" (VInt 64) new_config in
     set_unet (fun u => unet_set_internal_dict u (FrozenDict new_config))) ;;;
  let vae_scale_factor := pow2 (Py.len (block_out_channels a) - 1) in
  iret {| vae_scale_factor := vae_scale_factor;
          registered_safety_checker := safety_checker a;
          registered_requires_safety_checker := requires_safety_checker a |}.

(** What the configuration classes are relied on for in the statements:
    a configuration shows the keys of its dict as attributes, [dict] gives
    the dict of a [FrozenDict] back, and [config] is the [_internal_dict]. *)
Record lawful : Prop := {
  hasattr_dict :
    forall c k, hasattr c k = match lookup k (dict c) with Some _ => true | None => false end;
  getattr_dict :
    forall c k v, lookup k (dict c) = Some v -> getattr c k = Ok v;
  dict_FrozenDict : forall d, dict (FrozenDict d) = d;
  scheduler_config_set :
    forall s c, scheduler_config (scheduler_set_internal_dict s c) = c;
  unet_config_set :
    forall u c, unet_config (unet_set_internal_dict u c) = c
}.

End Init.
End Constructor.

(** Components for concrete runs of the constructor: a configuration is
    its dict, a scheduler and a unet are their configurations, and only
    the version 0.8.2 is older than 0.9.0. *)
Module ConstructorExamples.
Import Constructor.

Definition config_hasattr (c : Dict) (k : string) : bool :=
  match lookup k c with Some _ => true | None => false end.

Definition config_getattr (c : Dict) (k : string) : result Value :=
  match lookup k c with Some v => Ok v | None => Raise AttributeError end.

Definition only_0_8_2_is_older (v : Value) : result bool :=
  match v with
  | VStr s => Ok (String.eqb s "0.8.2")
  | _ => Raise TypeError
  end.

#[export] Instance components : Components := {|
  Config := Dict;
  hasattr := config_hasattr;
  getattr := config_getattr;
  dict := fun c => c;
  FrozenDict := fun d => d;
  Scheduler := Dict;
  scheduler_config := fun s => s;
  scheduler_set_internal_dict := fun _ c => c;
  Unet := Dict;
  unet_config := fun u => u;
  unet_set_internal_dict := fun _ c => c;
  version_before_0_9_0 := only_0_8_2_is_older
|}.

Definition old_scheduler : Dict :=
  [("num_train_timesteps", VInt 1000); ("steps_offset", VInt 0);
   ("clip_sample", VBool true)]%string.

Definition old_unet : Dict :=
  [("_diffusers_version", VStr "0.8.2"); ("sample_size", VInt 32)]%string.

Definition unet_without_sample_size : Dict :=
  [("_diffusers_version", VStr "0.21.0"); ("sample_size", VNone)]%string.

Definition old_components : Store :=
  {| scheduler := old_scheduler; unet := old_unet; warnings := [] |}.

Definition new_components_without_sample_size : Store :=
  {| scheduler := old_scheduler; unet := unet_without_sample_size; warnings := [] |}.

Definition with_checker : Args :=
  {| safety_checker := true; feature_extractor := true;
     requires_safety_checker := true; block_out_channels := [128; 256; 512; 512] |}.

Definition checker_without_extractor : Args :=
  {| safety_checker := true; feature_extractor := false;
     requires_safety_checker := true; block_out_channels := [128; 256; 512; 512] |}.

End ConstructorExamples.

(** The constructor block by block: what its tests give on the dict of a
    configuration, and the components after each block. *)
Module ConstructorRun.
Import Constructor.
Section Run.
Context {K : Components}.

(** What [hasattr(c, k) and test(c.k)] gives, on the dict of [c]. *)
Definition holds (k : string) (test : Value -> result bool) (d : Dict)
    : result bool :=
  match lookup k d with
  | Some v => test v
  | None => Ok false
  end.

Definition truth (r : result bool) : bool :=
  match r with Ok b => b | Raise _ => false end.

(** The scheduler after the first two blocks of [__init__]. *)
Definition scheduler_1 (s : Scheduler) : Scheduler :=
  if truth (holds "steps_offset" (fun v => Ok (ne_1 v)) (dict (scheduler_config s)))
  then scheduler_set_internal_dict s
         (FrozenDict (set "steps_offset" (VInt 1) (dict (scheduler_config s))))
  else s.

Definition scheduler_2 (s : Scheduler) : Scheduler :=
  if truth (holds "clip_sample" (fun v => Ok (is_True v)) (dict (scheduler_config s)))
  then scheduler_set_internal_dict s
         (FrozenDict (set "clip_sample" (VBool false) (dict (scheduler_config s))))
  else s.

Definition scheduler_warnings (a : Args) (s : Scheduler) : list string :=
  (if truth (holds "steps_offset" (fun v => Ok (ne_1 v)) (dict (scheduler_config s)))
   then ["steps_offset!=1"%string] else []) ++
  (if truth (holds "clip_sample" (fun v => Ok (is_True v))
               (dict (scheduler_config (scheduler_1 s))))
   then ["clip_sample not set"%string] else []) ++
  (if negb (safety_checker a) && requires_safety_checker a
   then ["You have disabled the safety checker"%string] else []).

Definition unet_1 (b : bool) (u : Unet) : Unet :=
  if b
  then unet_set_internal_dict u
         (FrozenDict (set "sample_size" (VInt 64) (dict (unet_config u))))
  else u.

End Run.
End ConstructorRun.

(** PIL and NumPy for concrete runs of the deprecated helpers: every image
    is 13 by 21, an array is a tensor. *)
Module ImagingExamples.

Definition channels_first (l : list StandIn.tensor)
    : result (@Tensor StandIn.collaborators) :=
  let x := StandIn.t_concat l in
  Ok {| StandIn.sh := match StandIn.sh x with
                      | [n; h; w; c] => [n; c; h; w]
                      | s => s
                      end;
        StandIn.dt := StandIn.dt x;
        StandIn.data := StandIn.data x |}.

Definition resized (_ : @PILImage StandIn.collaborators) (w h : Z)
    : result StandIn.tensor :=
  Ok (StandIn.zeros [1; h; w; 3] float32).

#[export] Instance imaging : Imaging StandIn.collaborators :=
  @Build_Imaging StandIn.collaborators StandIn.tensor
    (fun _ => (13, 21))          (* pil_size *)
    resized                      (* pil_resize_array *)
    channels_first               (* arrays_to_tensor *)
    (fun x => x).                (* to_numpy_float32 *)

Definition two_images : list (@PILImage StandIn.collaborators) := [tt; tt].

End ImagingExamples.

(** * Properties *)

(** ** Binary64 rounding *)

Lemma digits2_pos_bounds :
  forall m, 2 ^ (Zpos (digits2_pos m) - 1) <= Zpos m < 2 ^ Zpos (digits2_pos m).
Proof.
  induction m as [m IH|m IH|]; simpl digits2_pos.
  - rewrite Pos2Z.inj_succ. replace (Z.succ (Z.pos (digits2_pos m)) - 1) with (Z.pos (digits2_pos m)) by lia.
    rewrite Z.pow_succ_r by lia.
    assert (H : 2 ^ Z.pos (digits2_pos m) = 2 * 2 ^ (Z.pos (digits2_pos m) - 1)).
    { rewrite <- Z.pow_succ_r by lia. f_equal. lia. }
    lia.
  - rewrite Pos2Z.inj_succ. replace (Z.succ (Z.pos (digits2_pos m)) - 1) with (Z.pos (digits2_pos m)) by lia.
    rewrite Z.pow_succ_r by lia.
    assert (H : 2 ^ Z.pos (digits2_pos m) = 2 * 2 ^ (Z.pos (digits2_pos m) - 1)).
    { rewrite <- Z.pow_succ_r by lia. f_equal. lia. }
    lia.
  - simpl. lia.
Qed.

Lemma iter_pos_nat :
  forall {A} (f : A -> A) p x, iter_pos f p x = Nat.iter (Pos.to_nat p) f x.
Proof.
  intros A f p. induction p as [p IH|p IH|]; intros x; simpl iter_pos.
  - rewrite !IH, Pos2Nat.inj_xI. rewrite <- Nat.iter_add.
    replace (S (2 * Pos.to_nat p)) with (S (Pos.to_nat p + Pos.to_nat p)) by lia.
    rewrite Nat.iter_succ_r. reflexivity.
  - rewrite !IH, Pos2Nat.inj_xO. rewrite <- Nat.iter_add.
    f_equal. lia.
  - reflexivity.
Qed.

Lemma shr_1_m :
  forall mrs, 0 <= shr_m mrs -> shr_m (shr_1 mrs) = shr_m mrs / 2.
Proof.
  intros [m r s] H. cbn [shr_m] in H.
  destruct m as [|[p|p|]|p]; cbn [shr_1 shr_m]; try lia.
  - reflexivity.
  - rewrite Pos2Z.inj_xI. apply Z.div_unique with (r := 1); lia.
  - rewrite Pos2Z.inj_xO. apply Z.div_unique with (r := 0); lia.
  - reflexivity.
Qed.

Lemma shr_1_r :
  forall mrs, 0 <= shr_m mrs -> shr_r (shr_1 mrs) = Z.odd (shr_m mrs).
Proof.
  intros [m r s] H. cbn [shr_m] in H.
  destruct m as [|[p|p|]|p]; cbn [shr_1 shr_m shr_r]; try lia; reflexivity.
Qed.

Lemma shr_iter_m :
  forall k mrs, 0 <= shr_m mrs ->
    shr_m (Nat.iter k shr_1 mrs) = shr_m mrs / 2 ^ Z.of_nat k.
Proof.
  induction k as [|k IH]; intros mrs H.
  - simpl. rewrite Z.div_1_r. reflexivity.
  - rewrite Nat.iter_succ. rewrite shr_1_m; rewrite IH by exact H.
    + rewrite Nat2Z.inj_succ, Z.pow_succ_r by lia.
      rewrite Z.div_div by lia. f_equal. lia.
    + apply Z.div_pos; lia.
Qed.

Lemma shr_iter_r :
  forall k mrs, 0 <= shr_m mrs ->
    shr_r (Nat.iter (S k) shr_1 mrs) = true ->
    shr_m (Nat.iter (S k) shr_1 mrs) * 2 ^ Z.of_nat (S k) < shr_m mrs.
Proof.
  intros k mrs H Hr.
  rewrite Nat.iter_succ in *.
  assert (Hk : 0 <= shr_m (Nat.iter k shr_1 mrs)).
  { rewrite shr_iter_m by exact H. apply Z.div_pos; lia. }
  rewrite shr_1_r in Hr by exact Hk. rewrite shr_1_m by exact Hk.
  rewrite shr_iter_m in * by exact H.
  set (q := shr_m mrs / 2 ^ Z.of_nat k) in *.
  assert (Hq : q = 2 * (q / 2) + 1).
  { rewrite (Z.div_mod q 2) at 1 by lia. rewrite Zmod_odd, Hr. reflexivity. }
  rewrite Nat2Z.inj_succ, Z.pow_succ_r by lia.
  assert (Hp : 0 < 2 ^ Z.of_nat k) by (apply Z.pow_pos_nonneg; lia).
  assert (Hm : q * 2 ^ Z.of_nat k <= shr_m mrs).
  { unfold q. rewrite Z.mul_comm. apply Z.mul_div_le. lia. }
  nia.
Qed.

Lemma shr_pos_spec :
  forall p m, 0 <= m ->
    let mrs := iter_pos shr_1 p {| shr_m := m; shr_r := false; shr_s := false |} in
    shr_m mrs = m / 2 ^ Zpos p /\
    (shr_r mrs = true -> shr_m mrs * 2 ^ Zpos p < m).
Proof.
  intros p m Hm mrs. unfold mrs. rewrite iter_pos_nat.
  destruct (Pos2Nat.is_succ p) as [k Hk].
  rewrite <- (positive_nat_Z p). split.
  - rewrite shr_iter_m by exact Hm. reflexivity.
  - rewrite Hk. intros Hr. apply shr_iter_r in Hr; [|exact Hm]. exact Hr.
Qed.

Lemma round_nearest_even_cases :
  forall mrs,
    round_nearest_even (shr_m mrs) (loc_of_shr_record mrs) = shr_m mrs \/
    (round_nearest_even (shr_m mrs) (loc_of_shr_record mrs) = shr_m mrs + 1 /\
     shr_r mrs = true).
Proof.
  intros [m [|] [|]]; simpl; try (left; reflexivity); try (right; split; reflexivity).
  destruct (Z.even m); [left | right; split]; reflexivity.
Qed.

Lemma fexp_unfold : forall e, fexp 53 1024 e = Z.max (e - 53) (-1074).
Proof. intros e. reflexivity. Qed.

Lemma digits_le_53 :
  forall p, Zpos p < 2 ^ 53 -> Zpos (digits2_pos p) <= 53.
Proof.
  intros p H. destruct (digits2_pos_bounds p) as [Hl _].
  destruct (Z_le_gt_dec (Zpos (digits2_pos p)) 53) as [|G]; auto.
  exfalso. assert (2 ^ 53 <= 2 ^ (Zpos (digits2_pos p) - 1)) by (apply Z.pow_le_mono_r; lia).
  lia.
Qed.

(** Second stage of [binary_round_aux] on a rounded mantissa [m2 <= 2^53]. *)
Lemma second_stage :
  forall sx m2 e1,
    0 <= m2 <= 2 ^ 53 -> -1074 <= e1 ->
    (let '(mrs, e) := shr_fexp 53 1024 m2 e1 loc_Exact in
     match shr_m mrs with
     | Z0 => S754_zero sx
     | Zpos m => if e <=? 1024 - 53 then S754_finite sx m e else S754_infinity sx
     | Zneg _ => S754_nan
     end) = finalize sx m2 e1.
Proof.
  intros sx m2 e1 [H0 H1] He. unfold finalize.
  destruct (m2 =? 2 ^ 53) eqn:E53.
  - apply Z.eqb_eq in E53. subst m2.
    unfold shr_fexp. change (Zdigits2 (2 ^ 53)) with 54.
    rewrite fexp_unfold.
    replace (Z.max (54 + e1 - 53) (-1074) - e1) with 1 by lia.
    cbn [shr shr_record_of_loc iter_pos]. 
    change (shr_m (shr_1 {| shr_m := 2 ^ 53; shr_r := false; shr_s := false |})) with (Zpos (2 ^ 52)).
    cbv beta iota. change (1024 - 53) with 971. reflexivity.
  - apply Z.eqb_neq in E53.
    unfold shr_fexp. rewrite fexp_unfold.
    assert (Hk : Z.max (Zdigits2 m2 + e1 - 53) (-1074) - e1 <= 0).
    { destruct m2 as [|p|p]; cbn [Zdigits2]; try lia.
      assert (Zpos (digits2_pos p) <= 53) by (apply digits_le_53; lia). lia. }
    unfold shr.
    destruct (Z.max (Zdigits2 m2 + e1 - 53) (-1074) - e1) as [|q|q] eqn:Eq; try lia;
      cbn [shr_record_of_loc shr_m]; change (1024 - 53) with 971; reflexivity.
Qed.

Lemma binary_round_aux_exact :
  forall sx (M : positive) E,
    exists m2,
      let e1 := Z.max E (fexp 53 1024 (Zpos (digits2_pos M) + E)) in
      0 <= m2 <= 2 ^ 53 /\
      (m2 = 2 ^ 53 -> (2 ^ 53 - 1) * 2 ^ (e1 - E) < Zpos M) /\
      binary_round_aux 53 1024 sx (Zpos M) E loc_Exact = finalize sx m2 e1.
Proof.
  intros sx M E. rewrite fexp_unfold.
  set (d := Zpos (digits2_pos M)).
  destruct (digits2_pos_bounds M) as [Hlo Hhi]. fold d in Hlo, Hhi.
  assert (Hd : 0 < d) by (unfold d; lia).
  unfold binary_round_aux.
  unfold shr_fexp at 1. cbn [Zdigits2]. fold d. rewrite fexp_unfold.
  set (k := Z.max (d + E - 53) (-1074) - E).
  cbn [shr_record_of_loc].
  destruct (Z_le_gt_dec k 0) as [Hk|Hk].
  - (* no shift: the mantissa fits *)
    assert (Hs : shr {| shr_m := Zpos M; shr_r := false; shr_s := false |} E k
                 = ({| shr_m := Zpos M; shr_r := false; shr_s := false |}, E)).
    { unfold shr. destruct k; try lia; reflexivity. }
    rewrite Hs. cbn [shr_m loc_of_shr_record round_nearest_even].
    assert (H53 : Zpos M < 2 ^ 53).
    { assert (2 ^ d <= 2 ^ 53) by (apply Z.pow_le_mono_r; unfold k in Hk; lia). lia. }
    exists (Zpos M).
    replace (Z.max E (Z.max (d + E - 53) (-1074))) with E by (unfold k in Hk; lia).
    split; [lia|]. split; [lia|].
    apply second_stage; [lia | unfold k in Hk; lia].
  - (* shift by [k] *)
    destruct k as [|p|p] eqn:Ek; try lia.
    cbn [shr].
    destruct (@shr_pos_spec p (Zpos M) ltac:(lia)) as [Hm Hr].
    set (mrs := iter_pos shr_1 p {| shr_m := Zpos M; shr_r := false; shr_s := false |}) in *.
    assert (Hpow : 0 < 2 ^ Zpos p) by (apply Z.pow_pos_nonneg; lia).
    assert (Hm0 : 0 <= shr_m mrs) by (rewrite Hm; apply Z.div_pos; lia).
    assert (Hm1 : shr_m mrs < 2 ^ 53).
    { rewrite Hm. apply Z.div_lt_upper_bound; [lia|].
      rewrite <- Z.pow_add_r by lia.
      assert (2 ^ d <= 2 ^ (Zpos p + 53)) by (apply Z.pow_le_mono_r; lia). lia. }
    exists (round_nearest_even (shr_m mrs) (loc_of_shr_record mrs)).
    replace (Z.max E (Z.max (d + E - 53) (-1074))) with (E + Zpos p) by lia.
    destruct (round_nearest_even_cases mrs) as [Hc|[Hc Hrr]]; rewrite Hc.
    + split; [lia|]. split; [lia|].
      apply second_stage; lia.
    + split; [lia|]. split.
      * intros H2. replace (E + Zpos p - E) with (Zpos p) by lia.
        apply Hr in Hrr. replace (2 ^ 53 - 1) with (shr_m mrs) by lia. exact Hrr.
      * apply second_stage; lia.
Qed.

(** [float(n)] of a positive [n], when it does not overflow. *)
Lemma float_of_int_finite :
  forall n x,
    0 < n -> Py.float_of_int n = Ok x ->
    x = S754_zero false \/
    exists mx ex, x = S754_finite false mx ex /\ Zpos mx < 2 ^ 53 /\ ex <= 971.
Proof.
  intros n x Hn H. unfold Py.float_of_int, Py.float_of_dyadic in H.
  destruct n as [|p|p]; try lia.
  cbn [binary_normalize] in H. unfold binary_round in H.
  destruct (shl_align p 0 (fexp Py.prec Py.emax (Zpos (digits2_pos p) + 0))) as [mz ez].
  destruct (binary_round_aux_exact false mz ez) as [m2 [Hb [_ Hr]]].
  change Py.prec with 53 in H. change Py.emax with 1024 in H.
  rewrite Hr in H. clear Hr. unfold finalize in H.
  destruct (m2 =? 2 ^ 53) eqn:E53.
  - match type of H with context [?a <=? 971] => destruct (a <=? 971) eqn:El end;
      [|discriminate H].
    injection H as <-. right. exists (2 ^ 52)%positive. eexists.
    split; [reflexivity|]. apply Z.leb_le in El. split; [reflexivity | exact El].
  - apply Z.eqb_neq in E53. destruct m2 as [|q|q]; try discriminate H.
    + injection H as <-. left. reflexivity.
    + match type of H with context [?a <=? 971] => destruct (a <=? 971) eqn:El end;
        [|discriminate H].
      injection H as <-. right. exists q. eexists.
      split; [reflexivity|]. apply Z.leb_le in El. split; [lia | exact El].
Qed.

Lemma one_literal : Py.one = S754_finite false 4503599627370496 (-52).
Proof. vm_compute. reflexivity. Qed.

(** A binary64 value in [[0, 1]]. *)
Lemma unit_interval_float :
  forall s,
    Py.valid s = true -> Py.le Py.zero s = true -> Py.le s Py.one = true ->
    (exists sg, s = S754_zero sg) \/
    exists ms es, s = S754_finite false ms es /\ Zpos ms <= 2 ^ (- es) /\ es <= -52.
Proof.
  intros s Hv H0 H1. rewrite one_literal in H1.
  destruct s as [sg|sg| |sg ms es]; [left; exists sg; reflexivity | | |].
  { exfalso. destruct sg; [cbn in H0; discriminate H0 | cbn in H1; discriminate H1]. }
  { cbn in H0. discriminate H0. }
  destruct sg; [cbn in H0; discriminate H0|].
  right. exists ms, es. split; [reflexivity|].
  unfold Py.valid, valid_binary, bounded, canonical_mantissa in Hv.
  apply andb_prop in Hv. destruct Hv as [Hc _]. apply Z.eqb_eq in Hc.
  change (fexp Py.prec Py.emax) with (fexp 53 1024) in Hc. rewrite fexp_unfold in Hc.
  destruct (digits2_pos_bounds ms) as [_ Hhi].
  assert (Hle : 2 ^ Zpos (digits2_pos ms) <= 2 ^ 53) by (apply Z.pow_le_mono_r; lia).
  assert (Hms : Zpos ms < 2 ^ 53) by lia.
  unfold Py.le, SFleb in H1.
  cbn [SFcompare] in H1.
  destruct (es ?= -52) eqn:Ec; [| |discriminate H1].
  { apply Z.compare_eq in Ec. subst es. split; [|lia].
    change (- -52) with 52.
    rewrite Pos.compare_cont_spec in H1.
    assert (Hp : 2 ^ 52 = 4503599627370496) by reflexivity. rewrite Hp.
    destruct (ms ?= 4503599627370496)%positive eqn:Ep;
      cbn [Pos.switch_Eq] in H1; try discriminate H1.
    - apply Pos.compare_eq in Ep. subst ms. apply Z.le_refl.
    - apply Pos.compare_lt_iff in Ep. apply Z.lt_le_incl. exact Ep. }
  rewrite Z.compare_lt_iff in Ec. split; [|lia].
  assert (2 ^ 53 <= 2 ^ (- es)) by (apply Z.pow_le_mono_r; lia).
  lia.
Qed.

(** The product of a finite non-negative double and one in [[0, 1]] is
    finite and non-negative. *)
Lemma mul_unit_interval_finite :
  forall mx ex ms es,
    Zpos mx < 2 ^ 53 -> ex <= 971 -> Zpos ms <= 2 ^ (- es) -> es <= -52 ->
    Py.mul (S754_finite false mx ex) (S754_finite false ms es) = S754_zero false \/
    exists p e, Py.mul (S754_finite false mx ex) (S754_finite false ms es)
                = S754_finite false p e.
Proof.
  intros mx ex ms es Hmx Hex Hms Hes.
  unfold Py.mul. cbn [SFmul xorb].
  change Py.prec with 53. change Py.emax with 1024.
  destruct (binary_round_aux_exact false (mx * ms) (ex + es)) as [m2 [Hb [Hup Hr]]].
  rewrite Hr. clear Hr. rewrite fexp_unfold in *.
  set (d := Zpos (digits2_pos (mx * ms))) in *.
  destruct (digits2_pos_bounds (mx * ms)) as [Hlo _]. fold d in Hlo.
  assert (Hpow : 0 < 2 ^ (- es)) by (apply Z.pow_pos_nonneg; lia).
  assert (HM : Zpos (mx * ms) <= (2 ^ 53 - 1) * 2 ^ (- es)).
  { rewrite Pos2Z.inj_mul. apply Z.mul_le_mono_nonneg; lia. }
  assert (Hd : d <= 53 - es).
  { destruct (Z_le_gt_dec d (53 - es)) as [|G]; auto. exfalso.
    assert (2 ^ (53 - es) <= 2 ^ (d - 1)) by (apply Z.pow_le_mono_r; lia).
    replace (53 - es) with (53 + - es) in H by lia.
    rewrite Z.pow_add_r in H by lia. lia. }
  unfold finalize.
  destruct (m2 =? 2 ^ 53) eqn:E53.
  - apply Z.eqb_eq in E53.
    match goal with |- context [?a <=? 971] => destruct (a <=? 971) eqn:El end.
    + right. eexists _, _. reflexivity.
    + exfalso. apply Z.leb_gt in El. specialize (Hup E53).
      replace (Z.max (ex + es) (Z.max (d + (ex + es) - 53) (-1074)) - (ex + es))
        with (- es) in Hup by lia.
      lia.
  - destruct m2 as [|q|q]; [left; reflexivity | | lia].
    match goal with |- context [?a <=? 971] => destruct (a <=? 971) eqn:El end.
    + right. eexists _, _. reflexivity.
    + exfalso. apply Z.leb_gt in El. lia.
Qed.

(** [int(n * strength)] for a positive [n] and a [strength] in [[0, 1]]:
    it is computed, and it is not negative. *)
Lemma int_of_scaled_steps :
  forall n s x,
    0 < n -> Py.float_of_int n = Ok x ->
    Py.valid s = true -> Py.le Py.zero s = true -> Py.le s Py.one = true ->
    exists v, Py.int_of_float (Py.mul x s) = Ok v /\ 0 <= v.
Proof.
  intros n s x Hn Hx Hv H0 H1.
  destruct (@float_of_int_finite n x Hn Hx) as [Ex|[mx [ex [Ex [Hmx Hex]]]]];
    destruct (@unit_interval_float s Hv H0 H1) as [[sg Es]|[ms [es [Es [Hms Hes]]]]];
    subst x s.
  - exists 0. split; [reflexivity | lia].
  - exists 0. split; [reflexivity | lia].
  - exists 0. split; [reflexivity | lia].
  - destruct (@mul_unit_interval_finite mx ex ms es Hmx Hex Hms Hes) as [E|[p [e E]]];
      rewrite E.
    + exists 0. split; [reflexivity | lia].
    + cbn [Py.int_of_float]. eexists. split; [reflexivity|].
      destruct (0 <=? e) eqn:Ee.
      * apply Z.leb_le in Ee. assert (0 < 2 ^ e) by (apply Z.pow_pos_nonneg; lia). lia.
      * apply Z.leb_gt in Ee. apply Z.div_pos; [lia|]. apply Z.pow_pos_nonneg; lia.
Qed.

(** ** Runs of monadic code *)

Section Runs.
Context {C : Collaborators}.

Lemma bind_ok_inv :
  forall {A B} (m : M A) (k : A -> M B) w b w',
    bind m k w = (Ok b, w') ->
    exists a w1, m w = (Ok a, w1) /\ k a w1 = (Ok b, w').
Proof.
  intros A B m k w b w'. unfold bind.
  destruct (m w) as [[a|e] w1]; intros H.
  - exists a, w1. auto.
  - discriminate.
Qed.

Lemma bind_ok :
  forall {A B} (m : M A) (k : A -> M B) w a w1,
    m w = (Ok a, w1) -> bind m k w = k a w1.
Proof. intros. unfold bind. rewrite H. reflexivity. Qed.

Lemma bind_raise :
  forall {A B} (m : M A) (k : A -> M B) w e w1,
    m w = (Raise e, w1) -> bind m k w = (Raise e, w1).
Proof. intros. unfold bind. rewrite H. reflexivity. Qed.

Lemma yields_pure :
  forall {A} P Q (m : M A),
    (forall w, exists r, m w = (r, w)) -> yields P Q m.
Proof.
  intros A P Q m Hm w r w' H. destruct (Hm w) as [r0 H0].
  rewrite H0 in H. inversion H; subst.
  split; exists []; rewrite app_nil_r; auto.
Qed.

Lemma yields_ret : forall {A} P Q (a : A), yields P Q (ret a).
Proof. intros. apply yields_pure. intros w. eexists. reflexivity. Qed.

Lemma yields_raise : forall {A} P Q e, yields P Q (@raise _ A e).
Proof. intros. apply yields_pure. intros w. eexists. reflexivity. Qed.

Lemma yields_lift : forall {A} P Q (x : result A), yields P Q (lift x).
Proof. intros. apply yields_pure. intros w. eexists. reflexivity. Qed.

Lemma yields_read : forall {A} P Q (f : Env -> A), yields P Q (read f).
Proof. intros. apply yields_pure. intros w. eexists. reflexivity. Qed.

Lemma yields_update : forall P Q (f : Env -> Env), yields P Q (update f).
Proof.
  intros P Q f w r w' H. inversion H; subst. simpl.
  split; exists []; rewrite app_nil_r; auto.
Qed.

Lemma yields_emit : forall (P : Event -> Prop) Q ev, P ev -> yields P Q (emit ev).
Proof.
  intros P Q ev HP w r w' H. inversion H; subst. simpl. split.
  - exists []. rewrite app_nil_r. auto.
  - exists [ev]. auto.
Qed.

Lemma yields_call :
  forall {A} (P : Event -> Prop) Q ev (f : Env -> result A * Env),
    P ev -> yields P Q (call ev f).
Proof.
  intros A P Q ev f HP w r w'. unfold call.
  destruct (f (env w)) as [r1 e1]. intros H. inversion H; subst. simpl. split.
  - exists []. rewrite app_nil_r. auto.
  - exists [ev]. auto.
Qed.

Lemma yields_enter :
  forall P (Q : Phase * CallParams -> Prop) ph p, Q (ph, p) -> yields P Q (enter ph p).
Proof.
  intros P Q ph p HQ w r w' H. inversion H; subst. simpl. split.
  - exists [(ph, p)]. auto.
  - exists []. rewrite app_nil_r. auto.
Qed.

(** The continuation may rely on what is known of a value [m] returns. *)
Lemma yields_bind_knowing :
  forall {A B} P Q (R : A -> Prop) (m : M A) (k : A -> M B),
    (forall w a w1, m w = (Ok a, w1) -> R a) ->
    yields P Q m -> (forall a, R a -> yields P Q (k a)) -> yields P Q (bind m k).
Proof.
  intros A B P Q R m k HR Hm Hk w r w'. unfold bind.
  destruct (m w) as [[a|e] w1] eqn:E; intros H.
  - destruct (Hm _ _ _ E) as [[f1 [F1 Q1]] [d1 [L1 P1]]].
    destruct (Hk a (HR _ _ _ E) _ _ _ H) as [[f2 [F2 Q2]] [d2 [L2 P2]]].
    split.
    + exists (f1 ++ f2). rewrite F2, F1, app_assoc. split; auto.
      apply Forall_app; auto.
    + exists (d1 ++ d2). rewrite L2, L1, app_assoc. split; auto.
      apply Forall_app; auto.
  - inversion H; subst. eapply Hm; eauto.
Qed.

Lemma yields_bind :
  forall {A B} P Q (m : M A) (k : A -> M B),
    yields P Q m -> (forall a, yields P Q (k a)) -> yields P Q (bind m k).
Proof.
  intros A B P Q m k Hm Hk.
  apply yields_bind_knowing with (R := fun _ => True); auto.
Qed.

Lemma yields_when :
  forall P Q b (m : M unit), yields P Q m -> yields P Q (when b m).
Proof. intros P Q [|] m H; simpl; auto using yields_ret. Qed.

Lemma yields_mapM :
  forall {A B} P Q (f : A -> M B) l,
    (forall x, yields P Q (f x)) -> yields P Q (mapM f l).
Proof.
  intros A B P Q f l Hf. induction l as [|x l IH]; simpl.
  - apply yields_ret.
  - apply yields_bind; [apply Hf|]. intros y.
    apply yields_bind; [apply IH|]. intros ys. apply yields_ret.
Qed.

Lemma yields_weaken :
  forall {A} (P P' : Event -> Prop) (Q Q' : Phase * CallParams -> Prop) (m : M A),
    (forall ev, P ev -> P' ev) -> (forall f, Q f -> Q' f) ->
    yields P Q m -> yields P' Q' m.
Proof.
  intros A P P' Q Q' m HP HQ Hm w r w' H.
  destruct (Hm _ _ _ H) as [[f [F Qf]] [d [L Pd]]]. split.
  - exists f. split; auto. eapply Forall_impl; eauto.
  - exists d. split; auto. eapply Forall_impl; eauto.
Qed.

Lemma only_incl :
  forall ks ks' ev,
    (forall k, In k ks -> In k ks') -> only ks ev = true -> only ks' ev = true.
Proof.
  intros ks ks' ev Hin. unfold only. rewrite !existsb_exists.
  intros [k [Hk Hb]]. exists k. auto.
Qed.

Lemma logs_only_incl :
  forall {A} ks ks' (m : M A),
    (forall k, In k ks -> In k ks') -> logs_only ks m -> logs_only ks' m.
Proof.
  intros A ks ks' m Hin. apply yields_weaken; auto.
  intros ev. apply only_incl. auto.
Qed.

(** What [logs_only] says of one run. *)
Lemma logs_only_run :
  forall {A} ks (m : M A) w r w',
    logs_only ks m -> m w = (r, w') ->
    frames w' = frames w /\
    exists d, log w' = log w ++ d /\ forallb (only ks) d = true.
Proof.
  intros A ks m w r w' Hm H.
  destruct (Hm _ _ _ H) as [[f [F Qf]] [d [L Pd]]]. split.
  - destruct f as [|x f]; [rewrite app_nil_r in F; auto|]. inversion Qf; contradiction.
  - exists d. split; auto. apply forallb_forall. rewrite Forall_forall in Pd. auto.
Qed.

End Runs.

Ltac yields_step :=
  lazymatch goal with
  | |- logs_only _ _ => unfold logs_only
  | |- yields _ _ (bind _ _) => apply yields_bind; [| intros ?]
  | |- yields _ _ (ret _) => apply yields_ret
  | |- yields _ _ (raise _) => apply yields_raise
  | |- yields _ _ (lift _) => apply yields_lift
  | |- yields _ _ (read _) => apply yields_read
  | |- yields _ _ (update _) => apply yields_update
  | |- yields _ _ (emit _) => apply yields_emit; reflexivity
  | |- yields _ _ (call _ _) => apply yields_call; reflexivity
  | |- yields _ _ (when _ _) => apply yields_when
  | |- yields _ _ (mapM _ _) => apply yields_mapM; intros ?
  | |- yields _ _ (match ?x with _ => _ end) => destruct x
  | |- yields _ _ (let _ := _ in _) => cbv zeta
  end.

Ltac yields_auto := repeat yields_step.

(** ** What each phase may log *)

Section Phases.
Context {C : Collaborators}.

Lemma cm_check_inputs_logs :
  forall n ts lat bs img cs,
    logs_only [KWarning] (CM.check_inputs n ts lat bs img cs).
Proof. intros. unfold CM.check_inputs. yields_auto. Qed.

Lemma cm_prepare_latents_logs :
  forall bs ch h w d g lat,
    logs_only [KRandn] (CM.prepare_latents bs ch h w d g lat).
Proof. intros. unfold CM.prepare_latents. yields_auto. Qed.

Lemma cm_prepare_class_labels_logs :
  forall bs cl, logs_only [KRandint] (CM.prepare_class_labels bs cl).
Proof. intros. unfold CM.prepare_class_labels. yields_auto. Qed.

Lemma cm_postprocess_image_logs :
  forall x o, logs_only [] (CM.postprocess_image x o).
Proof. intros. unfold CM.postprocess_image. yields_auto. Qed.

Lemma cm_loop_body_logs :
  forall cl g cb cs i t x,
    logs_only [KScaleModelInput; KUnet; KSchedulerStep; KProgressUpdate; KCallback]
              (CM.loop_body cl g cb cs i t x).
Proof. intros. unfold CM.loop_body. yields_auto. Qed.

Lemma cm_denoising_loop_logs :
  forall cl g cb cs its x,
    logs_only [KScaleModelInput; KUnet; KSchedulerStep; KProgressUpdate; KCallback]
              (CM.denoising_loop cl g cb cs its x).
Proof.
  intros cl g cb cs its. induction its as [|[i t] its IH]; intros x; simpl.
  - yields_auto.
  - apply yields_bind; [apply cm_loop_body_logs | intros; apply IH].
Qed.

Lemma sd_check_inputs_logs :
  forall p s cs np pe npe, logs_only [] (SD.check_inputs p s cs np pe npe).
Proof. intros. unfold SD.check_inputs. yields_auto. Qed.

Lemma sd_encode_prompt_logs :
  forall p n cfg np pe npe ls,
    logs_only [KWarning; KTextEncoder] (SD._encode_prompt p n cfg np pe npe ls).
Proof. intros. unfold SD._encode_prompt. yields_auto. Qed.

Lemma sd_get_timesteps_logs :
  forall n s, logs_only [] (SD.get_timesteps n s).
Proof. intros. unfold SD.get_timesteps. yields_auto. Qed.

Lemma sd_encode_image_logs :
  forall im bs g, logs_only [KVaeEncode] (SD.encode_image im bs g).
Proof. intros. unfold SD.encode_image. yields_auto. Qed.

Lemma sd_expand_init_latents_logs :
  forall bs x, logs_only [KWarning] (SD.expand_init_latents bs x).
Proof. intros. unfold SD.expand_init_latents. yields_auto. Qed.

Lemma sd_prepare_latents_logs :
  forall im ts bs n d g,
    logs_only [KVaeEncode; KWarning; KRandn; KAddNoise]
              (SD.prepare_latents im ts bs n d g).
Proof.
  intros. unfold SD.prepare_latents. yields_auto.
  - eapply logs_only_incl; [|apply sd_encode_image_logs]. simpl. tauto.
  - eapply logs_only_incl; [|apply sd_expand_init_latents_logs]. simpl. tauto.
Qed.

Lemma sd_run_safety_checker_logs :
  forall x d, logs_only [KPostprocess; KSafetyChecker] (SD.run_safety_checker x d).
Proof. intros. unfold SD.run_safety_checker. yields_auto. Qed.

Lemma sd_loop_body_logs :
  forall cfg gs pe kw extra L W cb cs i t x,
    logs_only [KScaleModelInput; KUnet; KSchedulerStep; KProgressUpdate; KCallback]
              (SD.loop_body cfg gs pe kw extra L W cb cs i t x).
Proof. intros. unfold SD.loop_body. yields_auto. Qed.

Lemma sd_denoising_loop_logs :
  forall cfg gs pe kw extra L W cb cs its x,
    logs_only [KScaleModelInput; KUnet; KSchedulerStep; KProgressUpdate; KCallback]
              (SD.denoising_loop cfg gs pe kw extra L W cb cs its x).
Proof.
  intros cfg gs pe kw extra L W cb cs its.
  induction its as [|[i t] its IH]; intros x; simpl.
  - yields_auto.
  - apply yields_bind; [apply sd_loop_body_logs | intros; apply IH].
Qed.

End Phases.

(** ** The denoising loops *)

Section Loops.
Context {C : Collaborators}.

Lemma call_ok_inv :
  forall {A} ev (f : Env -> result A * Env) w a w1,
    call ev f w = (Ok a, w1) ->
    f (env w) = (Ok a, env w1) /\ log w1 = log w ++ [ev] /\ frames w1 = frames w.
Proof.
  intros A ev f w a w1. unfold call.
  destruct (f (env w)) as [r e1]. intros H. inversion H; subst. simpl. auto.
Qed.


Lemma callback_ok_inv :
  forall (cb : option (Z -> Timestep -> Tensor -> Env -> result unit * Env))
         cs i t x w u w1,
    match cb with
    | Some cb =>
        r <- lift (mod_callback_steps i cs) ;;
        when (r =? 0) (call (EvCallback i t x) (cb i t x))
    | None => ret tt
    end w = (Ok u, w1) ->
    log w1 = log w ++ callback_event cb cs i t x /\ frames w1 = frames w.
Proof.
  intros cb cs i t x w u w1. unfold callback_event.
  destruct cb as [cb|].
  - unfold bind, lift. destruct (mod_callback_steps i cs) as [r|e]; [|discriminate].
    destruct r as [|r|r]; simpl.
    + intros H. apply call_ok_inv in H. tauto.
    + intros H. inversion H; subst. rewrite app_nil_r. auto.
    + intros H. inversion H; subst. rewrite app_nil_r. auto.
  - intros H. inversion H; subst. rewrite app_nil_r. auto.
Qed.

Lemma cm_loop_body_ok :
  forall cl g cb cs i t sample w sample1 w1,
    CM.loop_body cl g cb cs i t sample w = (Ok sample1, w1) ->
    frames w1 = frames w /\
    exists scaled out,
      returned (sched_scale_model_input sample t) scaled /\
      returned (cm_unet scaled t cl) out /\
      returned (sched_step out t sample None (Some g)) sample1 /\
      log w1 = log w ++ [EvScaleModelInput sample t; EvUnet scaled t cl;
                         EvSchedulerStep out t sample; EvProgressUpdate]
                     ++ callback_event cb cs i t sample1.
Proof.
  intros cl g cb cs i t sample w sample1 w1 H. unfold CM.loop_body in H.
  apply bind_ok_inv in H. destruct H as [scaled [wa [Ha H]]].
  apply bind_ok_inv in H. destruct H as [out [wb [Hb H]]].
  apply bind_ok_inv in H. destruct H as [s1 [wc [Hc H]]].
  apply bind_ok_inv in H. destruct H as [u [wd [Hd H]]].
  apply bind_ok_inv in H. destruct H as [u' [we [He H]]].
  inversion H; subst; clear H.
  apply call_ok_inv in Ha. destruct Ha as [Ra [La Fa]].
  apply call_ok_inv in Hb. destruct Hb as [Rb [Lb Fb]].
  apply call_ok_inv in Hc. destruct Hc as [Rc [Lc Fc]].
  inversion Hd; subst; clear Hd. simpl in He.
  apply callback_ok_inv in He. destruct He as [Le Fe]. simpl in Le, Fe.
  split; [congruence|].
  exists scaled, out. repeat split.
  - eexists _, _; eauto.
  - eexists _, _; eauto.
  - eexists _, _; eauto.
  - rewrite Le, Lc, Lb, La. rewrite <- !app_assoc. reflexivity.
Qed.

Lemma cm_loop_ok :
  forall cl g cb cs its sample w sample' w',
    CM.denoising_loop cl g cb cs its sample w = (Ok sample', w') ->
    frames w' = frames w /\
    exists tr, log w' = log w ++ tr /\ cm_loop_trace cl g cb cs its sample tr sample'.
Proof.
  intros cl g cb cs its. induction its as [|[i t] its IH]; intros sample w sample' w' H.
  - inversion H; subst. split; auto. exists []. rewrite app_nil_r.
    split; auto. constructor.
  - simpl in H. apply bind_ok_inv in H. destruct H as [s1 [w1 [Hb H]]].
    apply cm_loop_body_ok in Hb.
    destruct Hb as [F1 [scaled [out [R1 [R2 [R3 L1]]]]]].
    apply IH in H. destruct H as [F2 [tr [L2 T]]].
    split; [congruence|].
    eexists. split; [|econstructor; eauto].
    rewrite L2, L1. rewrite <- !app_assoc. reflexivity.
Qed.

Lemma progress_due_ok :
  forall len_timesteps num_warmup_steps i w b w1,
    (if i =? len_timesteps - 1 then ret true
     else if i + 1 >? num_warmup_steps then
       r <- lift (Py.mod_ (i + 1) sched_order) ;;
       ret (r =? 0)
     else ret false) w = (Ok b, w1) ->
    b = progress_due len_timesteps num_warmup_steps i /\ w1 = w.
Proof.
  intros L W i w b w1. unfold progress_due.
  destruct (i =? L - 1); simpl.
  - intros H. inversion H; auto.
  - destruct (i + 1 >? W); simpl.
    + unfold bind, lift, Py.mod_. destruct (sched_order =? 0); [discriminate|].
      intros H. inversion H; auto.
    + intros H. inversion H; auto.
Qed.

Lemma sd_loop_body_ok :
  forall gs pe kw extra L W cb cs i t latents w latents1 w1,
    SD.loop_body (Py.gt gs Py.one) gs pe kw extra L W cb cs i t latents w
      = (Ok latents1, w1) ->
    frames w1 = frames w /\
    exists scaled out,
      returned (sched_scale_model_input (model_input gs latents) t) scaled /\
      returned (sd_unet scaled t pe kw) out /\
      returned (sched_step (guided_prediction gs out) t latents (fst extra) (snd extra))
               latents1 /\
      log w1 = log w ++ [EvScaleModelInput (model_input gs latents) t;
                         EvUnet scaled t (Some pe);
                         EvSchedulerStep (guided_prediction gs out) t latents]
                     ++ (if progress_due L W i
                         then EvProgressUpdate :: callback_event cb cs i t latents1
                         else []).
Proof.
  intros gs pe kw extra L W cb cs i t latents w latents1 w1 H.
  unfold SD.loop_body in H. cbv zeta in H.
  apply bind_ok_inv in H. destruct H as [scaled [wa [Ha H]]].
  apply bind_ok_inv in H. destruct H as [out [wb [Hb H]]].
  apply bind_ok_inv in H. destruct H as [l1 [wc [Hc H]]].
  apply bind_ok_inv in H. destruct H as [b [wd [Hd H]]].
  apply bind_ok_inv in H. destruct H as [u [we [He H]]].
  inversion H; subst; clear H.
  apply call_ok_inv in Ha. destruct Ha as [Ra [La Fa]].
  apply call_ok_inv in Hb. destruct Hb as [Rb [Lb Fb]].
  apply call_ok_inv in Hc. destruct Hc as [Rc [Lc Fc]].
  apply progress_due_ok in Hd. destruct Hd as [Hd1 Hd2]. subst b wd.
  assert (Hg : (if Py.gt gs Py.one
                then let (u0, c0) := chunk2 out in tadd u0 (smul gs (tsub c0 u0))
                else out) = guided_prediction gs out).
  { unfold guided_prediction. destruct (Py.gt gs Py.one); auto.
    destruct (chunk2 out); reflexivity. }
  rewrite Hg in *.
  fold (model_input gs latents) in *.
  assert (Hlog : log w1 = log wc ++ (if progress_due L W i
                                     then EvProgressUpdate :: callback_event cb cs i t latents1
                                     else [])
                 /\ frames w1 = frames wc).
  { destruct (progress_due L W i); simpl in He.
    - apply bind_ok_inv in He. destruct He as [u1 [wf [Hf He]]].
      inversion Hf; subst; clear Hf.
      apply callback_ok_inv in He. simpl in He. destruct He as [Le Fe].
      rewrite Le. rewrite <- app_assoc. auto.
    - inversion He; subst. rewrite app_nil_r. auto. }
  destruct Hlog as [Le Fe].
  split; [congruence|].
  exists scaled, out. repeat split.
  - eexists _, _; eauto.
  - eexists _, _; eauto.
  - eexists _, _; eauto.
  - rewrite Le, Lc, Lb, La. rewrite <- !app_assoc. reflexivity.
Qed.

Lemma sd_loop_ok :
  forall gs pe kw extra L W cb cs its latents w latents' w',
    SD.denoising_loop (Py.gt gs Py.one) gs pe kw extra L W cb cs its latents w
      = (Ok latents', w') ->
    frames w' = frames w /\
    exists tr,
      log w' = log w ++ tr /\
      sd_loop_trace gs pe kw extra L W cb cs its latents tr latents'.
Proof.
  intros gs pe kw extra L W cb cs its.
  induction its as [|[i t] its IH]; intros latents w latents' w' H.
  - inversion H; subst. split; auto. exists []. rewrite app_nil_r.
    split; auto. constructor.
  - simpl in H. apply bind_ok_inv in H. destruct H as [l1 [w1 [Hb H]]].
    apply sd_loop_body_ok in Hb.
    destruct Hb as [F1 [scaled [out [R1 [R2 [R3 L1]]]]]].
    apply IH in H. destruct H as [F2 [tr [L2 T]]].
    split; [congruence|].
    eexists. split; [|econstructor; eauto].
    rewrite L2, L1. rewrite <- !app_assoc. reflexivity.
Qed.

End Loops.

(** ** The consistency pipeline: validation and [__call__] *)

Section Consistency.
Context {C : Collaborators}.

Lemma log_more_nil : forall w, log_more w [] = w.
Proof. intros [e l f]. unfold log_more. simpl. rewrite app_nil_r. reflexivity. Qed.

Lemma cm_check_inputs_ok :
  forall n ts lat bs img cs w u w1,
    CM.check_inputs n ts lat bs img cs w = (Ok u, w1) ->
    (n <> None \/ ts <> None) /\
    lat = None /\
    valid_callback_steps cs /\
    w1 = log_more w (cm_warning n ts).
Proof.
  intros n ts lat bs img cs w u w1 H. unfold CM.check_inputs in H.
  apply bind_ok_inv in H. destruct H as [u1 [w2 [H1 H]]].
  apply bind_ok_inv in H. destruct H as [u2 [w3 [H2 H]]].
  apply bind_ok_inv in H. destruct H as [u3 [w4 [H3 H]]].
  assert (Hn : n <> None \/ ts <> None).
  { destruct n, ts; try (left; discriminate); try (right; discriminate). }
  assert (E2 : w2 = w) by (destruct n, ts; inversion H1; reflexivity).
  subst w2.
  assert (E3 : w3 = log_more w (cm_warning n ts)).
  { unfold cm_warning. destruct n, ts; inversion H2; try reflexivity;
      rewrite log_more_nil; reflexivity. }
  assert (Hl : lat = None /\ w4 = w3).
  { destruct lat as [l|].
    - cbn in H3. discriminate H3.
    - inversion H3; subst. split; reflexivity. }
  destruct Hl as [Hl E4]. subst w4.
  assert (Hc : valid_callback_steps cs /\ w1 = w3).
  { destruct cs as [|k|]; try discriminate H.
    destruct (k <=? 0) eqn:K; inversion H; subst.
    split; auto. exists k. split; auto. apply Z.leb_gt in K. lia. }
  destruct Hc as [Hc E1]. subst. auto.
Qed.

Lemma cm_check_inputs_accepts :
  forall n ts bs img cs w,
    (n <> None \/ ts <> None) ->
    valid_callback_steps cs ->
    CM.check_inputs n ts None bs img cs w = (Ok tt, log_more w (cm_warning n ts)).
Proof.
  intros n ts bs img cs w Hn [k [Hk Hpos]]. subst cs.
  unfold CM.check_inputs, bind, raise, ret, emit, log_more, cm_warning.
  assert (K : (k <=? 0) = false) by (apply Z.leb_gt; lia).
  destruct n as [n|], ts as [ts|]; simpl;
    try (exfalso; destruct Hn as [Hn|Hn]; apply Hn; reflexivity);
    rewrite K; try reflexivity;
    destruct w; simpl; rewrite ?app_nil_r; reflexivity.
Qed.

(** Supplied latents never pass: their [shape] is a list, the expected
    shape a tuple. *)
Lemma cm_check_inputs_rejects_latents :
  forall n ts l bs img cs w,
    CM.check_inputs n ts (Some l) bs img cs w
      = (Raise ValueError, log_more w (cm_warning n ts)).
Proof.
  intros n ts l bs img cs w.
  unfold CM.check_inputs, bind, raise, ret, emit, log_more, cm_warning.
  destruct n as [n|], ts as [ts|]; simpl; try reflexivity;
    destruct w; simpl; rewrite ?app_nil_r; reflexivity.
Qed.

Lemma cm_prepare_latents_given :
  forall bs ch h wd d g l w,
    match g with
    | Some (inr gl) => Py.len gl = bs
    | _ => True
    end ->
    CM.prepare_latents bs ch h wd d g (Some l) w
      = (Ok (smul (sched_init_noise_sigma (env w)) (cast l d)), w).
Proof.
  intros bs ch h wd d g l w Hg.
  unfold CM.prepare_latents, bind, when, raise, ret, read.
  destruct g as [[g|gl]|]; simpl; try reflexivity.
  rewrite Hg, Z.eqb_refl. reflexivity.
Qed.

Lemma cm_prepare_latents_fresh :
  forall bs ch h wd d g w,
    match g with
    | Some (inr gl) => Py.len gl = bs
    | _ => True
    end ->
    CM.prepare_latents bs ch h wd d g None w
      = match randn_tensor [bs; ch; h; wd] g d (env w) with
        | (Ok noise, e') =>
            (Ok (smul (sched_init_noise_sigma e') noise),
             {| env := e'; log := log w ++ [EvRandn [bs; ch; h; wd] d];
                frames := frames w |})
        | (Raise e, e') =>
            (Raise e,
             {| env := e'; log := log w ++ [EvRandn [bs; ch; h; wd] d];
                frames := frames w |})
        end.
Proof.
  intros bs ch h wd d g w Hg.
  unfold CM.prepare_latents, bind, when, raise, ret, read, call.
  destruct g as [[g|gl]|]; simpl;
    try (rewrite Hg, Z.eqb_refl; simpl);
    match goal with |- context [randn_tensor ?s ?g ?d ?e] =>
      destruct (randn_tensor s g d e) as [[x|x] e']; reflexivity end.
Qed.

Lemma cm_prepare_latents_generator_mismatch :
  forall bs ch h wd d gl lat w,
    Py.len gl <> bs ->
    CM.prepare_latents bs ch h wd d (Some (inr gl)) lat w = (Raise ValueError, w).
Proof.
  intros bs ch h wd d gl lat w Hg.
  unfold CM.prepare_latents, bind, when, raise, ret.
  apply Z.eqb_neq in Hg. rewrite Hg. reflexivity.
Qed.

Lemma only_nil : forall d, forallb (only []) d = true -> d = [].
Proof. intros [|ev d]; auto. simpl. discriminate. Qed.

Lemma enter_ok :
  forall ph p w u w1,
    enter ph p w = (Ok u, w1) ->
    env w1 = env w /\ log w1 = log w /\ frames w1 = frames w ++ [(ph, p)].
Proof. intros ph p w u w1 H. inversion H; subst. simpl. auto. Qed.

(** A completed consistency [__call__], phase by phase. *)
Lemma cm_call_ok :
  forall a w out w',
    CM.__call__ a w = (Ok out, w') ->
    exists pre e e' labels sample tr sample',
      (CM.num_inference_steps a <> None \/ CM.timesteps a <> None) /\
      valid_callback_steps (CM.callback_steps a) /\
      forallb (only [KRandn; KRandint]) pre = true /\
      sched_set_timesteps
        (match CM.timesteps a with Some _ => None | None => CM.num_inference_steps a end)
        (CM.timesteps a) e = (Ok tt, e') /\
      log w' = log w ++ cm_warning (CM.num_inference_steps a) (CM.timesteps a) ++ pre
                 ++ [EvSetTimesteps
                       (match CM.timesteps a with
                        | Some _ => None
                        | None => CM.num_inference_steps a
                        end)
                       (CM.timesteps a);
                     EvProgressBar
                       (match CM.timesteps a with
                        | Some _ => Some (Py.len (sched_timesteps e'))
                        | None => CM.num_inference_steps a
                        end)]
                 ++ tr /\
      cm_loop_trace labels (CM.generator a) (CM.callback a) (CM.callback_steps a)
        (Py.enumerate (sched_timesteps e')) sample tr sample'.
Proof.
  intros a w out w' H. unfold CM.__call__ in H. cbv zeta in H.
  apply bind_ok_inv in H. destruct H as [u0 [w0 [H0 H]]].
  apply bind_ok_inv in H. destruct H as [u1 [w1 [H1 H]]].
  apply bind_ok_inv in H. destruct H as [u2 [w2 [H2 H]]].
  apply bind_ok_inv in H. destruct H as [sample [w3 [H3 H]]].
  apply bind_ok_inv in H. destruct H as [u4 [w4 [H4 H]]].
  apply bind_ok_inv in H. destruct H as [labels [w5 [H5 H]]].
  apply bind_ok_inv in H. destruct H as [u6 [w6 [H6 H]]].
  apply bind_ok_inv in H. destruct H as [[tsched nis] [w7 [H7 H]]].
  apply bind_ok_inv in H. destruct H as [u8 [w8 [H8 H]]].
  apply bind_ok_inv in H. destruct H as [u9 [w9 [H9 H]]].
  apply bind_ok_inv in H. destruct H as [sample' [w10 [H10 H]]].
  apply bind_ok_inv in H. destruct H as [u11 [w11 [H11 H]]].
  apply bind_ok_inv in H. destruct H as [img [w12 [H12 H]]].
  apply enter_ok in H0. destruct H0 as [E0 [L0 F0]].
  apply cm_check_inputs_ok in H1. destruct H1 as [Hn [Hl [Hc E1]]].
  apply enter_ok in H2. destruct H2 as [E2 [L2 F2]].
  eapply logs_only_run in H3; [|apply cm_prepare_latents_logs].
  destruct H3 as [F3 [d3 [L3 P3]]].
  apply enter_ok in H4. destruct H4 as [E4 [L4 F4]].
  eapply logs_only_run in H5; [|apply cm_prepare_class_labels_logs].
  destruct H5 as [F5 [d5 [L5 P5]]].
  apply enter_ok in H6. destruct H6 as [E6 [L6 F6]].
  apply enter_ok in H8. destruct H8 as [E8 [L8 F8]].
  inversion H9; subst u9 w9; clear H9.
  apply cm_loop_ok in H10. destruct H10 as [F10 [tr [L10 T10]]].
  apply enter_ok in H11. destruct H11 as [E11 [L11 F11]].
  eapply logs_only_run in H12; [|apply cm_postprocess_image_logs].
  destruct H12 as [F12 [d12 [L12 P12]]].
  apply only_nil in P12. subst d12. rewrite app_nil_r in L12.
  assert (Hw : w' = w12) by (destruct (CM.return_dict a); inversion H; reflexivity).
  subst w'. simpl in L10.
  assert (Hpre : forallb (only [KRandn; KRandint]) (d3 ++ d5) = true).
  { rewrite forallb_app. apply andb_true_intro. split.
    - rewrite forallb_forall in *. intros ev Hev.
      eapply only_incl; [|apply P3; exact Hev]. simpl. tauto.
    - rewrite forallb_forall in *. intros ev Hev.
      eapply only_incl; [|apply P5; exact Hev]. simpl. tauto. }
  assert (Lpre : log w6 = log w ++ cm_warning (CM.num_inference_steps a) (CM.timesteps a)
                            ++ (d3 ++ d5)).
  { rewrite L6, L5, L4, L3, L2, E1. simpl. rewrite L0.
    rewrite <- !app_assoc. reflexivity. }
  destruct (CM.timesteps a) as [ts|] eqn:Ets.
  - apply bind_ok_inv in H7. destruct H7 as [u7 [wa [Ha H7]]].
    apply bind_ok_inv in H7. destruct H7 as [ts' [wb [Hb H7]]].
    apply call_ok_inv in Ha. destruct Ha as [Ra [La Fa]].
    inversion Hb; subst ts' wb; clear Hb.
    inversion H7; subst tsched nis w7; clear H7. destruct u7.
    exists (d3 ++ d5), (env w6), (env wa), labels, sample, tr, sample'.
    repeat split; auto.
    rewrite L12, L11, L10, L8, La, Lpre. rewrite <- !app_assoc. reflexivity.
  - apply bind_ok_inv in H7. destruct H7 as [u7 [wa [Ha H7]]].
    apply bind_ok_inv in H7. destruct H7 as [ts' [wb [Hb H7]]].
    apply call_ok_inv in Ha. destruct Ha as [Ra [La Fa]].
    inversion Hb; subst ts' wb; clear Hb.
    inversion H7; subst tsched nis w7; clear H7. destruct u7.
    exists (d3 ++ d5), (env w6), (env wa), labels, sample, tr, sample'.
    repeat split; auto.
    rewrite L12, L11, L10, L8, La, Lpre. rewrite <- !app_assoc. reflexivity.
Qed.

(** C6. Consistency pipeline: with neither [num_inference_steps] nor
    [timesteps] the call raises [ValueError] before any collaborator is
    called.  With both (and no [latents], which validation never lets
    through), validation logs a warning and goes on; the scheduler
    is then configured from [timesteps] alone ([num_inference_steps] is not
    passed), this is its first call, and the step count the loop reports and
    runs is the length of the scheduler's timestep sequence. *)
Theorem C6_steps_or_timesteps :
  forall (a : CM.Args) (w : World),
    (CM.num_inference_steps a = None -> CM.timesteps a = None ->
     exists w',
       CM.__call__ a w = (Raise ValueError, w') /\
       env w' = env w /\ log w' = log w) /\
    (forall n ts,
       CM.num_inference_steps a = Some n -> CM.timesteps a = Some ts ->
       CM.latents a = None ->
       valid_callback_steps (CM.callback_steps a) ->
       CM.check_inputs (CM.num_inference_steps a) (CM.timesteps a) (CM.latents a)
                       (CM.batch_size a) cm_sample_size (CM.callback_steps a) w
         = (Ok tt, log_more w [EvWarning "timesteps will be used over num_inference_steps"])) /\
    (forall n ts out w',
       CM.num_inference_steps a = Some n -> CM.timesteps a = Some ts ->
       CM.__call__ a w = (Ok out, w') ->
       exists pre e e' labels sample tr sample',
         forallb (only [KRandn; KRandint]) pre = true /\
         sched_set_timesteps None (Some ts) e = (Ok tt, e') /\
         log w' = log w
                    ++ [EvWarning "timesteps will be used over num_inference_steps"]
                    ++ pre
                    ++ [EvSetTimesteps None (Some ts);
                        EvProgressBar (Some (Py.len (sched_timesteps e')))]
                    ++ tr /\
         cm_loop_trace labels (CM.generator a) (CM.callback a) (CM.callback_steps a)
           (Py.enumerate (sched_timesteps e')) sample tr sample').
Proof.
  intros a w. split; [|split].
  - intros Hn Hts. unfold CM.__call__. cbv zeta.
    unfold bind at 1. simpl.
    unfold bind at 1. unfold CM.check_inputs.
    rewrite Hn, Hts. simpl. eexists. split; [reflexivity|]. simpl. auto.
  - intros n ts Hn Hts Hl Hc. rewrite Hl.
    rewrite cm_check_inputs_accepts; auto.
    + rewrite Hn, Hts. reflexivity.
    + left. rewrite Hn. discriminate.
  - intros n ts out w' Hn Hts H.
    apply cm_call_ok in H.
    destruct H as [pre [e [e' [labels [sample [tr [sample' H]]]]]]].
    destruct H as [_ [_ [Hpre [Hset [Hlog Htr]]]]].
    rewrite Hn, Hts in *. simpl in Hlog.
    exists pre, e, e', labels, sample, tr, sample'. auto.
Qed.

Lemma generator_list_matches :
  forall (g : GeneratorArg) bs,
    generator_list_mismatch g bs = false ->
    match g with
    | Some (inr gl) => Py.len gl = bs
    | _ => True
    end.
Proof.
  intros [[g|gl]|] bs H; cbn in *; auto.
  apply negb_false_iff in H. apply Z.eqb_eq in H. exact H.
Qed.

(** C2 (as amended). Consistency pipeline, [prepare_latents]: a generator
    list whose length is not the batch size raises [ValueError] at once.
    Otherwise caller-supplied latents are cast to the target dtype and then
    multiplied by the scheduler's [init_noise_sigma], the scaling freshly
    sampled noise gets too; nothing is sampled and no collaborator is
    called, so no noise is added. *)
Theorem C2_given_latents_are_cast_and_scaled :
  forall bs ch h wd (d : DType) (g : GeneratorArg) (l : Tensor) (w : World),
    CM.prepare_latents bs ch h wd d g (Some l) w
      = ((if generator_list_mismatch g bs then Raise ValueError
          else Ok (smul (sched_init_noise_sigma (env w)) (cast l d))), w) /\
    forall r w',
      CM.prepare_latents bs ch h wd d g None w = (r, w') ->
      if generator_list_mismatch g bs then r = Raise ValueError /\ w' = w
      else
        log w' = log w ++ [EvRandn [bs; ch; h; wd] d] /\
        forall x, r = Ok x ->
          exists noise e,
            randn_tensor [bs; ch; h; wd] g d e = (Ok noise, env w') /\
            x = smul (sched_init_noise_sigma (env w')) noise.
Proof.
  intros bs ch h wd d g l w.
  destruct (generator_list_mismatch g bs) eqn:Hm.
  - assert (Hg : exists gl, g = Some (inr gl) /\ Py.len gl <> bs).
    { destruct g as [[g|gl]|]; try discriminate Hm. exists gl. split; [reflexivity|].
      cbn in Hm. apply negb_true_iff in Hm. apply Z.eqb_neq in Hm. exact Hm. }
    destruct Hg as [gl [-> Hne]]. split.
    + apply cm_prepare_latents_generator_mismatch. exact Hne.
    + intros r w' H.
      rewrite cm_prepare_latents_generator_mismatch in H by exact Hne.
      inversion H; subst. split; reflexivity.
  - apply generator_list_matches in Hm. split.
    + apply cm_prepare_latents_given. exact Hm.
    + intros r w' H. rewrite cm_prepare_latents_fresh in H by exact Hm.
      destruct (randn_tensor [bs; ch; h; wd] g d (env w)) as [[noise|e] e'] eqn:E;
        inversion H; subst; clear H; simpl.
      * split; auto. intros x Hx. inversion Hx; subst.
        exists noise, (env w). auto.
      * split; auto. intros x Hx. discriminate.
Qed.

(** C10. Consistency pipeline: [check_inputs] compares [latents.shape], a
    list, with the tuple [(batch_size, 3, sample_size, sample_size)].  A
    list and a tuple are unequal whatever they hold, so every
    caller-supplied latents tensor is rejected with [ValueError], one of
    exactly that shape included, and [__call__] ends there, before any
    model or scheduler call.  Without [latents], fresh ones are drawn with
    [in_channels] channels. *)
Theorem C10_supplied_latents_are_always_rejected :
  forall (a : CM.Args) (w : World),
    let expected := [CM.batch_size a; 3; cm_sample_size; cm_sample_size] in
    let fresh := [CM.batch_size a; cm_in_channels; cm_sample_size; cm_sample_size] in
    let warned := log_more w (cm_warning (CM.num_inference_steps a) (CM.timesteps a)) in
    (forall l,
       CM.latents a = Some l ->
       Py.ints_ne (Py.PyList (shape l)) (Py.PyTuple expected) = true /\
       CM.check_inputs (CM.num_inference_steps a) (CM.timesteps a) (Some l)
         (CM.batch_size a) cm_sample_size (CM.callback_steps a) w
         = (Raise ValueError, warned) /\
       exists w',
         CM.__call__ a w = (Raise ValueError, w') /\
         env w' = env w /\ log w' = log warned) /\
    (CM.latents a = None ->
     (CM.num_inference_steps a <> None \/ CM.timesteps a <> None) ->
     valid_callback_steps (CM.callback_steps a) ->
     match CM.generator a with
     | Some (inr gl) => Py.len gl = CM.batch_size a
     | _ => True
     end ->
     forall r w',
       CM.__call__ a w = (r, w') ->
       exists rest, log w' = log warned ++ EvRandn fresh cm_unet_dtype :: rest).
Proof.
  intros a w expected fresh warned. split.
  - intros l Hl. split; [reflexivity|]. split.
    + apply cm_check_inputs_rejects_latents.
    + unfold CM.__call__. cbv zeta. unfold bind at 1. simpl.
      erewrite bind_raise.
      2:{ rewrite Hl. apply cm_check_inputs_rejects_latents. }
      eexists. split; [reflexivity|]. simpl. auto.
  - intros Hl Hn Hc Hg r w' H. unfold CM.__call__ in H. cbv zeta in H.
    unfold bind at 1 in H. simpl in H.
    rewrite Hl in H.
    erewrite bind_ok in H.
    2:{ apply cm_check_inputs_accepts; auto. }
    unfold bind at 1 in H. simpl in H.
    unfold bind at 1 in H.
    rewrite cm_prepare_latents_fresh in H by exact Hg. simpl in H.
    match type of H with
    | context [randn_tensor ?s ?g ?d ?e] =>
        destruct (randn_tensor s g d e) as [[noise|e0] e1] eqn:E
    end.
    + match type of H with
      | ?k ?x ?w1 = _ =>
          assert (Hk : yields (fun _ => True) (fun _ => True) (k x))
      end.
      { cbv beta.
        repeat first
          [ apply yields_enter; exact I
          | apply yields_emit; exact I
          | apply yields_call; exact I
          | apply yields_ret
          | apply yields_read
          | eapply yields_weaken;
            [ | | first [ apply cm_prepare_class_labels_logs
                        | apply cm_denoising_loop_logs
                        | apply cm_postprocess_image_logs ] ];
            [ intros; exact I | intros; exact I ]
          | apply yields_bind; [| intros ?]
          | match goal with
            | |- yields _ _ (match ?x with _ => _ end) => destruct x
            end ]. }
      destruct (Hk _ _ _ H) as [_ [d [L _]]]. simpl in L.
      exists d. rewrite L. rewrite <- app_assoc. reflexivity.
    + inversion H; subst. simpl. exists []. reflexivity.
Qed.

End Consistency.

(** ** The image2image pipeline: validation and [__call__] *)

Section Img2Img.
Context {C : Collaborators}.

Lemma sd_check_inputs_raises_ValueError :
  forall p s cs np pe npe (w : World) e w1,
    SD.check_inputs p s cs np pe npe w = (Raise e, w1) -> e = ValueError /\ w1 = w.
Proof.
  intros p s cs np pe npe w e w1.
  unfold SD.check_inputs, bind, when, raise, ret.
  destruct (Py.lt s Py.zero || Py.gt s Py.one); [intros H; inversion H; auto|].
  destruct cs as [|n|]; try (intros H; inversion H; auto; fail).
  destruct (n <=? 0); [intros H; inversion H; auto|].
  destruct p as [[| |]|], pe as [pe|]; try (intros H; inversion H; auto; fail);
    destruct np as [np|], npe as [npe|]; try (intros H; inversion H; auto; fail);
    try (destruct (list_eq_dec Z.eq_dec (shape pe) (shape npe));
         intros H; inversion H; auto).
Qed.

Lemma sd_check_inputs_ok :
  forall p s cs np pe npe (w : World) u w1,
    SD.check_inputs p s cs np pe npe w = (Ok u, w1) ->
    w1 = w /\
    Py.lt s Py.zero = false /\ Py.gt s Py.one = false /\
    valid_callback_steps cs /\
    ((exists s0, p = Some (PStr s0) /\ pe = None) \/
     (exists l, p = Some (PList l) /\ pe = None) \/
     (exists t, p = None /\ pe = Some t)).
Proof.
  intros p s cs np pe npe w u w1 H. unfold SD.check_inputs in H.
  apply bind_ok_inv in H. destruct H as [u1 [w2 [H1 H]]].
  apply bind_ok_inv in H. destruct H as [u2 [w3 [H2 H]]].
  apply bind_ok_inv in H. destruct H as [u3 [w4 [H3 H]]].
  apply bind_ok_inv in H. destruct H as [u4 [w5 [H4 H]]].
  destruct (Py.lt s Py.zero || Py.gt s Py.one) eqn:Es; [discriminate H1|].
  apply orb_false_elim in Es. destruct Es as [Elt Egt].
  inversion H1; subst w2; clear H1.
  assert (Hc : valid_callback_steps cs /\ w3 = w).
  { destruct cs as [|k|]; try discriminate H2.
    destruct (k <=? 0) eqn:K; inversion H2; subst.
    split; auto. exists k. split; auto. apply Z.leb_gt in K. lia. }
  destruct Hc as [Hc E3]. subst w3.
  assert (Hp : ((exists s0, p = Some (PStr s0) /\ pe = None) \/
                (exists l, p = Some (PList l) /\ pe = None) \/
                (exists t, p = None /\ pe = Some t)) /\ w4 = w).
  { destruct p as [[s0|l|]|], pe as [t|]; inversion H3; subst; split; auto.
    - left. eauto.
    - right. left. eauto.
    - right. right. eauto. }
  destruct Hp as [Hp E4]. subst w4.
  assert (E5 : w5 = w) by (destruct np, npe; inversion H4; reflexivity).
  subst w5.
  assert (E1 : w1 = w).
  { destruct pe as [t|], npe as [t'|]; try (inversion H; reflexivity).
    destruct (list_eq_dec Z.eq_dec (shape t) (shape t')); inversion H; reflexivity. }
  auto.
Qed.

(** C7. Image2image: with both [prompt] and [prompt_embeds], or with
    neither, validation raises [ValueError], and so does the call, before
    any collaborator (model, scheduler, generator) is called. *)
Theorem C7_prompt_xor_prompt_embeds :
  forall (a : SD.Args) (w : World),
    (SD.prompt a <> None /\ SD.prompt_embeds a <> None) \/
    (SD.prompt a = None /\ SD.prompt_embeds a = None) ->
    SD.check_inputs (SD.prompt a) (SD.strength a) (SD.callback_steps a)
      (SD.negative_prompt a) (SD.prompt_embeds a) (SD.negative_prompt_embeds a) w
      = (Raise ValueError, w) /\
    exists w',
      SD.__call__ a w = (Raise ValueError, w') /\
      env w' = env w /\ log w' = log w.
Proof.
  intros a w Hp.
  assert (Hci : forall w0 : World,
            SD.check_inputs (SD.prompt a) (SD.strength a) (SD.callback_steps a)
              (SD.negative_prompt a) (SD.prompt_embeds a)
              (SD.negative_prompt_embeds a) w0 = (Raise ValueError, w0)).
  { intros w0.
    destruct (SD.check_inputs (SD.prompt a) (SD.strength a) (SD.callback_steps a)
                (SD.negative_prompt a) (SD.prompt_embeds a)
                (SD.negative_prompt_embeds a) w0) as [[u|e] w1] eqn:E.
    - apply sd_check_inputs_ok in E.
      destruct E as [_ [_ [_ [_ [[s0 [E1 E2]]|[[l [E1 E2]]|[t [E1 E2]]]]]]]];
        destruct Hp as [[Hp1 Hp2]|[Hp1 Hp2]]; congruence.
    - apply sd_check_inputs_raises_ValueError in E. destruct E; subst. reflexivity. }
  split; [apply Hci|].
  unfold SD.__call__. cbv zeta. unfold bind at 1. simpl.
  erewrite bind_raise by apply Hci.
  eexists. split; [reflexivity|]. simpl. auto.
Qed.

Lemma forallb_only_incl :
  forall ks ks' (d : list Event),
    (forall k, In k ks -> In k ks') ->
    forallb (only ks) d = true -> forallb (only ks') d = true.
Proof.
  intros ks ks' d Hin H. rewrite forallb_forall in *.
  intros ev Hev. eapply only_incl; eauto.
Qed.

(** A completed image2image [__call__], phase by phase. *)
Lemma sd_call_ok :
  forall a w out w',
    SD.__call__ a w = (Ok out, w') ->
    exists pre post pe ts n' latents0 tr latents',
      valid_callback_steps (SD.callback_steps a) /\
      Py.lt (SD.strength a) Py.zero = false /\
      Py.gt (SD.strength a) Py.one = false /\
      forallb (only [KTextEncoder; KPreprocess; KSetTimesteps; KVaeEncode;
                     KWarning; KRandn; KAddNoise]) pre = true /\
      forallb (only [KVaeDecode; KSafetyChecker; KPostprocess]) post = true /\
      (exists w1 w2,
         SD._encode_prompt (SD.prompt a) (SD.num_images_per_prompt a)
           (Py.gt (SD.guidance_scale a) Py.one) (SD.negative_prompt a)
           (SD.prompt_embeds a) (SD.negative_prompt_embeds a)
           (match SD.cross_attention_kwargs a with
            | Some kw => kwargs_scale kw
            | None => None
            end) w1 = (Ok pe, w2)) /\
      (exists w1 w2,
         SD.get_timesteps (SD.num_inference_steps a) (SD.strength a) w1
           = (Ok (ts, n'), w2)) /\
      log w' = log w ++ pre ++ [EvProgressBar (Some n')] ++ tr ++ post /\
      sd_loop_trace (SD.guidance_scale a) pe (SD.cross_attention_kwargs a)
        (SD.prepare_extra_step_kwargs (SD.generator a) (SD.eta a))
        (Py.len ts) (Py.len ts - n' * sched_order)
        (SD.callback a) (SD.callback_steps a)
        (Py.enumerate ts) latents0 tr latents'.
Proof.
  intros a w out w' H. unfold SD.__call__ in H. cbv zeta in H.
  apply bind_ok_inv in H. destruct H as [u0 [w0 [H0 H]]].
  apply bind_ok_inv in H. destruct H as [u1 [w1 [H1 H]]].
  apply bind_ok_inv in H. destruct H as [u2 [w2 [H2 H]]].
  apply bind_ok_inv in H. destruct H as [bs [w3 [H3 H]]].
  apply bind_ok_inv in H. destruct H as [u4 [w4 [H4 H]]].
  apply bind_ok_inv in H. destruct H as [pe [w5 [H5 H]]].
  apply bind_ok_inv in H. destruct H as [u6 [w6 [H6 H]]].
  apply bind_ok_inv in H. destruct H as [im [w7 [H7 H]]].
  apply bind_ok_inv in H. destruct H as [u8 [w8 [H8 H]]].
  apply bind_ok_inv in H. destruct H as [u9 [w9 [H9 H]]].
  apply bind_ok_inv in H. destruct H as [[ts n'] [w10 [H10 H]]].
  apply bind_ok_inv in H. destruct H as [u11 [w11 [H11 H]]].
  apply bind_ok_inv in H. destruct H as [latents0 [w12 [H12 H]]].
  apply bind_ok_inv in H. destruct H as [u13 [w13 [H13 H]]].
  apply bind_ok_inv in H. destruct H as [u14 [w14 [H14 H]]].
  apply bind_ok_inv in H. destruct H as [u15 [w15 [H15 H]]].
  apply bind_ok_inv in H. destruct H as [latents' [w16 [H16 H]]].
  apply bind_ok_inv in H. destruct H as [u17 [w17 [H17 H]]].
  apply bind_ok_inv in H. destruct H as [[img nsfw] [w18 [H18 H]]].
  apply bind_ok_inv in H. destruct H as [dd [w19 [H19 H]]].
  apply bind_ok_inv in H. destruct H as [img' [w20 [H20 H]]].
  assert (Hw : w' = w20) by (destruct (SD.return_dict a); inversion H; reflexivity).
  subst w'. clear H.
  apply enter_ok in H0. destruct H0 as [E0 [L0 F0]].
  pose proof H1 as H1'.
  apply sd_check_inputs_ok in H1. destruct H1 as [E1 [Hlt [Hgt [Hc _]]]]. subst w1.
  apply enter_ok in H2. destruct H2 as [E2 [L2 F2]].
  assert (L3 : log w3 = log w2).
  { assert (Hy : logs_only []
              (match SD.prompt a with
               | Some (PStr _) => ret 1
               | Some (PList l) => ret (Py.len l)
               | _ => match SD.prompt_embeds a with
                      | Some pe0 => lift (Py.index (shape pe0) 0)
                      | None => raise AttributeError
                      end
               end)) by yields_auto.
    eapply logs_only_run in H3; [|exact Hy].
    destruct H3 as [_ [d [L P]]]. apply only_nil in P. subst d.
    rewrite app_nil_r in L. exact L. }
  apply enter_ok in H4. destruct H4 as [E4 [L4 F4]].
  pose proof H5 as H5'.
  eapply logs_only_run in H5; [|apply sd_encode_prompt_logs].
  destruct H5 as [F5 [d5 [L5 P5]]].
  apply enter_ok in H6. destruct H6 as [E6 [L6 F6]].
  apply call_ok_inv in H7. destruct H7 as [R7 [L7 F7]].
  apply enter_ok in H8. destruct H8 as [E8 [L8 F8]].
  apply call_ok_inv in H9. destruct H9 as [R9 [L9 F9]].
  pose proof H10 as H10'.
  eapply logs_only_run in H10; [|apply sd_get_timesteps_logs].
  destruct H10 as [F10 [d10 [L10 P10]]]. apply only_nil in P10. subst d10.
  rewrite app_nil_r in L10.
  apply enter_ok in H11. destruct H11 as [E11 [L11 F11]].
  eapply logs_only_run in H12; [|apply sd_prepare_latents_logs].
  destruct H12 as [F12 [d12 [L12 P12]]].
  apply enter_ok in H13. destruct H13 as [E13 [L13 F13]].
  apply enter_ok in H14. destruct H14 as [E14 [L14 F14]].
  inversion H15; subst u15 w15; clear H15.
  apply sd_loop_ok in H16. destruct H16 as [F16 [tr [L16 T16]]]. simpl in L16.
  apply enter_ok in H17. destruct H17 as [E17 [L17 F17]].
  assert (L18 : exists d18, log w18 = log w17 ++ d18 /\
                            forallb (only [KVaeDecode; KPostprocess; KSafetyChecker]) d18
                            = true).
  { assert (Hy : logs_only [KVaeDecode; KPostprocess; KSafetyChecker]
              (if negb (String.eqb (SD.output_type a) "latent")
               then
                 image <- call (EvVaeDecode (sdiv latents' vae_scaling_factor))
                               (vae_decode (sdiv latents' vae_scaling_factor)) ;;
                 SD.run_safety_checker image (dtype pe)
               else ret (latents', None))).
    { yields_auto. eapply logs_only_incl; [|apply sd_run_safety_checker_logs].
      simpl. tauto. }
    eapply logs_only_run in H18; [|exact Hy]. destruct H18 as [_ Hd]. exact Hd. }
  destruct L18 as [d18 [L18 P18]].
  assert (L19 : log w19 = log w18).
  { assert (Hy : logs_only []
              (match nsfw with
               | None =>
                   n <- lift (Py.index (shape img) 0) ;;
                   ret (repeat true (Z.to_nat n))
               | Some flags => ret (map negb flags)
               end)) by yields_auto.
    eapply logs_only_run in H19; [|exact Hy].
    destruct H19 as [_ [d [L P]]]. apply only_nil in P. subst d.
    rewrite app_nil_r in L. exact L. }
  apply call_ok_inv in H20. destruct H20 as [R20 [L20 F20]].
  exists (d5 ++ [EvPreprocess]
             ++ [EvSetTimesteps (Some (SD.num_inference_steps a)) None] ++ d12),
         (d18 ++ [EvPostprocess (SD.output_type a)]),
         pe, ts, n', latents0, tr, latents'.
  split; [exact Hc|]. split; [exact Hlt|]. split; [exact Hgt|].
  split.
  { rewrite !forallb_app. simpl.
    apply andb_true_intro. split.
    - eapply forallb_only_incl; [|exact P5]. simpl. tauto.
    - eapply forallb_only_incl; [|exact P12]. simpl. tauto. }
  split.
  { rewrite !forallb_app. simpl. rewrite andb_true_r.
    eapply forallb_only_incl; [|exact P18]. simpl. tauto. }
  split; [eexists _, _; exact H5'|].
  split; [eexists _, _; exact H10'|].
  split; [|exact T16].
  rewrite L20, L19, L18, L17, L16, L14, L13, L12, L11, L10, L9, L8, L7, L6, L5, L4, L3,
    L2, L0.
  rewrite <- !app_assoc. reflexivity.
Qed.

End Img2Img.

(** ** The callback schedule and the guidance rule *)

Section Schedules.
Context {C : Collaborators}.

Lemma map_fst_enumerate_from :
  forall {A} (l : list A) i,
    map fst (Py.enumerate_from i l)
      = map (fun k => i + Z.of_nat k) (seq 0 (List.length l)).
Proof.
  intros A l. induction l as [|x l IH]; intros i; simpl; auto.
  rewrite Z.add_0_r. f_equal. rewrite IH, <- seq_shift, map_map.
  apply map_ext. intros k. lia.
Qed.

Lemma map_fst_enumerate :
  forall {A} (l : list A), map fst (Py.enumerate l) = Py.range (Py.len l).
Proof.
  intros A l. unfold Py.enumerate, Py.range, Py.len.
  rewrite map_fst_enumerate_from, Nat2Z.id. apply map_ext. intros k. lia.
Qed.

Lemma callback_indices_app :
  forall d1 d2, callback_indices (d1 ++ d2) = callback_indices d1 ++ callback_indices d2.
Proof. intros. unfold callback_indices. apply flat_map_app. Qed.

Lemma callback_indices_none :
  forall ks d,
    ~ In KCallback ks -> forallb (only ks) d = true -> callback_indices d = [].
Proof.
  intros ks d Hks. induction d as [|ev d IH]; simpl; auto.
  intros H. apply andb_prop in H. destruct H as [Hev Hd].
  rewrite (IH Hd), app_nil_r.
  destruct ev; auto.
  exfalso. apply Hks. unfold only in Hev. apply existsb_exists in Hev.
  destruct Hev as [k [Hk Hb]]. simpl in Hb. destruct k; try discriminate. exact Hk.
Qed.

Lemma callback_indices_event :
  forall {cbT} (cb : cbT) k i t x,
    k <> 0 ->
    callback_indices (callback_event (Some cb) (CSInt k) i t x)
      = if i mod k =? 0 then [i] else [].
Proof.
  intros cbT cb k i t x Hk. unfold callback_event, mod_callback_steps, Py.mod_.
  apply Z.eqb_neq in Hk. rewrite Hk.
  destruct (i mod k) as [|p|p]; reflexivity.
Qed.

Lemma cm_trace_callbacks :
  forall cl g cb k its sample tr sample',
    k <> 0 ->
    cm_loop_trace cl g (Some cb) (CSInt k) its sample tr sample' ->
    callback_indices tr = filter (fun i => i mod k =? 0) (map fst its).
Proof.
  intros cl g cb k its sample tr sample' Hk T.
  induction T as [|i t its sample scaled out sample1 tr sample' R1 R2 R3 T IH]; auto.
  rewrite !callback_indices_app, IH. rewrite (callback_indices_event cb i t sample1 Hk).
  simpl. destruct (i mod k =? 0); reflexivity.
Qed.

Lemma sd_trace_callbacks :
  forall gs pe kw extra L W cb k its latents tr latents',
    k <> 0 ->
    sd_loop_trace gs pe kw extra L W (Some cb) (CSInt k) its latents tr latents' ->
    callback_indices tr
      = filter (fun i => progress_due L W i && (i mod k =? 0)) (map fst its).
Proof.
  intros gs pe kw extra L W cb k its latents tr latents' Hk T.
  induction T as [|i t its latents scaled out latents1 tr latents' R1 R2 R3 T IH]; auto.
  rewrite !callback_indices_app, IH. cbn [map fst filter].
  destruct (progress_due L W i).
  - change (EvProgressUpdate :: callback_event (Some cb) (CSInt k) i t latents1)
      with ([EvProgressUpdate] ++ callback_event (Some cb) (CSInt k) i t latents1).
    rewrite callback_indices_app, (callback_indices_event cb i t latents1 Hk).
    simpl. destruct (i mod k =? 0); reflexivity.
  - reflexivity.
Qed.

(** C4 (as amended). With a callback and a valid [callback_steps = k], a
    completed consistency call invokes the callback exactly at the
    iterations [i] with [i % k == 0]; a completed image2image call invokes
    it exactly at those of them at which the progress bar is updated (the
    last iteration, or [i + 1 > num_warmup_steps] and [(i + 1) % order == 0]).
    The last iteration is notified only if its index is a multiple of [k]. *)
Theorem C4_callback_schedule :
  (forall (a : CM.Args) (w : World) cb out w',
     CM.callback a = Some cb ->
     CM.__call__ a w = (Ok out, w') ->
     exists k e e' d,
       CM.callback_steps a = CSInt k /\ 0 < k /\
       sched_set_timesteps
         (match CM.timesteps a with Some _ => None | None => CM.num_inference_steps a end)
         (CM.timesteps a) e = (Ok tt, e') /\
       log w' = log w ++ d /\
       callback_indices d
         = filter (fun i => i mod k =? 0) (Py.range (Py.len (sched_timesteps e')))) /\
  (forall (a : SD.Args) (w : World) cb out w',
     SD.callback a = Some cb ->
     SD.__call__ a w = (Ok out, w') ->
     exists k ts n' d,
       SD.callback_steps a = CSInt k /\ 0 < k /\
       (exists w1 w2,
          SD.get_timesteps (SD.num_inference_steps a) (SD.strength a) w1
            = (Ok (ts, n'), w2)) /\
       log w' = log w ++ d /\
       callback_indices d
         = filter (fun i =>
                     progress_due (Py.len ts) (Py.len ts - n' * sched_order) i
                     && (i mod k =? 0))
                  (Py.range (Py.len ts))).
Proof.
  split.
  - intros a w cb out w' Hcb H. apply cm_call_ok in H.
    destruct H as [pre [e [e' [labels [sample [tr [sample' H]]]]]]].
    destruct H as [_ [[k [Hk Hpos]] [Hpre [Hset [Hlog Htr]]]]].
    exists k, e, e'. eexists. split; [exact Hk|]. split; [exact Hpos|].
    split; [exact Hset|]. split; [exact Hlog|].
    rewrite Hcb, Hk in Htr.
    apply cm_trace_callbacks in Htr; [|lia].
    rewrite !callback_indices_app, Htr, map_fst_enumerate.
    assert (Hp : callback_indices pre = []).
    { eapply callback_indices_none; [|exact Hpre].
      simpl. intros [E|[E|[]]]; discriminate E. }
    rewrite Hp.
    assert (Hw : callback_indices
                   (cm_warning (CM.num_inference_steps a) (CM.timesteps a)) = []).
    { unfold cm_warning. destruct (CM.num_inference_steps a), (CM.timesteps a); reflexivity. }
    rewrite Hw. reflexivity.
  - intros a w cb out w' Hcb H. apply sd_call_ok in H.
    destruct H as [pre [post [pe [ts [n' [latents0 [tr [latents' H]]]]]]]].
    destruct H as [[k [Hk Hpos]] [_ [_ [Hpre [Hpost [_ [Hts [Hlog Htr]]]]]]]].
    exists k, ts, n'. eexists. split; [exact Hk|]. split; [exact Hpos|].
    split; [exact Hts|]. split; [exact Hlog|].
    rewrite Hcb, Hk in Htr.
    apply sd_trace_callbacks in Htr; [|lia].
    rewrite !callback_indices_app, Htr, map_fst_enumerate.
    assert (Hp : callback_indices pre = []).
    { eapply callback_indices_none; [|exact Hpre].
      simpl. intros [E|[E|[E|[E|[E|[E|[E|[]]]]]]]]; discriminate E. }
    assert (Hq : callback_indices post = []).
    { eapply callback_indices_none; [|exact Hpost].
      simpl. intros [E|[E|[E|[]]]]; discriminate E. }
    rewrite Hp, Hq.
    simpl. rewrite app_nil_r. reflexivity.
Qed.


End Schedules.

(** ** Image2image latent preparation *)

Section LatentPreparation.
Context {C : Collaborators}.

Lemma sd_expand_multiple :
  forall bs init n0 (w : World),
    Py.index (shape init) 0 = Ok n0 -> n0 < bs -> n0 <> 0 -> bs mod n0 = 0 ->
    SD.expand_init_latents bs init w
      = (Ok (concat (repeat init (Z.to_nat (bs / n0)))), log_more w expand_warning).
Proof.
  intros bs init n0 w Hn Hlt Hz Hm.
  unfold SD.expand_init_latents, bind, lift, emit, ret, Py.mod_, Py.floordiv.
  rewrite Hn. apply Z.gtb_lt in Hlt. rewrite Hlt.
  apply Z.eqb_neq in Hz. rewrite Hz. rewrite Hm. simpl. reflexivity.
Qed.

Lemma sd_expand_not_multiple :
  forall bs init n0 (w : World),
    Py.index (shape init) 0 = Ok n0 -> n0 < bs -> n0 <> 0 -> bs mod n0 <> 0 ->
    SD.expand_init_latents bs init w = (Raise ValueError, w).
Proof.
  intros bs init n0 w Hn Hlt Hz Hm.
  unfold SD.expand_init_latents, bind, lift, raise, Py.mod_.
  rewrite Hn. apply Z.gtb_lt in Hlt. rewrite Hlt.
  apply Z.eqb_neq in Hz. rewrite Hz.
  apply Z.eqb_neq in Hm. rewrite Hm. reflexivity.
Qed.

Lemma sd_expand_enough :
  forall bs init n0 (w : World),
    Py.index (shape init) 0 = Ok n0 -> bs <= n0 ->
    SD.expand_init_latents bs init w = (Ok (concat [init]), w).
Proof.
  intros bs init n0 w Hn Hle.
  unfold SD.expand_init_latents, bind, lift, ret.
  rewrite Hn. assert (G : (bs >? n0) = false) by (rewrite Z.gtb_ltb; apply Z.ltb_ge; lia).
  rewrite G. reflexivity.
Qed.

(** [prepare_latents] once the image is encoded and brought to the batch
    size: the noise is drawn, then added. *)
Lemma sd_prepare_latents_tail :
  forall image ts b n d g (w w1 w2 : World) init x r w',
    SD.encode_image (cast image d) (b * n) g w = (Ok init, w1) ->
    SD.expand_init_latents (b * n) init w1 = (Ok x, w2) ->
    SD.prepare_latents (SD.ImTensor image) ts b n d g w = (r, w') ->
    (exists rest, log w' = log w2 ++ EvRandn (shape x) d :: rest) /\
    forall y, r = Ok y -> exists noise, returned (sched_add_noise x noise ts) y.
Proof.
  intros image ts b n d g w w1 w2 init x r w' He Hx H.
  unfold SD.prepare_latents in H. cbv zeta in H.
  unfold bind at 1 in H. simpl in H.
  erewrite bind_ok in H by exact He.
  erewrite bind_ok in H by exact Hx.
  unfold bind, call, ret in H.
  destruct (randn_tensor (shape x) g d (env w2)) as [[noise|e] e1].
  - simpl in H.
    destruct (sched_add_noise x noise ts e1) as [[y|e] e2] eqn:E;
      inversion H; subst; clear H; simpl.
    + split.
      * eexists. rewrite <- app_assoc. reflexivity.
      * intros y0 Hy. inversion Hy; subst. exists noise. eexists _, _. exact E.
    + split.
      * eexists. rewrite <- app_assoc. reflexivity.
      * intros y0 Hy. discriminate.
  - inversion H; subst; clear H. simpl. split.
    + exists []. reflexivity.
    + intros y0 Hy. discriminate.
Qed.

Lemma sd_expand_no_source :
  forall bs init (w : World),
    Py.index (shape init) 0 = Ok 0 -> 0 < bs ->
    SD.expand_init_latents bs init w = (Raise ZeroDivisionError, w).
Proof.
  intros bs init w Hn Hlt.
  unfold SD.expand_init_latents, bind, lift, raise, Py.mod_.
  rewrite Hn. apply Z.gtb_lt in Hlt. rewrite Hlt. reflexivity.
Qed.

(** C8 (as amended). Image2image latent preparation, effective batch size
    [bs = batch_size * num_images_per_prompt] above the number [n0] of
    encoded source latents.  For [n0 >= 1] they are replicated, [bs // n0]
    times, exactly when [bs % n0 == 0], and the latents then have batch
    dimension [bs]; otherwise [ValueError] is raised and nothing further is
    called.  For [n0 = 0] the test [bs % n0] raises [ZeroDivisionError].
    (The batch dimensions are those of a framework whose [concat] adds them
    up and a scheduler whose [add_noise] keeps the shape.) *)
Theorem C8_replication_needs_an_exact_multiple :
  forall (image : Tensor) (ts : list Timestep) (b n : Z) (d : DType)
         (g : GeneratorArg) (w w1 : World) (init : Tensor) (n0 : Z),
    SD.encode_image (cast image d) (b * n) g w = (Ok init, w1) ->
    Py.index (shape init) 0 = Ok n0 ->
    0 <= n0 -> n0 < b * n ->
    (forall x k m,
       Py.index (shape x) 0 = Ok m ->
       Py.index (shape (concat (repeat x k))) 0 = Ok (Z.of_nat k * m)) ->
    (forall x noise t e y e',
       sched_add_noise x noise t e = (Ok y, e') -> shape y = shape x) ->
    let replicated := concat (repeat init (Z.to_nat ((b * n) / n0))) in
    (0 < n0 -> (b * n) mod n0 = 0 ->
     SD.expand_init_latents (b * n) init w1
       = (Ok replicated, log_more w1 expand_warning) /\
     Py.index (shape replicated) 0 = Ok (b * n) /\
     forall r w',
       SD.prepare_latents (SD.ImTensor image) ts b n d g w = (r, w') ->
       (exists rest,
          log w' = log w1 ++ expand_warning ++ EvRandn (shape replicated) d :: rest) /\
       forall y, r = Ok y -> Py.index (shape y) 0 = Ok (b * n)) /\
    (0 < n0 -> (b * n) mod n0 <> 0 ->
     SD.expand_init_latents (b * n) init w1 = (Raise ValueError, w1) /\
     SD.prepare_latents (SD.ImTensor image) ts b n d g w = (Raise ValueError, w1)) /\
    (n0 = 0 ->
     SD.expand_init_latents (b * n) init w1 = (Raise ZeroDivisionError, w1) /\
     SD.prepare_latents (SD.ImTensor image) ts b n d g w
       = (Raise ZeroDivisionError, w1)).
Proof.
  intros image ts b n d g w w1 init n0 He Hn Hpos Hlt Hcat Hnoise replicated.
  split; [|split].
  - intros Hp Hm.
    assert (Hx : SD.expand_init_latents (b * n) init w1
                 = (Ok replicated, log_more w1 expand_warning))
      by (apply sd_expand_multiple; auto; lia).
    assert (Hb : Py.index (shape replicated) 0 = Ok (b * n)).
    { unfold replicated. rewrite (Hcat _ _ _ Hn). f_equal.
      rewrite Z2Nat.id by (apply Z.div_pos; lia).
      rewrite Z.mul_comm. symmetry. apply Z.div_exact; [lia | exact Hm]. }
    split; [exact Hx|]. split; [exact Hb|].
    intros r w' H.
    eapply sd_prepare_latents_tail in H; [|exact He|exact Hx].
    destruct H as [[rest L] Hy].
    split.
    + exists rest. rewrite L. simpl. rewrite <- app_assoc. reflexivity.
    + intros y Ey. destruct (Hy y Ey) as [noise [e [e' R]]].
      rewrite (Hnoise _ _ _ _ _ _ R). exact Hb.
  - intros Hp Hm.
    assert (Hx : SD.expand_init_latents (b * n) init w1 = (Raise ValueError, w1))
      by (apply sd_expand_not_multiple with (n0 := n0); auto; lia).
    split; [exact Hx|].
    unfold SD.prepare_latents. cbv zeta.
    unfold bind at 1. simpl.
    erewrite bind_ok by exact He.
    erewrite bind_raise by exact Hx. reflexivity.
  - intros Hz. subst n0.
    assert (Hx : SD.expand_init_latents (b * n) init w1 = (Raise ZeroDivisionError, w1))
      by (apply sd_expand_no_source; assumption).
    split; [exact Hx|].
    unfold SD.prepare_latents. cbv zeta.
    unfold bind at 1. simpl.
    erewrite bind_ok by exact He.
    erewrite bind_raise by exact Hx. reflexivity.
Qed.

Lemma sd_encode_image_latent_shaped :
  forall image bs g (w : World),
    Py.index (shape image) 1 = Ok 4 ->
    SD.encode_image image bs g w = (Ok image, w).
Proof.
  intros image bs g w H. unfold SD.encode_image, bind, lift, ret.
  rewrite H. reflexivity.
Qed.

Lemma sd_encode_image_generator_mismatch :
  forall image bs gl (w : World) c,
    Py.index (shape image) 1 = Ok c -> c <> 4 -> Py.len gl <> bs ->
    SD.encode_image image bs (Some (inr gl)) w = (Raise ValueError, w).
Proof.
  intros image bs gl w c H Hc Hg. unfold SD.encode_image, bind, lift, raise.
  rewrite H. apply Z.eqb_neq in Hc. rewrite Hc.
  apply Z.eqb_neq in Hg. rewrite Hg. reflexivity.
Qed.

(** Where the length of a generator list is looked at.  A generator list
    of the wrong length makes the consistency [prepare_latents] raise
    [ValueError] at once, and the image2image one too when the image has to
    be encoded; but for an image
    that is latent-shaped already (4 channels) the length is never looked
    at: the run goes on to draw the noise with that list. *)
Lemma generator_list_check_by_branch :
  (forall bs ch h wd d gl lat (w : World),
     Py.len gl <> bs ->
     CM.prepare_latents bs ch h wd d (Some (inr gl)) lat w = (Raise ValueError, w)) /\
  (forall image ts b n d gl (w : World) c,
     Py.index (shape (cast image d)) 1 = Ok c -> c <> 4 ->
     Py.len gl <> b * n ->
     SD.prepare_latents (SD.ImTensor image) ts b n d (Some (inr gl)) w
       = (Raise ValueError, w)) /\
  (forall image ts b n d gl (w : World) r w',
     Py.index (shape (cast image d)) 1 = Ok 4 ->
     Py.index (shape (cast image d)) 0 = Ok (b * n) ->
     SD.prepare_latents (SD.ImTensor image) ts b n d (Some (inr gl)) w = (r, w') ->
     exists rest,
       log w' = log w ++ EvRandn (shape (concat [cast image d])) d :: rest).
Proof.
  split; [|split].
  - intros. apply cm_prepare_latents_generator_mismatch. assumption.
  - intros image ts b n d gl w c Hc Hne Hg.
    unfold SD.prepare_latents. cbv zeta. unfold bind at 1. simpl.
    erewrite bind_raise; [reflexivity|].
    eapply sd_encode_image_generator_mismatch; eauto.
  - intros image ts b n d gl w r w' Hc Hb H.
    eapply sd_prepare_latents_tail in H.
    + destruct H as [H _]. exact H.
    + apply sd_encode_image_latent_shaped. exact Hc.
    + eapply sd_expand_enough; [exact Hb | lia].
Qed.

End LatentPreparation.

(** ** The timestep adapter *)

Section TimestepAdapter.
Context {C : Collaborators}.

Lemma sd_get_timesteps_run :
  forall n s v (w : World),
    rbind (Py.int_mul_float n s) Py.int_of_float = Ok v ->
    SD.get_timesteps n s w
      = (Ok (Py.slice_from (Z.max (n - Z.min v n) 0 * sched_order)
                           (sched_timesteps (env w)),
             n - Z.max (n - Z.min v n) 0), w).
Proof.
  intros n s v w H. unfold SD.get_timesteps, bind, lift, read, ret.
  destruct (Py.int_mul_float n s) as [x|e]; [|discriminate H].
  simpl in H. rewrite H. reflexivity.
Qed.

Lemma len_slice_from :
  forall {A} (l : list A) k,
    0 <= k -> Py.len (Py.slice_from k l) = Z.max 0 (Py.len l - k).
Proof.
  intros A l k Hk. unfold Py.slice_from, Py.len.
  assert (E : (k <? 0) = false) by (apply Z.ltb_ge; lia). rewrite E.
  rewrite length_skipn. lia.
Qed.

(** C1 (as amended). For a binary64 [strength] in [[0, 1]] and a positive
    [num_inference_steps] within the double range, [get_timesteps] returns:
    with [effective_step_count = min(int(num_inference_steps * strength),
    num_inference_steps)], the product truncated, not rounded, and
    [start_index = max(num_inference_steps - effective_step_count, 0)], the
    tail of the scheduler's timesteps from [start_index * order], and the
    count [num_inference_steps - start_index].  The tail has
    [(num_inference_steps - start_index) * order] entries when the
    scheduler's schedule has [num_inference_steps * order]. *)
Theorem C1_get_timesteps :
  forall (n : Z) (s x : Py.float) (w : World),
    0 < n -> Py.float_of_int n = Ok x ->
    Py.valid s = true -> Py.le Py.zero s = true -> Py.le s Py.one = true ->
    exists v,
      Py.int_of_float (Py.mul x s) = Ok v /\
      let effective_step_count := Z.min v n in
      let start_index := Z.max (n - effective_step_count) 0 in
      let tail := Py.slice_from (start_index * sched_order) (sched_timesteps (env w)) in
      0 <= effective_step_count <= n /\
      start_index = n - effective_step_count /\
      SD.get_timesteps n s w = (Ok (tail, n - start_index), w) /\
      (0 <= sched_order ->
       Py.len tail
         = Z.max 0 (Py.len (sched_timesteps (env w)) - start_index * sched_order)) /\
      (0 <= sched_order ->
       Py.len (sched_timesteps (env w)) = n * sched_order ->
       Py.len tail = (n - start_index) * sched_order).
Proof.
  intros n s x w Hn Hx Hv H0 H1.
  destruct (@int_of_scaled_steps n s x Hn Hx Hv H0 H1) as [v [Ev Hpos]].
  exists v. split; [exact Ev|]. cbv zeta.
  assert (Hrun : rbind (Py.int_mul_float n s) Py.int_of_float = Ok v).
  { unfold Py.int_mul_float. rewrite Hx. simpl. exact Ev. }
  split; [lia|]. split; [lia|].
  split; [apply sd_get_timesteps_run; exact Hrun|].
  split.
  - intros Ho. apply len_slice_from. nia.
  - intros Ho Hlen. rewrite len_slice_from by nia. rewrite Hlen. nia.
Qed.

End TimestepAdapter.

(** * Further properties of the pipelines *)

Unset Implicit Arguments.

(** ** The recorded frames are not looked at *)

Section FrameBlind.
Context {C : Collaborators}.

Lemma same_effects_refl : forall w : World, same_effects w w.
Proof. intros w. split; reflexivity. Qed.

Lemma blind_ret : forall {A} (a : A), frame_blind (ret a).
Proof.
  intros A a w1 w2 r w1' Hs H. inversion H; subst.
  exists w2. split; [reflexivity | exact Hs].
Qed.

Lemma blind_raise : forall {A} e, frame_blind (@raise _ A e).
Proof.
  intros A e w1 w2 r w1' Hs H. inversion H; subst.
  exists w2. split; [reflexivity | exact Hs].
Qed.

Lemma blind_lift : forall {A} (x : result A), frame_blind (lift x).
Proof.
  intros A x w1 w2 r w1' Hs H. inversion H; subst.
  exists w2. split; [reflexivity | exact Hs].
Qed.

Lemma blind_read : forall {A} (f : Env -> A), frame_blind (read f).
Proof.
  intros A f w1 w2 r w1' [He Hl] H. unfold read in *. inversion H; subst.
  exists w2. rewrite He. split; [reflexivity | split; assumption].
Qed.

Lemma blind_update : forall (f : Env -> Env), frame_blind (update f).
Proof.
  intros f w1 w2 r w1' [He Hl] H. unfold update in *. inversion H; subst.
  eexists. split; [reflexivity|]. split; simpl; congruence.
Qed.

Lemma blind_emit : forall ev, frame_blind (emit ev).
Proof.
  intros ev w1 w2 r w1' [He Hl] H. unfold emit in *. inversion H; subst.
  eexists. split; [reflexivity|]. split; simpl; congruence.
Qed.

Lemma blind_call :
  forall {A} ev (f : Env -> result A * Env), frame_blind (call ev f).
Proof.
  intros A ev f w1 w2 r w1' [He Hl] H. unfold call in *. rewrite <- He.
  destruct (f (env w1)) as [r0 e0]. inversion H; subst.
  eexists. split; [reflexivity|]. split; simpl; congruence.
Qed.

(** Entering a phase changes the frames only, whatever is recorded. *)
Lemma blind_enter :
  forall ph p ph' p' (w1 w2 : World) r w1',
    same_effects w1 w2 -> enter ph p w1 = (r, w1') ->
    exists w2', enter ph' p' w2 = (r, w2') /\ same_effects w1' w2'.
Proof.
  intros ph p ph' p' w1 w2 r w1' [He Hl] H. unfold enter in *. inversion H; subst.
  eexists. split; [reflexivity|]. split; simpl; assumption.
Qed.

Lemma blind_bind :
  forall {A B} (m : M A) (k : A -> M B),
    frame_blind m -> (forall a, frame_blind (k a)) -> frame_blind (bind m k).
Proof.
  intros A B m k Hm Hk w1 w2 r w1' Hs H. unfold bind in *.
  destruct (m w1) as [[a|e] wa] eqn:E.
  - destruct (Hm _ _ _ _ Hs E) as [wb [Eb Hsb]]. rewrite Eb.
    apply (Hk a _ _ _ _ Hsb H).
  - destruct (Hm _ _ _ _ Hs E) as [wb [Eb Hsb]]. rewrite Eb.
    inversion H; subst. exists wb. split; [reflexivity | exact Hsb].
Qed.

Lemma blind_when :
  forall b (m : M unit), frame_blind m -> frame_blind (when b m).
Proof. intros [|] m Hm; [exact Hm | apply blind_ret]. Qed.

Lemma blind_mapM :
  forall {A B} (f : A -> M B) l,
    (forall x, frame_blind (f x)) -> frame_blind (mapM f l).
Proof.
  intros A B f l Hf. induction l as [|x l IH]; simpl.
  - apply blind_ret.
  - apply blind_bind; [apply Hf|]. intros y.
    apply blind_bind; [exact IH|]. intros ys. apply blind_ret.
Qed.

End FrameBlind.

Ltac blind_step :=
  lazymatch goal with
  | |- frame_blind (bind _ _) => apply blind_bind; [| intros ?]
  | |- frame_blind (ret _) => apply blind_ret
  | |- frame_blind (raise _) => apply blind_raise
  | |- frame_blind (lift _) => apply blind_lift
  | |- frame_blind (read _) => apply blind_read
  | |- frame_blind (update _) => apply blind_update
  | |- frame_blind (emit _) => apply blind_emit
  | |- frame_blind (call _ _) => apply blind_call
  | |- frame_blind (when _ _) => apply blind_when
  | |- frame_blind (mapM _ _) => apply blind_mapM; intros ?
  | |- frame_blind (match ?x with _ => _ end) => destruct x
  | |- frame_blind (let _ := _ in _) => cbv zeta
  end.

Ltac blind_auto := repeat blind_step.

Section FrameBlindPhases.
Context {C : Collaborators}.

Lemma cm_check_inputs_blind :
  forall n ts lat bs img cs, frame_blind (CM.check_inputs n ts lat bs img cs).
Proof. intros. unfold CM.check_inputs. blind_auto. Qed.

Lemma cm_prepare_latents_blind :
  forall bs ch h w d g lat, frame_blind (CM.prepare_latents bs ch h w d g lat).
Proof. intros. unfold CM.prepare_latents. blind_auto. Qed.

Lemma cm_prepare_class_labels_blind :
  forall bs cl, frame_blind (CM.prepare_class_labels bs cl).
Proof. intros. unfold CM.prepare_class_labels. blind_auto. Qed.

Lemma cm_loop_body_blind :
  forall cl g cb cs i t x, frame_blind (CM.loop_body cl g cb cs i t x).
Proof. intros. unfold CM.loop_body. blind_auto. Qed.

Lemma cm_denoising_loop_blind :
  forall cl g cb cs its x, frame_blind (CM.denoising_loop cl g cb cs its x).
Proof.
  intros cl g cb cs its. induction its as [|[i t] its IH]; intros x; simpl.
  - apply blind_ret.
  - apply blind_bind; [apply cm_loop_body_blind | intros y; apply IH].
Qed.

Lemma cm_postprocess_image_pure :
  forall x o (w : World) r w1, CM.postprocess_image x o w = (r, w1) -> w1 = w.
Proof.
  intros x o w r w1 H. unfold CM.postprocess_image in H.
  destruct (negb _); [inversion H; reflexivity|].
  cbv zeta in H.
  destruct (String.eqb o "pd"); [inversion H; reflexivity|].
  destruct (String.eqb o "np"); inversion H; reflexivity.
Qed.

Lemma cm_postprocess_image_unsupported :
  forall x o (w : World),
    cm_supported_output_type o = false ->
    CM.postprocess_image x o w = (Raise ValueError, w).
Proof.
  intros x o w H. unfold CM.postprocess_image.
  unfold cm_supported_output_type in H. rewrite H. reflexivity.
Qed.

End FrameBlindPhases.

(** ** The consistency pipeline: what is checked when *)

Section ConsistencyFurther.
Context {C : Collaborators}.

(** One step of two runs that differ in the recorded frames only. *)
Lemma blind_ok :
  forall {A} (m : M A) (w1 w2 : World) a w1',
    frame_blind m -> same_effects w1 w2 -> m w1 = (Ok a, w1') ->
    exists w2', m w2 = (Ok a, w2') /\ same_effects w1' w2'.
Proof. intros A m w1 w2 a w1' Hm Hs H. exact (Hm _ _ _ _ Hs H). Qed.

(** The consistency pipeline validates [output_type] last, in
    [postprocess_image]: [check_inputs] does not look at it.  With an
    [output_type] other than ['pd'], ['np'] and ['pil'] the call never
    returns; and where the call with a supported [output_type] completes,
    the call with the unsupported one makes the same collaborator calls,
    the whole denoising loop included, and then raises [ValueError]. *)
Theorem cm_output_type_is_checked_after_the_loop :
  forall (a : CM.Args) (w : World),
    cm_supported_output_type (CM.output_type a) = false ->
    (forall r w', CM.__call__ a w = (r, w') -> is_ok r = false) /\
    (forall o out w',
       CM.__call__ (cm_with_output_type a o) w = (Ok out, w') ->
       exists w'',
         CM.__call__ a w = (Raise ValueError, w'') /\
         env w'' = env w' /\ log w'' = log w').
Proof.
  intros a w Hu.
  assert (Hpost : forall x (w0 : World),
            CM.postprocess_image x (CM.output_type a) w0 = (Raise ValueError, w0))
    by (intros; apply cm_postprocess_image_unsupported; exact Hu).
  split.
  - intros [out|e] w' H; [|reflexivity]. exfalso.
    unfold CM.__call__ in H. cbv zeta in H.
    do 7 (apply bind_ok_inv in H; destruct H as [? [? [_ H]]]).
    apply bind_ok_inv in H. destruct H as [[tsched nis] [? [_ H]]].
    do 4 (apply bind_ok_inv in H; destruct H as [? [? [_ H]]]).
    apply bind_ok_inv in H. destruct H as [img [w12 [H12 _]]].
    rewrite Hpost in H12. discriminate H12.
  - intros o out w' H.
    unfold CM.__call__ in H. cbv zeta in H.
    cbn [cm_with_output_type CM.batch_size CM.class_labels CM.num_inference_steps
         CM.timesteps CM.generator CM.latents CM.output_type CM.return_dict
         CM.callback CM.callback_steps] in H.
    unfold CM.__call__. cbv zeta.
    pose proof (same_effects_refl w) as S.
    (* enter, check_inputs *)
    apply bind_ok_inv in H. destruct H as [u0 [w0 [H0 H]]].
    eapply blind_enter in H0; [|exact S]. destruct H0 as [v0 [R0 S0]].
    erewrite bind_ok by exact R0. clear S.
    apply bind_ok_inv in H. destruct H as [u1 [w1 [H1 H]]].
    eapply blind_ok in H1; [|apply cm_check_inputs_blind|exact S0].
    destruct H1 as [v1 [R1 S1]]. erewrite bind_ok by exact R1. clear S0.
    (* enter, prepare_latents *)
    apply bind_ok_inv in H. destruct H as [u2 [w2 [H2 H]]].
    eapply blind_enter in H2; [|exact S1]. destruct H2 as [v2 [R2 S2]].
    erewrite bind_ok by exact R2. clear S1.
    apply bind_ok_inv in H. destruct H as [sample [w3 [H3 H]]].
    eapply blind_ok in H3; [|apply cm_prepare_latents_blind|exact S2].
    destruct H3 as [v3 [R3 S3]]. erewrite bind_ok by exact R3. clear S2.
    (* enter, prepare_class_labels *)
    apply bind_ok_inv in H. destruct H as [u4 [w4 [H4 H]]].
    eapply blind_enter in H4; [|exact S3]. destruct H4 as [v4 [R4 S4]].
    erewrite bind_ok by exact R4. clear S3.
    apply bind_ok_inv in H. destruct H as [labels [w5 [H5 H]]].
    eapply blind_ok in H5; [|apply cm_prepare_class_labels_blind|exact S4].
    destruct H5 as [v5 [R5 S5]]. erewrite bind_ok by exact R5. clear S4.
    (* enter, set_timesteps *)
    apply bind_ok_inv in H. destruct H as [u6 [w6 [H6 H]]].
    eapply blind_enter in H6; [|exact S5]. destruct H6 as [v6 [R6 S6]].
    erewrite bind_ok by exact R6. clear S5.
    apply bind_ok_inv in H. destruct H as [[tsched nis] [w7 [H7 H]]].
    eapply blind_ok in H7; [| |exact S6].
    2:{ destruct (CM.timesteps a); blind_auto. }
    destruct H7 as [v7 [R7 S7]]. erewrite bind_ok by exact R7. clear S6.
    (* enter, progress bar, loop *)
    apply bind_ok_inv in H. destruct H as [u8 [w8 [H8 H]]].
    eapply blind_enter in H8; [|exact S7]. destruct H8 as [v8 [R8 S8]].
    erewrite bind_ok by exact R8. clear S7.
    apply bind_ok_inv in H. destruct H as [u9 [w9 [H9 H]]].
    eapply blind_ok in H9; [|apply blind_emit|exact S8].
    destruct H9 as [v9 [R9 S9]]. erewrite bind_ok by exact R9. clear S8.
    apply bind_ok_inv in H. destruct H as [sample' [w10 [H10 H]]].
    eapply blind_ok in H10; [|apply cm_denoising_loop_blind|exact S9].
    destruct H10 as [v10 [R10 S10]]. erewrite bind_ok by exact R10. clear S9.
    (* enter, postprocess_image *)
    apply bind_ok_inv in H. destruct H as [u11 [w11 [H11 H]]].
    eapply blind_enter in H11; [|exact S10]. destruct H11 as [v11 [R11 S11]].
    erewrite bind_ok by exact R11. clear S10.
    apply bind_ok_inv in H. destruct H as [img [w12 [H12 H]]].
    apply cm_postprocess_image_pure in H12. subst w12.
    assert (Hw : w' = w11) by (destruct (CM.return_dict a); inversion H; reflexivity).
    subst w'.
    erewrite bind_raise by apply Hpost.
    exists v11. destruct S11 as [Se Sl].
    split; [reflexivity|]. split; congruence.
Qed.

End ConsistencyFurther.

(** ** Validation: [callback_steps] and [strength] *)

Section ValidationFurther.
Context {C : Collaborators}.

Lemma cm_check_inputs_raises :
  forall n ts lat bs img cs (w : World) e w1,
    CM.check_inputs n ts lat bs img cs w = (Raise e, w1) ->
    e = ValueError /\ env w1 = env w /\ log w1 = log w ++ cm_warning n ts.
Proof.
  intros n ts lat bs img cs w e w1 H. unfold CM.check_inputs in H.
  assert (Hnil : log w = log w ++ []) by (rewrite app_nil_r; reflexivity).
  destruct n as [n|], ts as [ts|]; cbn [cm_warning];
    unfold bind, ret, raise, emit in H; cbn in H;
    try (inversion H; subst; auto; fail);
    (destruct lat as [l|];
     [destruct (list_eq_dec Z.eq_dec (shape l) [bs; 3; img; img])|];
     cbn in H;
     try (inversion H; subst; cbn; auto; fail);
     destruct cs as [|k|]; cbn in H;
     try (inversion H; subst; cbn; auto; fail);
     destruct (k <=? 0); inversion H; subst; cbn; auto).
Qed.

(** In both pipelines [callback_steps] has to be a positive [int] whether
    or not a callback is given: otherwise [__call__] raises [ValueError]
    from validation, no collaborator having been called (the consistency
    pipeline may have logged its warning about [timesteps]). *)
Theorem callback_steps_is_validated_without_a_callback :
  (forall (a : CM.Args) (w : World),
     ~ valid_callback_steps (CM.callback_steps a) ->
     exists w',
       CM.__call__ a w = (Raise ValueError, w') /\
       env w' = env w /\
       log w' = log w ++ cm_warning (CM.num_inference_steps a) (CM.timesteps a)) /\
  (forall (a : SD.Args) (w : World),
     ~ valid_callback_steps (SD.callback_steps a) ->
     exists w',
       SD.__call__ a w = (Raise ValueError, w') /\
       env w' = env w /\ log w' = log w).
Proof.
  split; intros a w Hc.
  - unfold CM.__call__. cbv zeta. erewrite bind_ok by reflexivity.
    match goal with
    | |- context [bind (CM.check_inputs ?n ?ts ?lat ?bs ?img ?cs) _ ?w0] =>
        destruct (CM.check_inputs n ts lat bs img cs w0) as [[u|e] w1] eqn:E
    end.
    + apply cm_check_inputs_ok in E. destruct E as [_ [_ [Hv _]]]. contradiction.
    + pose proof E as E'.
      apply cm_check_inputs_raises in E. destruct E as [-> [Ee El]].
      exists w1. split; [|split; assumption].
      erewrite bind_raise by exact E'. reflexivity.
  - unfold SD.__call__. cbv zeta. erewrite bind_ok by reflexivity.
    match goal with
    | |- context [bind (SD.check_inputs ?p ?s ?cs ?np ?pe ?npe) _ ?w0] =>
        destruct (SD.check_inputs p s cs np pe npe w0) as [[u|e] w1] eqn:E
    end.
    + apply sd_check_inputs_ok in E. destruct E as [_ [_ [_ [Hv _]]]]. contradiction.
    + pose proof E as E'.
      apply sd_check_inputs_raises_ValueError in E. destruct E as [-> ->].
      eexists. split.
      * erewrite bind_raise by exact E'. reflexivity.
      * split; reflexivity.
Qed.

Lemma mul_nan : forall x, Py.mul x S754_nan = S754_nan.
Proof. intros [s| s| |s m e]; reflexivity. Qed.

Lemma sd_get_timesteps_nan :
  forall n (w : World),
    exists e,
      SD.get_timesteps n S754_nan w = (Raise e, w) /\
      (e = ValueError \/ e = OverflowError).
Proof.
  intros n w. unfold SD.get_timesteps, Py.int_mul_float, Py.float_of_int.
  unfold bind, lift.
  destruct (Py.float_of_dyadic n 0) as [s| s| |s m e]; cbn [rbind];
    rewrite ?mul_nan; cbn;
    eexists; (split; [reflexivity|]); auto.
Qed.

(** A NaN [strength] is not rejected by the image2image validation, whose
    test [strength < 0 or strength > 1] is false for NaN: [check_inputs]
    treats it as it treats [0.0].  The call fails all the same, and later:
    [get_timesteps] raises on [int(num_inference_steps * strength)]
    ([ValueError], or [OverflowError] when [num_inference_steps] is beyond
    the double range), so [__call__] never returns. *)
Theorem sd_nan_strength_passes_validation_and_fails_later :
  forall (a : SD.Args) (w : World),
    SD.strength a = S754_nan ->
    (forall p cs np pe npe (w0 : World),
       SD.check_inputs p S754_nan cs np pe npe w0
         = SD.check_inputs p Py.zero cs np pe npe w0) /\
    (forall n (w0 : World),
       exists e,
         SD.get_timesteps n S754_nan w0 = (Raise e, w0) /\
         (e = ValueError \/ e = OverflowError)) /\
    (forall r w', SD.__call__ a w = (r, w') -> is_ok r = false).
Proof.
  intros a w Hs. split; [|split].
  - intros. reflexivity.
  - apply sd_get_timesteps_nan.
  - intros [out|e] w' H; [|reflexivity]. exfalso.
    apply sd_call_ok in H.
    destruct H as [pre [post [pe [ts [n' [l0 [tr [l' H]]]]]]]].
    destruct H as [_ [_ [_ [_ [_ [_ [[w1 [w2 Hg]] _]]]]]]].
    rewrite Hs in Hg.
    destruct (sd_get_timesteps_nan (SD.num_inference_steps a) w1) as [e [He _]].
    rewrite He in Hg. discriminate Hg.
Qed.

End ValidationFurther.

(** ** The consistency pipeline: the model calls of a completed run *)

Section ConsistencyTrace.
Context {C : Collaborators}.

(** A completed consistency [__call__], with what each phase returned. *)
Lemma cm_call_phases :
  forall a w out w',
    CM.__call__ a w = (Ok out, w') ->
    exists d3 d5 e e' labels sample tr sample' image,
      (exists wa wb,
         CM.prepare_latents (CM.batch_size a) cm_in_channels cm_sample_size
           cm_sample_size cm_unet_dtype (CM.generator a) (CM.latents a) wa
           = (Ok sample, wb) /\
         log wb = log wa ++ d3) /\
      forallb (only [KRandn]) d3 = true /\
      (exists wa wb,
         CM.prepare_class_labels (CM.batch_size a) (CM.class_labels a) wa
           = (Ok labels, wb) /\
         log wb = log wa ++ d5) /\
      forallb (only [KRandint]) d5 = true /\
      sched_set_timesteps (cm_steps_argument a) (CM.timesteps a) e = (Ok tt, e') /\
      log w' = log w ++ cm_warning (CM.num_inference_steps a) (CM.timesteps a)
                 ++ d3 ++ d5
                 ++ [EvSetTimesteps (cm_steps_argument a) (CM.timesteps a);
                     EvProgressBar
                       (match CM.timesteps a with
                        | Some _ => Some (Py.len (sched_timesteps e'))
                        | None => CM.num_inference_steps a
                        end)]
                 ++ tr /\
      cm_loop_trace labels (CM.generator a) (CM.callback a) (CM.callback_steps a)
        (Py.enumerate (sched_timesteps e')) sample tr sample' /\
      (forall wa : World,
         CM.postprocess_image sample' (CM.output_type a) wa = (Ok image, wa)) /\
      out = (if CM.return_dict a then CM.ImagePipelineOutput image else CM.Tuple image).
Proof.
  intros a w out w' H. unfold CM.__call__ in H. cbv zeta in H.
  apply bind_ok_inv in H. destruct H as [u0 [w0 [H0 H]]].
  apply bind_ok_inv in H. destruct H as [u1 [w1 [H1 H]]].
  apply bind_ok_inv in H. destruct H as [u2 [w2 [H2 H]]].
  apply bind_ok_inv in H. destruct H as [sample [w3 [H3 H]]].
  apply bind_ok_inv in H. destruct H as [u4 [w4 [H4 H]]].
  apply bind_ok_inv in H. destruct H as [labels [w5 [H5 H]]].
  apply bind_ok_inv in H. destruct H as [u6 [w6 [H6 H]]].
  apply bind_ok_inv in H. destruct H as [[tsched nis] [w7 [H7 H]]].
  apply bind_ok_inv in H. destruct H as [u8 [w8 [H8 H]]].
  apply bind_ok_inv in H. destruct H as [u9 [w9 [H9 H]]].
  apply bind_ok_inv in H. destruct H as [sample' [w10 [H10 H]]].
  apply bind_ok_inv in H. destruct H as [u11 [w11 [H11 H]]].
  apply bind_ok_inv in H. destruct H as [img [w12 [H12 H]]].
  apply enter_ok in H0. destruct H0 as [E0 [L0 F0]].
  apply cm_check_inputs_ok in H1. destruct H1 as [Hn [Hl [Hc E1]]].
  apply enter_ok in H2. destruct H2 as [E2 [L2 F2]].
  pose proof H3 as H3'.
  eapply logs_only_run in H3; [|apply cm_prepare_latents_logs].
  destruct H3 as [F3 [d3 [L3 P3]]].
  apply enter_ok in H4. destruct H4 as [E4 [L4 F4]].
  pose proof H5 as H5'.
  eapply logs_only_run in H5; [|apply cm_prepare_class_labels_logs].
  destruct H5 as [F5 [d5 [L5 P5]]].
  apply enter_ok in H6. destruct H6 as [E6 [L6 F6]].
  apply enter_ok in H8. destruct H8 as [E8 [L8 F8]].
  inversion H9; subst u9 w9; clear H9.
  apply cm_loop_ok in H10. destruct H10 as [F10 [tr [L10 T10]]].
  apply enter_ok in H11. destruct H11 as [E11 [L11 F11]].
  pose proof H12 as H12'.
  apply cm_postprocess_image_pure in H12. subst w12.
  assert (Hpost : forall wa : World,
            CM.postprocess_image sample' (CM.output_type a) wa = (Ok img, wa)).
  { intros wa. revert H12'. unfold CM.postprocess_image.
    destruct (negb _); [discriminate|]. cbv zeta.
    destruct (String.eqb (CM.output_type a) "pd");
      [intros E; inversion E; reflexivity|].
    destruct (String.eqb (CM.output_type a) "np");
      intros E; inversion E; reflexivity. }
  assert (Hout : out = (if CM.return_dict a then CM.ImagePipelineOutput img
                        else CM.Tuple img) /\ w' = w11)
    by (destruct (CM.return_dict a); inversion H; split; reflexivity).
  destruct Hout as [Hout Hw]. subst w'. simpl in L10.
  assert (Lpre : log w6 = log w ++ cm_warning (CM.num_inference_steps a) (CM.timesteps a)
                            ++ d3 ++ d5).
  { rewrite L6, L5, L4, L3, L2, E1. simpl. rewrite L0.
    rewrite <- !app_assoc. reflexivity. }
  unfold cm_steps_argument.
  destruct (CM.timesteps a) as [ts|] eqn:Ets.
  - apply bind_ok_inv in H7. destruct H7 as [u7 [wa [Ha H7]]].
    apply bind_ok_inv in H7. destruct H7 as [ts' [wb [Hb H7]]].
    apply call_ok_inv in Ha. destruct Ha as [Ra [La Fa]].
    inversion Hb; subst ts' wb; clear Hb.
    inversion H7; subst tsched nis w7; clear H7. destruct u7.
    exists d3, d5, (env w6), (env wa), labels, sample, tr, sample', img.
    split; [exists w2, w3; split; assumption|].
    split; [exact P3|].
    split; [exists w4, w5; split; assumption|].
    split; [exact P5|].
    split; [exact Ra|].
    split.
    { rewrite L11, L10, L8, La, Lpre. rewrite <- !app_assoc. reflexivity. }
    split; [exact T10|]. split; [exact Hpost | exact Hout].
  - apply bind_ok_inv in H7. destruct H7 as [u7 [wa [Ha H7]]].
    apply bind_ok_inv in H7. destruct H7 as [ts' [wb [Hb H7]]].
    apply call_ok_inv in Ha. destruct Ha as [Ra [La Fa]].
    inversion Hb; subst ts' wb; clear Hb.
    inversion H7; subst tsched nis w7; clear H7. destruct u7.
    exists d3, d5, (env w6), (env wa), labels, sample, tr, sample', img.
    split; [exists w2, w3; split; assumption|].
    split; [exact P3|].
    split; [exists w4, w5; split; assumption|].
    split; [exact P5|].
    split; [exact Ra|].
    split.
    { rewrite L11, L10, L8, La, Lpre. rewrite <- !app_assoc. reflexivity. }
    split; [exact T10|]. split; [exact Hpost | exact Hout].
Qed.

End ConsistencyTrace.

Section ConsistencyModelCalls.
Context {C : Collaborators}.

Lemma unet_calls_app :
  forall d1 d2, unet_calls (d1 ++ d2) = unet_calls d1 ++ unet_calls d2.
Proof. intros. unfold unet_calls. apply flat_map_app. Qed.

Lemma scheduler_steps_app :
  forall d1 d2, scheduler_steps (d1 ++ d2) = scheduler_steps d1 ++ scheduler_steps d2.
Proof. intros. unfold scheduler_steps. apply flat_map_app. Qed.

Lemma progress_totals_app :
  forall d1 d2, progress_totals (d1 ++ d2) = progress_totals d1 ++ progress_totals d2.
Proof. intros. unfold progress_totals. apply flat_map_app. Qed.

Lemma count_kind_app :
  forall k d1 d2, count_kind k (d1 ++ d2) = count_kind k d1 + count_kind k d2.
Proof.
  intros. unfold count_kind, Py.len. rewrite filter_app, length_app. lia.
Qed.

Lemma only_not_kind :
  forall ks k ev, ~ In k ks -> only ks ev = true -> Kind_beq (kind ev) k = false.
Proof.
  intros ks k ev Hk H. unfold only in H. apply existsb_exists in H.
  destruct H as [k' [Hin Hb]]. apply internal_Kind_dec_bl in Hb. subst k'.
  destruct (Kind_beq (kind ev) k) eqn:E; [|reflexivity].
  apply internal_Kind_dec_bl in E. subst k. contradiction.
Qed.

Lemma count_kind_none :
  forall ks k d,
    ~ In k ks -> forallb (only ks) d = true -> count_kind k d = 0.
Proof.
  intros ks k d Hk H. unfold count_kind, Py.len.
  induction d as [|ev d IH]; [reflexivity|].
  simpl in H. apply andb_prop in H. destruct H as [H1 H2].
  simpl. rewrite (@only_not_kind _ _ _ Hk H1). apply IH. exact H2.
Qed.

Lemma unet_calls_none :
  forall ks d,
    ~ In KUnet ks -> forallb (only ks) d = true -> unet_calls d = [].
Proof.
  intros ks d Hk H. induction d as [|ev d IH]; [reflexivity|].
  simpl in H. apply andb_prop in H. destruct H as [H1 H2].
  simpl. rewrite (IH H2). pose proof (@only_not_kind _ _ _ Hk H1) as E.
  destruct ev; try reflexivity. discriminate E.
Qed.

Lemma scheduler_steps_none :
  forall ks d,
    ~ In KSchedulerStep ks -> forallb (only ks) d = true -> scheduler_steps d = [].
Proof.
  intros ks d Hk H. induction d as [|ev d IH]; [reflexivity|].
  simpl in H. apply andb_prop in H. destruct H as [H1 H2].
  simpl. rewrite (IH H2). pose proof (@only_not_kind _ _ _ Hk H1) as E.
  destruct ev; try reflexivity. discriminate E.
Qed.

Lemma progress_totals_none :
  forall ks d,
    ~ In KProgressBar ks -> forallb (only ks) d = true -> progress_totals d = [].
Proof.
  intros ks d Hk H. induction d as [|ev d IH]; [reflexivity|].
  simpl in H. apply andb_prop in H. destruct H as [H1 H2].
  simpl. rewrite (IH H2). pose proof (@only_not_kind _ _ _ Hk H1) as E.
  destruct ev; try reflexivity. discriminate E.
Qed.

Lemma not_in_1 : forall k k1 : Kind, k <> k1 -> ~ In k [k1].
Proof. intros k k1 H [E|[]]; congruence. Qed.

Lemma callback_event_only :
  forall {cbT} (cb : option cbT) cs i t x,
    forallb (only [KCallback]) (callback_event cb cs i t x) = true.
Proof.
  intros cbT cb cs i t x. unfold callback_event.
  destruct cb; [|reflexivity].
  destruct (mod_callback_steps i cs) as [[| |]|]; reflexivity.
Qed.

Lemma map_snd_enumerate_from :
  forall {A} (l : list A) i, map snd (Py.enumerate_from i l) = l.
Proof.
  intros A l. induction l as [|x l IH]; intros i; simpl; [reflexivity|].
  rewrite IH. reflexivity.
Qed.

Lemma len_enumerate_from :
  forall {A} (l : list A) i, Py.len (Py.enumerate_from i l) = Py.len l.
Proof.
  intros A l i. unfold Py.len. rewrite <- (map_snd_enumerate_from l i) at 2.
  rewrite length_map. reflexivity.
Qed.

(** The model calls, scheduler steps and progress updates of a completed
    consistency loop. *)
Lemma cm_trace_calls :
  forall cl g cb cs its sample tr sample',
    cm_loop_trace cl g cb cs its sample tr sample' ->
    unet_calls tr = map (fun it => (snd it, cl)) its /\
    scheduler_steps tr = map snd its /\
    count_kind KProgressUpdate tr = Py.len its /\
    progress_totals tr = [] /\
    count_kind KSetTimesteps tr = 0.
Proof.
  intros cl g cb cs its sample tr sample' H.
  induction H as [sample|i t its sample scaled out sample1 tr sample' H1 H2 H3 H IH].
  - repeat split; reflexivity.
  - destruct IH as [IH1 [IH2 [IH3 [IH4 IH5]]]].
    pose proof (callback_event_only cb cs i t sample1) as Hcb.
    repeat split.
    + rewrite !unet_calls_app, IH1.
      rewrite (@unet_calls_none _ _ (@not_in_1 KUnet KCallback ltac:(discriminate)) Hcb).
      reflexivity.
    + rewrite !scheduler_steps_app, IH2.
      rewrite (@scheduler_steps_none _ _ (@not_in_1 KSchedulerStep KCallback ltac:(discriminate)) Hcb).
      reflexivity.
    + rewrite !count_kind_app, IH3.
      rewrite (@count_kind_none _ _ _ (@not_in_1 KProgressUpdate KCallback ltac:(discriminate)) Hcb).
      assert (Hc : count_kind KProgressUpdate
                     [EvScaleModelInput sample t; EvUnet scaled t cl;
                      EvSchedulerStep out t sample; EvProgressUpdate] = 1)
        by reflexivity.
      rewrite Hc. unfold Py.len. cbn [List.length]. lia.
    + rewrite !progress_totals_app, IH4.
      rewrite (@progress_totals_none _ _ (@not_in_1 KProgressBar KCallback ltac:(discriminate)) Hcb).
      reflexivity.
    + rewrite !count_kind_app, IH5.
      rewrite (@count_kind_none _ _ _ (@not_in_1 KSetTimesteps KCallback ltac:(discriminate)) Hcb).
      reflexivity.
Qed.

Lemma cm_warning_only :
  forall n ts, forallb (only [KWarning]) (cm_warning n ts) = true.
Proof. intros [n|] [ts|]; reflexivity. Qed.

(** In a completed consistency call the scheduler is configured once, and
    the model and [scheduler.step] are called once per timestep of the
    scheduler's sequence, in its order; the progress bar is updated once
    per timestep too.  The total the bar was opened with is that number when
    [timesteps] was given, and [num_inference_steps] otherwise, whatever the
    length of the sequence the scheduler made of it. *)
Theorem cm_one_model_call_per_timestep :
  forall (a : CM.Args) (w : World) out w',
    CM.__call__ a w = (Ok out, w') ->
    exists e e' d,
      sched_set_timesteps (cm_steps_argument a) (CM.timesteps a) e = (Ok tt, e') /\
      log w' = log w ++ d /\
      count_kind KSetTimesteps d = 1 /\
      map fst (unet_calls d) = sched_timesteps e' /\
      scheduler_steps d = sched_timesteps e' /\
      count_kind KProgressUpdate d = Py.len (sched_timesteps e') /\
      progress_totals d
        = [match CM.timesteps a with
           | Some _ => Some (count_kind KProgressUpdate d)
           | None => CM.num_inference_steps a
           end].
Proof.
  intros a w out w' H. apply cm_call_phases in H.
  destruct H as [d3 [d5 [e [e' [labels [sample [tr [sample' [image H]]]]]]]]].
  destruct H as [_ [P3 [_ [P5 [Hset [Hlog [Htr _]]]]]]].
  apply cm_trace_calls in Htr. destruct Htr as [T1 [T2 [T3 [T4 T5]]]].
  unfold Py.enumerate in T1, T2, T3.
  rewrite map_snd_enumerate_from in T2. rewrite len_enumerate_from in T3.
  pose proof (cm_warning_only (CM.num_inference_steps a) (CM.timesteps a)) as Pw.
  exists e, e'. eexists. split; [exact Hset|]. split; [exact Hlog|].
  assert (Hupd : count_kind KProgressUpdate
                   (cm_warning (CM.num_inference_steps a) (CM.timesteps a) ++ d3 ++ d5
                    ++ [EvSetTimesteps (cm_steps_argument a) (CM.timesteps a);
                        EvProgressBar
                          (match CM.timesteps a with
                           | Some _ => Some (Py.len (sched_timesteps e'))
                           | None => CM.num_inference_steps a
                           end)] ++ tr)
                 = Py.len (sched_timesteps e')).
  { rewrite !count_kind_app, T3.
    rewrite (@count_kind_none _ _ _ (@not_in_1 KProgressUpdate KWarning ltac:(discriminate)) Pw).
    rewrite (@count_kind_none _ _ _ (@not_in_1 KProgressUpdate KRandn ltac:(discriminate)) P3).
    rewrite (@count_kind_none _ _ _ (@not_in_1 KProgressUpdate KRandint ltac:(discriminate)) P5).
    reflexivity. }
  split; [|split; [|split; [|split; [exact Hupd|]]]].
  - rewrite !count_kind_app, T5.
    rewrite (@count_kind_none _ _ _ (@not_in_1 KSetTimesteps KWarning ltac:(discriminate)) Pw).
    rewrite (@count_kind_none _ _ _ (@not_in_1 KSetTimesteps KRandn ltac:(discriminate)) P3).
    rewrite (@count_kind_none _ _ _ (@not_in_1 KSetTimesteps KRandint ltac:(discriminate)) P5).
    reflexivity.
  - rewrite !unet_calls_app, T1.
    rewrite (@unet_calls_none _ _ (@not_in_1 KUnet KWarning ltac:(discriminate)) Pw).
    rewrite (@unet_calls_none _ _ (@not_in_1 KUnet KRandn ltac:(discriminate)) P3).
    rewrite (@unet_calls_none _ _ (@not_in_1 KUnet KRandint ltac:(discriminate)) P5).
    cbn [unet_calls flat_map app]. rewrite map_map. cbn [fst].
    apply map_snd_enumerate_from.
  - rewrite !scheduler_steps_app, T2.
    rewrite (@scheduler_steps_none _ _ (@not_in_1 KSchedulerStep KWarning ltac:(discriminate)) Pw).
    rewrite (@scheduler_steps_none _ _ (@not_in_1 KSchedulerStep KRandn ltac:(discriminate)) P3).
    rewrite (@scheduler_steps_none _ _ (@not_in_1 KSchedulerStep KRandint ltac:(discriminate)) P5).
    reflexivity.
  - rewrite Hupd. rewrite !progress_totals_app, T4.
    rewrite (@progress_totals_none _ _ (@not_in_1 KProgressBar KWarning ltac:(discriminate)) Pw).
    rewrite (@progress_totals_none _ _ (@not_in_1 KProgressBar KRandn ltac:(discriminate)) P3).
    rewrite (@progress_totals_none _ _ (@not_in_1 KProgressBar KRandint ltac:(discriminate)) P5).
    reflexivity.
Qed.

End ConsistencyModelCalls.

(** [t], an equation saying that a list of events of other kinds has no
    event of the kind looked for, is used to rewrite the goal. *)
Ltac no_events t lem P :=
  let X := fresh "X" in
  assert (X : t) by (eapply lem; [| exact P]; apply not_in_1; discriminate);
  rewrite X; clear X.

Section ConsistencyClassLabels.
Context {C : Collaborators}.

Lemma cm_prepare_class_labels_ok :
  forall (a : CM.Args) (w : World) labels w1,
    CM.prepare_class_labels (CM.batch_size a) (CM.class_labels a) w = (Ok labels, w1) ->
    cm_labels_of a labels /\
    log w1 = log w ++ match cm_num_class_embeds, CM.class_labels a with
                      | Some _, CM.CLNone => [EvRandint [CM.batch_size a]]
                      | _, _ => []
                      end.
Proof.
  intros a w labels w1 H. unfold CM.prepare_class_labels in H. unfold cm_labels_of.
  destruct cm_num_class_embeds as [k|].
  - destruct (CM.class_labels a) as [|c|l|t].
    + apply bind_ok_inv in H. destruct H as [t [w2 [H1 H2]]].
      apply call_ok_inv in H1. destruct H1 as [R [L _]].
      inversion H2; subst. split; [|exact L].
      exists t. split; [|reflexivity].
      exists (env w), (env w1). exact R.
    + destruct (CM.batch_size a =? 1) eqn:E; [|discriminate H].
      apply Z.eqb_eq in E. inversion H; subst. rewrite app_nil_r.
      split; [split; [exact E | reflexivity] | reflexivity].
    + inversion H; subst. rewrite app_nil_r. split; reflexivity.
    + inversion H; subst. rewrite app_nil_r. split; reflexivity.
  - inversion H; subst. rewrite app_nil_r. split; reflexivity.
Qed.

Lemma cm_trace_no_randint :
  forall cl g cb cs its sample tr sample',
    cm_loop_trace cl g cb cs its sample tr sample' ->
    count_kind KRandint tr = 0.
Proof.
  intros cl g cb cs its sample tr sample' Htr.
  induction Htr as [|i t its sample scaled out sample1 tr sample' H1 H2 H3 H IH].
  - reflexivity.
  - rewrite !count_kind_app, IH.
    pose proof (callback_event_only cb cs i t sample1) as Pc.
    no_events (count_kind KRandint (callback_event cb cs i t sample1) = 0)
              count_kind_none Pc.
    reflexivity.
Qed.

(** In a completed consistency call every model call is conditioned on
    the same class labels.  They are [None] when the model is not
    class-conditional: the [class_labels] argument is then ignored.
    Otherwise they are the tensor of the given list (whose length is not
    compared with the batch size) or of the given int (accepted at batch
    size 1 only), the given tensor, or, for [None], labels drawn by
    [randint(0, num_class_embeds, (batch_size,))].  [randint] is called
    once in that last case, and not at all in the others. *)
Theorem cm_class_labels_reach_every_model_call :
  forall (a : CM.Args) (w : World) out w',
    CM.__call__ a w = (Ok out, w') ->
    exists labels d,
      cm_labels_of a labels /\
      log w' = log w ++ d /\
      Forall (fun c => snd c = labels) (unet_calls d) /\
      Py.len (unet_calls d) = count_kind KUnet d /\
      count_kind KRandint d
        = match cm_num_class_embeds, CM.class_labels a with
          | Some _, CM.CLNone => 1
          | _, _ => 0
          end.
Proof.
  intros a w out w' H. apply cm_call_phases in H.
  destruct H as [d3 [d5 [e [e' [labels [sample [tr [sample' [image H]]]]]]]]].
  destruct H as [_ [P3 [[wa [wb [Hl Ll]]] [P5 [_ [Hlog [Htr _]]]]]]].
  apply cm_prepare_class_labels_ok in Hl. destruct Hl as [Hlab Hdraw].
  pose proof (cm_trace_calls _ _ _ _ _ _ _ _ Htr) as [T1 [_ [_ [_ _]]]].
  pose proof (cm_warning_only (CM.num_inference_steps a) (CM.timesteps a)) as Pw.
  assert (Hd5 : d5 = match cm_num_class_embeds, CM.class_labels a with
                     | Some _, CM.CLNone => [EvRandint [CM.batch_size a]]
                     | _, _ => []
                     end).
  { apply (app_inv_head (log wa)). rewrite <- Ll. exact Hdraw. }
  exists labels. eexists. split; [exact Hlab|]. split; [exact Hlog|].
  split; [|split].
  - rewrite !unet_calls_app, T1.
    no_events (unet_calls (cm_warning (CM.num_inference_steps a) (CM.timesteps a)) = [])
              unet_calls_none Pw.
    no_events (unet_calls d3 = []) unet_calls_none P3.
    no_events (unet_calls d5 = []) unet_calls_none P5.
    cbn [unet_calls flat_map app].
    apply Forall_forall. intros c Hc. apply in_map_iff in Hc.
    destruct Hc as [it [<- _]]. reflexivity.
  - generalize (cm_warning (CM.num_inference_steps a) (CM.timesteps a) ++ d3 ++ d5
                  ++ [EvSetTimesteps (cm_steps_argument a) (CM.timesteps a);
                      EvProgressBar
                        (match CM.timesteps a with
                         | Some _ => Some (Py.len (sched_timesteps e'))
                         | None => CM.num_inference_steps a
                         end)] ++ tr).
    intros l. unfold count_kind, unet_calls, Py.len. f_equal.
    induction l as [|ev l IH]; [reflexivity|].
    destruct ev; cbn [flat_map filter kind Kind_beq app List.length];
      try exact IH.
    cbn. f_equal. exact IH.
  - rewrite !count_kind_app.
    no_events (count_kind KRandint
                 (cm_warning (CM.num_inference_steps a) (CM.timesteps a)) = 0)
              count_kind_none Pw.
    no_events (count_kind KRandint d3 = 0) count_kind_none P3.
    rewrite (cm_trace_no_randint _ _ _ _ _ _ _ _ Htr).
    rewrite Hd5.
    destruct cm_num_class_embeds; [destruct (CM.class_labels a)|]; reflexivity.
Qed.

End ConsistencyClassLabels.

(** ** The image2image pipeline: the phases of a completed run *)

Section Img2ImgPhases.
Context {C : Collaborators}.

Lemma sd_get_timesteps_reads_env :
  forall n s (w : World) r w1,
    SD.get_timesteps n s w = (r, w1) ->
    w1 = w /\
    forall w2 : World, env w2 = env w -> SD.get_timesteps n s w2 = (r, w2).
Proof.
  intros n s w r w1 H. unfold SD.get_timesteps, bind, lift, read, ret in *.
  destruct (Py.int_mul_float n s) as [x|e]; [|inversion H; subst; split; auto].
  destruct (Py.int_of_float x) as [v|e]; [|inversion H; subst; split; auto].
  inversion H; subst. split; [reflexivity|]. intros w2 E. rewrite E. reflexivity.
Qed.

Lemma sd_batch_size_ok :
  forall (a : SD.Args) (w : World) bs w1,
    match SD.prompt a with
    | Some (PStr _) => ret 1
    | Some (PList l) => ret (Py.len l)
    | _ => match SD.prompt_embeds a with
           | Some pe0 => lift (Py.index (shape pe0) 0)
           | None => raise AttributeError
           end
    end w = (Ok bs, w1) ->
    sd_batch_size a = Ok bs /\ w1 = w.
Proof.
  intros a w bs w1 H. unfold sd_batch_size.
  destruct (SD.prompt a) as [[s|l|]|].
  - inversion H; subst. split; reflexivity.
  - inversion H; subst. split; reflexivity.
  - destruct (SD.prompt_embeds a) as [pe|]; [|discriminate H].
    unfold lift in H. injection H as H1 H2. split; [exact H1 | symmetry; exact H2].
  - destruct (SD.prompt_embeds a) as [pe|]; [|discriminate H].
    unfold lift in H. injection H as H1 H2. split; [exact H1 | symmetry; exact H2].
Qed.

Lemma sd_decode_ok :
  forall o d latents (w : World) image nsfw w1,
    (if negb (String.eqb o "latent") then
       image <- call (EvVaeDecode (sdiv latents vae_scaling_factor))
                     (vae_decode (sdiv latents vae_scaling_factor)) ;;
       SD.run_safety_checker image d
     else ret (latents, None)) w = (Ok (image, nsfw), w1) ->
    exists evs, sd_decoded o d latents image nsfw evs /\ log w1 = log w ++ evs.
Proof.
  intros o d latents w image nsfw w1 H. unfold sd_decoded.
  destruct (String.eqb o "latent"); cbn [negb] in H.
  - inversion H; subst. exists []. rewrite app_nil_r. repeat split.
  - apply bind_ok_inv in H. destruct H as [decoded [w2 [H1 H2]]].
    apply call_ok_inv in H1. destruct H1 as [R1 [L1 _]].
    unfold SD.run_safety_checker in H2.
    destruct has_safety_checker.
    + apply bind_ok_inv in H2. destruct H2 as [pil [wp [Hp H2]]].
      apply call_ok_inv in Hp. destruct Hp as [Rp [Lp _]].
      apply bind_ok_inv in H2. destruct H2 as [[im fl] [w3 [H2 H3]]].
      apply call_ok_inv in H2. destruct H2 as [R2 [L2 _]].
      inversion H3; subst.
      eexists. split.
      * exists decoded. split; [eexists _, _; exact R1|].
        exists pil, fl. split; [eexists _, _; exact Rp|].
        split; [eexists _, _; exact R2|]. split; reflexivity.
      * rewrite L2, Lp, L1, <- !app_assoc. reflexivity.
    + inversion H2; subst.
      eexists. split.
      * exists image. split; [eexists _, _; exact R1|]. repeat split.
      * exact L1.
Qed.

Lemma sd_denormalize_ok :
  forall image (nsfw : option (list bool)) (w : World) flags w1,
    match nsfw with
    | None =>
        n <- lift (Py.index (shape image) 0) ;;
        ret (repeat true (Z.to_nat n))
    | Some has_nsfw => ret (map negb has_nsfw)
    end w = (Ok flags, w1) ->
    sd_denormalize image nsfw flags /\ w1 = w.
Proof.
  intros image nsfw w flags w1 H. unfold sd_denormalize.
  destruct nsfw as [fl|].
  - inversion H; subst. split; reflexivity.
  - unfold bind, lift, ret in H.
    destruct (Py.index (shape image) 0) as [n|e]; [|discriminate H].
    inversion H; subst. split; [exists n; split; reflexivity | reflexivity].
Qed.

(** A completed image2image [__call__], with what each phase returned. *)
Lemma sd_call_phases :
  forall a w out w',
    SD.__call__ a w = (Ok out, w') ->
    exists bs pe d5 im e e' ts n' latents0 d12 tr latents' img nsfw evs flags img',
      sd_batch_size a = Ok bs /\
      (exists wa wb,
         SD._encode_prompt (SD.prompt a) (SD.num_images_per_prompt a)
           (Py.gt (SD.guidance_scale a) Py.one) (SD.negative_prompt a)
           (SD.prompt_embeds a) (SD.negative_prompt_embeds a) (sd_lora_scale a) wa
           = (Ok pe, wb) /\
         log wb = log wa ++ d5) /\
      forallb (only [KWarning; KTextEncoder]) d5 = true /\
      returned (image_processor_preprocess (SD.image a)) im /\
      sched_set_timesteps (Some (SD.num_inference_steps a)) None e = (Ok tt, e') /\
      (forall wa : World,
         env wa = e' ->
         SD.get_timesteps (SD.num_inference_steps a) (SD.strength a) wa
           = (Ok (ts, n'), wa)) /\
      (exists wa wb,
         SD.prepare_latents (SD.ImTensor im)
           (tile_timesteps (Py.slice_to 1 ts) (bs * SD.num_images_per_prompt a))
           bs (SD.num_images_per_prompt a) (dtype pe) (SD.generator a) wa
           = (Ok latents0, wb) /\
         log wb = log wa ++ d12) /\
      forallb (only [KVaeEncode; KWarning; KRandn; KAddNoise]) d12 = true /\
      sd_loop_trace (SD.guidance_scale a) pe (SD.cross_attention_kwargs a)
        (SD.prepare_extra_step_kwargs (SD.generator a) (SD.eta a))
        (Py.len ts) (Py.len ts - n' * sched_order)
        (SD.callback a) (SD.callback_steps a)
        (Py.enumerate ts) latents0 tr latents' /\
      sd_decoded (SD.output_type a) (dtype pe) latents' img nsfw evs /\
      sd_denormalize img nsfw flags /\
      returned (image_processor_postprocess img (SD.output_type a) flags) img' /\
      out = (if SD.return_dict a then SD.StableDiffusionPipelineOutput img' nsfw
             else SD.Tuple img' nsfw) /\
      log w' = log w ++ d5
                 ++ [EvPreprocess; EvSetTimesteps (Some (SD.num_inference_steps a)) None]
                 ++ d12 ++ [EvProgressBar (Some n')] ++ tr ++ evs
                 ++ [EvPostprocess (SD.output_type a)].
Proof.
  intros a w out w' H. unfold SD.__call__ in H. cbv zeta in H.
  apply bind_ok_inv in H. destruct H as [u0 [w0 [H0 H]]].
  apply bind_ok_inv in H. destruct H as [u1 [w1 [H1 H]]].
  apply bind_ok_inv in H. destruct H as [u2 [w2 [H2 H]]].
  apply bind_ok_inv in H. destruct H as [bs [w3 [H3 H]]].
  apply bind_ok_inv in H. destruct H as [u4 [w4 [H4 H]]].
  apply bind_ok_inv in H. destruct H as [pe [w5 [H5 H]]].
  apply bind_ok_inv in H. destruct H as [u6 [w6 [H6 H]]].
  apply bind_ok_inv in H. destruct H as [im [w7 [H7 H]]].
  apply bind_ok_inv in H. destruct H as [u8 [w8 [H8 H]]].
  apply bind_ok_inv in H. destruct H as [u9 [w9 [H9 H]]].
  apply bind_ok_inv in H. destruct H as [[ts n'] [w10 [H10 H]]].
  apply bind_ok_inv in H. destruct H as [u11 [w11 [H11 H]]].
  apply bind_ok_inv in H. destruct H as [latents0 [w12 [H12 H]]].
  apply bind_ok_inv in H. destruct H as [u13 [w13 [H13 H]]].
  apply bind_ok_inv in H. destruct H as [u14 [w14 [H14 H]]].
  apply bind_ok_inv in H. destruct H as [u15 [w15 [H15 H]]].
  apply bind_ok_inv in H. destruct H as [latents' [w16 [H16 H]]].
  apply bind_ok_inv in H. destruct H as [u17 [w17 [H17 H]]].
  apply bind_ok_inv in H. destruct H as [[img nsfw] [w18 [H18 H]]].
  apply bind_ok_inv in H. destruct H as [dd [w19 [H19 H]]].
  apply bind_ok_inv in H. destruct H as [img' [w20 [H20 H]]].
  assert (Hout : out = (if SD.return_dict a
                        then SD.StableDiffusionPipelineOutput img' nsfw
                        else SD.Tuple img' nsfw) /\ w' = w20)
    by (destruct (SD.return_dict a); inversion H; split; reflexivity).
  destruct Hout as [Hout Hw]. subst w'. clear H.
  apply enter_ok in H0. destruct H0 as [E0 [L0 F0]].
  apply sd_check_inputs_ok in H1. destruct H1 as [E1 _]. subst w1.
  apply enter_ok in H2. destruct H2 as [E2 [L2 F2]].
  apply sd_batch_size_ok in H3. destruct H3 as [Hbs E3]. subst w3.
  apply enter_ok in H4. destruct H4 as [E4 [L4 F4]].
  pose proof H5 as H5'.
  eapply logs_only_run in H5; [|apply sd_encode_prompt_logs].
  destruct H5 as [F5 [d5 [L5 P5]]].
  apply enter_ok in H6. destruct H6 as [E6 [L6 F6]].
  apply call_ok_inv in H7. destruct H7 as [R7 [L7 F7]].
  apply enter_ok in H8. destruct H8 as [E8 [L8 F8]].
  apply call_ok_inv in H9. destruct H9 as [R9 [L9 F9]].
  apply sd_get_timesteps_reads_env in H10. destruct H10 as [E10 G10]. subst w10.
  apply enter_ok in H11. destruct H11 as [E11 [L11 F11]].
  pose proof H12 as H12'.
  eapply logs_only_run in H12; [|apply sd_prepare_latents_logs].
  destruct H12 as [F12 [d12 [L12 P12]]].
  apply enter_ok in H13. destruct H13 as [E13 [L13 F13]].
  apply enter_ok in H14. destruct H14 as [E14 [L14 F14]].
  inversion H15; subst u15 w15; clear H15.
  apply sd_loop_ok in H16. destruct H16 as [F16 [tr [L16 T16]]]. simpl in L16.
  apply enter_ok in H17. destruct H17 as [E17 [L17 F17]].
  apply sd_decode_ok in H18. destruct H18 as [evs [D18 L18]].
  apply sd_denormalize_ok in H19. destruct H19 as [D19 E19]. subst w19.
  apply call_ok_inv in H20. destruct H20 as [R20 [L20 F20]].
  exists bs, pe, d5, im, (env w8), (env w9), ts, n', latents0, d12, tr, latents',
         img, nsfw, evs, dd, img'.
  split; [exact Hbs|].
  split; [exists w4, w5; split; assumption|].
  split; [exact P5|].
  split; [eexists _, _; exact R7|].
  split; [destruct u9; exact R9|].
  split; [intros wa Ea; apply G10; exact Ea|].
  split; [exists w11, w12; split; assumption|].
  split; [exact P12|].
  split; [exact T16|].
  split; [exact D18|].
  split; [exact D19|].
  split; [eexists _, _; exact R20|].
  split; [exact Hout|].
  rewrite L20, L18, L17, L16, L14, L13, L12, L11, L9, L8, L7, L6, L5, L4, L2, L0.
  rewrite <- !app_assoc. reflexivity.
Qed.

End Img2ImgPhases.

(** ** The image2image pipeline: decoding, safety check and model calls *)

Section Img2ImgCalls.
Context {C : Collaborators}.

Lemma callback_event_loop_kinds :
  forall {cbT} (cb : option cbT) cs i t x,
    forallb (only loop_kinds) (callback_event cb cs i t x) = true.
Proof.
  intros cbT cb cs i t x. unfold callback_event.
  destruct cb; [|reflexivity].
  destruct (mod_callback_steps i cs) as [[| |]|]; reflexivity.
Qed.

Lemma sd_trace_only :
  forall gs pe kw extra L W cb cs its latents tr latents',
    sd_loop_trace gs pe kw extra L W cb cs its latents tr latents' ->
    forallb (only loop_kinds) tr = true.
Proof.
  intros gs pe kw extra L W cb cs its latents tr latents' H.
  induction H as [|i t its latents scaled out latents1 tr latents' H1 H2 H3 H IH].
  - reflexivity.
  - rewrite !forallb_app, IH, andb_true_r.
    destruct (progress_due L W i); [|reflexivity].
    cbn [forallb]. rewrite callback_event_loop_kinds. reflexivity.
Qed.

Lemma count_kind_not_in :
  forall ks k (d : list Event),
    existsb (Kind_beq k) ks = false ->
    forallb (only ks) d = true -> count_kind k d = 0.
Proof.
  intros ks k d Hk H. eapply count_kind_none; [|exact H].
  intros Hin. assert (E : existsb (Kind_beq k) ks = true).
  { apply existsb_exists. exists k. split; [exact Hin|].
    apply internal_Kind_dec_lb. reflexivity. }
  rewrite E in Hk. discriminate Hk.
Qed.

Lemma not_in_kinds :
  forall ks k, existsb (Kind_beq k) ks = false -> ~ In k ks.
Proof.
  intros ks k Hk Hin. assert (E : existsb (Kind_beq k) ks = true).
  { apply existsb_exists. exists k. split; [exact Hin|].
    apply internal_Kind_dec_lb. reflexivity. }
  rewrite E in Hk. discriminate Hk.
Qed.

Lemma unet_calls_not_in :
  forall ks (d : list Event),
    existsb (Kind_beq KUnet) ks = false ->
    forallb (only ks) d = true -> unet_calls d = [].
Proof.
  intros ks d Hk H. eapply unet_calls_none; [|exact H]. apply not_in_kinds. exact Hk.
Qed.

Lemma scheduler_steps_not_in :
  forall ks (d : list Event),
    existsb (Kind_beq KSchedulerStep) ks = false ->
    forallb (only ks) d = true -> scheduler_steps d = [].
Proof.
  intros ks d Hk H. eapply scheduler_steps_none; [|exact H]. apply not_in_kinds. exact Hk.
Qed.

Lemma progress_totals_not_in :
  forall ks (d : list Event),
    existsb (Kind_beq KProgressBar) ks = false ->
    forallb (only ks) d = true -> progress_totals d = [].
Proof.
  intros ks d Hk H. eapply progress_totals_none; [|exact H]. apply not_in_kinds. exact Hk.
Qed.

Lemma postprocess_calls_app :
  forall d1 d2,
    postprocess_calls (d1 ++ d2) = postprocess_calls d1 ++ postprocess_calls d2.
Proof. intros. unfold postprocess_calls. apply flat_map_app. Qed.

Lemma postprocess_calls_none :
  forall ks d,
    existsb (Kind_beq KPostprocess) ks = false ->
    forallb (only ks) d = true -> postprocess_calls d = [].
Proof.
  intros ks d Hk H. induction d as [|ev d IH]; [reflexivity|].
  simpl in H. apply andb_prop in H. destruct H as [H1 H2].
  simpl. rewrite (IH H2).
  destruct ev; try reflexivity.
  unfold only in H1. cbn [kind] in H1. rewrite H1 in Hk. discriminate Hk.
Qed.

Lemma sd_decoded_counts :
  forall o d latents img nsfw evs,
    sd_decoded o d latents img nsfw evs ->
    count_kind KVaeDecode evs = (if String.eqb o "latent" then 0 else 1) /\
    count_kind KSafetyChecker evs
      = (if String.eqb o "latent" || negb has_safety_checker then 0 else 1) /\
    postprocess_calls evs
      = (if String.eqb o "latent" || negb has_safety_checker then []
         else ["pil"%string]) /\
    (nsfw = None <-> String.eqb o "latent" || negb has_safety_checker = true) /\
    forallb (only [KVaeDecode; KPostprocess; KSafetyChecker]) evs = true.
Proof.
  intros o d latents img nsfw evs H. unfold sd_decoded in H.
  destruct (String.eqb o "latent").
  - destruct H as [_ [-> ->]]. repeat split; reflexivity.
  - destruct H as [decoded [_ H]]. cbn [orb].
    destruct has_safety_checker.
    + destruct H as [pil [flags [_ [_ [-> ->]]]]]. cbn [negb].
      repeat split; try reflexivity; discriminate.
    + destruct H as [_ [-> ->]]. cbn [negb]. repeat split; reflexivity.
Qed.

(** A completed image2image call decodes the final latents once, by the
    VAE, unless [output_type] is ['latent']: then neither the VAE decoder
    nor the safety checker is called.  When a safety checker is
    configured, the image processor first makes the decoded images PIL
    images ([output_type='pil']) for the feature extractor, and the safety
    checker is called once on the decoded images.  The output's
    [nsfw_content_detected] is [None] exactly when nothing was checked;
    the postprocessor, called last and with the [output_type] of the call,
    is told to denormalize every image then, and otherwise exactly the
    images that were not flagged. *)
Theorem sd_decoding_and_safety_check :
  forall (a : SD.Args) (w : World) out w',
    SD.__call__ a w = (Ok out, w') ->
    let latent := String.eqb (SD.output_type a) "latent" in
    exists d img flags,
      log w' = log w ++ d ++ [EvPostprocess (SD.output_type a)] /\
      postprocess_calls d
        = (if latent || negb has_safety_checker then [] else ["pil"%string]) /\
      count_kind KVaeDecode d = (if latent then 0 else 1) /\
      count_kind KSafetyChecker d
        = (if latent || negb has_safety_checker then 0 else 1) /\
      (sd_nsfw out = None <-> latent || negb has_safety_checker = true) /\
      sd_denormalize img (sd_nsfw out) flags /\
      returned (image_processor_postprocess img (SD.output_type a) flags)
               (sd_images out).
Proof.
  intros a w out w' H latent. apply sd_call_phases in H.
  destruct H as [bs [pe [d5 [im [e [e' [ts [n' [latents0 [d12 [tr [latents'
                [img [nsfw [evs [flags [img' H]]]]]]]]]]]]]]]]].
  destruct H as [_ [_ [P5 [_ [_ [_ [_ [P12 [Htr [Hdec [Hden [Hpost [Hout Hlog]]]]]]]]]]]]].
  apply sd_trace_only in Htr.
  destruct (sd_decoded_counts _ _ _ _ _ _ Hdec) as [C1 [C2 [C3 [C4 _]]]].
  assert (Hn : sd_nsfw out = nsfw /\ sd_images out = img')
    by (rewrite Hout; destruct (SD.return_dict a); split; reflexivity).
  destruct Hn as [Hn Hi]. rewrite Hn, Hi.
  exists (d5 ++ [EvPreprocess; EvSetTimesteps (Some (SD.num_inference_steps a)) None]
             ++ d12 ++ [EvProgressBar (Some n')] ++ tr ++ evs), img, flags.
  assert (Hcount : forall k,
            existsb (Kind_beq k)
              [KTextEncoder; KPreprocess; KSetTimesteps; KVaeEncode; KWarning; KRandn;
               KAddNoise; KProgressBar; KScaleModelInput; KUnet; KSchedulerStep;
               KProgressUpdate; KCallback] = false ->
            count_kind k
              (d5 ++ [EvPreprocess; EvSetTimesteps (Some (SD.num_inference_steps a)) None]
                  ++ d12 ++ [EvProgressBar (Some n')] ++ tr ++ evs)
            = count_kind k evs).
  { intros k Hk. rewrite !count_kind_app.
    rewrite (@count_kind_not_in [KWarning; KTextEncoder] k d5) by
      (try exact P5; destruct k; try discriminate Hk; reflexivity).
    rewrite (@count_kind_not_in [KVaeEncode; KWarning; KRandn; KAddNoise] k d12) by
      (try exact P12; destruct k; try discriminate Hk; reflexivity).
    rewrite (@count_kind_not_in loop_kinds k tr) by
      (try exact Htr; destruct k; try discriminate Hk; reflexivity).
    destruct k; try discriminate Hk; reflexivity. }
  split; [rewrite Hlog, <- !app_assoc; reflexivity|].
  split.
  { rewrite !postprocess_calls_app.
    rewrite (postprocess_calls_none [KWarning; KTextEncoder] d5 eq_refl P5).
    rewrite (postprocess_calls_none [KVaeEncode; KWarning; KRandn; KAddNoise] d12
               eq_refl P12).
    rewrite (postprocess_calls_none loop_kinds tr eq_refl Htr).
    exact C3. }
  split; [rewrite Hcount by reflexivity; exact C1|].
  split; [rewrite Hcount by reflexivity; exact C2|].
  split; [exact C4|]. split; [exact Hden | exact Hpost].
Qed.

End Img2ImgCalls.

Section Img2ImgModelCalls.
Context {C : Collaborators}.

Lemma callback_event_counts :
  forall {cbT} (cb : option cbT) cs i t x,
    unet_calls (callback_event cb cs i t x) = [] /\
    scheduler_steps (callback_event cb cs i t x) = [] /\
    progress_totals (callback_event cb cs i t x) = [] /\
    count_kind KProgressUpdate (callback_event cb cs i t x) = 0 /\
    count_kind KUnet (callback_event cb cs i t x) = 0.
Proof.
  intros cbT cb cs i t x. unfold callback_event.
  destruct cb; [|repeat split; reflexivity].
  destruct (mod_callback_steps i cs) as [[| |]|]; repeat split; reflexivity.
Qed.

(** The model calls, scheduler steps and progress updates of a completed
    image2image loop. *)
Lemma sd_trace_calls :
  forall gs pe kw extra L W cb cs its latents tr latents',
    sd_loop_trace gs pe kw extra L W cb cs its latents tr latents' ->
    unet_calls tr = map (fun it => (snd it, Some pe)) its /\
    scheduler_steps tr = map snd its /\
    progress_totals tr = [] /\
    count_kind KProgressUpdate tr = Py.len (filter (progress_due L W) (map fst its)) /\
    count_kind KUnet tr = Py.len its.
Proof.
  intros gs pe kw extra L W cb cs its latents tr latents' H.
  induction H as [|i t its latents scaled out latents1 tr latents' H1 H2 H3 H IH].
  - repeat split; reflexivity.
  - destruct IH as [IH1 [IH2 [IH3 [IH4 IH5]]]].
    destruct (callback_event_counts cb cs i t latents1) as [K1 [K2 [K3 [K4 K5]]]].
    repeat split.
    + rewrite !unet_calls_app, IH1. destruct (progress_due L W i).
      * change (unet_calls (EvProgressUpdate :: callback_event cb cs i t latents1))
          with (unet_calls (callback_event cb cs i t latents1)).
        rewrite K1. reflexivity.
      * reflexivity.
    + rewrite !scheduler_steps_app, IH2. destruct (progress_due L W i).
      * change (scheduler_steps (EvProgressUpdate :: callback_event cb cs i t latents1))
          with (scheduler_steps (callback_event cb cs i t latents1)).
        rewrite K2. reflexivity.
      * reflexivity.
    + rewrite !progress_totals_app, IH3. destruct (progress_due L W i).
      * change (progress_totals (EvProgressUpdate :: callback_event cb cs i t latents1))
          with (progress_totals (callback_event cb cs i t latents1)).
        rewrite K3. reflexivity.
      * reflexivity.
    + rewrite !count_kind_app, IH4. cbn [map fst filter].
      destruct (progress_due L W i).
      * change (EvProgressUpdate :: callback_event cb cs i t latents1)
          with ([EvProgressUpdate] ++ callback_event cb cs i t latents1).
        rewrite count_kind_app, K4.
        change (count_kind KProgressUpdate
                  [EvScaleModelInput (model_input gs latents) t;
                   EvUnet scaled t (Some pe);
                   EvSchedulerStep (guided_prediction gs out) t latents]) with 0.
        change (count_kind KProgressUpdate [EvProgressUpdate]) with 1.
        unfold Py.len. cbn [List.length]. lia.
      * change (count_kind KProgressUpdate
                  [EvScaleModelInput (model_input gs latents) t;
                   EvUnet scaled t (Some pe);
                   EvSchedulerStep (guided_prediction gs out) t latents]) with 0.
        change (count_kind KProgressUpdate []) with 0. lia.
    + rewrite !count_kind_app, IH5.
      change (count_kind KUnet
                [EvScaleModelInput (model_input gs latents) t;
                 EvUnet scaled t (Some pe);
                 EvSchedulerStep (guided_prediction gs out) t latents]) with 1.
      destruct (progress_due L W i).
      * change (EvProgressUpdate :: callback_event cb cs i t latents1)
          with ([EvProgressUpdate] ++ callback_event cb cs i t latents1).
        rewrite count_kind_app, K5.
        change (count_kind KUnet [EvProgressUpdate]) with 0.
        unfold Py.len. cbn [List.length]. lia.
      * change (count_kind KUnet []) with 0.
        unfold Py.len. cbn [List.length]. lia.
Qed.

(** In a completed image2image call the scheduler is configured with
    [num_inference_steps], [get_timesteps] selects the tail [ts] of its
    sequence, and the model and [scheduler.step] are called once per
    timestep of [ts], in order, every model call conditioned on the prompt
    embeddings [_encode_prompt] returned.  The progress bar is opened with
    the step count [get_timesteps] returned and updated at the iterations
    the loop's condition selects. *)
Theorem sd_one_model_call_per_timestep :
  forall (a : SD.Args) (w : World) out w',
    SD.__call__ a w = (Ok out, w') ->
    exists e e' ts n' pe d,
      sched_set_timesteps (Some (SD.num_inference_steps a)) None e = (Ok tt, e') /\
      (forall wa : World,
         env wa = e' ->
         SD.get_timesteps (SD.num_inference_steps a) (SD.strength a) wa
           = (Ok (ts, n'), wa)) /\
      (exists wa wb,
         SD._encode_prompt (SD.prompt a) (SD.num_images_per_prompt a)
           (Py.gt (SD.guidance_scale a) Py.one) (SD.negative_prompt a)
           (SD.prompt_embeds a) (SD.negative_prompt_embeds a) (sd_lora_scale a) wa
           = (Ok pe, wb)) /\
      log w' = log w ++ d /\
      unet_calls d = map (fun t => (t, Some pe)) ts /\
      scheduler_steps d = ts /\
      progress_totals d = [Some n'] /\
      count_kind KProgressUpdate d
        = Py.len (filter (progress_due (Py.len ts) (Py.len ts - n' * sched_order))
                         (Py.range (Py.len ts))).
Proof.
  intros a w out w' H. apply sd_call_phases in H.
  destruct H as [bs [pe [d5 [im [e [e' [ts [n' [latents0 [d12 [tr [latents'
                [img [nsfw [evs [flags [img' H]]]]]]]]]]]]]]]]].
  destruct H as [_ [[wa [wb [Hpe _]]] [P5 [_ [Hset [Hget [_ [P12 [Htr [Hdec [_ [_ [_ Hlog]]]]]]]]]]]]].
  apply sd_trace_calls in Htr. destruct Htr as [T1 [T2 [T3 [T4 _]]]].
  unfold Py.enumerate in T1, T2, T4.
  rewrite map_snd_enumerate_from in T2.
  change (Py.enumerate_from 0 ts) with (Py.enumerate ts) in T4.
  rewrite map_fst_enumerate in T4.
  destruct (sd_decoded_counts _ _ _ _ _ _ Hdec) as [_ [_ [_ [_ Pe]]]].
  exists e, e', ts, n', pe. eexists.
  split; [exact Hset|]. split; [exact Hget|].
  split; [exists wa, wb; exact Hpe|].
  split; [exact Hlog|].
  split; [|split; [|split]].
  - rewrite !unet_calls_app, T1.
    rewrite (unet_calls_not_in [KWarning; KTextEncoder] d5 eq_refl P5).
    rewrite (unet_calls_not_in [KVaeEncode; KWarning; KRandn; KAddNoise] d12 eq_refl P12).
    rewrite (unet_calls_not_in [KVaeDecode; KPostprocess; KSafetyChecker] evs eq_refl Pe).
    cbn [unet_calls flat_map app]. rewrite app_nil_r.
    rewrite <- (map_snd_enumerate_from ts 0) at 2. rewrite map_map. reflexivity.
  - rewrite !scheduler_steps_app, T2.
    rewrite (scheduler_steps_not_in [KWarning; KTextEncoder] d5 eq_refl P5).
    rewrite (scheduler_steps_not_in [KVaeEncode; KWarning; KRandn; KAddNoise] d12
               eq_refl P12).
    rewrite (scheduler_steps_not_in [KVaeDecode; KPostprocess; KSafetyChecker] evs
               eq_refl Pe).
    cbn [scheduler_steps flat_map app]. rewrite app_nil_r. reflexivity.
  - rewrite !progress_totals_app, T3.
    rewrite (progress_totals_not_in [KWarning; KTextEncoder] d5 eq_refl P5).
    rewrite (progress_totals_not_in [KVaeEncode; KWarning; KRandn; KAddNoise] d12
               eq_refl P12).
    rewrite (progress_totals_not_in [KVaeDecode; KPostprocess; KSafetyChecker] evs
               eq_refl Pe).
    reflexivity.
  - rewrite !count_kind_app, T4.
    rewrite (count_kind_not_in [KWarning; KTextEncoder] KProgressUpdate d5 eq_refl P5).
    rewrite (count_kind_not_in [KVaeEncode; KWarning; KRandn; KAddNoise]
               KProgressUpdate d12 eq_refl P12).
    rewrite (count_kind_not_in [KVaeDecode; KPostprocess; KSafetyChecker]
               KProgressUpdate evs eq_refl Pe).
    change (count_kind KProgressUpdate
              [EvPreprocess; EvSetTimesteps (Some (SD.num_inference_steps a)) None])
      with 0.
    change (count_kind KProgressUpdate [EvProgressBar (Some n')]) with 0.
    change (count_kind KProgressUpdate [EvPostprocess (SD.output_type a)]) with 0.
    lia.
Qed.

End Img2ImgModelCalls.

(** ** The image2image pipeline: the progress bar *)

Section Img2ImgProgress.
Context {C : Collaborators}.

Lemma compare_antisym :
  forall x y c, SFcompare x y = Some c -> SFcompare y x = Some (CompOpp c).
Proof.
  intros [sx|sx| |sx mx ex] [sy|sy| |sy my ey] c H; cbn in H |- *;
    try discriminate H; injection H as <-;
    try (destruct sx; reflexivity); try (destruct sy; reflexivity);
    try (destruct sx, sy; reflexivity).
  destruct sx, sy; try reflexivity.
  - rewrite (Z.compare_antisym ex ey).
    destruct (ex ?= ey); cbn [CompOpp]; try reflexivity.
    rewrite (Pos.compare_cont_antisym mx my Eq). reflexivity.
  - rewrite (Z.compare_antisym ex ey).
    destruct (ex ?= ey); cbn [CompOpp]; try reflexivity.
    rewrite (Pos.compare_cont_antisym mx my Eq). reflexivity.
Qed.

(** What validation leaves of [strength], once it is known not to be NaN. *)
Lemma validated_strength :
  forall s,
    Py.lt s Py.zero = false -> Py.gt s Py.one = false -> s <> S754_nan ->
    Py.le Py.zero s = true /\ Py.le s Py.one = true.
Proof.
  intros s Hlt Hgt Hn. unfold Py.lt, Py.gt, Py.le, SFltb, SFleb in *.
  assert (Hc : forall y, y <> S754_nan -> exists c, SFcompare s y = Some c).
  { intros y Hy. destruct s as [sx|sx| |sx mx ex], y as [sy|sy| |sy my ey];
      try congruence; cbn; eexists; reflexivity. }
  split.
  - destruct (Hc Py.zero) as [c Ec]; [discriminate|].
    rewrite Ec in Hlt. rewrite (compare_antisym _ _ _ Ec).
    destruct c; try reflexivity. discriminate Hlt.
  - destruct (Hc Py.one) as [c Ec]; [rewrite one_literal; discriminate|].
    rewrite Ec. rewrite (compare_antisym _ _ _ Ec) in Hgt.
    destruct c; try reflexivity. discriminate Hgt.
Qed.

(** What [get_timesteps] returned, for a validated [strength]. *)
Lemma sd_get_timesteps_ok :
  forall n s (w : World) ts n',
    0 < n -> Py.valid s = true ->
    Py.lt s Py.zero = false -> Py.gt s Py.one = false ->
    SD.get_timesteps n s w = (Ok (ts, n'), w) ->
    exists t_start,
      0 <= t_start <= n /\
      ts = Py.slice_from (t_start * sched_order) (sched_timesteps (env w)) /\
      n' = n - t_start.
Proof.
  intros n s w ts n' Hn Hv Hlt Hgt H.
  assert (Hs : s <> S754_nan).
  { intros ->. destruct (sd_get_timesteps_nan n w) as [e [He _]].
    rewrite He in H. discriminate H. }
  destruct (validated_strength s Hlt Hgt Hs) as [H0 H1].
  destruct (Py.float_of_int n) as [x|e] eqn:Ex.
  - destruct (@int_of_scaled_steps n s x Hn Ex Hv H0 H1) as [v [Ev Hpos]].
    assert (Hrun : rbind (Py.int_mul_float n s) Py.int_of_float = Ok v).
    { unfold Py.int_mul_float. rewrite Ex. simpl. exact Ev. }
    rewrite (@sd_get_timesteps_run _ n s v w Hrun) in H.
    injection H as <- <-.
    exists (Z.max (n - Z.min v n) 0). split; [lia|]. split; reflexivity.
  - unfold SD.get_timesteps, Py.int_mul_float, bind, lift in H.
    rewrite Ex in H. discriminate H.
Qed.

Lemma count_multiples :
  forall (o : Z) (m : nat),
    1 <= o ->
    Py.len (filter (fun i => (i + 1) mod o =? 0) (map Z.of_nat (seq 0 m)))
      = Z.of_nat m / o.
Proof.
  intros o m Ho. unfold Py.len. induction m as [|m IH].
  - reflexivity.
  - rewrite seq_S, map_app, filter_app, length_app, Nat2Z.inj_add, IH.
    cbn [seq map filter Nat.add].
    pose proof (Z.div_mod (Z.of_nat m) o ltac:(lia)) as Hd.
    pose proof (Z.mod_pos_bound (Z.of_nat m) o ltac:(lia)) as Hb.
    rewrite Nat2Z.inj_succ. unfold Z.succ.
    destruct ((Z.of_nat m + 1) mod o =? 0) eqn:E.
    + apply Z.eqb_eq in E. cbn [List.length].
      assert (Hq : (Z.of_nat m + 1) / o = Z.of_nat m / o + 1).
      { symmetry. apply Z.div_unique with (r := 0); [lia|].
        pose proof (Z.div_mod (Z.of_nat m + 1) o ltac:(lia)) as Hd1.
        rewrite E in Hd1.
        assert (Hlt : Z.of_nat m / o < (Z.of_nat m + 1) / o) by nia.
        assert (Hle : (Z.of_nat m + 1) / o <= Z.of_nat m / o + 1) by nia.
        nia. }
      rewrite Hq. lia.
    + apply Z.eqb_neq in E. cbn [List.length].
      assert (Hq : (Z.of_nat m + 1) / o = Z.of_nat m / o).
      { symmetry. apply Z.div_unique with (r := Z.of_nat m mod o + 1); [|lia].
        assert (Z.of_nat m mod o + 1 <> o).
        { intros Hx. apply E.
          replace (Z.of_nat m + 1) with (o * (Z.of_nat m / o + 1)) by lia.
          rewrite Z.mul_comm. apply Z.mod_mul. lia. }
        lia. }
      rewrite Hq. lia.
Qed.

(** The progress bar of a loop over [n' * order] timesteps, none of them
    warm-up, is updated [n'] times. *)
Lemma progress_updates_complete :
  forall n',
    1 <= sched_order -> 0 <= n' ->
    Py.len (filter (progress_due (n' * sched_order) (n' * sched_order - n' * sched_order))
                   (Py.range (n' * sched_order)))
      = n'.
Proof.
  intros n' Ho Hn.
  rewrite (filter_ext_in _ (fun i => (i + 1) mod sched_order =? 0)).
  - unfold Py.range. rewrite count_multiples by exact Ho.
    rewrite Z2Nat.id by nia. apply Z.div_mul. lia.
  - intros i Hi. unfold Py.range in Hi. apply in_map_iff in Hi.
    destruct Hi as [k [<- Hk]]. apply in_seq in Hk.
    unfold progress_due. rewrite Z.sub_diag.
    assert (E : (Z.of_nat k + 1 >? 0) = true) by (apply Z.gtb_lt; lia).
    rewrite E. cbn [andb].
    destruct (Z.of_nat k =? n' * sched_order - 1) eqn:E1; [|reflexivity].
    apply Z.eqb_eq in E1. cbn [orb]. symmetry. apply Z.eqb_eq.
    replace (Z.of_nat k + 1) with (n' * sched_order) by lia.
    apply Z.mod_mul. lia.
Qed.

(** For a scheduler of order at least 1 whose [set_timesteps(n)] makes a
    sequence of [n * order] timesteps, a completed image2image call with a
    positive [num_inference_steps] updates its progress bar exactly as many
    times as the total it was opened with, the step count [n'] returned by
    [get_timesteps]; that count is at most [num_inference_steps], and the
    model is called [n' * order] times. *)
Theorem sd_progress_bar_is_completed :
  forall (a : SD.Args) (w : World) out w',
    0 < SD.num_inference_steps a ->
    Py.valid (SD.strength a) = true ->
    1 <= sched_order ->
    (forall e e',
       sched_set_timesteps (Some (SD.num_inference_steps a)) None e = (Ok tt, e') ->
       Py.len (sched_timesteps e') = SD.num_inference_steps a * sched_order) ->
    SD.__call__ a w = (Ok out, w') ->
    exists n' d,
      0 <= n' <= SD.num_inference_steps a /\
      log w' = log w ++ d /\
      progress_totals d = [Some n'] /\
      count_kind KProgressUpdate d = n' /\
      count_kind KUnet d = n' * sched_order.
Proof.
  intros a w out w' Hn Hv Ho Hlaw H.
  pose proof H as H'. apply sd_call_ok in H'.
  destruct H' as [_ [_ [_ [_ [_ [_ [_ [_ [_ [Hlt [Hgt _]]]]]]]]]]].
  apply sd_call_phases in H.
  destruct H as [bs [pe [d5 [im [e [e' [ts [n' [latents0 [d12 [tr [latents'
                [img [nsfw [evs [flags [img' H]]]]]]]]]]]]]]]]].
  destruct H as [_ [_ [P5 [_ [Hset [Hget [_ [P12 [Htr [Hdec [_ [_ [_ Hlog]]]]]]]]]]]]].
  destruct (sd_decoded_counts _ _ _ _ _ _ Hdec) as [_ [_ [_ [_ Pe]]]].
  apply sd_trace_calls in Htr. destruct Htr as [_ [_ [T3 [T4 T5]]]].
  unfold Py.enumerate in T5. rewrite len_enumerate_from in T5.
  rewrite map_fst_enumerate in T4.
  specialize (Hlaw e e' Hset).
  specialize (Hget {| env := e'; log := []; frames := [] |} eq_refl).
  apply sd_get_timesteps_ok in Hget; try assumption.
  destruct Hget as [t_start [Hts [Ets En]]]. cbn [env] in Ets.
  assert (Hlen : Py.len ts = n' * sched_order).
  { rewrite Ets, len_slice_from by nia. rewrite Hlaw. nia. }
  exists n'. eexists. split; [lia|]. split; [exact Hlog|].
  split; [|split].
  - rewrite !progress_totals_app, T3.
    rewrite (progress_totals_not_in [KWarning; KTextEncoder] d5 eq_refl P5).
    rewrite (progress_totals_not_in [KVaeEncode; KWarning; KRandn; KAddNoise] d12 eq_refl P12).
    rewrite (progress_totals_not_in [KVaeDecode; KPostprocess; KSafetyChecker] evs eq_refl Pe).
    reflexivity.
  - rewrite !count_kind_app, T4.
    rewrite (count_kind_not_in [KWarning; KTextEncoder] KProgressUpdate d5 eq_refl P5).
    rewrite (count_kind_not_in [KVaeEncode; KWarning; KRandn; KAddNoise]
               KProgressUpdate d12) by (try exact P12; reflexivity).
    rewrite (count_kind_not_in [KVaeDecode; KPostprocess; KSafetyChecker] KProgressUpdate evs eq_refl Pe).
    change (count_kind KProgressUpdate
              [EvPreprocess; EvSetTimesteps (Some (SD.num_inference_steps a)) None])
      with 0.
    change (count_kind KProgressUpdate [EvProgressBar (Some n')]) with 0.
    change (count_kind KProgressUpdate [EvPostprocess (SD.output_type a)]) with 0.
    rewrite Hlen, progress_updates_complete by lia. lia.
  - rewrite !count_kind_app, T5.
    rewrite (count_kind_not_in [KWarning; KTextEncoder] KUnet d5 eq_refl P5).
    rewrite (count_kind_not_in [KVaeEncode; KWarning; KRandn; KAddNoise] KUnet d12) by
      (try exact P12; reflexivity).
    rewrite (count_kind_not_in [KVaeDecode; KPostprocess; KSafetyChecker] KUnet evs eq_refl Pe).
    change (count_kind KUnet
              [EvPreprocess; EvSetTimesteps (Some (SD.num_inference_steps a)) None])
      with 0.
    change (count_kind KUnet [EvProgressBar (Some n')]) with 0.
    change (count_kind KUnet [EvPostprocess (SD.output_type a)]) with 0.
    lia.
Qed.

End Img2ImgProgress.

(** ** Classifier-free guidance *)

Section Img2ImgGuidance.
Context {C : Collaborators}.



End Img2ImgGuidance.

(** ** The call parameters through the phases *)

Ltac by_kind :=
  let ev := fresh "ev" in
  let Hev := fresh "Hev" in
  intros ev Hev; destruct ev; try discriminate Hev; exact I.

Ltac quiet_phase lem :=
  eapply yields_weaken; [ | | apply lem ]; [ by_kind | intros ? [] ].

Section CallParameters.
Context {C : Collaborators}.

Lemma cm_call_events :
  forall a : CM.Args, yields (cm_event_ok a) (fun _ => True) (CM.__call__ a).
Proof.
  intros a. unfold CM.__call__. cbv zeta.
  apply yields_bind; [apply yields_enter; exact I | intros _].
  apply yields_bind; [quiet_phase cm_check_inputs_logs | intros _].
  apply yields_bind; [apply yields_enter; exact I | intros _].
  apply yields_bind; [| intros sample].
  { unfold CM.prepare_latents. cbv zeta.
    apply yields_bind; [| intros _].
    { destruct (CM.generator a) as [[g|gl]|];
        [apply yields_ret | | apply yields_ret].
      apply yields_when. apply yields_raise. }
    apply yields_bind; [| intros x].
    { destruct (CM.latents a); [apply yields_ret|].
      apply yields_call. reflexivity. }
    apply yields_bind; [apply yields_read | intros sigma; apply yields_ret]. }
  apply yields_bind; [apply yields_enter; exact I | intros _].
  apply yields_bind; [| intros labels].
  { unfold CM.prepare_class_labels.
    destruct cm_num_class_embeds; [|apply yields_ret].
    destruct (CM.class_labels a); try apply yields_ret.
    - apply yields_bind; [apply yields_call; reflexivity | intros t; apply yields_ret].
    - destruct (CM.batch_size a =? 1); [apply yields_ret | apply yields_raise]. }
  apply yields_bind; [apply yields_enter; exact I | intros _].
  apply yields_bind_knowing
    with (R := fun x : list Timestep * option Z =>
                 cm_event_ok a (EvProgressBar (snd x))).
  - intros w0 x w1 H. unfold cm_event_ok.
    destruct (CM.timesteps a) as [ts|].
    + apply bind_ok_inv in H. destruct H as [u [wa [Ha H]]].
      apply call_ok_inv in Ha. destruct Ha as [Ra _]. destruct u.
      unfold bind, read, ret in H. injection H as <- _.
      exists (env w0), (env wa). split; [exact Ra | reflexivity].
    + apply bind_ok_inv in H. destruct H as [u [wa [Ha H]]].
      unfold bind, read, ret in H. injection H as <- _. reflexivity.
  - unfold cm_steps_argument.
    destruct (CM.timesteps a) as [ts|] eqn:Ets.
    + apply yields_bind;
        [apply yields_call; unfold cm_event_ok, cm_steps_argument; rewrite Ets;
         split; reflexivity | intros _].
      apply yields_bind; [apply yields_read | intros x; apply yields_ret].
    + apply yields_bind;
        [apply yields_call; unfold cm_event_ok, cm_steps_argument; rewrite Ets;
         split; reflexivity | intros _].
      apply yields_bind; [apply yields_read | intros x; apply yields_ret].
  - intros [ts n'] Hn.
    apply yields_bind; [apply yields_enter; exact I | intros _].
    apply yields_bind; [apply yields_emit; exact Hn | intros _].
    apply yields_bind; [quiet_phase cm_denoising_loop_logs | intros sample'].
    apply yields_bind; [apply yields_enter; exact I | intros _].
    apply yields_bind; [quiet_phase cm_postprocess_image_logs | intros image].
    destruct (CM.return_dict a); apply yields_ret.
Qed.

Lemma sd_prepare_latents_events :
  forall (a : SD.Args) im t bs n d g,
    (forall x noise, sd_event_ok a (EvAddNoise x noise t)) ->
    yields (sd_event_ok a) (fun _ => True) (SD.prepare_latents im t bs n d g).
Proof.
  intros a im t bs n d g Ht. unfold SD.prepare_latents. cbv zeta.
  apply yields_bind; [destruct im; first [apply yields_ret | apply yields_raise]
                     | intros image].
  apply yields_bind; [quiet_phase sd_encode_image_logs | intros init_latents].
  apply yields_bind; [quiet_phase sd_expand_init_latents_logs | intros expanded].
  apply yields_bind; [apply yields_call; exact I | intros noise].
  apply yields_bind; [apply yields_call; apply Ht | intros latents].
  apply yields_ret.
Qed.

Lemma sd_loop_body_events :
  forall (a : SD.Args) pe kw extra L W cb cs i t x,
    yields (sd_event_ok a) (fun _ => True)
           (SD.loop_body (Py.gt (SD.guidance_scale a) Py.one) (SD.guidance_scale a)
                         pe kw extra L W cb cs i t x).
Proof.
  intros a pe kw extra L W cb cs i t x. unfold SD.loop_body. cbv zeta.
  apply yields_bind; [apply yields_call; exists x; reflexivity | intros scaled].
  apply yields_bind; [apply yields_call; exact I | intros out].
  apply yields_bind; [| intros latents].
  { apply yields_call. exists out. cbv beta iota zeta.
    destruct (Py.gt (SD.guidance_scale a) Py.one); [|reflexivity].
    destruct (chunk2 out); reflexivity. }
  apply yields_bind; [| intros update_progress].
  { destruct (i =? L - 1); [apply yields_ret|].
    destruct (i + 1 >? W); [|apply yields_ret].
    apply yields_bind; [apply yields_lift | intros r; apply yields_ret]. }
  apply yields_bind; [| intros _; apply yields_ret].
  apply yields_when.
  apply yields_bind; [apply yields_emit; exact I | intros _].
  destruct cb as [cb|]; [|apply yields_ret].
  apply yields_bind; [apply yields_lift | intros r].
  apply yields_when. apply yields_call. exact I.
Qed.

Lemma sd_denoising_loop_events :
  forall (a : SD.Args) pe kw extra L W cb cs its x,
    yields (sd_event_ok a) (fun _ => True)
           (SD.denoising_loop (Py.gt (SD.guidance_scale a) Py.one) (SD.guidance_scale a)
                              pe kw extra L W cb cs its x).
Proof.
  intros a pe kw extra L W cb cs its.
  induction its as [|[i t] its IH]; intros x; simpl.
  - apply yields_ret.
  - apply yields_bind; [apply sd_loop_body_events | intros; apply IH].
Qed.

Lemma sd_call_events :
  forall a : SD.Args, yields (sd_event_ok a) (fun _ => True) (SD.__call__ a).
Proof.
  intros a. unfold SD.__call__. cbv zeta.
  apply yields_bind; [apply yields_enter; exact I | intros _].
  apply yields_bind; [quiet_phase sd_check_inputs_logs | intros _].
  apply yields_bind; [apply yields_enter; exact I | intros _].
  apply yields_bind_knowing with (R := fun b => sd_batch_size a = Ok b).
  - intros w0 b w1 H. apply sd_batch_size_ok in H. apply H.
  - destruct (SD.prompt a) as [[s|l|]|]; try apply yields_ret;
      destruct (SD.prompt_embeds a); first [apply yields_lift | apply yields_raise].
  - intros bs Hbs.
    apply yields_bind; [apply yields_enter; exact I | intros _].
    apply yields_bind; [quiet_phase sd_encode_prompt_logs | intros pe].
    apply yields_bind; [apply yields_enter; exact I | intros _].
    apply yields_bind; [apply yields_call; exact I | intros im].
    apply yields_bind; [apply yields_enter; exact I | intros _].
    apply yields_bind; [apply yields_call; split; reflexivity | intros _].
    apply yields_bind_knowing
      with (R := fun x : list Timestep * Z => sd_timesteps_of a (fst x) (snd x)).
    + intros w0 [ts n'] w1 H. exists w0.
      apply sd_get_timesteps_reads_env in H. destruct H as [-> H]. exact (H w0 eq_refl).
    + quiet_phase sd_get_timesteps_logs.
    + intros [ts n'] Hts. cbn [fst snd] in Hts.
      apply yields_bind; [apply yields_enter; exact I | intros _].
      apply yields_bind; [| intros latents].
      { apply sd_prepare_latents_events. intros x noise.
        exists bs, ts, n'. split; [exact Hbs|]. split; [exact Hts | reflexivity]. }
      apply yields_bind; [apply yields_enter; exact I | intros _].
      apply yields_bind; [apply yields_enter; exact I | intros _].
      apply yields_bind; [apply yields_emit; exists ts, n'; split; [exact Hts | reflexivity]
                         | intros _].
      apply yields_bind; [apply sd_denoising_loop_events | intros latents'].
      apply yields_bind; [apply yields_enter; exact I | intros _].
      apply yields_bind; [| intros [image nsfw]].
      { destruct (negb (String.eqb (SD.output_type a) "latent")); [|apply yields_ret].
        apply yields_bind; [apply yields_call; exact I | intros decoded].
        unfold SD.run_safety_checker.
        destruct has_safety_checker; [|apply yields_ret].
        apply yields_bind; [apply yields_call; left; reflexivity | intros pil].
        apply yields_bind; [apply yields_call; exact I | intros [x flags]].
        apply yields_ret. }
      apply yields_bind; [| intros flags].
      { destruct nsfw; [apply yields_ret|].
        apply yields_bind; [apply yields_lift | intros n; apply yields_ret]. }
      apply yields_bind; [apply yields_call; right; reflexivity | intros img'].
      destruct (SD.return_dict a); apply yields_ret.
Qed.

(** C5 (as amended).  What the phases of either [__call__] are given of
    the call parameters.

    In every run, completed or not, the events show the values of entry:
    the consistency pipeline draws latents and class labels of
    [batch_size] and configures the scheduler from [num_inference_steps]
    and [timesteps]; image2image configures the scheduler with
    [num_inference_steps], adds the noise at the timestep tiled to
    [batch_size * num_images_per_prompt], builds the model input and the
    prediction of every iteration by [guidance_scale], and postprocesses
    to [output_type].

    In a completed run each phase was run on the values of entry:
    [prepare_latents] and [prepare_class_labels] on [batch_size], the loop
    on [guidance_scale], the decoding and the postprocessing on
    [output_type], [get_timesteps] on [num_inference_steps] and [strength].

    The step count is another matter: the progress bar of the loop is
    opened with the count [get_timesteps] returned in image2image, and with
    the length of the scheduler's timesteps when the consistency pipeline
    is given [timesteps]; only in the consistency pipeline without
    [timesteps] is it the [num_inference_steps] of entry. *)
Theorem C5_call_parameters_through_the_phases :
  (forall (a : CM.Args) (w : World) r w',
     CM.__call__ a w = (r, w') ->
     exists d, log w' = log w ++ d /\ Forall (cm_event_ok a) d) /\
  (forall (a : CM.Args) (w : World) out w',
     CM.__call__ a w = (Ok out, w') ->
     exists d3 d5 e e' labels sample tr sample' image,
       (exists wa wb,
          CM.prepare_latents (CM.batch_size a) cm_in_channels cm_sample_size
            cm_sample_size cm_unet_dtype (CM.generator a) (CM.latents a) wa
            = (Ok sample, wb) /\
          log wb = log wa ++ d3) /\
       (exists wa wb,
          CM.prepare_class_labels (CM.batch_size a) (CM.class_labels a) wa
            = (Ok labels, wb) /\
          log wb = log wa ++ d5) /\
       sched_set_timesteps (cm_steps_argument a) (CM.timesteps a) e = (Ok tt, e') /\
       cm_loop_trace labels (CM.generator a) (CM.callback a) (CM.callback_steps a)
         (Py.enumerate (sched_timesteps e')) sample tr sample' /\
       (forall wa : World,
          CM.postprocess_image sample' (CM.output_type a) wa = (Ok image, wa)) /\
       out = (if CM.return_dict a then CM.ImagePipelineOutput image
              else CM.Tuple image) /\
       log w' = log w ++ cm_warning (CM.num_inference_steps a) (CM.timesteps a)
                  ++ d3 ++ d5
                  ++ [EvSetTimesteps (cm_steps_argument a) (CM.timesteps a);
                      EvProgressBar
                        (match CM.timesteps a with
                         | Some _ => Some (Py.len (sched_timesteps e'))
                         | None => CM.num_inference_steps a
                         end)]
                  ++ tr) /\
  (forall (a : SD.Args) (w : World) r w',
     SD.__call__ a w = (r, w') ->
     exists d, log w' = log w ++ d /\ Forall (sd_event_ok a) d) /\
  (forall (a : SD.Args) (w : World) out w',
     SD.__call__ a w = (Ok out, w') ->
     exists bs pe d5 im e e' ts n' latents0 d12 tr latents' img nsfw evs flags img',
       sd_batch_size a = Ok bs /\
       (exists wa wb,
          SD._encode_prompt (SD.prompt a) (SD.num_images_per_prompt a)
            (Py.gt (SD.guidance_scale a) Py.one) (SD.negative_prompt a)
            (SD.prompt_embeds a) (SD.negative_prompt_embeds a) (sd_lora_scale a) wa
            = (Ok pe, wb) /\
          log wb = log wa ++ d5) /\
       returned (image_processor_preprocess (SD.image a)) im /\
       sched_set_timesteps (Some (SD.num_inference_steps a)) None e = (Ok tt, e') /\
       (forall wa : World,
          env wa = e' ->
          SD.get_timesteps (SD.num_inference_steps a) (SD.strength a) wa
            = (Ok (ts, n'), wa)) /\
       (exists wa wb,
          SD.prepare_latents (SD.ImTensor im)
            (tile_timesteps (Py.slice_to 1 ts) (bs * SD.num_images_per_prompt a))
            bs (SD.num_images_per_prompt a) (dtype pe) (SD.generator a) wa
            = (Ok latents0, wb) /\
          log wb = log wa ++ d12) /\
       sd_loop_trace (SD.guidance_scale a) pe (SD.cross_attention_kwargs a)
         (SD.prepare_extra_step_kwargs (SD.generator a) (SD.eta a))
         (Py.len ts) (Py.len ts - n' * sched_order)
         (SD.callback a) (SD.callback_steps a)
         (Py.enumerate ts) latents0 tr latents' /\
       sd_decoded (SD.output_type a) (dtype pe) latents' img nsfw evs /\
       sd_denormalize img nsfw flags /\
       returned (image_processor_postprocess img (SD.output_type a) flags) img' /\
       out = (if SD.return_dict a then SD.StableDiffusionPipelineOutput img' nsfw
              else SD.Tuple img' nsfw) /\
       log w' = log w ++ d5
                  ++ [EvPreprocess; EvSetTimesteps (Some (SD.num_inference_steps a)) None]
                  ++ d12 ++ [EvProgressBar (Some n')] ++ tr ++ evs
                  ++ [EvPostprocess (SD.output_type a)]).
Proof.
  split; [|split; [|split]].
  - intros a w r w' H. destruct (cm_call_events a _ _ _ H) as [_ Hd]. exact Hd.
  - intros a w out w' H. apply cm_call_phases in H.
    destruct H as [d3 [d5 [e [e' [labels [sample [tr [sample' [image H]]]]]]]]].
    destruct H as [H1 [_ [H2 [_ [H3 [H4 [H5 [H6 H7]]]]]]]].
    exists d3, d5, e, e', labels, sample, tr, sample', image.
    repeat (split; [assumption|]). assumption.
  - intros a w r w' H. destruct (sd_call_events a _ _ _ H) as [_ Hd]. exact Hd.
  - intros a w out w' H. apply sd_call_phases in H.
    destruct H as [bs [pe [d5 [im [e [e' [ts [n' [latents0 [d12 [tr [latents'
                  [img [nsfw [evs [flags [img' H]]]]]]]]]]]]]]]]].
    destruct H as [H1 [H2 [_ [H3 [H4 [H5 [H6 [_ [H7 [H8 [H9 [H10 [H11 H12]]]]]]]]]]]]].
    exists bs, pe, d5, im, e, e', ts, n', latents0, d12, tr, latents', img, nsfw, evs,
           flags, img'.
    repeat (split; [assumption|]). assumption.
Qed.

End CallParameters.

(** ** The image2image pipeline: encoding the prompts *)

Section EmitsRuns.
Context {C : Collaborators}.

Lemma count_kind_nil : forall k, count_kind k (@nil Event) = 0.
Proof. reflexivity. Qed.

Lemma count_kind_nonneg : forall k (d : list Event), 0 <= count_kind k d.
Proof. intros. unfold count_kind, Py.len. lia. Qed.

Lemma emits_quiet :
  forall {A} k (m : M A) n,
    0 <= n -> (n <> 0 -> forall w r w', m w = (r, w') -> is_ok r = false) ->
    (forall w r w', m w = (r, w') -> w' = w) -> emits k n m.
Proof.
  intros A k m n Hn Hr Hm w r w' H. pose proof (Hm _ _ _ H) as ->.
  exists []. rewrite app_nil_r, count_kind_nil. split; [reflexivity|]. split; [exact Hn|].
  intros Hok. destruct (Z.eq_dec n 0) as [E|E]; [symmetry; exact E|].
  rewrite (Hr E _ _ _ H) in Hok. discriminate Hok.
Qed.

Lemma emits_ret : forall {A} k (a : A), emits k 0 (ret a).
Proof.
  intros A k a. apply emits_quiet; [lia|congruence|].
  intros w r w' H. inversion H. reflexivity.
Qed.

Lemma emits_raise : forall {A} k e n, 0 <= n -> emits k n (@raise _ A e).
Proof.
  intros A k e n Hn. apply emits_quiet; [exact Hn| |].
  - intros _ w r w' H. inversion H. reflexivity.
  - intros w r w' H. inversion H. reflexivity.
Qed.

Lemma emits_lift : forall {A} k (x : result A), emits k 0 (lift x).
Proof.
  intros A k x. apply emits_quiet; [lia|congruence|].
  intros w r w' H. inversion H. reflexivity.
Qed.

Lemma emits_update : forall k (f : Env -> Env), emits k 0 (update f).
Proof.
  intros k f w r w' H. unfold update in H. inversion H; subst. cbn [log].
  exists []. rewrite app_nil_r, count_kind_nil. repeat split; lia.
Qed.

Lemma emits_call :
  forall {A} k ev (f : Env -> result A * Env),
    emits k (if Kind_beq (kind ev) k then 1 else 0) (call ev f).
Proof.
  intros A k ev f w r w' H. unfold call in H.
  destruct (f (env w)) as [r0 e0]. inversion H; subst. cbn [log].
  exists [ev]. split; [reflexivity|].
  unfold count_kind, Py.len. cbn [filter].
  destruct (Kind_beq (kind ev) k); cbn [List.length]; split; intros; lia.
Qed.

Lemma emits_emit :
  forall k ev, emits k (if Kind_beq (kind ev) k then 1 else 0) (emit ev).
Proof.
  intros k ev w r w' H. unfold emit in H. inversion H; subst. cbn [log].
  exists [ev]. split; [reflexivity|].
  unfold count_kind, Py.len. cbn [filter].
  destruct (Kind_beq (kind ev) k); cbn [List.length]; split; intros; lia.
Qed.

Lemma emits_bind :
  forall {A B} k (m : M A) (f : A -> M B) n1 n2,
    emits k n1 m -> (forall a, emits k n2 (f a)) -> 0 <= n2 ->
    emits k (n1 + n2) (bind m f).
Proof.
  intros A B k m f n1 n2 Hm Hf Hn w r w' H. unfold bind in H.
  destruct (m w) as [[a|e] w1] eqn:E.
  - destruct (Hm _ _ _ E) as [d1 [L1 [B1 X1]]].
    destruct (Hf a _ _ _ H) as [d2 [L2 [B2 X2]]].
    exists (d1 ++ d2). rewrite L2, L1, <- app_assoc, count_kind_app.
    specialize (X1 eq_refl).
    split; [reflexivity|]. split; [lia|]. intros Hok. specialize (X2 Hok). lia.
  - destruct (Hm _ _ _ E) as [d1 [L1 [B1 X1]]].
    inversion H; subst. exists d1. split; [exact L1|]. split; [lia|].
    intros Hok. discriminate Hok.
Qed.

Lemma emits_eq :
  forall {A} k n n' (m : M A), n' = n -> emits k n' m -> emits k n m.
Proof. intros A k n n' m <- H. exact H. Qed.

Lemma emits_lift_ok :
  forall {A B} k (x : A) (f : A -> M B) n,
    emits k n (f x) -> emits k n (bind (lift (Ok x)) f).
Proof. intros A B k x f n H. exact H. Qed.

Lemma emits_lift_raise :
  forall {A B} k e (f : A -> M B) n,
    0 <= n -> emits k n (bind (lift (Raise e)) f).
Proof.
  intros A B k e f n Hn. apply emits_quiet; [exact Hn| |].
  - intros _ w r w' H. inversion H. reflexivity.
  - intros w r w' H. inversion H. reflexivity.
Qed.

End EmitsRuns.

Ltac emits_step n1 n2 :=
  eapply (emits_eq _ _ (n1 + n2));
  [ lia | apply (emits_bind _ _ _ n1 n2); [ | intros ? | lia ] ].

Section EncodePrompt.
Context {C : Collaborators}.

(** The steps of [_encode_prompt] that log nothing. *)
Lemma sd_encode_batch_size_emits :
  forall k (p : option Prompt) (pe : option Tensor),
    emits k 0
      (match p with
       | Some (PStr _) => ret 1
       | Some (PList l) => ret (Py.len l)
       | _ => match pe with
              | Some pe0 => lift (Py.index (shape pe0) 0)
              | None => raise AttributeError
              end
       end).
Proof.
  intros k p pe.
  destruct p as [[s|l|]|]; try apply emits_ret;
    (destruct pe; [apply emits_lift | apply emits_raise; lia]).
Qed.

Lemma sd_uncond_tokens_emits :
  forall k (p np : option Prompt) bs,
    emits k 0
      (match np with
       | None => ret (PList (repeat EmptyString (Z.to_nat bs)))
       | Some np0 =>
           if match p with
              | Some pr => negb (SD.same_type pr np0)
              | None => false
              end
           then raise TypeError
           else
             match np0 with
             | PStr s => ret (PList [s])
             | PList l =>
                 if negb (bs =? Py.len l) then raise ValueError else ret (PList l)
             | POther => raise TypeError
             end
       end).
Proof.
  intros k p np bs.
  destruct np as [npr|]; [|apply emits_ret].
  destruct (match p with Some pr => negb (SD.same_type pr npr) | None => false end);
    [apply emits_raise; lia|].
  destruct npr as [s|l|]; try apply emits_ret; try (apply emits_raise; lia).
  destruct (negb (bs =? Py.len l)); [apply emits_raise; lia | apply emits_ret].
Qed.

(** What [_encode_prompt] does once the prompt is embedded: [k] is
    [KTextEncoder] or [KWarning], [b] the number of its events there. *)
Lemma sd_encode_negative_emits :
  forall k b (p : option Prompt) n (cfg : bool) np (npe : option Tensor) bs
         (raw : Tensor),
    (Kind_beq KTextEncoder k = true ->
     b = (if cfg then match npe with Some _ => 0 | None => 1 end else 0)) ->
    (Kind_beq KTextEncoder k = false -> b = 0) ->
    emits k b
      (let prompt_embeds := cast raw text_encoder_dtype in
       match shape prompt_embeds with
       | [bs_embed; seq_len; _] =>
           let prompt_embeds := tile prompt_embeds [1; n; 1] in
           let prompt_embeds := reshape prompt_embeds [bs_embed * n; seq_len; -1] in
           negative_prompt_embeds <-
             (if cfg then
                match npe with
                | Some npe0 => ret (Some npe0)
                | None =>
                    uncond_tokens <-
                      match np with
                      | None => ret (PList (repeat EmptyString (Z.to_nat bs)))
                      | Some np0 =>
                          if match p with
                             | Some pr => negb (SD.same_type pr np0)
                             | None => false
                             end
                          then raise TypeError
                          else
                            match np0 with
                            | PStr s => ret (PList [s])
                            | PList l =>
                                if negb (bs =? Py.len l) then raise ValueError
                                else ret (PList l)
                            | POther => raise TypeError
                            end
                      end ;;
                    max_length <- lift (Py.index (shape prompt_embeds) 1) ;;
                    npe0 <- call (EvTextEncoder uncond_tokens)
                                 (encode_text uncond_tokens (Some max_length)) ;;
                    ret (Some npe0)
                end
              else ret npe) ;;
           if cfg then
             match negative_prompt_embeds with
             | Some npe0 =>
                 seq_len <- lift (Py.index (shape npe0) 1) ;;
                 let npe0 := cast npe0 text_encoder_dtype in
                 let npe0 := tile npe0 [1; n; 1] in
                 let npe0 := reshape npe0 [bs * n; seq_len; -1] in
                 ret (concat [npe0; prompt_embeds])
             | None => raise AttributeError
             end
           else ret prompt_embeds
       | _ => raise ValueError
       end).
Proof.
  intros k b p n cfg np npe bs raw Hyes Hno.
  assert (Hb : 0 <= b).
  { destruct (Kind_beq KTextEncoder k).
    - rewrite (Hyes eq_refl). destruct cfg; [destruct npe|]; lia.
    - rewrite (Hno eq_refl). lia. }
  assert (Hcall : forall ev, (if Kind_beq (kind (EvTextEncoder ev)) k then 1 else 0)
                             = (if Kind_beq KTextEncoder k then 1 else 0))
    by reflexivity.
  assert (Hquiet : cfg && match npe with Some _ => false | None => true end = false ->
                   b = 0).
  { intros Hq. destruct (Kind_beq KTextEncoder k).
    - rewrite (Hyes eq_refl). destruct cfg; [|reflexivity].
      destruct npe; [reflexivity|discriminate Hq].
    - apply Hno. reflexivity. }
  assert (Hloud : cfg = true -> npe = None ->
                  b = (if Kind_beq KTextEncoder k then 1 else 0)).
  { intros -> ->. destruct (Kind_beq KTextEncoder k).
    - apply Hyes. reflexivity.
    - apply Hno. reflexivity. }
  clear Hyes Hno.
  cbv zeta.
  destruct (shape (cast raw text_encoder_dtype)) as [|d1 [|d2 [|d3 [|d4 rest]]]];
    try (apply emits_raise; exact Hb).
  emits_step b 0.
  - destruct cfg.
    + destruct npe.
      * eapply emits_eq; [|apply emits_ret]. symmetry. apply Hquiet. reflexivity.
      * emits_step 0 b; [apply sd_uncond_tokens_emits|].
        emits_step 0 b; [apply emits_lift|].
        emits_step b 0; [|apply emits_ret].
        match goal with
        | |- emits _ _ (call ?ev _) =>
            eapply emits_eq; [|apply (emits_call k ev)]
        end.
        rewrite Hcall. symmetry. apply Hloud; reflexivity.
    + eapply emits_eq; [|apply emits_ret]. symmetry. apply Hquiet. reflexivity.
  - destruct cfg; [|apply emits_ret].
    match goal with
    | |- emits _ _ (match ?x with _ => _ end) => destruct x
    end; [|apply emits_raise; lia].
    emits_step 0 0; [apply emits_lift | apply emits_ret].
Qed.

(** The text-encoder calls of [_encode_prompt]. *)
Lemma sd_encode_prompt_emits_calls :
  forall (p : option Prompt) n cfg np (pe npe : option Tensor) ls,
    emits KTextEncoder (text_encoder_calls cfg pe npe)
          (SD._encode_prompt p n cfg np pe npe ls).
Proof.
  intros p n cfg np pe npe ls. unfold SD._encode_prompt, text_encoder_calls.
  set (a := match pe with Some _ => 0 | None => 1 end).
  set (b := if cfg then match npe with Some _ => 0 | None => 1 end else 0).
  assert (Ha : 0 <= a) by (unfold a; destruct pe; lia).
  assert (Hb : 0 <= b) by (unfold b; destruct cfg; [destruct npe|]; lia).
  emits_step 0 (a + b).
  { destruct ls; [apply emits_update | apply emits_ret]. }
  emits_step 0 (a + b); [apply sd_encode_batch_size_emits|].
  emits_step a b.
  { unfold a. destruct pe; [apply emits_ret|].
    destruct p as [pr|]; [|apply emits_raise; lia].
    emits_step 0 1; [apply emits_lift|].
    emits_step 0 1; [|apply (emits_call KTextEncoder (EvTextEncoder pr))].
    match goal with
    | |- emits _ _ (when ?t _) =>
        destruct t; [apply (emits_emit KTextEncoder (EvWarning _)) | apply emits_ret]
    end. }
  apply sd_encode_negative_emits.
  - intros _. reflexivity.
  - intros E. discriminate E.
Qed.

(** The warnings of [_encode_prompt]. *)
Lemma sd_encode_prompt_emits_warnings :
  forall (p : option Prompt) n cfg np (pe npe : option Tensor) ls,
    emits KWarning (truncation_warnings p pe)
          (SD._encode_prompt p n cfg np pe npe ls).
Proof.
  intros p n cfg np pe npe ls. unfold SD._encode_prompt.
  set (a := truncation_warnings p pe).
  assert (Ha : 0 <= a).
  { unfold a, truncation_warnings. destruct pe; [lia|]. destruct p as [pr|]; [|lia].
    destruct (tokenizer_truncates pr) as [[|]|]; lia. }
  emits_step 0 a.
  { destruct ls; [apply emits_update | apply emits_ret]. }
  emits_step 0 a; [apply sd_encode_batch_size_emits|].
  emits_step a 0.
  { unfold a, truncation_warnings. destruct pe; [apply emits_ret|].
    destruct p as [pr|]; [|apply emits_raise; lia].
    destruct (tokenizer_truncates pr) as [[|]|e].
    - apply emits_lift_ok. cbn [when].
      emits_step 1 0; [apply (emits_emit KWarning (EvWarning _))|].
      apply (emits_call KWarning (EvTextEncoder pr)).
    - apply emits_lift_ok. cbn [when].
      emits_step 0 0; [apply emits_ret|].
      apply (emits_call KWarning (EvTextEncoder pr)).
    - apply emits_lift_raise. lia. }
  apply sd_encode_negative_emits.
  - intros E. discriminate E.
  - intros _. reflexivity.
Qed.

Lemma only_counts_nil :
  forall (d : list Event),
    forallb (only [KWarning; KTextEncoder]) d = true ->
    count_kind KWarning d = 0 -> count_kind KTextEncoder d = 0 -> d = [].
Proof.
  intros [|ev d] H Hw He; [reflexivity|]. exfalso.
  cbn [forallb] in H. apply andb_prop in H. destruct H as [H _].
  pose proof (count_kind_nonneg KWarning d) as Nw.
  pose proof (count_kind_nonneg KTextEncoder d) as Ne.
  change (ev :: d) with ([ev] ++ d) in Hw, He. rewrite count_kind_app in Hw, He.
  unfold only in H. cbn [existsb] in H.
  destruct (Kind_beq (kind ev) KWarning) eqn:E1.
  - assert (X : count_kind KWarning [ev] = 1)
      by (unfold count_kind; cbn [filter]; rewrite E1; reflexivity).
    lia.
  - destruct (Kind_beq (kind ev) KTextEncoder) eqn:E2; [|discriminate H].
    assert (X : count_kind KTextEncoder [ev] = 1)
      by (unfold count_kind; cbn [filter]; rewrite E2; reflexivity).
    lia.
Qed.

(** [_encode_prompt] calls the text encoder at most once for the prompt
    and once for the negative prompt, and exactly so when it returns: the
    prompt is encoded unless [prompt_embeds] is given, the negative prompt
    under guidance only and unless [negative_prompt_embeds] is given.  The
    one other thing it logs is its warning about a prompt the tokenizer
    cuts: at most once, only when it tokenizes the prompt, and always then
    when it returns.  With the embeddings precomputed it logs nothing. *)
Theorem sd_text_encoder_is_called_for_missing_embeddings_only :
  forall (p : option Prompt) n cfg np (pe npe : option Tensor) ls (w : World) r w',
    SD._encode_prompt p n cfg np pe npe ls w = (r, w') ->
    exists d,
      log w' = log w ++ d /\
      forallb (only [KWarning; KTextEncoder]) d = true /\
      count_kind KTextEncoder d <= text_encoder_calls cfg pe npe /\
      (is_ok r = true -> count_kind KTextEncoder d = text_encoder_calls cfg pe npe) /\
      count_kind KWarning d <= truncation_warnings p pe /\
      (is_ok r = true -> count_kind KWarning d = truncation_warnings p pe) /\
      (pe <> None -> (cfg = false \/ npe <> None) -> d = []).
Proof.
  intros p n cfg np pe npe ls w r w' H.
  pose proof H as H'.
  eapply logs_only_run in H'; [|apply sd_encode_prompt_logs].
  destruct H' as [_ [d [L P]]].
  destruct (sd_encode_prompt_emits_calls p n cfg np pe npe ls _ _ _ H)
    as [d1 [L1 [B1 X1]]].
  destruct (sd_encode_prompt_emits_warnings p n cfg np pe npe ls _ _ _ H)
    as [d2 [L2 [B2 X2]]].
  assert (d1 = d) as -> by (apply (app_inv_head (log w)); congruence).
  assert (d2 = d) as -> by (apply (app_inv_head (log w)); congruence).
  exists d. split; [exact L|]. split; [exact P|]. split; [exact B1|].
  split; [exact X1|]. split; [exact B2|]. split; [exact X2|].
  intros Hpe Hn. apply only_counts_nil; [exact P| |].
  - pose proof (count_kind_nonneg KWarning d) as N.
    unfold truncation_warnings in B2. destruct pe; [lia|congruence].
  - pose proof (count_kind_nonneg KTextEncoder d) as N.
    unfold text_encoder_calls in B1. destruct pe; [|congruence].
    destruct Hn as [-> | Hn]; [lia|].
    destruct npe; [|congruence]. destruct cfg; lia.
Qed.

End EncodePrompt.

Section EncodePromptGuided.
Context {C : Collaborators}.




End EncodePromptGuided.

Section EncodePromptErrors.
Context {C : Collaborators}.

(** One run of the prompt through the tokenizer and the text encoder. *)
Lemma sd_encode_call_run :
  forall (pr : Prompt) (w : World),
    (truncated <- lift (tokenizer_truncates pr) ;;
     when truncated
       (emit (EvWarning "The following part of your input was truncated")) ;;
     call (EvTextEncoder pr) (encode_text pr None)) w
    = match tokenizer_truncates pr with
      | Raise e => (Raise e, w)
      | Ok truncated =>
          (fst (encode_text pr None (env w)),
           {| env := snd (encode_text pr None (env w));
              log := log w ++ truncation_warning truncated ++ [EvTextEncoder pr];
              frames := frames w |})
      end.
Proof.
  intros pr w. unfold bind at 1. unfold lift.
  destruct (tokenizer_truncates pr) as [[|]|e]; [| |reflexivity].
  - unfold bind, when, emit, call. cbn [env log frames].
    destruct (encode_text pr None (env w)) as [r0 e0]. cbn [fst snd truncation_warning].
    rewrite <- app_assoc. reflexivity.
  - unfold bind, when, ret, call.
    destruct (encode_text pr None (env w)) as [r0 e0]. reflexivity.
Qed.

(** Under guidance, a [negative_prompt] that is not of the type of the
    [prompt] (a [str] or a [list]), or is a list of another length, makes
    [_encode_prompt] fail, but only once the prompt itself has been through
    the tokenizer and the text encoder: the warning about a prompt that is
    cut is given, the text encoder is called, and then, if it returned an
    embedding of three dimensions, [TypeError] is raised for the type and
    [ValueError] for the length.  (An exception of the tokenizer comes
    first, with nothing logged.) *)
Theorem sd_negative_prompt_is_checked_after_the_prompt_is_encoded :
  forall (pr np0 : Prompt) n ls (w : World) r w',
    pr <> POther ->
    (SD.same_type pr np0 = false \/
     exists l l', pr = PList l /\ np0 = PList l' /\ Py.len l <> Py.len l') ->
    SD._encode_prompt (Some pr) n true (Some np0) None None ls w = (r, w') ->
    is_ok r = false /\
    match tokenizer_truncates pr with
    | Raise e => r = Raise e /\ log w' = log w
    | Ok truncated =>
        log w' = log w ++ truncation_warning truncated ++ [EvTextEncoder pr] /\
        (forall raw e1 b s d,
           encode_text pr None (with_lora_scale ls (env w)) = (Ok raw, e1) ->
           shape (cast raw text_encoder_dtype) = [b; s; d] ->
           r = Raise (if SD.same_type pr np0 then ValueError else TypeError))
    end.
Proof.
  intros pr np0 n ls w r w' Hpr Hbad H. unfold SD._encode_prompt in H.
  set (w0 := {| env := with_lora_scale ls (env w); log := log w; frames := frames w |}).
  assert (H0' : match ls with
                | Some sc => update (set_lora_scale sc)
                | None => ret tt
                end w = (Ok tt, w0)).
  { destruct ls; [reflexivity|]. unfold w0. destruct w; reflexivity. }
  erewrite bind_ok in H by exact H0'.
  assert (H1 : exists bs,
            match Some pr with
            | Some (PStr _) => ret 1
            | Some (PList l) => ret (Py.len l)
            | _ => match @None Tensor with
                   | Some pe0 => lift (Py.index (shape pe0) 0)
                   | None => raise AttributeError
                   end
            end w0 = (Ok bs, w0) /\
            forall l, pr = PList l -> bs = Py.len l).
  { destruct pr as [s|l|]; [| |congruence].
    - exists 1. split; [reflexivity|]. intros l E. discriminate E.
    - exists (Py.len l). split; [reflexivity|]. intros l0 E. congruence. }
  destruct H1 as [bs [H1 Hbs]]. erewrite bind_ok in H by exact H1.
  unfold bind at 1 in H. rewrite sd_encode_call_run in H. cbn [env log frames w0] in H.
  destruct (tokenizer_truncates pr) as [truncated|e0].
  - destruct (encode_text pr None (with_lora_scale ls (env w))) as [[raw|e] e1] eqn:Ee;
      cbn [fst snd] in H.
    + cbv zeta in H.
      destruct (shape (cast raw text_encoder_dtype)) as [|b0 [|s0 [|d0 [|x sh]]]] eqn:Es;
        try (inversion H; subst; cbn [log]; split; [reflexivity|];
             split; [reflexivity|];
             intros raw' e1' b s d E1 E2; injection E1 as <- _;
             rewrite Es in E2; discriminate E2).
      assert (Hr : r = Raise (if SD.same_type pr np0 then ValueError else TypeError) /\
                   log w' = log w ++ truncation_warning truncated ++ [EvTextEncoder pr]).
      { unfold bind in H. cbn [negb] in H.
        destruct (SD.same_type pr np0) eqn:Et; cbn [negb] in H.
        - destruct Hbad as [Hbad|[l [l' [-> [-> Hl]]]]]; [discriminate Hbad|].
          rewrite (Hbs l eq_refl) in H.
          apply Z.eqb_neq in Hl. rewrite Hl in H. cbn [negb] in H.
          inversion H; subst. split; reflexivity.
        - inversion H; subst. split; reflexivity. }
      destruct Hr as [-> Hl]. split; [reflexivity|]. split; [exact Hl|].
      intros; reflexivity.
    + inversion H; subst. cbn [log]. split; [reflexivity|]. split; [reflexivity|].
      intros raw e2 b s d E. discriminate E.
  - inversion H; subst. cbn [log]. split; [reflexivity|]. split; reflexivity.
Qed.

End EncodePromptErrors.

(** ** Image2image latent preparation: encoding and surplus images *)

Section LatentPreparationFurther.
Context {C : Collaborators}.

Lemma sd_encode_each_ok :
  forall (image : Tensor) (gl : list Generator) (idx : list Z) (w : World) outs w',
    mapM (fun i =>
            g <- lift (Py.index gl i) ;;
            call (EvVaeEncode (slice0 image i (i + 1)))
                 (vae_encode_sample (slice0 image i (i + 1)) (Some (inl g))))
         idx w = (Ok outs, w') ->
    log w' = log w ++ map (fun i => EvVaeEncode (slice0 image i (i + 1))) idx /\
    Forall2 (fun i out =>
               exists g,
                 Py.index gl i = Ok g /\
                 returned (vae_encode_sample (slice0 image i (i + 1)) (Some (inl g))) out)
            idx outs.
Proof.
  intros image gl idx. induction idx as [|i idx IH]; intros w outs w' H.
  - inversion H; subst. rewrite app_nil_r. split; [reflexivity | constructor].
  - cbn [mapM] in H.
    apply bind_ok_inv in H. destruct H as [y [w1 [H1 H]]].
    apply bind_ok_inv in H. destruct H as [ys [w2 [H2 H]]].
    inversion H; subst outs w'. clear H.
    apply bind_ok_inv in H1. destruct H1 as [g [w0 [Hg H1]]].
    unfold lift in Hg. injection Hg as Hg <-.
    apply call_ok_inv in H1. destruct H1 as [R [L _]].
    apply IH in H2. destruct H2 as [L2 F2].
    split.
    + rewrite L2, L, <- app_assoc. reflexivity.
    + constructor; [|exact F2]. exists g. split; [exact Hg|].
      eexists _, _. exact R.
Qed.

(** With a list of generators, image2image encodes the images one by one:
    the VAE is called once per image of the effective batch, in order, on
    the slice [image[i:i+1]] with the generator [generator[i]]; the init
    latents are the concatenated samples times the VAE's scaling factor.
    (An image of 4 channels is not encoded at all.) *)
Theorem sd_each_image_is_encoded_with_its_generator :
  forall (image : Tensor) bs (gl : list Generator) (w : World) c init w',
    Py.index (shape image) 1 = Ok c -> c <> 4 ->
    SD.encode_image image bs (Some (inr gl)) w = (Ok init, w') ->
    Py.len gl = bs /\
    exists outs,
      log w' = log w ++ map (fun i => EvVaeEncode (slice0 image i (i + 1))) (Py.range bs) /\
      Forall2 (fun i out =>
                 exists g,
                   Py.index gl i = Ok g /\
                   returned (vae_encode_sample (slice0 image i (i + 1)) (Some (inl g)))
                            out)
              (Py.range bs) outs /\
      init = smul vae_scaling_factor (concat outs).
Proof.
  intros image bs gl w c init w' Hc Hne H. unfold SD.encode_image in H.
  apply bind_ok_inv in H. destruct H as [c0 [w0 [H0 H]]].
  unfold lift in H0. rewrite Hc in H0. injection H0 as <- <-.
  apply Z.eqb_neq in Hne. rewrite Hne in H.
  apply bind_ok_inv in H. destruct H as [x [w1 [H1 H]]].
  cbv zeta in H. inversion H; subst init w'. clear H.
  destruct (Py.len gl =? bs) eqn:El; cbn [negb] in H1; [|discriminate H1].
  apply Z.eqb_eq in El.
  apply bind_ok_inv in H1. destruct H1 as [outs [w2 [H1 H]]].
  inversion H; subst x w2. clear H.
  apply sd_encode_each_ok in H1. destruct H1 as [L F].
  split; [exact El|]. exists outs. split; [exact L|]. split; [exact F | reflexivity].
Qed.

Lemma sd_expand_ok :
  forall bs (init : Tensor) (w : World) x w1,
    SD.expand_init_latents bs init w = (Ok x, w1) ->
    exists k, x = concat (repeat init k).
Proof.
  intros bs init w x w1 H. unfold SD.expand_init_latents in H.
  apply bind_ok_inv in H. destruct H as [n0 [w0 [_ H]]].
  destruct (bs >? n0).
  - apply bind_ok_inv in H. destruct H as [m [w2 [_ H]]].
    destruct (m =? 0); [|discriminate H].
    apply bind_ok_inv in H. destruct H as [u [w3 [_ H]]].
    apply bind_ok_inv in H. destruct H as [q [w4 [_ H]]].
    cbv zeta in H. inversion H; subst. eexists. reflexivity.
  - cbv zeta in H. inversion H; subst. exists 1%nat. reflexivity.
Qed.

(** An image that is latent-shaped already (4 channels) is taken as the
    init latents as it is: the VAE encoder is never called and the VAE's
    scaling factor is not applied; the latents returned are the scheduler's
    noising of copies of the cast image. *)
Theorem sd_latent_shaped_image_skips_the_vae :
  forall (image : Tensor) ts b n d (g : GeneratorArg) (w : World) r w',
    Py.index (shape (cast image d)) 1 = Ok 4 ->
    SD.prepare_latents (SD.ImTensor image) ts b n d g w = (r, w') ->
    exists dl,
      log w' = log w ++ dl /\
      count_kind KVaeEncode dl = 0 /\
      forall y,
        r = Ok y ->
        exists k noise,
          returned (sched_add_noise (concat (repeat (cast image d) k)) noise ts) y.
Proof.
  intros image ts b n d g w r w' Hc H.
  pose proof (@sd_encode_image_latent_shaped _ (cast image d) (b * n) g w Hc) as He.
  unfold SD.prepare_latents in H. cbv zeta in H.
  unfold bind at 1 in H. cbn [ret] in H.
  erewrite bind_ok in H by exact He.
  pose proof H as H'.
  eapply logs_only_run in H'.
  2:{ unfold logs_only. apply yields_bind.
      - eapply yields_weaken; [| |apply sd_expand_init_latents_logs].
        + intros ev Hev. eapply only_incl; [|exact Hev].
          instantiate (1 := [KWarning; KRandn; KAddNoise]). simpl. tauto.
        + intros f Hf. exact Hf.
      - intros x. yields_auto. }
  destruct H' as [_ [dl [L P]]].
  exists dl. split; [exact L|]. split.
  - apply (count_kind_not_in [KWarning; KRandn; KAddNoise]); [reflexivity | exact P].
  - intros y ->.
    apply bind_ok_inv in H. destruct H as [x [w1 [Hx H]]].
    apply bind_ok_inv in H. destruct H as [noise [w2 [_ H]]].
    apply bind_ok_inv in H. destruct H as [y0 [w3 [Hn H]]].
    inversion H; subst y0 w3. clear H.
    apply call_ok_inv in Hn. destruct Hn as [R _].
    apply sd_expand_ok in Hx. destruct Hx as [k ->].
    exists k, noise. eexists _, _. exact R.
Qed.

(** With at least as many source latents as the effective batch size,
    image2image keeps them all: nothing is replicated or dropped, no warning
    is logged and no error raised, so that the latents returned have the
    batch dimension of the sources, which may exceed the effective batch
    size.  (The batch dimensions are those of a framework whose [concat]
    adds them up and a scheduler whose [add_noise] keeps the shape.) *)
Theorem sd_surplus_source_latents_are_all_kept :
  forall (image : Tensor) (ts : list Timestep) (b n : Z) (d : DType)
         (g : GeneratorArg) (w w1 : World) (init : Tensor) (n0 : Z),
    SD.encode_image (cast image d) (b * n) g w = (Ok init, w1) ->
    Py.index (shape init) 0 = Ok n0 ->
    b * n <= n0 ->
    (forall x k m,
       Py.index (shape x) 0 = Ok m ->
       Py.index (shape (concat (repeat x k))) 0 = Ok (Z.of_nat k * m)) ->
    (forall x noise t e y e',
       sched_add_noise x noise t e = (Ok y, e') -> shape y = shape x) ->
    SD.expand_init_latents (b * n) init w1 = (Ok (concat [init]), w1) /\
    forall r w',
      SD.prepare_latents (SD.ImTensor image) ts b n d g w = (r, w') ->
      (exists rest, log w' = log w1 ++ EvRandn (shape (concat [init])) d :: rest) /\
      forall y, r = Ok y -> Py.index (shape y) 0 = Ok n0.
Proof.
  intros image ts b n d g w w1 init n0 He Hn Hle Hcat Hnoise.
  assert (Hx : SD.expand_init_latents (b * n) init w1 = (Ok (concat [init]), w1))
    by (eapply sd_expand_enough; [exact Hn | exact Hle]).
  split; [exact Hx|].
  intros r w' H.
  eapply sd_prepare_latents_tail in H; [|exact He|exact Hx].
  destruct H as [Hlog Hy]. split; [exact Hlog|].
  intros y Ey. destruct (Hy y Ey) as [noise [e [e' R]]].
  rewrite (Hnoise _ _ _ _ _ _ R).
  change (concat [init]) with (concat (repeat init 1)).
  rewrite (Hcat init 1%nat n0 Hn). f_equal. lia.
Qed.

End LatentPreparationFurther.

(** ** The timestep adapter at the ends of the strength range *)

Section ExactDoubles.

Lemma digits2_pos_unique :
  forall (m : positive) (k : Z),
    2 ^ (k - 1) <= Zpos m < 2 ^ k -> Zpos (digits2_pos m) = k.
Proof.
  intros m k [Hlo Hhi]. destruct (digits2_pos_bounds m) as [Dlo Dhi].
  set (d := Zpos (digits2_pos m)) in *.
  assert (Hd : 0 < d) by (unfold d; lia).
  assert (Hk : 0 < k).
  { destruct (Z_lt_le_dec 0 k) as [|Hn]; [assumption|]. exfalso.
    destruct (Z.eq_dec k 0) as [->|Hne]; [simpl in Hhi; lia|].
    rewrite Z.pow_neg_r in Hhi by lia. lia. }
  destruct (Z.lt_trichotomy d k) as [Hlt|[Heq|Hgt]]; [|exact Heq|].
  - assert (2 ^ d <= 2 ^ (k - 1)) by (apply Z.pow_le_mono_r; lia). lia.
  - assert (2 ^ k <= 2 ^ (d - 1)) by (apply Z.pow_le_mono_r; lia). lia.
Qed.

(** Rounding a value that a double of 53 digits represents returns that
    double: no bit is lost. *)
Lemma binary_round_aux_representable :
  forall sx (M q : positive) (E k : Z),
    0 <= k -> Zpos M = Zpos q * 2 ^ k ->
    Zpos (digits2_pos q) = 53 ->
    -1074 <= E + k <= 971 ->
    binary_round_aux 53 1024 sx (Zpos M) E loc_Exact = S754_finite sx q (E + k).
Proof.
  intros sx M q E k Hk HM Hq HE.
  destruct (digits2_pos_bounds q) as [Qlo Qhi]. rewrite Hq in Qlo, Qhi.
  change (53 - 1) with 52 in Qlo.
  assert (Hpk : 0 < 2 ^ k) by (apply Z.pow_pos_nonneg; lia).
  assert (HdM : Zpos (digits2_pos M) = 53 + k).
  { apply digits2_pos_unique. rewrite HM.
    replace (53 + k - 1) with (52 + k) by lia.
    rewrite !Z.pow_add_r by lia. nia. }
  assert (Hfin : finalize sx (Zpos q) (E + k) = S754_finite sx q (E + k)).
  { unfold finalize.
    assert (E1 : (Zpos q =? 2 ^ 53) = false) by (apply Z.eqb_neq; lia).
    assert (E2 : (E + k <=? 971) = true) by (apply Z.leb_le; lia).
    rewrite E1, E2. reflexivity. }
  unfold binary_round_aux.
  unfold shr_fexp at 1. cbn [Zdigits2]. rewrite HdM, fexp_unfold.
  replace (Z.max (53 + k + E - 53) (-1074) - E) with k by lia.
  cbn [shr_record_of_loc].
  destruct k as [|p|p]; [| |lia].
  - cbn [shr]. cbn [shr_m loc_of_shr_record round_nearest_even].
    assert (M = q) as -> by lia.
    rewrite <- Hfin. replace (E + 0) with E by lia.
    apply second_stage; lia.
  - cbn [shr].
    destruct (@shr_pos_spec p (Zpos M) ltac:(lia)) as [Hm Hr].
    set (mrs := iter_pos shr_1 p {| shr_m := Zpos M; shr_r := false; shr_s := false |})
      in *.
    assert (Hmq : shr_m mrs = Zpos q).
    { rewrite Hm, HM. apply Z.div_mul. lia. }
    assert (Hrf : shr_r mrs = false).
    { destruct (shr_r mrs); [|reflexivity]. specialize (Hr eq_refl). lia. }
    destruct (round_nearest_even_cases mrs) as [Hc|[_ Hrr]];
      [|rewrite Hrf in Hrr; discriminate Hrr].
    rewrite Hc, Hmq, <- Hfin. apply second_stage; lia.
Qed.

Lemma pos_iter_xO :
  forall (p d : positive), Zpos (Pos.iter xO p d) = Zpos p * 2 ^ Zpos d.
Proof.
  intros p d. induction d as [|d IH] using Pos.peano_ind.
  - cbn [Pos.iter]. rewrite Pos2Z.inj_xO. change (2 ^ 1) with 2. lia.
  - rewrite Pos.iter_succ, Pos2Z.inj_xO, IH, Pos2Z.inj_succ, Z.pow_succ_r by lia.
    lia.
Qed.

(** [float(n)] is exact for [0 < n < 2^53], and so are its product with
    [1.0] and the conversion back. *)
Lemma float_of_int_exact :
  forall n,
    0 < n < 2 ^ 53 ->
    exists m e,
      Py.float_of_int n = Ok (S754_finite false m e) /\
      Zpos (digits2_pos m) = 53 /\ -52 <= e <= 0 /\ Zpos m = n * 2 ^ (- e).
Proof.
  intros n [Hn Hhi]. destruct n as [|p|p]; try lia.
  unfold Py.float_of_int, Py.float_of_dyadic.
  cbn [binary_normalize]. unfold binary_round.
  change Py.prec with 53. change Py.emax with 1024.
  rewrite fexp_unfold.
  pose proof (@digits_le_53 p Hhi) as Hd.
  assert (Hd0 : 0 < Zpos (digits2_pos p)) by lia.
  destruct (digits2_pos_bounds p) as [Plo Phi].
  set (dg := Zpos (digits2_pos p)) in *.
  replace (Z.max (dg + 0 - 53) (-1074)) with (dg - 53) by lia.
  unfold shl_align. replace (dg - 53 - 0) with (dg - 53) by lia.
  destruct (dg - 53) as [|u|u] eqn:Eu; [| lia |].
  - (* 53 digits already *)
    assert (Hr : binary_round_aux 53 1024 false (Zpos p) 0 loc_Exact
                 = S754_finite false p (0 + 0)).
    { apply binary_round_aux_representable; try lia. }
    rewrite Hr. exists p, 0. cbn. repeat split; try lia.
  - (* shifted left by [53 - dg] *)
    assert (Hu : Zpos u = 53 - dg) by lia.
    assert (Hz : Zpos (Pos.iter xO p u) = Zpos p * 2 ^ Zpos u) by apply pos_iter_xO.
    assert (Hpu : 0 < 2 ^ Zpos u) by (apply Z.pow_pos_nonneg; lia).
    assert (Hdz : Zpos (digits2_pos (Pos.iter xO p u)) = 53).
    { apply digits2_pos_unique. rewrite Hz. change (53 - 1) with 52.
      assert (A : 2 ^ 52 = 2 ^ (dg - 1) * 2 ^ Zpos u)
        by (rewrite <- Z.pow_add_r by lia; f_equal; lia).
      assert (B : 2 ^ 53 = 2 ^ dg * 2 ^ Zpos u)
        by (rewrite <- Z.pow_add_r by lia; f_equal; lia).
      rewrite A, B. nia. }
    assert (Hr : binary_round_aux 53 1024 false (Zpos (Pos.iter xO p u)) (Zneg u) loc_Exact
                 = S754_finite false (Pos.iter xO p u) (Zneg u + 0)).
    { apply binary_round_aux_representable; try lia. }
    rewrite Hr. replace (Zneg u + 0) with (Zneg u) by lia.
    exists (Pos.iter xO p u), (Zneg u).
    split; [reflexivity|]. split; [exact Hdz|]. split; [lia|].
    rewrite Hz. reflexivity.
Qed.

Lemma mul_one_exact :
  forall (m : positive) (e : Z),
    Zpos (digits2_pos m) = 53 -> -1074 <= e <= 971 ->
    Py.mul (S754_finite false m e) Py.one = S754_finite false m e.
Proof.
  intros m e Hd He. rewrite one_literal. unfold Py.mul, SFmul.
  change Py.prec with 53. change Py.emax with 1024. cbn [xorb].
  replace (S754_finite false m e) with (S754_finite false m (e + -52 + 52))
    by (f_equal; lia).
  apply binary_round_aux_representable; lia.
Qed.

Lemma int_of_float_exact :
  forall n (m : positive) (e : Z),
    -52 <= e <= 0 -> Zpos m = n * 2 ^ (- e) ->
    Py.int_of_float (S754_finite false m e) = Ok n.
Proof.
  intros n m e He Hm. unfold Py.int_of_float.
  destruct (0 <=? e) eqn:E0.
  - apply Z.leb_le in E0. assert (e = 0) as -> by lia.
    rewrite Hm. f_equal. cbn. lia.
  - rewrite Hm. f_equal. apply Z.div_mul.
    apply Z.pow_nonzero; lia.
Qed.

End ExactDoubles.

Section StrengthRange.
Context {C : Collaborators}.

Lemma mul_zero :
  forall n x sg,
    Py.float_of_int n = Ok x -> exists sg', Py.mul x (S754_zero sg) = S754_zero sg'.
Proof.
  intros n x sg H. unfold Py.float_of_int in H.
  destruct (Py.float_of_dyadic n 0) as [s|s| |s m e]; try discriminate H;
    injection H as <-; eexists; reflexivity.
Qed.

Lemma sd_get_timesteps_zero :
  forall n x sg (w : World),
    0 <= n -> Py.float_of_int n = Ok x ->
    SD.get_timesteps n (S754_zero sg) w
      = (Ok (Py.slice_from (n * sched_order) (sched_timesteps (env w)), 0), w).
Proof.
  intros n x sg w Hn Hx.
  destruct (mul_zero n x sg Hx) as [sg' Hm].
  assert (Hrun : rbind (Py.int_mul_float n (S754_zero sg)) Py.int_of_float = Ok 0).
  { unfold Py.int_mul_float. rewrite Hx. cbn [rbind]. rewrite Hm. reflexivity. }
  rewrite (@sd_get_timesteps_run _ n (S754_zero sg) 0 w Hrun).
  replace (Z.max (n - Z.min 0 n) 0) with n by lia.
  replace (n - n) with 0 by lia. reflexivity.
Qed.

(** At the ends of the strength range, for [0 < num_inference_steps < 2^53]
    (where the conversion to a double is exact): with strength [1.0]
    [get_timesteps] returns the scheduler's whole sequence and the step
    count [num_inference_steps]; with strength [0.0] (or [-0.0]) it returns
    the sequence from position [num_inference_steps * order] on, which is
    empty when the sequence has no more entries than that, and the step
    count 0. *)
Theorem sd_get_timesteps_at_full_and_zero_strength :
  forall n (w : World),
    0 < n < 2 ^ 53 ->
    SD.get_timesteps n Py.one w = (Ok (sched_timesteps (env w), n), w) /\
    forall sg,
      SD.get_timesteps n (S754_zero sg) w
        = (Ok (Py.slice_from (n * sched_order) (sched_timesteps (env w)), 0), w) /\
      (0 <= sched_order ->
       Py.len (sched_timesteps (env w)) <= n * sched_order ->
       Py.slice_from (n * sched_order) (sched_timesteps (env w)) = []).
Proof.
  intros n w Hn.
  destruct (float_of_int_exact n Hn) as [m [e [Hx [Hd [He Hm]]]]].
  split.
  - assert (Hrun : rbind (Py.int_mul_float n Py.one) Py.int_of_float = Ok n).
    { unfold Py.int_mul_float. rewrite Hx. cbn [rbind].
      rewrite mul_one_exact by (try exact Hd; lia).
      apply int_of_float_exact; assumption. }
    rewrite (@sd_get_timesteps_run _ n Py.one n w Hrun).
    replace (Z.max (n - Z.min n n) 0) with 0 by lia.
    replace (n - 0) with n by lia. reflexivity.
  - intros sg. split.
    + apply (sd_get_timesteps_zero n (S754_finite false m e) sg w); [lia | exact Hx].
    + intros Ho Hlen.
      assert (Hl : Py.len (Py.slice_from (n * sched_order) (sched_timesteps (env w))) = 0)
        by (rewrite len_slice_from by nia; lia).
      destruct (Py.slice_from (n * sched_order) (sched_timesteps (env w)));
        [reflexivity|].
      unfold Py.len in Hl. cbn [List.length] in Hl. lia.
Qed.

(** A completed image2image call with strength [0.0] does no denoising:
    for a scheduler whose [set_timesteps(n)] makes a sequence of at most
    [n * order] timesteps, the model and [scheduler.step] are never called,
    the progress bar is opened with total 0 and never updated, and the
    init latents were noised with an empty timestep tensor. *)
Theorem sd_zero_strength_calls_no_model :
  forall (a : SD.Args) (w : World) sg out w',
    SD.strength a = S754_zero sg ->
    0 < SD.num_inference_steps a ->
    0 <= sched_order ->
    (forall e e',
       sched_set_timesteps (Some (SD.num_inference_steps a)) None e = (Ok tt, e') ->
       Py.len (sched_timesteps e') <= SD.num_inference_steps a * sched_order) ->
    SD.__call__ a w = (Ok out, w') ->
    exists d,
      log w' = log w ++ d /\
      count_kind KUnet d = 0 /\
      count_kind KSchedulerStep d = 0 /\
      count_kind KProgressUpdate d = 0 /\
      progress_totals d = [Some 0] /\
      (forall x noise ts, In (EvAddNoise x noise ts) d -> exists k, ts = tile_timesteps [] k).
Proof.
  intros a w sg out w' Hs Hn Ho Hlaw H.
  apply sd_call_phases in H.
  destruct H as [bs [pe [d5 [im [e [e' [ts [n' [latents0 [d12 [tr [latents'
                [img [nsfw [evs [flags [img' H]]]]]]]]]]]]]]]]].
  destruct H as [_ [_ [P5 [_ [Hset [Hget [Hprep [P12 [Htr [Hdec [_ [_ [_ Hlog]]]]]]]]]]]]].
  specialize (Hlaw e e' Hset).
  specialize (Hget {| env := e'; log := []; frames := [] |} eq_refl).
  rewrite Hs in Hget.
  assert (Hx : exists x, Py.float_of_int (SD.num_inference_steps a) = Ok x).
  { unfold SD.get_timesteps, Py.int_mul_float, bind, lift in Hget.
    destruct (Py.float_of_int (SD.num_inference_steps a)) as [x|ex];
      [exists x; reflexivity | discriminate Hget]. }
  destruct Hx as [x Hx].
  assert (Hn0 : 0 <= SD.num_inference_steps a) by lia.
  rewrite (sd_get_timesteps_zero (SD.num_inference_steps a) x sg _ Hn0 Hx) in Hget.
  cbn [env] in Hget. injection Hget as Hts Hn'.
  assert (Hnil : ts = []).
  { assert (Hl : Py.len ts = 0)
      by (rewrite <- Hts, len_slice_from by nia; lia).
    destruct ts; [reflexivity|]. unfold Py.len in Hl. cbn [List.length] in Hl. lia. }
  clear Hts. subst ts n'.
  inversion Htr; subst.
  destruct (sd_decoded_counts _ _ _ _ _ _ Hdec) as [_ [_ [_ [_ Pe]]]].
  assert (Hcount : forall k,
            existsb (Kind_beq k)
              [KTextEncoder; KPreprocess; KSetTimesteps; KVaeEncode; KWarning; KRandn;
               KAddNoise; KProgressBar; KVaeDecode; KSafetyChecker; KPostprocess] = false ->
            count_kind k
              (d5 ++ [EvPreprocess; EvSetTimesteps (Some (SD.num_inference_steps a)) None]
                  ++ d12 ++ [EvProgressBar (Some 0)] ++ [] ++ evs
                  ++ [EvPostprocess (SD.output_type a)]) = 0).
  { intros k Hk. rewrite !count_kind_app.
    rewrite (count_kind_not_in [KWarning; KTextEncoder] k d5) by
      (try exact P5; destruct k; try discriminate Hk; reflexivity).
    rewrite (count_kind_not_in [KVaeEncode; KWarning; KRandn; KAddNoise] k d12) by
      (try exact P12; destruct k; try discriminate Hk; reflexivity).
    rewrite (count_kind_not_in [KVaeDecode; KPostprocess; KSafetyChecker] k evs) by
      (try exact Pe; destruct k; try discriminate Hk; reflexivity).
    destruct k; try discriminate Hk; reflexivity. }
  eexists. split; [exact Hlog|].
  split; [apply Hcount; reflexivity|].
  split; [apply Hcount; reflexivity|].
  split; [apply Hcount; reflexivity|].
  split.
  - rewrite !progress_totals_app.
    rewrite (progress_totals_not_in [KWarning; KTextEncoder] d5 eq_refl P5).
    rewrite (progress_totals_not_in [KVaeEncode; KWarning; KRandn; KAddNoise] d12 eq_refl P12).
    rewrite (progress_totals_not_in [KVaeDecode; KPostprocess; KSafetyChecker] evs eq_refl Pe).
    reflexivity.
  - intros x0 noise ts Hin.
    destruct Hprep as [wa [wb [Hprep Lprep]]].
    change (Py.slice_to 1 (@nil Timestep)) with (@nil Timestep) in Hprep.
    assert (Hd12 : In (EvAddNoise x0 noise ts) d12).
    { rewrite !in_app_iff in Hin.
      destruct Hin as [Hin|[Hin|[Hin|[Hin|[Hin|[Hin|Hin]]]]]]; try exact Hin.
      - rewrite forallb_forall in P5. apply P5 in Hin. discriminate Hin.
      - destruct Hin as [E|[E|[]]]; discriminate E.
      - destruct Hin as [E|[]]; discriminate E.
      - destruct Hin.
      - rewrite forallb_forall in Pe. apply Pe in Hin. discriminate Hin.
      - destruct Hin as [E|[]]; discriminate E. }
    exists (bs * SD.num_images_per_prompt a).
    clear - Hprep Lprep Hd12.
    unfold SD.prepare_latents in Hprep. cbv zeta in Hprep.
    apply bind_ok_inv in Hprep. destruct Hprep as [im0 [w0 [H0 Hprep]]].
    inversion H0; subst im0 w0. clear H0.
    apply bind_ok_inv in Hprep. destruct Hprep as [init [w1 [H1 Hprep]]].
    apply bind_ok_inv in Hprep. destruct Hprep as [x [w2 [H2 Hprep]]].
    apply bind_ok_inv in Hprep. destruct Hprep as [nz [w3 [H3 Hprep]]].
    apply bind_ok_inv in Hprep. destruct Hprep as [y [w4 [H4 Hprep]]].
    inversion Hprep; subst y w4. clear Hprep.
    eapply logs_only_run in H1; [|apply sd_encode_image_logs].
    destruct H1 as [_ [d1 [L1 P1]]].
    eapply logs_only_run in H2; [|apply sd_expand_init_latents_logs].
    destruct H2 as [_ [d2 [L2 P2]]].
    apply call_ok_inv in H3. destruct H3 as [_ [L3 _]].
    apply call_ok_inv in H4. destruct H4 as [_ [L4 _]].
    assert (E12 : d12 = d1 ++ d2 ++ [EvRandn (shape x) (dtype pe)]
                        ++ [EvAddNoise x nz
                              (tile_timesteps [] (bs * SD.num_images_per_prompt a))]).
    { apply (app_inv_head (log wa)). rewrite <- Lprep, L4, L3, L2, L1.
      rewrite <- !app_assoc. reflexivity. }
    rewrite E12 in Hd12. rewrite !in_app_iff in Hd12.
    destruct Hd12 as [Hin|[Hin|[Hin|Hin]]].
    + rewrite forallb_forall in P1. apply P1 in Hin. discriminate Hin.
    + rewrite forallb_forall in P2. apply P2 in Hin. discriminate Hin.
    + destruct Hin as [E|[]]; discriminate E.
    + destruct Hin as [E|[]]. injection E as _ _ <-. reflexivity.
Qed.

End StrengthRange.

(** ** The deprecated helpers *)

Section DeprecatedHelpersProperties.
Context {C : Collaborators} {I : Imaging C}.

Lemma map_result_ok :
  forall {A B} (f : A -> result B) (l : list A) ys,
    DeprecatedHelpers.map_result f l = Ok ys ->
    Forall2 (fun x y => f x = Ok y) l ys.
Proof.
  intros A B f l. induction l as [|x l IH]; intros ys H; cbn in H.
  - injection H as <-. constructor.
  - destruct (f x) as [y|e] eqn:E; [|discriminate H]. cbn in H.
    destruct (DeprecatedHelpers.map_result f l) as [ys'|e]; [|discriminate H].
    cbn in H. injection H as <-. constructor; [exact E | apply IH; reflexivity].
Qed.

(** [preprocess] always logs its deprecation warning, and nothing else,
    whatever the outcome.  A tensor is returned as it is and a list of
    tensors concatenated; an empty list raises [IndexError].  PIL images
    (one image counts as a list of one) are all resized to one size, that
    of the first image with width and height each rounded down to a
    multiple of 8 (so less than 8 below the original, and 0 for an image
    under 8 pixels), before they are made a tensor. *)
Theorem preprocess_resizes_to_the_first_size_rounded_down_to_8 :
  forall (image : DeprecatedHelpers.ImageInput) (w : World) r w',
    DeprecatedHelpers.preprocess image w = (r, w') ->
    w' = log_more w [EvWarning "The preprocess method is deprecated"] /\
    match image with
    | DeprecatedHelpers.InTensor t => r = Ok t
    | DeprecatedHelpers.InTensors [] => r = Raise IndexError
    | DeprecatedHelpers.InTensors l => r = Ok (concat l)
    | DeprecatedHelpers.InPILs [] => r = Raise IndexError
    | DeprecatedHelpers.InPIL first
    | DeprecatedHelpers.InPILs (first :: _) =>
        let l := match image with
                 | DeprecatedHelpers.InPILs l => l
                 | _ => [first]
                 end in
        let width := fst (pil_size first) - fst (pil_size first) mod 8 in
        let height := snd (pil_size first) - snd (pil_size first) mod 8 in
        width mod 8 = 0 /\ fst (pil_size first) - 8 < width <= fst (pil_size first) /\
        height mod 8 = 0 /\ snd (pil_size first) - 8 < height <= snd (pil_size first) /\
        (0 <= fst (pil_size first) < 8 -> width = 0) /\
        (0 <= snd (pil_size first) < 8 -> height = 0) /\
        forall t,
          r = Ok t ->
          exists arrays,
            Forall2 (fun i a => pil_resize_array i width height = Ok a) l arrays /\
            arrays_to_tensor arrays = Ok t
    end.
Proof.
  intros image w r w' H.
  assert (Hr : forall x, (x - x mod 8) mod 8 = 0 /\ x - 8 < x - x mod 8 <= x /\
                         (0 <= x < 8 -> x - x mod 8 = 0)).
  { intros x. pose proof (Z.mod_pos_bound x 8 ltac:(lia)) as Hb.
    split; [|split; [lia|]].
    - rewrite Zminus_mod, Zmod_mod, Z.sub_diag. reflexivity.
    - intros Hx. rewrite Z.mod_small by lia. lia. }
  assert (Hpil : forall first l (w0 : World) r0 w1,
            DeprecatedHelpers.preprocess_list (inl (first :: l)) w0 = (r0, w1) ->
            w1 = w0 /\
            forall t,
              r0 = Ok t ->
              exists arrays,
                Forall2 (fun i a =>
                           pil_resize_array i
                             (fst (pil_size first) - fst (pil_size first) mod 8)
                             (snd (pil_size first) - snd (pil_size first) mod 8) = Ok a)
                        (first :: l) arrays /\
                arrays_to_tensor arrays = Ok t).
  { intros first l w0 r0 w1 H0. unfold DeprecatedHelpers.preprocess_list in H0.
    unfold bind at 1 in H0. unfold lift at 1 in H0.
    change (Py.index (first :: l) 0) with (Ok first) in H0. cbv beta iota in H0.
    destruct (pil_size first) as [wd ht]. cbv zeta in H0. cbn [fst snd].
    unfold bind, lift in H0.
    destruct (DeprecatedHelpers.map_result
                (fun i => pil_resize_array i (wd - wd mod 8) (ht - ht mod 8))
                (first :: l)) as [arrays|e] eqn:Em.
    - injection H0 as <- <-. split; [reflexivity|].
      intros t Ht. exists arrays. split; [apply map_result_ok; exact Em | exact Ht].
    - injection H0 as <- <-. split; [reflexivity|]. intros t Ht. discriminate Ht. }
  unfold DeprecatedHelpers.preprocess in H. unfold bind at 1 in H. cbn [emit] in H.
  fold (log_more w [EvWarning "The preprocess method is deprecated"]) in H.
  destruct image as [t|im|l|l].
  - injection H as <- <-. split; reflexivity.
  - apply Hpil in H. destruct H as [-> Ht]. split; [reflexivity|]. cbv zeta.
    destruct (Hr (fst (pil_size im))) as [A1 [A2 A3]].
    destruct (Hr (snd (pil_size im))) as [B1 [B2 B3]].
    repeat split; try assumption; try lia.
  - destruct l as [|first l].
    + injection H as <- <-. split; reflexivity.
    + apply Hpil in H. destruct H as [-> Ht]. split; [reflexivity|]. cbv zeta.
      destruct (Hr (fst (pil_size first))) as [A1 [A2 A3]].
      destruct (Hr (snd (pil_size first))) as [B1 [B2 B3]].
      repeat split; try assumption; try lia.
  - destruct l as [|first l].
    + injection H as <- <-. split; reflexivity.
    + injection H as <- <-. split; reflexivity.
Qed.

End DeprecatedHelpersProperties.

Section DecodeLatents.
Context {C : Collaborators} {I : Imaging C}.

Lemma float_of_int_one : Py.float_of_int 1 = Ok Py.one.
Proof. vm_compute. reflexivity. Qed.

(** [decode_latents] logs its deprecation warning and then computes
    [1 / scaling_factor] as Python floats: for a scaling factor of zero
    that raises [ZeroDivisionError] and the VAE is not called.  Otherwise
    the VAE decoder is called exactly once, on
    [(1 / scaling_factor) * latents], nothing else is called, and what is
    returned is the decoded image brought to [[0, 1]] as a float32 array. *)
Theorem decode_latents_divides_by_the_scaling_factor_first :
  forall (latents : Tensor) (w : World) r w',
    DeprecatedHelpers.decode_latents latents w = (r, w') ->
    match vae_scaling_factor with
    | S754_zero _ =>
        r = Raise ZeroDivisionError /\
        w' = log_more w [EvWarning "The decode_latents method is deprecated"]
    | _ =>
        let factor := SFdiv Py.prec Py.emax Py.one vae_scaling_factor in
        log w' = log w ++ [EvWarning "The decode_latents method is deprecated";
                           EvVaeDecode (smul factor latents)] /\
        forall a,
          r = Ok a ->
          exists image,
            returned (vae_decode (smul factor latents)) image /\
            a = to_numpy_float32 (unit_range image)
    end.
Proof.
  intros latents w r w' H. unfold DeprecatedHelpers.decode_latents in H.
  unfold bind at 1 in H. cbn [emit] in H.
  unfold DeprecatedHelpers.int_div_float in H. rewrite float_of_int_one in H.
  cbn [rbind] in H.
  assert (Hrun : forall factor,
            (factor0 <- lift (Ok factor) ;;
             (let latents0 := smul factor0 latents in
              image <- call (EvVaeDecode latents0) (vae_decode latents0) ;;
              (let image0 := unit_range image in
               let image1 := to_numpy_float32 image0 in ret image1)))
              {| env := env w;
                 log := log w ++ [EvWarning "The decode_latents method is deprecated"];
                 frames := frames w |} = (r, w') ->
            log w' = log w ++ [EvWarning "The decode_latents method is deprecated";
                               EvVaeDecode (smul factor latents)] /\
            forall a,
              r = Ok a ->
              exists image,
                returned (vae_decode (smul factor latents)) image /\
                a = to_numpy_float32 (unit_range image)).
  { intros factor Hf. unfold bind, lift, call, ret in Hf. cbn [env log frames] in Hf.
    destruct (vae_decode (smul factor latents) (env w)) as [[image|e] e1] eqn:Ed;
      injection Hf as <- <-; cbn [log]; rewrite <- app_assoc;
      (split; [reflexivity|]); intros a Ha; [|discriminate Ha].
    injection Ha as <-. exists image. split; [|reflexivity].
    eexists _, _. exact Ed. }
  destruct vae_scaling_factor as [s|s| |s m e].
  - unfold bind, lift in H. injection H as <- <-. split; reflexivity.
  - cbv zeta. apply Hrun. exact H.
  - cbv zeta. apply Hrun. exact H.
  - cbv zeta. apply Hrun. exact H.
Qed.

End DecodeLatents.

(** ** The constructor of the image2image pipeline *)

Section ConstructorProperties.
Import Constructor ConstructorRun.
Context {K : Components}.
Hypothesis laws : lawful.

Lemma lookup_set_same : forall k v d, lookup k (set k v d) = Some v.
Proof.
  intros k v d. induction d as [|[k' v'] d IH]; cbn.
  - rewrite String.eqb_refl. reflexivity.
  - destruct (String.eqb k k') eqn:E; cbn.
    + rewrite String.eqb_refl. reflexivity.
    + rewrite E. exact IH.
Qed.

Lemma lookup_set_other :
  forall k k' v d, k <> k' -> lookup k' (set k v d) = lookup k' d.
Proof.
  intros k k' v d Hk. induction d as [|[k0 v0] d IH]; cbn.
  - destruct (String.eqb_spec k' k) as [->|_]; [contradiction|reflexivity].
  - destruct (String.eqb_spec k k0) as [->|Hk0]; cbn.
    + destruct (String.eqb_spec k' k0) as [->|_]; [contradiction|reflexivity].
    + destruct (String.eqb k' k0); [reflexivity|exact IH].
Qed.

Lemma has_and_dict :
  forall c k test, has_and c k test = holds k test (dict c).
Proof.
  intros c k test. unfold has_and, holds.
  rewrite (hasattr_dict laws c k).
  destruct (lookup k (dict c)) as [v|] eqn:E; [|reflexivity].
  rewrite (getattr_dict laws c k E). reflexivity.
Qed.

Ltac init_tail a :=
    destruct (safety_checker a), (feature_extractor a), (requires_safety_checker a);
    cbn [negb andb iwhen];
    unfold ibind, iraise, iret, warn, iread, ilift, iwhen, set_unet;
    cbn [scheduler unet warnings];
    rewrite ?has_and_dict, ?app_nil_r, <- ?app_assoc; cbn [app];
    try reflexivity;
    (destruct (holds "_diffusers_version" _ _) as [[|]|]; try reflexivity);
    (destruct (holds "sample_size" _ _) as [[|]|]; try reflexivity);
    cbn [andb]; rewrite ?app_nil_r, <- ?app_assoc; reflexivity.

(** One run of the constructor, block by block. *)
Lemma init_run :
  forall a s,
    let sch := scheduler_2 (scheduler_1 (scheduler s)) in
    let ws := warnings s ++ scheduler_warnings a (scheduler s) in
    let d := dict (unet_config (unet s)) in
    __init__ a s =
    if safety_checker a && negb (feature_extractor a)
    then (Raise ValueError, {| scheduler := sch; unet := unet s; warnings := ws |})
    else
      match holds "_diffusers_version" version_before_0_9_0 d with
      | Raise e => (Raise e, {| scheduler := sch; unet := unet s; warnings := ws |})
      | Ok b1 =>
          match holds "sample_size" lt_64 d with
          | Raise e => (Raise e, {| scheduler := sch; unet := unet s; warnings := ws |})
          | Ok b2 =>
              (Ok {| vae_scale_factor := pow2 (Py.len (block_out_channels a) - 1);
                     registered_safety_checker := safety_checker a;
                     registered_requires_safety_checker := requires_safety_checker a |},
               {| scheduler := sch;
                  unet := unet_1 (b1 && b2) (unet s);
                  warnings := ws ++ (if b1 && b2 then ["sample_size<64"%string] else []) |})
          end
      end.
Proof.
  intros a [sch0 u0 w0]. cbn zeta. cbn [scheduler unet warnings].
  unfold __init__, scheduler_warnings, scheduler_2, scheduler_1, unet_1.
  unfold ibind at 1. unfold iread at 1. cbn [scheduler].
  unfold ibind at 1. unfold ilift at 1. rewrite has_and_dict.
  assert (Hne : forall d, holds "steps_offset" (fun v => Ok (ne_1 v)) d
                = Ok (truth (holds "steps_offset" (fun v => Ok (ne_1 v)) d))).
  { intros d. unfold holds. destruct (lookup _ d); reflexivity. }
  assert (Hcl : forall d, holds "clip_sample" (fun v => Ok (is_True v)) d
                = Ok (truth (holds "clip_sample" (fun v => Ok (is_True v)) d))).
  { intros d. unfold holds. destruct (lookup _ d); reflexivity. }
  rewrite Hne.
  set (o := truth (holds "steps_offset" _ (dict (scheduler_config sch0)))).
  unfold ibind at 1.
  destruct o; cbn [iwhen].
  - unfold ibind at 1 2 3, warn at 1, iread at 1, set_scheduler at 1.
    cbn [scheduler unet warnings].
    unfold ibind at 1, iread at 1. cbn [scheduler].
    unfold ibind at 1, ilift at 1. rewrite has_and_dict, Hcl.
    set (cl := truth (holds "clip_sample" _ _)).
    unfold ibind at 1.
    destruct cl; cbn [iwhen].
    + unfold ibind at 1 2 3, warn at 1, iread at 1, set_scheduler at 1.
      cbn [scheduler unet warnings].
      unfold ibind at 1.
      init_tail a.
    + unfold iret at 1.
      unfold ibind at 1.
      init_tail a.
  - unfold iret at 1.
    unfold ibind at 1, iread at 1. cbn [scheduler].
    unfold ibind at 1, ilift at 1. rewrite has_and_dict, Hcl.
    set (cl := truth (holds "clip_sample" _ _)).
    unfold ibind at 1.
    destruct cl; cbn [iwhen].
    + unfold ibind at 1 2 3, warn at 1, iread at 1, set_scheduler at 1.
      cbn [scheduler unet warnings].
      unfold ibind at 1.
      init_tail a.
    + unfold iret at 1.
      unfold ibind at 1.
      init_tail a.
Qed.

Lemma holds_set_other :
  forall k k' v test d, k <> k' -> holds k' test (set k v d) = holds k' test d.
Proof.
  intros k k' v test d Hk. unfold holds. rewrite (lookup_set_other _ _ v d Hk). reflexivity.
Qed.

Lemma scheduler_1_dict :
  forall s,
    dict (scheduler_config (scheduler_1 s)) =
    if truth (holds "steps_offset" (fun v => Ok (ne_1 v)) (dict (scheduler_config s)))
    then set "steps_offset" (VInt 1) (dict (scheduler_config s))
    else dict (scheduler_config s).
Proof.
  intros s. unfold scheduler_1.
  destruct (truth _); [|reflexivity].
  rewrite (scheduler_config_set laws), (dict_FrozenDict laws). reflexivity.
Qed.

Lemma scheduler_2_dict :
  forall s,
    dict (scheduler_config (scheduler_2 s)) =
    if truth (holds "clip_sample" (fun v => Ok (is_True v)) (dict (scheduler_config s)))
    then set "clip_sample" (VBool false) (dict (scheduler_config s))
    else dict (scheduler_config s).
Proof.
  intros s. unfold scheduler_2.
  destruct (truth _); [|reflexivity].
  rewrite (scheduler_config_set laws), (dict_FrozenDict laws). reflexivity.
Qed.

Lemma unet_1_dict :
  forall b u,
    dict (unet_config (unet_1 b u)) =
    if b then set "sample_size" (VInt 64) (dict (unet_config u))
    else dict (unet_config u).
Proof.
  intros b u. unfold unet_1.
  destruct b; [|reflexivity].
  rewrite (unet_config_set laws), (dict_FrozenDict laws). reflexivity.
Qed.

(** The dict of the scheduler's configuration after the two blocks. *)
Lemma scheduler_dict_after :
  forall s k,
    lookup k (dict (scheduler_config (scheduler_2 (scheduler_1 s)))) =
    match lookup k (dict (scheduler_config s)) with
    | None => None
    | Some v =>
        if String.eqb k "steps_offset" then Some (if ne_1 v then VInt 1 else v)
        else if String.eqb k "clip_sample" then Some (if is_True v then VBool false else v)
        else Some v
    end.
Proof.
  intros s k.
  assert (Hd : "steps_offset"%string <> "clip_sample"%string) by discriminate.
  assert (L1 : lookup k (dict (scheduler_config (scheduler_1 s))) =
               match lookup k (dict (scheduler_config s)) with
               | None => None
               | Some v => if String.eqb k "steps_offset"
                           then Some (if ne_1 v then VInt 1 else v) else Some v
               end).
  { rewrite scheduler_1_dict. unfold holds.
    destruct (String.eqb_spec k "steps_offset") as [->|Hk].
    - destruct (lookup "steps_offset" (dict (scheduler_config s))) as [v|] eqn:E;
        cbn [truth].
      + destruct (ne_1 v); [apply lookup_set_same|exact E].
      + exact E.
    - destruct (lookup "steps_offset" (dict (scheduler_config s))) as [v|] eqn:E;
        cbn [truth].
      + destruct (ne_1 v).
        * rewrite lookup_set_other by congruence.
          destruct (lookup k _); reflexivity.
        * destruct (lookup k _); reflexivity.
      + destruct (lookup k _); reflexivity. }
  rewrite scheduler_2_dict. unfold holds at 1.
  destruct (String.eqb_spec k "clip_sample") as [->|Hk].
  - rewrite L1. cbn [String.eqb Ascii.eqb Bool.eqb].
    destruct (lookup "clip_sample" (dict (scheduler_config s))) as [v|] eqn:E;
      cbn [truth].
    + destruct (is_True v) eqn:Et.
      * rewrite lookup_set_same. reflexivity.
      * rewrite L1, ?E. cbn [String.eqb Ascii.eqb Bool.eqb]. reflexivity.
    + rewrite L1, ?E. reflexivity.
  - destruct (lookup "clip_sample" (dict (scheduler_config (scheduler_1 s)))) as [v|];
      cbn [truth].
    + destruct (is_True v).
      * rewrite lookup_set_other by congruence. rewrite L1.
        destruct (lookup k _); [|reflexivity].
        destruct (String.eqb k "steps_offset"); reflexivity.
      * rewrite L1. destruct (lookup k _); [|reflexivity].
        destruct (String.eqb k "steps_offset"); reflexivity.
    + rewrite L1. destruct (lookup k _); [|reflexivity].
      destruct (String.eqb k "steps_offset"); reflexivity.
Qed.

Lemma ne_1_settled : forall v, ne_1 (if ne_1 v then VInt 1 else v) = false.
Proof. intros v. destruct (ne_1 v) eqn:E; [reflexivity|exact E]. Qed.

Lemma is_True_settled : forall v, is_True (if is_True v then VBool false else v) = false.
Proof. intros v. destruct (is_True v) eqn:E; [reflexivity|exact E]. Qed.

(** After the two blocks neither test holds any more. *)
Lemma scheduler_settled :
  forall s,
    let d := dict (scheduler_config (scheduler_2 (scheduler_1 s))) in
    holds "steps_offset" (fun v => Ok (ne_1 v)) d = Ok false /\
    holds "clip_sample" (fun v => Ok (is_True v)) d = Ok false.
Proof.
  intros s d. subst d. unfold holds. rewrite !scheduler_dict_after.
  cbn [String.eqb Ascii.eqb Bool.eqb]. split.
  - destruct (lookup "steps_offset" _); [|reflexivity]. rewrite ne_1_settled. reflexivity.
  - destruct (lookup "clip_sample" _); [|reflexivity]. rewrite is_True_settled. reflexivity.
Qed.

Lemma scheduler_fixed :
  forall s,
    holds "steps_offset" (fun v => Ok (ne_1 v)) (dict (scheduler_config s)) = Ok false ->
    holds "clip_sample" (fun v => Ok (is_True v)) (dict (scheduler_config s)) = Ok false ->
    scheduler_2 (scheduler_1 s) = s.
Proof.
  intros s H1 H2. unfold scheduler_1. rewrite H1. cbn [truth].
  unfold scheduler_2. rewrite H2. reflexivity.
Qed.

(** A successful run, read backwards. *)
Lemma init_ok :
  forall a s p s',
    __init__ a s = (Ok p, s') ->
    exists b1 b2,
      safety_checker a && negb (feature_extractor a) = false /\
      holds "_diffusers_version" version_before_0_9_0 (dict (unet_config (unet s))) = Ok b1 /\
      holds "sample_size" lt_64 (dict (unet_config (unet s))) = Ok b2 /\
      p = {| vae_scale_factor := pow2 (Py.len (block_out_channels a) - 1);
             registered_safety_checker := safety_checker a;
             registered_requires_safety_checker := requires_safety_checker a |} /\
      scheduler s' = scheduler_2 (scheduler_1 (scheduler s)) /\
      unet s' = unet_1 (b1 && b2) (unet s) /\
      warnings s' = (warnings s ++ scheduler_warnings a (scheduler s)) ++
                    (if b1 && b2 then ["sample_size<64"%string] else []).
Proof.
  intros a s p s' H. rewrite init_run in H. cbn zeta in H.
  destruct (safety_checker a && negb (feature_extractor a)); [discriminate|].
  destruct (holds "_diffusers_version" _ _) as [b1|]; [|discriminate].
  destruct (holds "sample_size" _ _) as [b2|]; [|discriminate].
  exists b1, b2. injection H as <- <-. repeat split; reflexivity.
Qed.

(** In the configurations a successful construction leaves behind,
    a [steps_offset] equals 1, a [clip_sample] is not [True], and a unet of
    a version before 0.9.0 has no [sample_size] below 64; no key is added
    or removed and no other key is changed. *)
Theorem init_leaves_no_outdated_setting :
  forall a s p s',
    __init__ a s = (Ok p, s') ->
    let d := dict (scheduler_config (scheduler s)) in
    let d' := dict (scheduler_config (scheduler s')) in
    let u := dict (unet_config (unet s)) in
    let u' := dict (unet_config (unet s')) in
    (forall v, lookup "steps_offset" d' = Some v -> ne_1 v = false) /\
    (forall v, lookup "clip_sample" d' = Some v -> is_True v = false) /\
    (forall k, k <> "steps_offset"%string -> k <> "clip_sample"%string ->
               lookup k d' = lookup k d) /\
    (forall k, lookup k d' = None <-> lookup k d = None) /\
    (forall v x, lookup "_diffusers_version" u' = Some v ->
                 version_before_0_9_0 v = Ok true ->
                 lookup "sample_size" u' = Some x -> lt_64 x = Ok false) /\
    (forall k, k <> "sample_size"%string -> lookup k u' = lookup k u) /\
    (forall k, lookup k u' = None <-> lookup k u = None).
Proof.
  intros a s p s' H d d' u u'.
  destruct (init_ok _ _ _ _ H) as [b1 [b2 [_ [Hv [Hs [_ [Hsch [Hu _]]]]]]]].
  subst d' u'. rewrite Hsch, Hu. fold d. fold u.
  split; [|split; [|split; [|split; [|split; [|split]]]]].
  - intros v. rewrite scheduler_dict_after. fold d.
    cbn [String.eqb Ascii.eqb Bool.eqb].
    destruct (lookup "steps_offset" d); [|discriminate].
    intros E. injection E as <-. apply ne_1_settled.
  - intros v. rewrite scheduler_dict_after. fold d.
    cbn [String.eqb Ascii.eqb Bool.eqb].
    destruct (lookup "clip_sample" d); [|discriminate].
    intros E. injection E as <-. apply is_True_settled.
  - intros k H1 H2. rewrite scheduler_dict_after. fold d.
    destruct (lookup k d); [|reflexivity].
    destruct (String.eqb_spec k "steps_offset"); [contradiction|].
    destruct (String.eqb_spec k "clip_sample"); [contradiction|]. reflexivity.
  - intros k. rewrite scheduler_dict_after. fold d.
    destruct (lookup k d); [|tauto].
    destruct (String.eqb k "steps_offset"); [split; discriminate|].
    destruct (String.eqb k "clip_sample"); split; discriminate.
  - intros v x. rewrite unet_1_dict. fold u. unfold holds in Hv, Hs. fold u in Hv, Hs.
    destruct (b1 && b2) eqn:Eb.
    + rewrite lookup_set_same. intros _ _ E. injection E as <-. reflexivity.
    + intros E1 E2 E3. rewrite E1 in Hv. rewrite E3 in Hs.
      rewrite E2 in Hv. injection Hv as <-. cbn [andb] in Eb. subst b2. exact Hs.
  - intros k Hk. rewrite unet_1_dict. fold u.
    destruct (b1 && b2); [|reflexivity].
    apply lookup_set_other. congruence.
  - intros k. rewrite unet_1_dict. fold u.
    destruct (b1 && b2) eqn:Eb; [|tauto].
    destruct (String.eqb_spec "sample_size" k) as [<-|Hk].
    + rewrite lookup_set_same. unfold holds in Hs. fold u in Hs.
      apply andb_prop in Eb. destruct Eb as [_ ->].
      destruct (lookup "sample_size" u); split; discriminate.
    + rewrite lookup_set_other by exact Hk. tauto.
Qed.

(** Constructing the pipeline again from the components a
    successful construction left behind succeeds with the same attributes,
    modifies neither the scheduler nor the unet, and gives no deprecation
    warning: at most the warning about the disabled safety checker. *)
Theorem init_again_changes_nothing :
  forall a s p s',
    __init__ a s = (Ok p, s') ->
    exists s'',
      __init__ a s' = (Ok p, s'') /\
      scheduler s'' = scheduler s' /\
      unet s'' = unet s' /\
      warnings s'' =
        warnings s' ++
        (if negb (safety_checker a) && requires_safety_checker a
         then ["You have disabled the safety checker"%string] else []).
Proof.
  intros a s p s' H.
  destruct (init_ok _ _ _ _ H) as [b1 [b2 [Hc [Hv [Hs [Hp [Hsch [Hu _]]]]]]]].
  destruct (scheduler_settled (scheduler s)) as [S1 S2]. rewrite <- Hsch in S1, S2.
  assert (Hv' : holds "_diffusers_version" version_before_0_9_0
                  (dict (unet_config (unet s'))) = Ok b1).
  { rewrite Hu, unet_1_dict. destruct (b1 && b2); [|exact Hv].
    rewrite holds_set_other by discriminate. exact Hv. }
  assert (Hs' : exists b2', holds "sample_size" lt_64 (dict (unet_config (unet s'))) = Ok b2'
                            /\ b1 && b2' = false).
  { rewrite Hu, unet_1_dict. destruct (b1 && b2) eqn:Eb.
    - exists false. unfold holds. rewrite lookup_set_same. split; [reflexivity|].
      apply andb_false_r.
    - exists b2. split; [exact Hs | exact Eb]. }
  destruct Hs' as [b2' [Hs' Eb']].
  eexists. rewrite init_run. cbn zeta. rewrite Hc, Hv', Hs', Eb'.
  rewrite (scheduler_fixed _ S1 S2).
  split; [rewrite Hp; reflexivity|]. cbn [scheduler unet warnings unet_1].
  split; [reflexivity|]. split; [reflexivity|].
  rewrite app_nil_r. unfold scheduler_warnings.
  rewrite S1. cbn [truth]. unfold scheduler_1. rewrite S1. cbn [truth].
  rewrite S2. cbn [truth app]. reflexivity.
Qed.

(** A safety checker without a feature extractor is rejected with
    [ValueError] only after the scheduler's configuration was brought up
    to date: the scheduler that was passed in is left with
    [steps_offset = 1] and [clip_sample = False], with the two
    deprecation warnings given; the unet is not touched. *)
Theorem init_rejects_a_checker_without_extractor_after_updating_the_scheduler :
  forall a s,
    safety_checker a = true ->
    feature_extractor a = false ->
    exists s',
      __init__ a s = (Raise ValueError, s') /\
      unet s' = unet s /\
      let d := dict (scheduler_config (scheduler s)) in
      let d' := dict (scheduler_config (scheduler s')) in
      (forall v, lookup "steps_offset" d = Some v -> ne_1 v = true ->
                 lookup "steps_offset" d' = Some (VInt 1) /\
                 In "steps_offset!=1"%string (warnings s')) /\
      (lookup "clip_sample" d = Some (VBool true) ->
       lookup "clip_sample" d' = Some (VBool false) /\
       In "clip_sample not set"%string (warnings s')).
Proof.
  intros a s Hs Hf. eexists. rewrite init_run. cbn zeta. rewrite Hs, Hf.
  cbn [andb negb]. split; [reflexivity|]. cbn [scheduler unet warnings].
  split; [reflexivity|]. split.
  - intros v E Hne. rewrite scheduler_dict_after, E.
    cbn [String.eqb Ascii.eqb Bool.eqb]. rewrite Hne. split; [reflexivity|].
    apply in_or_app. right. unfold scheduler_warnings, holds. rewrite E.
    cbn [truth]. rewrite Hne. left. reflexivity.
  - intros E. rewrite scheduler_dict_after, E.
    cbn [String.eqb Ascii.eqb Bool.eqb is_True]. split; [reflexivity|].
    apply in_or_app. right. unfold scheduler_warnings.
    apply in_or_app. right. apply in_or_app. left.
    assert (E1 : lookup "clip_sample" (dict (scheduler_config (scheduler_1 (scheduler s))))
                 = Some (VBool true)).
    { rewrite scheduler_1_dict. destruct (truth _); [|exact E].
      rewrite lookup_set_other by discriminate. exact E. }
    unfold holds at 1. rewrite E1. cbn [truth is_True]. left. reflexivity.
Qed.

(** A unet whose configuration has [sample_size = None] cannot be
    used to construct the pipeline: the comparison [sample_size < 64] is
    evaluated whatever the version of the unet is, and raises
    [TypeError]; the scheduler has been updated by then, the unet is not
    touched. *)
Theorem init_raises_TypeError_for_a_unet_without_sample_size :
  forall a s,
    safety_checker a && negb (feature_extractor a) = false ->
    lookup "sample_size" (dict (unet_config (unet s))) = Some VNone ->
    (forall v, lookup "_diffusers_version" (dict (unet_config (unet s))) = Some v ->
               exists b, version_before_0_9_0 v = Ok b) ->
    exists s',
      __init__ a s = (Raise TypeError, s') /\
      unet s' = unet s.
Proof.
  intros a s Hc Hs Hv. eexists. rewrite init_run. cbn zeta. rewrite Hc.
  unfold holds. rewrite Hs. cbn [lt_64].
  destruct (lookup "_diffusers_version" _) as [v|].
  - destruct (Hv v eq_refl) as [b ->]. split; reflexivity.
  - split; reflexivity.
Qed.

End ConstructorProperties.

Set Implicit Arguments.

(** * The statements on concrete invocations *)

#[local] Existing Instance StandIn.collaborators.

Lemma run_eta :
  forall {C : Collaborators} {A} (x : result A * @World C) o,
    fst x = Ok o -> x = (Ok o, snd x).
Proof. intros C A [r w] o H. simpl in *. subst. reflexivity. Qed.

Lemma C2_given_latents_are_cast_and_scaled_witness :
  let l := Examples.ones [1; 3; 2; 2] float64 in
  let g := Examples.generators [7] in
  let fresh := CM.prepare_latents 1 3 2 2 float32 g None StandIn.world0 in
  generator_list_mismatch g 1 = false /\
  CM.prepare_latents 1 3 2 2 float32 g (Some l) StandIn.world0
    = (Ok (smul (sched_init_noise_sigma (env StandIn.world0)) (cast l float32)),
       StandIn.world0) /\
  log (snd fresh) = log StandIn.world0 ++ [EvRandn [1; 3; 2; 2] float32] /\
  CM.prepare_latents 1 3 2 2 float32 (Examples.generators [7; 8]) (Some l) StandIn.world0
    = (Raise ValueError, StandIn.world0).
Proof.
  intros l g fresh.
  destruct (C2_given_latents_are_cast_and_scaled 1 3 2 2 float32 g l StandIn.world0)
    as [H1 H2].
  destruct (C2_given_latents_are_cast_and_scaled 1 3 2 2 float32
              (Examples.generators [7; 8]) l StandIn.world0) as [H3 _].
  split; [reflexivity|]. split; [exact H1|]. split; [|exact H3].
  exact (proj1 (H2 (fst fresh) (snd fresh) (surjective_pairing fresh))).
Defined.

(** C2 as stated fails: latents of ones come back as eighties, not as the
    cast latents. *)
Lemma C2_counterexample :
  let l := Examples.ones [1; 3; 2; 2] float64 in
  (exists r,
     fst (CM.prepare_latents 1 3 2 2 float32 None (Some l) StandIn.world0) = Ok r /\
     StandIn.data r = repeat 80 12) /\
  StandIn.data (cast l float32) = repeat 1 12 /\
  fst (CM.prepare_latents 1 3 2 2 float32 None (Some l) StandIn.world0)
    <> Ok (cast l float32).
Proof.
  intros l. split; [|split].
  - eexists. split; reflexivity.
  - reflexivity.
  - intros H. inversion H.
Qed.

Lemma C6_steps_or_timesteps_witness :
  let a0 := Examples.cm_args None None None None 1 in
  let a2 := Examples.cm_args (Some 1) (Some [22; 0]) None None 1 in
  let w' := snd (CM.__call__ a2 StandIn.world0) in
  (exists w0,
     CM.__call__ a0 StandIn.world0 = (Raise ValueError, w0) /\
     env w0 = env StandIn.world0 /\ log w0 = log StandIn.world0) /\
  (exists pre e e' labels sample tr sample',
     forallb (only [KRandn; KRandint]) pre = true /\
     sched_set_timesteps None (Some [22; 0]) e = (Ok tt, e') /\
     log w' = log StandIn.world0
                ++ [EvWarning "timesteps will be used over num_inference_steps"]
                ++ pre
                ++ [EvSetTimesteps None (Some [22; 0]);
                    EvProgressBar (Some (Py.len (sched_timesteps e')))]
                ++ tr /\
     cm_loop_trace labels (CM.generator a2) (CM.callback a2) (CM.callback_steps a2)
       (Py.enumerate (sched_timesteps e')) sample tr sample').
Proof.
  intros a0 a2 w'. split.
  - apply (C6_steps_or_timesteps a0 StandIn.world0); reflexivity.
  - apply (proj2 (proj2 (C6_steps_or_timesteps a2 StandIn.world0)) 1 [22; 0]
             (Examples.cm_output (StandIn.zeros [1; 1; 2; 2] float32))
             w' eq_refl eq_refl).
    apply (run_eta (CM.__call__ a2 StandIn.world0)). reflexivity.
Defined.

Lemma C7_prompt_xor_prompt_embeds_witness :
  let a := Examples.sd_args (Some (PStr "a")) (Some (Examples.ones [1; 1; 1] float32))
             (Examples.ones [1; 3; 1; 1] float32)
             (Py.float_of_dyadic 1 (-1)) 4 (Py.float_of_dyadic 15 (-1)) 1 in
  (SD.prompt a <> None /\ SD.prompt_embeds a <> None) /\
  exists w',
    SD.__call__ a StandIn.world0 = (Raise ValueError, w') /\
    env w' = env StandIn.world0 /\ log w' = log StandIn.world0.
Proof.
  intros a.
  assert (H : SD.prompt a <> None /\ SD.prompt_embeds a <> None)
    by (split; discriminate).
  split; [exact H|].
  apply (C7_prompt_xor_prompt_embeds a StandIn.world0). left. exact H.
Defined.

Lemma C10_supplied_latents_are_always_rejected_witness :
  let l := Examples.ones [1; 3; 2; 2] float32 in
  let a := Examples.cm_args (Some 1) None (Some l) None 1 in
  (CM.latents a = Some l /\
   shape l = [CM.batch_size a; 3; cm_sample_size; cm_sample_size]) /\
  CM.check_inputs (CM.num_inference_steps a) (CM.timesteps a) (Some l)
    (CM.batch_size a) cm_sample_size (CM.callback_steps a) StandIn.world0
    = (Raise ValueError, StandIn.world0) /\
  exists w',
    CM.__call__ a StandIn.world0 = (Raise ValueError, w') /\
    env w' = env StandIn.world0 /\ log w' = log StandIn.world0.
Proof.
  intros l a. split; [split; reflexivity|].
  destruct (C10_supplied_latents_are_always_rejected a StandIn.world0) as [H _].
  destruct (H l eq_refl) as [_ [Hc Hr]].
  split; [exact Hc | exact Hr].
Defined.

Lemma run_ok :
  forall {C : Collaborators} {A} (x : result A * @World C),
    is_ok (fst x) = true -> exists o, x = (Ok o, snd x).
Proof.
  intros C A [[o|e] w] H; [|discriminate H]. exists o. reflexivity.
Qed.

Lemma C1_get_timesteps_witness :
  let n := 50 in
  let s := Py.float_of_dyadic 3 (-2) in
  let x := S754_finite false 7036874417766400 (-47) in
  let w := Examples.world_after 50 in
  (0 < n /\ Py.float_of_int n = Ok x /\ Py.valid s = true /\
   Py.le Py.zero s = true /\ Py.le s Py.one = true /\
   0 <= sched_order /\ Py.len (sched_timesteps (env w)) = n * sched_order) /\
  exists v,
    Py.int_of_float (Py.mul x s) = Ok v /\
    SD.get_timesteps n s w
      = (Ok (Py.slice_from (Z.max (n - Z.min v n) 0 * sched_order)
                           (sched_timesteps (env w)),
             n - Z.max (n - Z.min v n) 0), w) /\
    Py.len (Py.slice_from (Z.max (n - Z.min v n) 0 * sched_order)
                          (sched_timesteps (env w)))
      = (n - Z.max (n - Z.min v n) 0) * sched_order.
Proof.
  intros n s x w.
  assert (Hn : 0 < n) by reflexivity.
  assert (Hx : Py.float_of_int n = Ok x) by reflexivity.
  assert (Hv : Py.valid s = true) by reflexivity.
  assert (H0 : Py.le Py.zero s = true) by reflexivity.
  assert (H1 : Py.le s Py.one = true) by reflexivity.
  assert (Ho : 0 <= sched_order) by discriminate.
  assert (Hl : Py.len (sched_timesteps (env w)) = n * sched_order) by reflexivity.
  split; [repeat split; assumption|].
  destruct (@C1_get_timesteps StandIn.collaborators n s x w Hn Hx Hv H0 H1)
    as [v [Ev [_ [_ [Hrun [_ Hlen]]]]]].
  exists v. split; [exact Ev|]. split; [exact Hrun|]. exact (Hlen Ho Hl).
Defined.

(** C1 as stated fails: with 50 steps and strength 0.875 the product is
    43.75; rounding gives 44 steps and start index 6, the code truncates
    and returns 43 steps and the schedule from index 7. *)
Lemma C1_counterexample :
  let n := 50 in
  let s := Py.float_of_dyadic 7 (-3) in
  let w := Examples.world_after 50 in
  Py.valid s = true /\ Py.le Py.zero s = true /\ Py.le s Py.one = true /\
  spec_effective_step_count n s = Ok 44 /\
  spec_start_index n s = Ok 6 /\
  SD.get_timesteps n s w
    = (Ok (Py.slice_from (7 * sched_order) (sched_timesteps (env w)), 43), w) /\
  SD.get_timesteps n s w
    <> (Ok (Py.slice_from (6 * sched_order) (sched_timesteps (env w)), n - 6), w).
Proof.
  intros n s w.
  assert (E : SD.get_timesteps n s w
              = (Ok (Py.slice_from (7 * sched_order) (sched_timesteps (env w)), 43), w))
    by reflexivity.
  repeat split; try reflexivity.
  rewrite E. intros H. injection H as _ H. discriminate H.
Qed.


Lemma C4_callback_schedule_witness :
  let a := Examples.cm_args (Some 1) (Some [22; 0]) None None 2 in
  let run := CM.__call__ a StandIn.world0 in
  let b := Examples.sd_args (Some (PStr "a")) None (Examples.ones [1; 4; 1; 1] float32)
             (Py.float_of_dyadic 1 (-1)) 4 (Py.float_of_dyadic 15 (-1)) 1 in
  let run' := SD.__call__ b StandIn.world0 in
  (is_ok (fst run) = true /\
   exists k e e' d,
     CM.callback_steps a = CSInt k /\ 0 < k /\
     sched_set_timesteps None (Some [22; 0]) e = (Ok tt, e') /\
     log (snd run) = log StandIn.world0 ++ d /\
     callback_indices d
       = filter (fun i => i mod k =? 0) (Py.range (Py.len (sched_timesteps e')))) /\
  (is_ok (fst run') = true /\
   exists k (ts : list (@Timestep StandIn.collaborators)) n' d,
     SD.callback_steps b = CSInt k /\ 0 < k /\
     log (snd run') = log StandIn.world0 ++ d /\
     callback_indices d
       = filter (fun i =>
                   progress_due (Py.len ts) (Py.len ts - n' * sched_order) i
                   && (i mod k =? 0))
                (Py.range (Py.len ts))).
Proof.
  intros a run b run'.
  assert (Hok : is_ok (fst run) = true) by reflexivity.
  assert (Hok' : is_ok (fst run') = true) by reflexivity.
  destruct (run_ok run Hok) as [out E].
  destruct (run_ok run' Hok') as [out' E'].
  destruct (@C4_callback_schedule StandIn.collaborators) as [Hcm Hsd].
  split; split; try assumption.
  - destruct (Hcm a StandIn.world0 Examples.noop out (snd run) eq_refl E)
      as [k [e [e' [d H]]]].
    exists k, e, e', d. exact H.
  - destruct (Hsd b StandIn.world0 Examples.noop out' (snd run') eq_refl E')
      as [k [ts [n' [d [Hk [Hpos [_ [Hlog Hcb]]]]]]]].
    exists k, ts, n', d. repeat split; assumption.
Defined.

(** C4 as stated fails: a consistency call over the timesteps [22, 0]
    with [callback_steps = 2] completes, and the callback was invoked at
    iteration 0 only, not at the last iteration, 1. *)
Lemma C4_counterexample :
  let a := Examples.cm_args None (Some [22; 0]) None None 2 in
  let run := CM.__call__ a StandIn.world0 in
  is_ok (fst run) = true /\
  StandIn.timesteps (env (snd run)) = [22; 0] /\
  callback_indices (log (snd run)) = [0] /\
  ~ In (Py.len [22; 0] - 1) (callback_indices (log (snd run))).
Proof.
  intros a run.
  assert (H : callback_indices (log (snd run)) = [0]) by reflexivity.
  repeat split; try reflexivity.
  rewrite H. simpl. intros [E|[]]. discriminate E.
Qed.

Lemma C5_call_parameters_through_the_phases_witness :
  let a := Examples.cm_args (Some 1) (Some [22; 0]) None None 2 in
  let run := CM.__call__ a StandIn.world0 in
  let b := Examples.sd_args (Some (PStr "a")) None (Examples.ones [1; 4; 1; 1] float32)
             (Py.float_of_dyadic 1 (-1)) 4 (Py.float_of_dyadic 15 (-1)) 1 in
  let run' := SD.__call__ b StandIn.world0 in
  (exists d, log (snd run) = log StandIn.world0 ++ d /\ Forall (cm_event_ok a) d) /\
  (is_ok (fst run) = true /\
   exists d3 d5 e e' tr,
     sched_set_timesteps None (Some [22; 0]) e = (Ok tt, e') /\
     log (snd run)
       = log StandIn.world0
           ++ [EvWarning "timesteps will be used over num_inference_steps"]
           ++ d3 ++ d5
           ++ [EvSetTimesteps None (Some [22; 0]);
               EvProgressBar (Some (Py.len (sched_timesteps e')))]
           ++ tr) /\
  (exists d, log (snd run') = log StandIn.world0 ++ d /\ Forall (sd_event_ok b) d) /\
  (is_ok (fst run') = true /\
   exists (ts : list (@Timestep StandIn.collaborators)) n' d5 d12 tr post,
     SD.get_timesteps 4 (SD.strength b) (snd run') = (Ok (ts, n'), snd run') /\
     n' = 2 /\
     log (snd run')
       = log StandIn.world0 ++ d5 ++ [EvPreprocess; EvSetTimesteps (Some 4) None]
           ++ d12 ++ [EvProgressBar (Some n')] ++ tr ++ post).
Proof.
  intros a run b run'.
  assert (Hok : is_ok (fst run) = true) by reflexivity.
  assert (Hok' : is_ok (fst run') = true) by reflexivity.
  destruct (run_ok run Hok) as [out E].
  destruct (run_ok run' Hok') as [out' E'].
  destruct (@C5_call_parameters_through_the_phases StandIn.collaborators)
    as [Hcm [Hcm' [Hsd Hsd']]].
  split; [|split; [|split]].
  - apply (Hcm a StandIn.world0 (fst run) (snd run)). apply surjective_pairing.
  - split; [exact Hok|].
    destruct (Hcm' a StandIn.world0 out (snd run) E)
      as [d3 [d5 [e [e' [labels [sample [tr [sample' [image H]]]]]]]]].
    destruct H as [_ [_ [Hset [_ [_ [_ Hlog]]]]]].
    exists d3, d5, e, e', tr. split; [exact Hset | exact Hlog].
  - apply (Hsd b StandIn.world0 (fst run') (snd run')). apply surjective_pairing.
  - split; [exact Hok'|].
    destruct (Hsd' b StandIn.world0 out' (snd run') E')
      as [bs [pe [d5 [im [e [e' [ts [n' [latents0 [d12 [tr [latents'
         [img [nsfw [evs [flags [img' H]]]]]]]]]]]]]]]]].
    destruct H as [_ [_ [_ [Hset [Hts [_ [_ [_ [_ [_ [_ Hlog]]]]]]]]]]].
    pose proof (Hts (@Build_World StandIn.collaborators e' [] []) eq_refl) as Hrun.
    cbn in Hset. injection Hset as <-.
    vm_compute in Hrun. injection Hrun as Ets En.
    exists ts, n', d5, d12, tr, (evs ++ [EvPostprocess (SD.output_type b)]).
    split; [rewrite <- Ets, <- En; reflexivity|].
    split; [symmetry; exact En | exact Hlog].
Defined.

(** C5 as stated fails: called with 4 steps and strength 0.5, image2image
    configures the scheduler with 4 steps and opens the progress bar of
    its loop with [total = 2], the [num_inference_steps] that
    [get_timesteps] returned; called with [num_inference_steps = 1] and
    the timesteps [22, 0], the consistency pipeline opens the progress bar
    of its loop with [total = 2] and runs two iterations. *)
Lemma C5_counterexample :
  let b := Examples.sd_args (Some (PStr "a")) None (Examples.ones [1; 4; 1; 1] float32)
             (Py.float_of_dyadic 1 (-1)) 4 (Py.float_of_dyadic 15 (-1)) 1 in
  let a := Examples.cm_args (Some 1) (Some [22; 0]) None None 2 in
  let run := SD.__call__ b StandIn.world0 in
  let run' := CM.__call__ a StandIn.world0 in
  SD.num_inference_steps b = 4 /\
  is_ok (fst run) = true /\
  filter (only [KSetTimesteps; KProgressBar]) (log (snd run))
    = [EvSetTimesteps (Some 4) None; EvProgressBar (Some 2)] /\
  SD.get_timesteps 4 (SD.strength b) (snd run) = (Ok ([1; 0], 2), snd run) /\
  scheduler_steps (log (snd run)) = [1; 0] /\
  CM.num_inference_steps a = Some 1 /\
  is_ok (fst run') = true /\
  filter (only [KSetTimesteps; KProgressBar]) (log (snd run'))
    = [EvSetTimesteps None (Some [22; 0]); EvProgressBar (Some 2)] /\
  scheduler_steps (log (snd run')) = [22; 0].
Proof. intros b a run run'. repeat split; reflexivity. Qed.

(** The stand-in framework obeys the two laws the replication statement
    relies on: [concat] adds the batch dimensions up, and the scheduler's
    [add_noise] keeps the shape. *)
Lemma standin_batch_sum :
  forall (x : StandIn.tensor) (k : nat),
    fold_right (fun y acc => StandIn.batch y + acc) 0 (repeat x k)
      = Z.of_nat k * StandIn.batch x.
Proof.
  intros x k. induction k as [|k IH].
  - reflexivity.
  - cbn [repeat fold_right]. rewrite IH. lia.
Qed.

Lemma standin_concat_batch :
  forall (x : StandIn.tensor) (k : nat) (m : Z),
    Py.index (StandIn.sh x) 0 = Ok m ->
    Py.index (StandIn.sh (StandIn.t_concat (repeat x k))) 0 = Ok (Z.of_nat k * m).
Proof.
  intros x k m H.
  assert (Hb : StandIn.batch x = m).
  { unfold StandIn.batch. destruct (StandIn.sh x) as [|h t].
    - discriminate H.
    - injection H as <-. reflexivity. }
  destruct k as [|k].
  - reflexivity.
  - change (repeat x (S k)) with (x :: repeat x k).
    unfold StandIn.t_concat. cbn [StandIn.sh].
    change (x :: repeat x k) with (repeat x (S k)).
    rewrite standin_batch_sum, Hb. reflexivity.
Qed.

Lemma standin_add_noise_shape :
  forall (x noise : StandIn.tensor) (t : list Z) (e : StandIn.state)
         (y : StandIn.tensor) (e' : StandIn.state),
    StandIn.pure (StandIn.zip_with Z.add x noise) e = (Ok y, e') ->
    StandIn.sh y = StandIn.sh x.
Proof.
  intros x noise t e y e' H. unfold StandIn.pure in H.
  injection H as <- _. reflexivity.
Qed.

Lemma C8_replication_needs_an_exact_multiple_witness :
  let one_image := Examples.ones [1; 4; 1; 1] float32 in
  let two_images := Examples.ones [2; 4; 1; 1] float32 in
  let no_image := Examples.ones [0; 4; 1; 1] float32 in
  let run := SD.prepare_latents (SD.ImTensor one_image) [3] 1 3 float32 None
               StandIn.world0 in
  (Py.index (StandIn.sh one_image) 0 = Ok 1 /\ 0 < 1 /\ 1 < 1 * 3 /\ (1 * 3) mod 1 = 0 /\
   Py.index (StandIn.sh two_images) 0 = Ok 2 /\ 0 < 2 /\ 2 < 1 * 3 /\ (1 * 3) mod 2 <> 0 /\
   Py.index (StandIn.sh no_image) 0 = Ok 0 /\ 0 < 1 * 3) /\
  SD.expand_init_latents (1 * 3) one_image StandIn.world0
    = (Ok (StandIn.t_concat (repeat one_image 3)),
       log_more StandIn.world0 expand_warning) /\
  is_ok (fst run) = true /\
  (forall y, fst run = Ok y -> Py.index (StandIn.sh y) 0 = Ok (1 * 3)) /\
  SD.prepare_latents (SD.ImTensor two_images) [3] 1 3 float32 None StandIn.world0
    = (Raise ValueError, StandIn.world0) /\
  SD.prepare_latents (SD.ImTensor no_image) [3] 1 3 float32 None StandIn.world0
    = (Raise ZeroDivisionError, StandIn.world0).
Proof.
  intros one_image two_images no_image run.
  assert (H1 : Py.index (StandIn.sh one_image) 0 = Ok 1) by reflexivity.
  assert (H2 : Py.index (StandIn.sh two_images) 0 = Ok 2) by reflexivity.
  assert (H0 : Py.index (StandIn.sh no_image) 0 = Ok 0) by reflexivity.
  assert (M1 : (1 * 3) mod 1 = 0) by reflexivity.
  assert (M2 : (1 * 3) mod 2 <> 0) by discriminate.
  assert (P0 : 0 <= 0) by discriminate.
  assert (P1 : 0 <= 1) by discriminate.
  assert (P2 : 0 <= 2) by discriminate.
  split; [repeat split; solve [assumption | reflexivity]|].
  destruct (@C8_replication_needs_an_exact_multiple StandIn.collaborators
              one_image [3] 1 3 float32 None StandIn.world0 StandIn.world0
              one_image 1 eq_refl H1 P1 eq_refl
              standin_concat_batch standin_add_noise_shape)
    as [Hgood _].
  destruct (Hgood eq_refl M1) as [Hx [_ Hrun]].
  destruct (@C8_replication_needs_an_exact_multiple StandIn.collaborators
              two_images [3] 1 3 float32 None StandIn.world0 StandIn.world0
              two_images 2 eq_refl H2 P2 eq_refl
              standin_concat_batch standin_add_noise_shape)
    as [_ [Hbad _]].
  destruct (@C8_replication_needs_an_exact_multiple StandIn.collaborators
              no_image [3] 1 3 float32 None StandIn.world0 StandIn.world0
              no_image 0 eq_refl H0 P0 eq_refl
              standin_concat_batch standin_add_noise_shape)
    as [_ [_ Hzero]].
  split; [exact Hx|]. split; [reflexivity|]. split; [|split].
  - intros y Hy.
    destruct (Hrun (fst run) (snd run) (surjective_pairing run)) as [_ Hb].
    exact (Hb y Hy).
  - destruct (Hbad eq_refl M2) as [_ Hraise]. exact Hraise.
  - destruct (Hzero eq_refl) as [_ Hraise]. exact Hraise.
Defined.

(** C8 as stated fails: for an empty batch of latent-shaped images (shape
    [(0, 4, 1, 1)]) and the effective batch size [1 * 3], which exceeds the
    number of source latents, 0, and is no multiple of it, latent
    preparation ends in [batch_size % init_latents.shape[0]] with a
    [ZeroDivisionError], not with a [ValueError]. *)
Lemma C8_counterexample :
  let no_image := Examples.ones [0; 4; 1; 1] float32 in
  let run := SD.prepare_latents (SD.ImTensor no_image) [3] 1 3 float32 None
               StandIn.world0 in
  SD.encode_image (cast no_image float32) (1 * 3) None StandIn.world0
    = (Ok no_image, StandIn.world0) /\
  Py.index (shape no_image) 0 = Ok 0 /\
  0 < 1 * 3 /\
  (forall k, 1 * 3 <> k * 0) /\
  run = (Raise ZeroDivisionError, StandIn.world0) /\
  fst run <> Raise ValueError.
Proof.
  intros no_image run.
  assert (E : run = (Raise ZeroDivisionError, StandIn.world0)) by reflexivity.
  split; [reflexivity|]. split; [reflexivity|]. split; [reflexivity|].
  split; [intros k; lia|]. split; [exact E|].
  rewrite E. discriminate.
Qed.

(** C9, at the failing input.  Image2image latent preparation for one
    latent-shaped image (shape [(1, 4, 1, 1)]), effective batch size
    [1 * 1], called with a list of two generators: the length of the list
    differs from the batch size, yet the call returns latents, having drawn
    the noise tensor and added it; no [ValueError] is raised.  The same
    list makes the consistency [prepare_latents] raise, and the image2image
    one too for an image of three channels. *)
Theorem C9_generator_list_unchecked_for_latent_image :
  let latent_image := Examples.ones [1; 4; 1; 1] float32 in
  let rgb_image := Examples.ones [1; 3; 1; 1] float32 in
  let gl := [7; 8] in
  let run := SD.prepare_latents (SD.ImTensor latent_image) [3] 1 1 float32
               (Examples.generators gl) StandIn.world0 in
  Py.len gl <> 1 * 1 /\
  is_ok (fst run) = true /\
  map kind (log (snd run)) = [KRandn; KAddNoise] /\
  SD.prepare_latents (SD.ImTensor rgb_image) [3] 1 1 float32
    (Examples.generators gl) StandIn.world0 = (Raise ValueError, StandIn.world0) /\
  CM.prepare_latents 1 1 2 2 float32 (Examples.generators gl) None StandIn.world0
    = (Raise ValueError, StandIn.world0).
Proof.
  intros latent_image rgb_image gl run.
  split; [discriminate|]. repeat split; reflexivity.
Qed.

Lemma cm_output_type_is_checked_after_the_loop_witness :
  let a := MoreExamples.cm_args_output 2 "jpeg" in
  let good := CM.__call__ (cm_with_output_type a "pd") StandIn.world0 in
  cm_supported_output_type (CM.output_type a) = false /\
  is_ok (fst good) = true /\
  is_ok (fst (CM.__call__ a StandIn.world0)) = false /\
  exists w'',
    CM.__call__ a StandIn.world0 = (Raise ValueError, w'') /\
    env w'' = env (snd good) /\ log w'' = log (snd good).
Proof.
  intros a good.
  assert (Hu : cm_supported_output_type (CM.output_type a) = false) by reflexivity.
  assert (Hok : is_ok (fst good) = true) by reflexivity.
  destruct (run_ok good Hok) as [out E].
  destruct (@cm_output_type_is_checked_after_the_loop StandIn.collaborators a
              StandIn.world0 Hu) as [Hnever Hsame].
  split; [exact Hu|]. split; [exact Hok|]. split.
  - apply (Hnever (fst (CM.__call__ a StandIn.world0)) (snd (CM.__call__ a StandIn.world0))).
    apply surjective_pairing.
  - exact (Hsame "pd"%string out (snd good) E).
Defined.

Lemma callback_steps_is_validated_without_a_callback_witness :
  let a := MoreInvocations.cm_call (Some 2) None (CSInt 0) in
  let b := MoreInvocations.sd_call (Some (PStr "a")) None MoreInvocations.latent_image
             MoreInvocations.strength_0_5 4 MoreInvocations.guidance_7_5 "pd" CSNone in
  (~ valid_callback_steps (CM.callback_steps a) /\
   exists w',
     CM.__call__ a StandIn.world0 = (Raise ValueError, w') /\
     env w' = env StandIn.world0 /\
     log w' = log StandIn.world0
                ++ cm_warning (CM.num_inference_steps a) (CM.timesteps a)) /\
  (~ valid_callback_steps (SD.callback_steps b) /\
   exists w',
     SD.__call__ b StandIn.world0 = (Raise ValueError, w') /\
     env w' = env StandIn.world0 /\ log w' = log StandIn.world0).
Proof.
  intros a b.
  assert (Ha : ~ valid_callback_steps (CM.callback_steps a)).
  { intros [k [E Hk]]. injection E as <-. lia. }
  assert (Hb : ~ valid_callback_steps (SD.callback_steps b)).
  { intros [k [E Hk]]. discriminate E. }
  destruct (@callback_steps_is_validated_without_a_callback StandIn.collaborators)
    as [Hcm Hsd].
  split; (split; [assumption|]).
  - exact (Hcm a StandIn.world0 Ha).
  - exact (Hsd b StandIn.world0 Hb).
Defined.

Lemma sd_nan_strength_passes_validation_and_fails_later_witness :
  let a := MoreInvocations.sd_call (Some (PStr "a")) None MoreInvocations.latent_image
             S754_nan 4 MoreInvocations.guidance_7_5 "pd" (CSInt 1) in
  let run := SD.__call__ a StandIn.world0 in
  SD.strength a = S754_nan /\
  SD.check_inputs (SD.prompt a) (SD.strength a) (SD.callback_steps a)
    (SD.negative_prompt a) (SD.prompt_embeds a) (SD.negative_prompt_embeds a)
    StandIn.world0 = (Ok tt, StandIn.world0) /\
  map kind (log (snd run)) = [KTextEncoder; KTextEncoder; KPreprocess; KSetTimesteps] /\
  fst run = Raise ValueError /\
  is_ok (fst run) = false.
Proof.
  intros a run.
  assert (Hs : SD.strength a = S754_nan) by reflexivity.
  destruct (@sd_nan_strength_passes_validation_and_fails_later StandIn.collaborators
              a StandIn.world0 Hs) as [_ [_ Hnever]].
  split; [exact Hs|]. split; [reflexivity|]. split; [reflexivity|].
  split; [reflexivity|].
  apply (Hnever (fst run) (snd run)). apply surjective_pairing.
Defined.

Lemma cm_one_model_call_per_timestep_witness :
  let a := MoreInvocations.cm_call (Some 3) None (CSInt 1) in
  let run := CM.__call__ a StandIn.world0 in
  is_ok (fst run) = true /\
  map fst (unet_calls (log (snd run))) = [2; 1; 0] /\
  exists e e' d,
    sched_set_timesteps (cm_steps_argument a) (CM.timesteps a) e = (Ok tt, e') /\
    log (snd run) = log StandIn.world0 ++ d /\
    count_kind KSetTimesteps d = 1 /\
    map fst (unet_calls d) = sched_timesteps e' /\
    scheduler_steps d = sched_timesteps e' /\
    count_kind KProgressUpdate d = Py.len (sched_timesteps e') /\
    progress_totals d
      = [match CM.timesteps a with
         | Some _ => Some (count_kind KProgressUpdate d)
         | None => CM.num_inference_steps a
         end].
Proof.
  intros a run.
  assert (Hok : is_ok (fst run) = true) by reflexivity.
  destruct (run_ok run Hok) as [out E].
  split; [exact Hok|]. split; [reflexivity|].
  exact (@cm_one_model_call_per_timestep StandIn.collaborators a StandIn.world0 out
           (snd run) E).
Defined.

Lemma cm_class_labels_reach_every_model_call_witness :
  let a := EquippedExamples.cm_args 2 (@CM.CLNone StandIn.equipped) 3 in
  let run := @CM.__call__ StandIn.equipped a StandIn.equipped_world0 in
  let b := MoreInvocations.cm_call (Some 3) None (CSInt 1) in
  let run' := CM.__call__ b StandIn.world0 in
  (is_ok (fst run) = true /\
   map kind (log (snd run))
     = [KRandn; KRandint; KSetTimesteps; KProgressBar;
        KScaleModelInput; KUnet; KSchedulerStep; KProgressUpdate;
        KScaleModelInput; KUnet; KSchedulerStep; KProgressUpdate;
        KScaleModelInput; KUnet; KSchedulerStep; KProgressUpdate] /\
   exists (labels : option (@Tensor StandIn.equipped))
          (d : list (@Event StandIn.equipped)),
     @cm_labels_of StandIn.equipped a labels /\
     log (snd run) = log StandIn.equipped_world0 ++ d /\
     Forall (fun c => snd c = labels) (unet_calls d) /\
     Py.len (unet_calls d) = count_kind KUnet d /\
     count_kind KRandint d = 1) /\
  (is_ok (fst run') = true /\
   map snd (unet_calls (log (snd run'))) = [None; None; None] /\
   exists labels d,
     cm_labels_of b labels /\
     log (snd run') = log StandIn.world0 ++ d /\
     Forall (fun c => snd c = labels) (unet_calls d) /\
     Py.len (unet_calls d) = count_kind KUnet d /\
     count_kind KRandint d = 0).
Proof.
  intros a run b run'.
  assert (Hok : is_ok (fst run) = true) by reflexivity.
  assert (Hok' : is_ok (fst run') = true) by reflexivity.
  destruct (run_ok run Hok) as [out E].
  destruct (run_ok run' Hok') as [out' E'].
  split.
  - split; [exact Hok|]. split; [reflexivity|].
    exact (@cm_class_labels_reach_every_model_call StandIn.equipped a
             StandIn.equipped_world0 out (snd run) E).
  - split; [exact Hok'|]. split; [reflexivity|].
    exact (@cm_class_labels_reach_every_model_call StandIn.collaborators b
             StandIn.world0 out' (snd run') E').
Defined.

Lemma sd_decoding_and_safety_check_witness :
  let a := EquippedExamples.sd_args (PStr "a") MoreInvocations.latent_image
             MoreInvocations.strength_0_5 4 MoreInvocations.guidance_7_5 "pd" in
  let run := @SD.__call__ StandIn.equipped a StandIn.equipped_world0 in
  let b := MoreInvocations.sd_call (Some (PStr "a")) None MoreInvocations.latent_image
             MoreInvocations.strength_0_5 4 MoreInvocations.guidance_7_5 "latent"
             (CSInt 1) in
  let run' := SD.__call__ b StandIn.world0 in
  (is_ok (fst run) = true /\
   postprocess_calls (log (snd run)) = ["pil"; "pd"]%string /\
   forall out,
     fst run = Ok out ->
     exists (d : list (@Event StandIn.equipped)) img flags,
       log (snd run)
         = log StandIn.equipped_world0 ++ d ++ [EvPostprocess (SD.output_type a)] /\
       postprocess_calls d = ["pil"%string] /\
       count_kind KVaeDecode d = 1 /\
       count_kind KSafetyChecker d = 1 /\
       (sd_nsfw out = None <-> false = true) /\
       sd_denormalize img (sd_nsfw out) flags /\
       returned (image_processor_postprocess img (SD.output_type a) flags)
                (sd_images out)) /\
  (is_ok (fst run') = true /\
   postprocess_calls (log (snd run')) = ["latent"%string] /\
   forall out,
     fst run' = Ok out ->
     exists d img flags,
       log (snd run') = log StandIn.world0 ++ d ++ [EvPostprocess (SD.output_type b)] /\
       postprocess_calls d = [] /\
       count_kind KVaeDecode d = 0 /\
       count_kind KSafetyChecker d = 0 /\
       (sd_nsfw out = None <-> true = true) /\
       sd_denormalize img (sd_nsfw out) flags /\
       returned (image_processor_postprocess img (SD.output_type b) flags)
                (sd_images out)).
Proof.
  intros a run b run'.
  split.
  - split; [reflexivity|]. split; [reflexivity|].
    intros out E.
    exact (@sd_decoding_and_safety_check StandIn.equipped a StandIn.equipped_world0 out
             (snd run) (run_eta run E)).
  - split; [reflexivity|]. split; [reflexivity|].
    intros out E.
    exact (@sd_decoding_and_safety_check StandIn.collaborators b StandIn.world0 out
             (snd run') (run_eta run' E)).
Defined.

Lemma sd_one_model_call_per_timestep_witness :
  let a := MoreInvocations.sd_call (Some (PStr "a")) None MoreInvocations.latent_image
             MoreInvocations.strength_0_5 4 MoreInvocations.guidance_7_5 "pd"
             (CSInt 1) in
  let run := SD.__call__ a StandIn.world0 in
  is_ok (fst run) = true /\
  map fst (unet_calls (log (snd run))) = [1; 0] /\
  exists e e' ts n' pe d,
    sched_set_timesteps (Some (SD.num_inference_steps a)) None e = (Ok tt, e') /\
    (forall wa : World,
       env wa = e' ->
       SD.get_timesteps (SD.num_inference_steps a) (SD.strength a) wa
         = (Ok (ts, n'), wa)) /\
    (exists wa wb,
       SD._encode_prompt (SD.prompt a) (SD.num_images_per_prompt a)
         (Py.gt (SD.guidance_scale a) Py.one) (SD.negative_prompt a)
         (SD.prompt_embeds a) (SD.negative_prompt_embeds a) (sd_lora_scale a) wa
         = (Ok pe, wb)) /\
    log (snd run) = log StandIn.world0 ++ d /\
    unet_calls d = map (fun t => (t, Some pe)) ts /\
    scheduler_steps d = ts /\
    progress_totals d = [Some n'] /\
    count_kind KProgressUpdate d
      = Py.len (filter (progress_due (Py.len ts) (Py.len ts - n' * sched_order))
                       (Py.range (Py.len ts))).
Proof.
  intros a run.
  assert (Hok : is_ok (fst run) = true) by reflexivity.
  destruct (run_ok run Hok) as [out E].
  split; [exact Hok|]. split; [reflexivity|].
  exact (@sd_one_model_call_per_timestep StandIn.collaborators a StandIn.world0 out
           (snd run) E).
Defined.

Lemma standin_schedule_length :
  forall (n : Z) (e e' : StandIn.state),
    0 <= n ->
    StandIn.set_timesteps (Some n) None e = (Ok tt, e') ->
    Py.len (StandIn.timesteps e') = n * 1.
Proof.
  intros n e e' Hn H. unfold StandIn.set_timesteps in H. injection H as <-.
  cbn [StandIn.timesteps]. unfold Py.len, Py.range.
  rewrite length_rev, length_map, length_seq. lia.
Qed.

Lemma sd_progress_bar_is_completed_witness :
  let a := MoreInvocations.sd_call (Some (PStr "a")) None MoreInvocations.latent_image
             MoreInvocations.strength_0_5 4 MoreInvocations.guidance_7_5 "pd"
             (CSInt 1) in
  let run := SD.__call__ a StandIn.world0 in
  (0 < SD.num_inference_steps a /\ Py.valid (SD.strength a) = true /\
   1 <= sched_order /\ is_ok (fst run) = true) /\
  count_kind KProgressUpdate (log (snd run)) = 2 /\
  exists n' d,
    0 <= n' <= SD.num_inference_steps a /\
    log (snd run) = log StandIn.world0 ++ d /\
    progress_totals d = [Some n'] /\
    count_kind KProgressUpdate d = n' /\
    count_kind KUnet d = n' * sched_order.
Proof.
  intros a run.
  assert (Hn : 0 < SD.num_inference_steps a) by reflexivity.
  assert (Hv : Py.valid (SD.strength a) = true) by reflexivity.
  assert (Ho : 1 <= sched_order) by discriminate.
  assert (Hok : is_ok (fst run) = true) by reflexivity.
  destruct (run_ok run Hok) as [out E].
  split; [repeat split; assumption|]. split; [reflexivity|].
  refine (@sd_progress_bar_is_completed StandIn.collaborators a StandIn.world0 out
            (snd run) Hn Hv Ho _ E).
  intros e e' H. apply (@standin_schedule_length 4 e e'); [lia | exact H].
Defined.

Lemma sd_text_encoder_is_called_for_missing_embeddings_only_witness :
  let pe := Examples.ones [1; 1; 1] float32 in
  let long := PStr "a photograph of an astronaut" in
  let run := SD._encode_prompt None 1 true None (Some pe) None None StandIn.world0 in
  let run' := SD._encode_prompt None 1 true None (Some pe) (Some pe) None
                StandIn.world0 in
  let run'' := SD._encode_prompt (Some long) 1 true None None None None
                 StandIn.world0 in
  is_ok (fst run) = true /\
  is_ok (fst run') = true /\
  is_ok (fst run'') = true /\
  log (snd run') = log StandIn.world0 /\
  map kind (log (snd run'')) = [KWarning; KTextEncoder; KTextEncoder] /\
  (exists d,
     log (snd run) = log StandIn.world0 ++ d /\
     forallb (only [KWarning; KTextEncoder]) d = true /\
     count_kind KTextEncoder d <= 1 /\
     (is_ok (fst run) = true -> count_kind KTextEncoder d = 1) /\
     count_kind KWarning d <= 0 /\
     (is_ok (fst run) = true -> count_kind KWarning d = 0) /\
     (Some pe <> None -> (true = false \/ @None StandIn.tensor <> None) -> d = [])) /\
  (exists d,
     log (snd run'') = log StandIn.world0 ++ d /\
     forallb (only [KWarning; KTextEncoder]) d = true /\
     count_kind KTextEncoder d <= 2 /\
     (is_ok (fst run'') = true -> count_kind KTextEncoder d = 2) /\
     count_kind KWarning d <= 1 /\
     (is_ok (fst run'') = true -> count_kind KWarning d = 1) /\
     (@None StandIn.tensor <> None ->
      (true = false \/ @None StandIn.tensor <> None) -> d = [])).
Proof.
  intros pe long run run' run''.
  split; [reflexivity|]. split; [reflexivity|]. split; [reflexivity|].
  split; [reflexivity|]. split; [reflexivity|]. split.
  - exact (@sd_text_encoder_is_called_for_missing_embeddings_only StandIn.collaborators
             None 1 true None (Some pe) None None StandIn.world0 (fst run) (snd run)
             (surjective_pairing run)).
  - exact (@sd_text_encoder_is_called_for_missing_embeddings_only StandIn.collaborators
             (Some long) 1 true None None None None StandIn.world0 (fst run'')
             (snd run'') (surjective_pairing run'')).
Defined.


Lemma sd_negative_prompt_is_checked_after_the_prompt_is_encoded_witness :
  let pr := PList ["a"; "b"]%string in
  let long := PList ["a photograph of an astronaut"; "b"]%string in
  let np0 := PStr "c" in
  let np1 := PList ["c"]%string in
  let run := SD._encode_prompt (Some pr) 1 true (Some np0) None None None
               StandIn.world0 in
  let run' := SD._encode_prompt (Some long) 1 true (Some np1) None None None
                StandIn.world0 in
  (pr <> POther /\ long <> POther /\ SD.same_type pr np0 = false /\
   Py.len ["a photograph of an astronaut"; "b"]%string <> Py.len ["c"]%string) /\
  (log (snd run) = log StandIn.world0 ++ [EvTextEncoder pr] /\
   fst run = Raise TypeError) /\
  (log (snd run')
     = log StandIn.world0
         ++ [EvWarning "The following part of your input was truncated";
             EvTextEncoder long] /\
   fst run' = Raise ValueError).
Proof.
  intros pr long np0 np1 run run'.
  assert (Hpr : pr <> POther) by discriminate.
  assert (Hlong : long <> POther) by discriminate.
  assert (Ht : SD.same_type pr np0 = false) by reflexivity.
  assert (Hl : Py.len ["a photograph of an astronaut"; "b"]%string
               <> Py.len ["c"]%string) by discriminate.
  split; [repeat split; assumption|].
  pose proof (@sd_negative_prompt_is_checked_after_the_prompt_is_encoded
                StandIn.collaborators pr np0 1 None StandIn.world0 (fst run) (snd run)
                Hpr (or_introl Ht) (surjective_pairing run)) as [_ H].
  pose proof (@sd_negative_prompt_is_checked_after_the_prompt_is_encoded
                StandIn.collaborators long np1 1 None StandIn.world0 (fst run')
                (snd run') Hlong
                (or_intror (ex_intro _ ["a photograph of an astronaut"; "b"]%string
                              (ex_intro _ ["c"]%string
                                 (conj eq_refl (conj eq_refl Hl)))))
                (surjective_pairing run')) as [_ H'].
  cbn [tokenizer_truncates StandIn.collaborators StandIn.too_long pr long existsb
       String.length Nat.ltb Nat.leb orb] in H, H'.
  destruct H as [L R]. destruct H' as [L' R'].
  split; (split; [assumption|]).
  - exact (R _ _ 2 1 1 eq_refl eq_refl).
  - exact (R' _ _ 2 1 1 eq_refl eq_refl).
Defined.

Lemma sd_each_image_is_encoded_with_its_generator_witness :
  let image := Examples.ones [2; 3; 1; 1] float32 in
  let run := SD.encode_image image 2 (Examples.generators [7; 8]) StandIn.world0 in
  (Py.index (StandIn.sh image) 1 = Ok 3 /\ 3 <> 4 /\ is_ok (fst run) = true) /\
  forall init,
    fst run = Ok init ->
    Py.len [7; 8] = 2 /\
    exists outs,
      log (snd run)
        = log StandIn.world0
            ++ map (fun i => EvVaeEncode (slice0 image i (i + 1))) (Py.range 2) /\
      Forall2 (fun i out =>
                 exists g,
                   Py.index [7; 8] i = Ok g /\
                   returned (vae_encode_sample (slice0 image i (i + 1)) (Some (inl g)))
                            out)
              (Py.range 2) outs /\
      init = smul vae_scaling_factor (concat outs).
Proof.
  intros image run.
  assert (Hc : Py.index (StandIn.sh image) 1 = Ok 3) by reflexivity.
  assert (Hne : 3 <> 4) by discriminate.
  assert (Hok : is_ok (fst run) = true) by reflexivity.
  split; [repeat split; assumption|].
  intros init E.
  exact (@sd_each_image_is_encoded_with_its_generator StandIn.collaborators image 2
           [7; 8] StandIn.world0 3 init (snd run) Hc Hne (run_eta run E)).
Defined.

Lemma sd_latent_shaped_image_skips_the_vae_witness :
  let image := MoreInvocations.latent_image in
  let run := SD.prepare_latents (SD.ImTensor image) [3] 1 2 float32 None
               StandIn.world0 in
  Py.index (StandIn.sh (cast image float32)) 1 = Ok 4 /\
  is_ok (fst run) = true /\
  exists dl,
    log (snd run) = log StandIn.world0 ++ dl /\
    count_kind KVaeEncode dl = 0 /\
    forall y,
      fst run = Ok y ->
      exists k noise,
        returned (sched_add_noise (concat (repeat (cast image float32) k)) noise [3]) y.
Proof.
  intros image run.
  assert (Hc : Py.index (StandIn.sh (cast image float32)) 1 = Ok 4) by reflexivity.
  split; [exact Hc|]. split; [reflexivity|].
  exact (@sd_latent_shaped_image_skips_the_vae StandIn.collaborators image [3] 1 2
           float32 None StandIn.world0 (fst run) (snd run) Hc (surjective_pairing run)).
Defined.

Lemma sd_surplus_source_latents_are_all_kept_witness :
  let image := Examples.ones [3; 4; 1; 1] float32 in
  let run := SD.prepare_latents (SD.ImTensor image) [3] 1 1 float32 None
               StandIn.world0 in
  (Py.index (StandIn.sh image) 0 = Ok 3 /\ 1 * 1 <= 3 /\ is_ok (fst run) = true) /\
  SD.expand_init_latents (1 * 1) image StandIn.world0
    = (Ok (StandIn.t_concat [image]), StandIn.world0) /\
  forall y, fst run = Ok y -> Py.index (StandIn.sh y) 0 = Ok 3.
Proof.
  intros image run.
  assert (Hn : Py.index (StandIn.sh image) 0 = Ok 3) by reflexivity.
  assert (Hle : 1 * 1 <= 3) by discriminate.
  assert (Hok : is_ok (fst run) = true) by reflexivity.
  split; [repeat split; assumption|].
  destruct (@sd_surplus_source_latents_are_all_kept StandIn.collaborators image [3] 1 1
              float32 None StandIn.world0 StandIn.world0 image 3 eq_refl Hn Hle
              standin_concat_batch standin_add_noise_shape) as [Hx Hrun].
  split; [exact Hx|].
  intros y Hy.
  destruct (Hrun (fst run) (snd run) (surjective_pairing run)) as [_ Hb].
  exact (Hb y Hy).
Defined.

Lemma sd_get_timesteps_at_full_and_zero_strength_witness :
  let w := Examples.world_after 50 in
  0 < 50 < 2 ^ 53 /\
  SD.get_timesteps 50 Py.one w = (Ok (sched_timesteps (env w), 50), w) /\
  SD.get_timesteps 50 Py.zero w = (Ok ([], 0), w).
Proof.
  intros w.
  assert (Hn : 0 < 50 < 2 ^ 53) by (split; reflexivity).
  destruct (@sd_get_timesteps_at_full_and_zero_strength StandIn.collaborators 50 w Hn)
    as [H1 H0].
  split; [exact Hn|]. split; [exact H1|].
  destruct (H0 false) as [Hz Hnil].
  unfold Py.zero. rewrite Hz. rewrite Hnil; [reflexivity | discriminate | discriminate].
Defined.

Lemma sd_zero_strength_calls_no_model_witness :
  let a := MoreInvocations.sd_call (Some (PStr "a")) None MoreInvocations.latent_image
             Py.zero 4 MoreInvocations.guidance_7_5 "pd" (CSInt 1) in
  let run := SD.__call__ a StandIn.world0 in
  (SD.strength a = S754_zero false /\ 0 < SD.num_inference_steps a /\
   0 <= sched_order /\ is_ok (fst run) = true) /\
  map kind (log (snd run))
    = [KTextEncoder; KTextEncoder; KPreprocess; KSetTimesteps; KRandn; KAddNoise;
       KProgressBar; KVaeDecode; KPostprocess] /\
  exists d,
    log (snd run) = log StandIn.world0 ++ d /\
    count_kind KUnet d = 0 /\
    count_kind KSchedulerStep d = 0 /\
    count_kind KProgressUpdate d = 0 /\
    progress_totals d = [Some 0] /\
    (forall x noise ts,
       In (EvAddNoise x noise ts) d -> exists k, ts = tile_timesteps [] k).
Proof.
  intros a run.
  assert (Hs : SD.strength a = S754_zero false) by reflexivity.
  assert (Hn : 0 < SD.num_inference_steps a) by reflexivity.
  assert (Ho : 0 <= sched_order) by discriminate.
  assert (Hok : is_ok (fst run) = true) by reflexivity.
  destruct (run_ok run Hok) as [out E].
  split; [repeat split; assumption|]. split; [reflexivity|].
  refine (@sd_zero_strength_calls_no_model StandIn.collaborators a StandIn.world0 false
            out (snd run) Hs Hn Ho _ E).
  intros e e' H.
  pose proof (@standin_schedule_length 4 e e' ltac:(discriminate) H) as Hl.
  apply Z.eq_le_incl. exact Hl.
Defined.

Lemma preprocess_resizes_to_the_first_size_rounded_down_to_8_witness :
  let image := @DeprecatedHelpers.InPILs StandIn.collaborators ImagingExamples.two_images in
  let run := @DeprecatedHelpers.preprocess StandIn.collaborators ImagingExamples.imaging
               image StandIn.world0 in
  snd run = log_more StandIn.world0 [EvWarning "The preprocess method is deprecated"] /\
  (exists t, fst run = Ok t /\ StandIn.sh t = [2; 3; 16; 8]) /\
  forall t,
    fst run = Ok t ->
    exists arrays,
      Forall2 (fun i a => ImagingExamples.resized i 8 16 = Ok a)
              ImagingExamples.two_images arrays /\
      ImagingExamples.channels_first arrays = Ok t.
Proof.
  intros image run.
  destruct (@preprocess_resizes_to_the_first_size_rounded_down_to_8
              StandIn.collaborators ImagingExamples.imaging image StandIn.world0
              (fst run) (snd run) (surjective_pairing run))
    as [Hw [_ [_ [_ [_ [_ [_ Ht]]]]]]].
  split; [exact Hw|]. split; [eexists; split; reflexivity|]. exact Ht.
Defined.

Lemma standin_components_lawful : @Constructor.lawful ConstructorExamples.components.
Proof.
  constructor; try reflexivity.
  intros c k v H. cbn. unfold ConstructorExamples.config_getattr.
  cbn in H. rewrite H. reflexivity.
Qed.

Lemma init_leaves_no_outdated_setting_witness :
  let run := Constructor.__init__ ConstructorExamples.with_checker
               ConstructorExamples.old_components in
  let d' := Constructor.scheduler (snd run) in
  let u' := Constructor.unet (snd run) in
  (is_ok (fst run) = true /\
   Constructor.warnings (snd run)
     = ["steps_offset!=1"; "clip_sample not set"; "sample_size<64"]%string) /\
  (forall v, Constructor.lookup "steps_offset" d' = Some v -> Constructor.ne_1 v = false) /\
  (forall v, Constructor.lookup "clip_sample" d' = Some v -> Constructor.is_True v = false) /\
  (forall k, k <> "steps_offset"%string -> k <> "clip_sample"%string ->
             Constructor.lookup k d' = Constructor.lookup k ConstructorExamples.old_scheduler) /\
  (forall v x, Constructor.lookup "_diffusers_version" u' = Some v ->
               ConstructorExamples.only_0_8_2_is_older v = Ok true ->
               Constructor.lookup "sample_size" u' = Some x ->
               Constructor.lt_64 x = Ok false) /\
  (forall k, k <> "sample_size"%string ->
             Constructor.lookup k u' = Constructor.lookup k ConstructorExamples.old_unet).
Proof.
  intros run d' u'.
  assert (Hok : is_ok (fst run) = true) by reflexivity.
  destruct (fst run) as [p|e] eqn:E; [|discriminate Hok].
  destruct (@init_leaves_no_outdated_setting ConstructorExamples.components
              standin_components_lawful ConstructorExamples.with_checker
              ConstructorExamples.old_components p (snd run))
    as [H1 [H2 [H3 [_ [H5 [H6 _]]]]]].
  { rewrite <- E. apply surjective_pairing. }
  split; [split; reflexivity|].
  split; [exact H1|]. split; [exact H2|]. split; [exact H3|]. split; [exact H5|exact H6].
Defined.

Lemma init_again_changes_nothing_witness :
  let run := Constructor.__init__ ConstructorExamples.with_checker
               ConstructorExamples.old_components in
  (is_ok (fst run) = true /\
   Constructor.scheduler (snd run) <> ConstructorExamples.old_scheduler /\
   Constructor.unet (snd run) <> ConstructorExamples.old_unet) /\
  exists s'',
    Constructor.__init__ ConstructorExamples.with_checker (snd run) = (fst run, s'') /\
    Constructor.scheduler s'' = Constructor.scheduler (snd run) /\
    Constructor.unet s'' = Constructor.unet (snd run) /\
    Constructor.warnings s'' = Constructor.warnings (snd run) ++ [].
Proof.
  intros run.
  assert (Hok : is_ok (fst run) = true) by reflexivity.
  split; [split; [exact Hok|split; discriminate]|].
  destruct (fst run) as [p|e] eqn:E; [|discriminate Hok].
  refine (@init_again_changes_nothing ConstructorExamples.components
            standin_components_lawful ConstructorExamples.with_checker
            ConstructorExamples.old_components p (snd run) _).
  rewrite <- E. apply surjective_pairing.
Defined.

Lemma init_rejects_a_checker_without_extractor_after_updating_the_scheduler_witness :
  let a := ConstructorExamples.checker_without_extractor in
  let s := ConstructorExamples.old_components in
  (Constructor.safety_checker a = true /\ Constructor.feature_extractor a = false) /\
  exists s',
    Constructor.__init__ a s = (Raise ValueError, s') /\
    Constructor.unet s' = Constructor.unet s /\
    (forall v, Constructor.lookup "steps_offset" (Constructor.scheduler s) = Some v ->
               Constructor.ne_1 v = true ->
               Constructor.lookup "steps_offset" (Constructor.scheduler s') = Some (Constructor.VInt 1) /\
               In "steps_offset!=1"%string (Constructor.warnings s')) /\
    (Constructor.lookup "clip_sample" (Constructor.scheduler s) = Some (Constructor.VBool true) ->
     Constructor.lookup "clip_sample" (Constructor.scheduler s') = Some (Constructor.VBool false) /\
     In "clip_sample not set"%string (Constructor.warnings s')).
Proof.
  intros a s. split; [split; reflexivity|].
  exact (@init_rejects_a_checker_without_extractor_after_updating_the_scheduler
           ConstructorExamples.components standin_components_lawful a s eq_refl eq_refl).
Defined.

Lemma init_raises_TypeError_for_a_unet_without_sample_size_witness :
  let a := ConstructorExamples.with_checker in
  let s := ConstructorExamples.new_components_without_sample_size in
  (Constructor.safety_checker a && negb (Constructor.feature_extractor a) = false /\
   Constructor.lookup "sample_size" (Constructor.unet s) = Some Constructor.VNone /\
   Constructor.lookup "_diffusers_version" (Constructor.unet s)
     = Some (Constructor.VStr "0.21.0") /\
   ConstructorExamples.only_0_8_2_is_older (Constructor.VStr "0.21.0") = Ok false) /\
  exists s',
    Constructor.__init__ a s = (Raise TypeError, s') /\
    Constructor.unet s' = Constructor.unet s.
Proof.
  intros a s. split; [repeat split; reflexivity|].
  refine (@init_raises_TypeError_for_a_unet_without_sample_size
            ConstructorExamples.components standin_components_lawful a s
            eq_refl eq_refl _).
  intros v H. cbn in H. injection H as <-. exists false. reflexivity.
Defined.
